(* ===== verification/_CoqProject ===== *)
-Q . S2P
Prelude.v
ConnectionTable.v
Layout.v
UserMem.v
Kernel.v
Msgsend.v
Channel.v
ProcessEntry.v
DriverData.v
Driver.v
Rendezvous.v
VectorMem.v
VectorSend.v
PulseSend.v
Examples.v
VectorExamples.v
Protocol.v
ProtocolInv.v
ProtocolSafe.v
ProtocolMsg.v
ProtocolReturn.v
ProtocolOpen.v
Interleaving.v
ExampleRun.v
Exchange.v
ExchangeSim.v
ExchangeSteps.v
ExchangeEnds.v
Refinement.v
Proc.v
Lifecycle.v
ProcRun.v
Userspace.v
UserDriver.v
UserExamples.v
