(* ===== verification/Prelude.v ===== *)
(** * qnxcomm: QNX message passing for Linux -- verification library

    qnxcomm is a Linux kernel module (src/kernel) with a C++ library on top of it
    (src/userspace) that gives processes QNX's synchronous message passing.  A
    server creates a _channel_ and receives from it; a client attaches a
    _connection_ (a small integer) to a channel of a server and sends on it.
    MsgSend blocks until the server has received the message and replied to it;
    MsgSendPulse and MsgSendNoReply do not block.  This library models the kernel
    module as functions on an explicit kernel state, the C++ library as functions
    over an interface of system calls, and proves what their operations do, alone,
    interleaved by many threads, and put on top of each other.

    ** The parts of the program and where they are modelled

    - Prelude (this file): machine integers, error numbers, the circular lists of
      <linux/list.h>, the tactics and hints, the generic lemmas.
    - ConnectionTable: kernel/connection_table.c, connection.h.  The table that
      maps connection ids to (process, channel): an array with a capacity, the
      greatest id in use ([max]) and slots that are unwritten, empty or taken.
      [connections] is the finite map that a table stands for; the [_refines]
      theorems show each operation against it, [table_ok] is the invariant.
    - Layout: kernel/qnxcomm_driver.h.  The structures that cross the system call
      boundary as bytes (LP64, little endian, with the padding of the C compiler)
      and the ioctl numbers.  A structure is a [codec]: its size, encoder, decoder.
    - UserMem: the interface [UserMem] of user memory ([copy_from_user],
      [copy_to_user] and the laws they obey), an implementation of it ([flatmem])
      that the examples compute with, and memcpy_fromiovec / memcpy_toiovec of
      kernel/compatibility.h.  All other files are proved against the interface.
    - Kernel: the structures of internal_msgsend.h, channel.h, process_entry.h,
      driver_data.h, qnxcomm_internal.h as records, the heap they live in, the
      monad [K] of driver functions, and the predicate [wp c Q s]: the computation
      [c] started in [s] returns (no oops, no endless loop) and [Q] holds of the
      result and the new state.
    - Msgsend (internal_msgsend.c): constructors and destructors of messages.
    - Channel (channel.c): reference count, queue and counters of a channel.
    - ProcessEntry (process_entry.c) and DriverData (driver_data.c): what a
      process owns, and the list of all processes with its counted look-ups.
    - Driver (qnxcomm_driver.c): the ioctl handlers, open, close and poll.
    - Rendezvous: the calls of a sender and of a receiver put together.
    - VectorMem, VectorSend: MsgSendv and MsgSendNoReplyv (handle_msgsendv,
      handle_msgsend_noreplyv), on every path, and a rendezvous with vectors.
    - PulseSend: MsgSendPulse, and the pulse at its receiver.
    - Examples, VectorExamples: concrete states and, for each theorem of these files
      with a hypothesis, an instance of it at a state where the hypotheses hold.
    - Protocol: the pieces of the calls of several threads as the [action]s of a
      step relation on a [config] (kernel state, calls in progress), [reachable]
      configurations, and the invariant [inv].  ProtocolInv has the rules by which
      [inv] moves; ProtocolSafe, ProtocolMsg, ProtocolReturn and ProtocolOpen show
      that each kind of action keeps it; Interleaving has the consequences and
      ExampleRun a concrete run.
    - Exchange: the abstract specification of message passing, a machine
      ([abs_step]) whose state is the memory of the processes, the last id and the
      exchanges by id, each in one of five phases; [abstract] maps a
      configuration to a state of it (the messages in MsgSend, with their phase
      read off [state], [status] and the MsgReply that has them), and [admits] says
      which events an action may be.  ExchangeSim has the lemmas on [abstract],
      ExchangeSteps and ExchangeEnds the simulation of each action, Refinement
      the theorems and their instances.
    - Proc: kernel/proc.c, proc.h, the text of the files in /proc/qnxcomm; ProcRun
      is that text in the run of ExampleRun.
    - Lifecycle: qnxcomm_init and qnxcomm_cleanup of qnxcomm_driver.c and
      qnx_proc_init of proc.c: what is registered, in which order, and what is
      taken back when a step fails.
    - Userspace: userspace/userspace.cpp, qnxcomm.h over the interface [System]
      (open, close, ioctl, clock, process id) with its laws [SystemLaws].
      UserDriver: the instance of it in which the descriptor belongs to the driver,
      with fork.  UserExamples: instances at concrete states.

    A call goes library function -> ioctl -> qnxcomm_ioctl -> handle_* -> process
    entry / driver data (look up the connection, then the process, then the
    channel) -> channel (queue) -> message.  The connection table is used through
    the process entry only; the library knows the driver through [System] only.

    ** How the C code is represented

    Objects that the driver allocates, and the message on the stack of a blocked
    sender, are records in one heap [ks_heap : gmap ptr kobj]; pointers are shared
    between lists, other objects and stack frames as in the code.  Freeing removes
    the object, so that a use after free, a NULL access or a read past the end is
    an [Oops] of the monad and never a value.  A [list_head] is the list of the
    objects hooked into it; fields that C leaves unwritten read as [ks_garbage].
    [kmalloc] may fail at any call: the answers to come are a list ([ks_oom]).
    A busy loop that waits for another thread is [Spin] when the condition holds.

    Integers are [Z] with each conversion written out ([i32], [u32], [u64]);
    [size_t] is 64 bit.  Reference counts, which kref keeps non-negative, and
    the ids that atomic_inc_return hands out are [Z]; the latter wrap with [i32].

    Spin locks and RCU sections say what is atomic and are not modelled
    otherwise.  A handler that sleeps is cut where it sleeps: MsgSend is
    [handle_msgsend_begin] up to the sleep and [handle_msgsend_finish] from the
    wake-up on, MsgReceive is [_begin], [_dequeue] and [_deliver], MsgReply is
    the removal from [pending] and [handle_msgreply_complete].  The pieces can be
    run by different threads in turn (Rendezvous); run back to back they are the
    handler of the source.  What a sleep returns (time left, signal pending) is an
    argument of the piece that comes after it.

    ** What the theorems show

    - The connection table: every operation refines the operation of a finite map
      on well-formed tables, is total and keeps the invariant; the error cases;
      and what is wrong with the id that is handed out when the array grows.
    - The structures of the interface survive writing and reading; the copies
      with vectors are gather and scatter over the vectors' ranges.
    - Messages, channels, processes: effect on the heap, exactly ([upd_heap] of
      the objects that change, equality for all others), of every operation on
      every branch; the queue's counters; what happens to blocked senders when a
      channel or a process goes away; references are balanced or not.
    - The system calls: for each one the return code of every branch, the bytes
      the caller finds, who is woken, and that errors leave the heap as it was.
    - A whole MsgSend / MsgReceive / MsgReply delivers the message and the reply
      byte for byte and leaves no trace in the kernel.
    - With vectors the same exchange delivers the concatenated bytes and scatters
      the reply; no lengths in a vector make the copies leave it.  A pulse arrives
      with its code and value.
    - Interleavings: in every configuration that can be reached from the loaded
      module no piece oopses or spins; each reference count is the number of the
      holders; a blocked sender's message is in exactly one place; when all
      processes are gone nothing is left; when no thread starts a new call, the
      pieces come to an end; a call run without interruption is its pieces.
    - Refinement: every piece is a run of the abstract machine.  Messages of a
      channel are received in the order of their ids, each is answered once and
      by its own server, the bytes that are read and replied are those of the
      exchange, an exchange never goes back, and a client whose exchange is closed
      is awake and returns with its status and reply.
    - The /proc files list every blocked thread, each channel and each connection.
      Loading and unloading give back what they take, but for the device number.
    - The library on the driver: each function of it runs the handler it names
      with the structure the handler expects; after a fork the child connects
      anew; what a timeout becomes, and which are lost.
    - Several theorems state that something goes wrong, because the code does it:
      an unusable connection id, a counter that runs ahead of the queue, a lost
      message reported as sent, a use after free, a leaked reference.

    ** Bounds and fuel

    - [find_free d i fuel] is started with [capacity - 1] and visits the ids from
      1 to [capacity - 1]; [scan_down] with [coid + 1], one more than the ids below
      [coid], so that it also does the read of [conn[-1]] that the code does;
      [for_each_from] with the number of ids up to [max].  That this is enough is
      part of the theorems: the result is never [None].
    - The loops over lists recurse on the list.
    - [safe_ioctl_loop] has the two rounds of the loop in the code.  The loop
      that closes a descriptor while it is interrupted has [CLOSE_CALLS] = 2
      rounds: a descriptor is gone after the first call, interrupted or not, so
      that a second call is EBADF ([calls_return] proves it enough).
    - A [step] is one piece: reachability needs no fuel, and the end of all pieces
      is shown with a measure on the configuration.
    - [busy_loop_add_new_message] has an answer of signal_pending per round; when
      the answers are used up while the channel is still full, it is [Spin].

    ** What is not modelled

    - The output of printk and pr_debug, and the tests.
    - Preemption inside the pieces described above, and RCU grace periods: a
      process entry or a connection object is freed when its last reference goes.
    - Protocol has no pulses, no-reply or vectored sends and no poll, and no
      interruption while a reply is copied: there the code does not keep the
      invariant ([release_last_queued_pulse], [poll_takes_reference],
      [msgsend_interrupted_during_reply] state what happens instead).  Driver
      models all of them for one call at a time.
    - In UserDriver an ioctl that goes to sleep does not return; MsgReceive and
      MsgSend of the library are run there up to the sleep. *)

From Stdlib Require Import ZArith Lia.
From stdpp Require Import base tactics list gmap fin_maps sets.

Open Scope Z_scope.

(** ** Machine integers

    The C types the driver uses, on the LP64 model: [int]/[pid_t]/[int32_t]
    are 32 bit two's complement, [unsigned]/[uint] 32 bit, [size_t] and
    [unsigned long] 64 bit.  A value is a [Z]; each conversion is written out. *)

Definition i8 (z : Z) : Z := (z + 2 ^ 7) mod 2 ^ 8 - 2 ^ 7.
Definition i16 (z : Z) : Z := (z + 2 ^ 15) mod 2 ^ 16 - 2 ^ 15.
Definition i32 (z : Z) : Z := (z + 2 ^ 31) mod 2 ^ 32 - 2 ^ 31.
Definition u32 (z : Z) : Z := z mod 2 ^ 32.
Definition u64 (z : Z) : Z := z mod 2 ^ 64.
Definition INT_MAX : Z := 2 ^ 31 - 1.
Definition INT_MIN : Z := - 2 ^ 31.
Definition is_int (z : Z) : Prop := INT_MIN <= z <= INT_MAX.

(** ** Error numbers of the Linux ABI that the driver returns *)

Definition ESRCH : Z := 3.
Definition EIO : Z := 5.
Definition EBADF : Z := 9.
Definition ENOMEM : Z := 12.
Definition EFAULT : Z := 14.
Definition EINVAL : Z := 22.
Definition EMFILE : Z := 24.
Definition ENOTTY : Z := 25.
Definition ENOSPC : Z := 28.
Definition ETIMEDOUT : Z := 110.
Definition ERESTARTSYS : Z := 512.

(** ** Allocation answers

    [kmalloc] may fail at any call.  The answers of the coming calls are a list:
    [true] means that the call fails; when the list is used up calls succeed. *)

Definition kmalloc_answer (oom : list bool) : bool * list bool :=
  match oom with
  | [] => (true, [])
  | fails :: rest => (negb fails, rest)
  end.

(** ** Partial operations

    [let? x := e in k] runs [k] on the value of [e]; [None] is a memory access
    outside of what the code may access. *)

Declare Scope qnx_scope.
Delimit Scope qnx_scope with qnx.

Notation "'let?' x ':=' e 'in' k" :=
  (match e with Some x => k | None => None end)
  (at level 200, x pattern, e at level 200, k at level 200,
   format "'[v' 'let?'  x  ':='  e  'in' '/' k ']'") : qnx_scope.

Open Scope qnx_scope.

(** ** Circular lists of <linux/list.h>

    A [list_head] is the list of the objects hooked into it, in the order of
    [next].  [list_del] unlinks the first (in a correct program the only)
    occurrence of an object. *)

Fixpoint list_del {A} `{EqDecision A} (p : A) (l : list A) : list A :=
  match l with
  | [] => []
  | q :: l' => if decide (q = p) then l' else q :: list_del p l'
  end.

Definition list_add {A} (p : A) (l : list A) : list A := p :: l.
Definition list_add_tail {A} (p : A) (l : list A) : list A := l ++ [p].

(** ** Tactics *)

#[global] Arguments Z.gtb : simpl never.

Create HintDb qnx.
Create Rewrite HintDb qnx.

Ltac unfold_int := unfold i8, i16, i32, u32, u64, is_int, INT_MAX, INT_MIN in *.

(** case analysis on the boolean comparison that blocks the goal *)
Ltac case_cmp :=
  match goal with
  | |- context [?x <? ?y] => destruct (Z.ltb_spec x y)
  | |- context [?x <=? ?y] => destruct (Z.leb_spec x y)
  | |- context [?x =? ?y] => destruct (Z.eqb_spec x y)
  | |- context [?x >? ?y] => rewrite (Z.gtb_ltb x y); destruct (Z.ltb_spec y x)
  end.

(** the same in a hypothesis *)
Ltac case_cmp_in H :=
  match type of H with
  | context [?x <? ?y] => destruct (Z.ltb_spec x y)
  | context [?x <=? ?y] => destruct (Z.leb_spec x y)
  | context [?x =? ?y] => destruct (Z.eqb_spec x y)
  end.

(** ** Lemmas on machine integers *)

Lemma i32_id (z : Z) : is_int z -> i32 z = z.
Proof. unfold_int. intros. rewrite Z.mod_small; lia. Qed.

Lemma i32_range (z : Z) : is_int (i32 z).
Proof. unfold_int. pose proof (Z.mod_pos_bound (z + 2 ^ 31) (2 ^ 32)). lia. Qed.

Lemma u64_id (z : Z) : 0 <= z < 2 ^ 64 -> u64 z = z.
Proof. unfold_int. intros. apply Z.mod_small; lia. Qed.

Lemma u64_neg (z : Z) : - 2 ^ 63 <= z < 0 -> 2 ^ 63 <= u64 z.
Proof.
  unfold_int. intros. replace z with (z + 2 ^ 64 + (-1) * 2 ^ 64) by lia.
  rewrite Z.mod_add by lia. rewrite Z.mod_small; lia.
Qed.

Lemma u32_id (z : Z) : 0 <= z < 2 ^ 32 -> u32 z = z.
Proof. unfold_int. intros. apply Z.mod_small; lia. Qed.

(** An [int] compared with a [size_t] below [2^63]: the conversion makes every
    negative value too large, so the test is the mathematical range test. *)
Lemma u64_ltb_range (z b : Z) :
  is_int z -> 0 <= b < 2 ^ 63 -> (u64 z <? b) = bool_decide (0 <= z < b).
Proof.
  intros Hz Hb. destruct (decide (0 <= z)) as [H0|H0].
  - rewrite u64_id by (unfold_int; lia).
    case_cmp; symmetry; [apply bool_decide_eq_true | apply bool_decide_eq_false]; lia.
  - assert (2 ^ 63 <= u64 z) by (apply u64_neg; unfold_int; lia).
    case_cmp; symmetry; [lia | apply bool_decide_eq_false; lia].
Qed.

#[export] Hint Resolve i32_range : qnx.
#[export] Hint Rewrite i32_id u64_id u32_id using (unfold_int; lia) : qnx.

(** ** Lemmas on kernel lists *)

Section ListDel.
Context {A : Type} `{EqDecision A}.
Implicit Types (l : list A) (p q : A).

Lemma list_del_not_in p l : p ∉ l -> list_del p l = l.
Proof.
  induction l as [|q l IH]; [done|]. intros [Hne Hn]%not_elem_of_cons. cbn.
  rewrite decide_False by done. by rewrite IH.
Qed.

Lemma list_del_app p l1 l2 : p ∉ l1 -> list_del p (l1 ++ p :: l2) = l1 ++ l2.
Proof.
  induction l1 as [|q l1 IH]; cbn; intros Hn.
  - by rewrite decide_True.
  - apply not_elem_of_cons in Hn as [Hne Hn]. rewrite decide_False by done. by rewrite IH.
Qed.

Lemma elem_of_list_del p q l : q ∈ list_del p l -> q ∈ l.
Proof.
  induction l as [|r l IH]; cbn; [done|]. case_decide; [by right|].
  rewrite !elem_of_cons. naive_solver.
Qed.

Lemma elem_of_list_del_ne p q l : q ≠ p -> q ∈ list_del p l <-> q ∈ l.
Proof.
  intros Hne. induction l as [|r l IH]; cbn; [done|]. case_decide; subst.
  - rewrite elem_of_cons. naive_solver.
  - rewrite !elem_of_cons. naive_solver.
Qed.

Lemma list_del_NoDup p l : NoDup l -> NoDup (list_del p l).
Proof.
  induction 1 as [|q l Hq Hl IH]; cbn; [constructor|]. case_decide; [done|].
  constructor; [|done]. contradict Hq. by eapply elem_of_list_del.
Qed.

Lemma not_elem_of_list_del p l : NoDup l -> p ∉ list_del p l.
Proof.
  induction 1 as [|q l Hq Hl IH]; cbn; [set_solver|]. case_decide; subst; [done|].
  rewrite elem_of_cons. naive_solver.
Qed.

Lemma length_list_del p l : p ∈ l -> length l = S (length (list_del p l)).
Proof.
  induction l as [|q l IH]; [by intros ?%elem_of_nil|]. cbn. case_decide; [done|].
  rewrite elem_of_cons. intros [->|Hin]; [done|]. cbn. by rewrite <- IH.
Qed.
Lemma list_del_perm p l : p ∈ l -> l ≡ₚ p :: list_del p l.
Proof.
  induction l as [|q l IH]; [by intros ?%elem_of_nil|]. cbn. case_decide as Hqp; [by subst|].
  rewrite elem_of_cons. intros [->|Hin]; [done|]. rewrite (IH Hin) at 1. apply Permutation_swap.
Qed.
End ListDel.

(** ** Lemmas on searches in kernel lists *)

Section Find.
Context {A : Type}.
Implicit Types (f : A -> bool) (l : list A).

Lemma find_Some_split f l x :
  List.find f l = Some x ->
  exists l1 l2, l = l1 ++ x :: l2 /\ f x = true /\ Forall (fun y => f y = false) l1.
Proof.
  induction l as [|y l IH]; cbn; [done|]. destruct (f y) eqn:Hy.
  - intros [= <-]. by exists [], l.
  - intros (l1 & l2 & -> & Hx & Hl1)%IH. exists (y :: l1), l2. split_and!; [done|done|by constructor].
Qed.

Lemma find_None_Forall f l : List.find f l = None <-> Forall (fun y => f y = false) l.
Proof.
  induction l as [|y l IH]; cbn; [done|]. rewrite Forall_cons. destruct (f y); naive_solver.
Qed.

Lemma find_first f l1 l2 x :
  Forall (fun y => f y = false) l1 -> f x = true -> List.find f (l1 ++ x :: l2) = Some x.
Proof. induction 1 as [|y l1 Hy _ IH]; cbn; intros Hx; [by rewrite Hx|]. rewrite Hy. by apply IH. Qed.

Lemma find_ext f g l : (forall y, y ∈ l -> f y = g y) -> List.find f l = List.find g l.
Proof.
  induction l as [|y l IH]; cbn; intros Hfg; [done|]. rewrite (Hfg y) by left.
  destruct (g y); [done|]. apply IH. intros z Hz. apply Hfg. by right.
Qed.

Lemma find_elem f l x : List.find f l = Some x -> x ∈ l /\ f x = true.
Proof. intros (l1 & l2 & -> & Hx & _)%find_Some_split. split; [set_solver|done]. Qed.
End Find.

(** ** Lists without two elements of the same key *)

Section Keys.
Context {A B K : Type} (key : B -> K).

Lemma NoDup_omap_key (f : A -> option B) l :
  NoDup l -> (forall x y b b', x ∈ l -> y ∈ l -> f x = Some b -> f y = Some b' -> key b = key b' -> x = y) ->
  NoDup (map key (omap f l)).
Proof.
  induction 1 as [|x l Hx Hnd IH]; intros Hinj; [constructor|]. cbn [omap list_omap].
  assert (IH' : NoDup (map key (omap f l))) by (apply IH; intros y z b b' Hy Hz; apply Hinj; by right).
  destruct (f x) as [b|] eqn:Hb; [|done]. cbn [map]. apply NoDup_cons. split; [|done].
  intros (b' & Hk & (y & Hy & Hb')%list_elem_of_omap)%list_elem_of_fmap. apply Hx.
  rewrite (Hinj x y b b'); [done|by left|by right|done..].
Qed.

Lemma NoDup_bind_key (g : A -> list B) l :
  NoDup l -> (forall x, x ∈ l -> NoDup (map key (g x))) ->
  (forall x y b b', x ∈ l -> y ∈ l -> b ∈ g x -> b' ∈ g y -> key b = key b' -> x = y) ->
  NoDup (map key (l ≫= g)).
Proof.
  induction 1 as [|x l Hx Hnd IH]; intros Hg Hinj; [constructor|]. rewrite bind_cons, map_app. apply NoDup_app. split_and!.
  - apply Hg. by left.
  - intros k (b & -> & Hb)%list_elem_of_fmap (b' & Hk & (y & Hb' & Hy)%list_elem_of_bind)%list_elem_of_fmap. apply Hx.
    rewrite (Hinj x y b b'); [done|by left|by right|done..].
  - apply IH; [intros y Hy; apply Hg; by right|]. intros y z b b' Hy Hz. apply Hinj; by right.
Qed.
End Keys.
