(* ===== verification/ConnectionTable.v ===== *)
(** * The connection table of a process (kernel/connection.h, connection_table.{h,c})

    A process entry embeds one table.  [table->data] is either NULL or points to
    a block that holds a capacity, the greatest index in use and an array.  The
    block is allocated with one array slot more than the capacity
    ([sizeof(struct qnx_connection_table_data)] already contains [conn[1]]), and
    the slots are [capacity + 1] here as well.  The functions answer [None] where
    the C code would read memory outside the block or memory it never wrote; the
    one such read that the code really performs, [conn[-1]], lands on the field
    [max] that precedes the array and is written out in [conn_nonnull]. *)

From S2P Require Import Prelude.
From Stdlib Require Import ZArith Lia.
From stdpp Require Import base tactics list option gmap fin_maps.

Open Scope Z_scope.

(** ** Data *)

Record qnx_connection := QnxConnection { pid : Z; chid : Z }.

Definition qnx_connection_init (pid chid : Z) : qnx_connection := QnxConnection pid chid.

#[export] Instance qnx_connection_eq_dec : EqDecision qnx_connection.
Proof. solve_decision. Defined.

(** A slot of the array: never written, NULL, or a connection object, which the
    table owns. *)
Inductive slot :=
  | Uninit
  | Null
  | Conn (c : qnx_connection).

#[export] Instance slot_eq_dec : EqDecision slot.
Proof. solve_decision. Defined.

Record qnx_connection_table_data := TableData {
  capacity : Z;
  max : Z;
  conn : list slot
}.

Abbreviation qnx_connection_table := (option qnx_connection_table_data).

Definition QNX_INITIAL_TABLE_SIZE : Z := 64.

(** ** Access to the block *)

Definition conn_at (d : qnx_connection_table_data) (i : Z) : option slot :=
  if i <? 0 then None else conn d !! Z.to_nat i.

(** [conn[i] != NULL].  [conn[-1]] is the word that holds [max] and four bytes
    of padding: it is certainly not NULL when [max] is not 0. *)
Definition conn_nonnull (d : qnx_connection_table_data) (i : Z) : option bool :=
  if i =? -1 then (if max d =? 0 then None else Some true)
  else let? s := conn_at d i in
       match s with
       | Uninit => None
       | Null => Some false
       | Conn _ => Some true
       end.

(** [conn[i] = s] *)
Definition conn_set (i : Z) (s : slot) (d : qnx_connection_table_data) : option qnx_connection_table_data :=
  if bool_decide (0 <= i < Z.of_nat (length (conn d)))
  then Some (TableData (capacity d) (max d) (<[Z.to_nat i := s]> (conn d)))
  else None.

Definition set_max (m : Z) (d : qnx_connection_table_data) : qnx_connection_table_data :=
  TableData (capacity d) m (conn d).

Definition qnx_connection_table_get_capacity (table : qnx_connection_table) : Z :=
  match table with Some d => capacity d | None => 0 end.

Definition qnx_connection_table_get_max (table : qnx_connection_table) : Z :=
  match table with Some d => max d | None => 0 end.

(** ** Operations *)

(** [max_conn] is [qnx_max_connections_per_process]; [oom] are the coming
    answers of [kmalloc] (one is used when the allocation is reached). *)
Definition qnx_connection_table_reserve_unlocked (max_conn : Z) (oom : list bool)
    (table : qnx_connection_table) (newsize : Z) : Z * list bool * qnx_connection_table :=
  let oldsize := i32 (qnx_connection_table_get_capacity table) in
  if newsize >? max_conn then (- EMFILE, oom, table)
  else if newsize <=? oldsize then (oldsize, oom, table)
  else
    let '(ok, oom') := kmalloc_answer oom in
    if negb ok then (- ENOMEM, oom', table)
    else
      let old := match table with Some d => conn d | None => [] end in
      let new := TableData newsize 0
        (take (Z.to_nat oldsize) old
         ++ replicate (Z.to_nat (newsize - oldsize)) Null
         ++ [Uninit]) in
      (oldsize, oom', Some new).

Definition qnx_connection_table_init (max_conn : Z) (oom : list bool) : Z * list bool * qnx_connection_table :=
  let '(rc, oom', table) :=
    qnx_connection_table_reserve_unlocked max_conn oom None QNX_INITIAL_TABLE_SIZE in
  ((if rc >? 0 then 0 else rc), oom', table).

(** the connections that [qnx_connection_table_destroy] frees, in order *)
Definition qnx_connection_table_destroy (table : qnx_connection_table) : list qnx_connection :=
  match table with
  | None => []
  | Some d =>
      omap (fun s => match s with Conn c => Some c | _ => None end)
           (take (Z.to_nat (max d)) (conn d))
  end.

(** [for(i = ...; i < capacity; ++i) if (!conn[i]) ...]: the index of the first
    empty slot, or 0 when there is none *)
Fixpoint find_free (d : qnx_connection_table_data) (i : Z) (fuel : nat) : option Z :=
  match fuel with
  | O => Some 0
  | S fuel' =>
      let? b := conn_nonnull d i in
      if b then find_free d (i + 1) fuel' else Some i
  end.

Definition qnx_connection_table_add (max_conn : Z) (oom : list bool)
    (table : qnx_connection_table) (c : qnx_connection) : option (Z * list bool * qnx_connection_table) :=
  let? found :=
    match table with
    | Some d => find_free d 1 (Z.to_nat (capacity d - 1))
    | None => Some 0
    end in
  let? (rc, oom', table') :=
    (if found =? 0
     then
       let '(rc, oom', table') :=
         qnx_connection_table_reserve_unlocked max_conn oom table
           (i32 (Z.shiftl (qnx_connection_table_get_capacity table) 1)) in
       if rc >? 0
       then let? d := table' in
            let? d' := conn_set (capacity d) (Conn c) d in
            Some (i32 (capacity d), oom', Some d')
       else Some (rc, oom', table')
     else let? d := table in let? d' := conn_set found (Conn c) d in Some (found, oom, Some d')) in
  Some (rc, oom',
        if rc >? qnx_connection_table_get_max table'
        then set_max rc <$> table' else table').

(** [while(!conn[max]) --max;] *)
Fixpoint scan_down (d : qnx_connection_table_data) (m : Z) (fuel : nat) : option Z :=
  match fuel with
  | O => None
  | S fuel' =>
      let? b := conn_nonnull d m in
      if b then Some m else scan_down d (m - 1) fuel'
  end.

Definition qnx_connection_table_remove (table : qnx_connection_table) (coid : Z) : option (Z * qnx_connection_table) :=
  match table with
  | Some d =>
      if u64 coid <? capacity d
      then
        let? b := conn_nonnull d coid in
        if b
        then
          let? d1 :=
            (if coid =? max d
             then let? m := scan_down d (coid - 1) (Z.to_nat coid + 1) in Some (set_max m d)
             else Some d) in
          let? d2 := conn_set coid Null d1 in
          Some (0, Some d2)
        else Some (- EINVAL, table)
      else Some (- EINVAL, table)
  | None => Some (- EINVAL, table)
  end.

Definition qnx_connection_table_retrieve (table : qnx_connection_table) (coid : Z) : option qnx_connection :=
  match table with
  | Some d =>
      if u64 coid <? capacity d
      then let? s := conn_at d coid in
           match s with
           | Conn c => Some c
           | Null => Some (QnxConnection 0 0)
           | Uninit => None
           end
      else Some (QnxConnection 0 0)
  | None => Some (QnxConnection 0 0)
  end.

Definition qnx_connection_table_is_empty (table : qnx_connection_table) : bool :=
  match table with
  | Some d => negb (max d >? 0)
  | None => true
  end.

(** the calls [func(i, conn, arg)] in order; the C function returns their number *)
Fixpoint for_each_from (d : qnx_connection_table_data) (i : Z) (fuel : nat) : option (list (Z * qnx_connection)) :=
  match fuel with
  | O => Some []
  | S fuel' =>
      let? s := conn_at d i in
      match s with
      | Uninit => None
      | Null => for_each_from d (i + 1) fuel'
      | Conn c => let? rest := for_each_from d (i + 1) fuel' in Some ((i, c) :: rest)
      end
  end.

Definition qnx_connection_table_for_each (table : qnx_connection_table) : option (list (Z * qnx_connection)) :=
  match table with
  | Some d => for_each_from d 0 (Z.to_nat (max d + 1))
  | None => Some []
  end.

(** ** Specification

    What the table promises to its clients is a finite map from connection ids
    to connections: the entries that [qnx_connection_table_retrieve] can see. *)

Fixpoint slots_map (i : Z) (l : list slot) : gmap Z qnx_connection :=
  match l with
  | [] => ∅
  | Conn c :: l' => <[i := c]> (slots_map (i + 1) l')
  | _ :: l' => slots_map (i + 1) l'
  end.

Definition connections (table : qnx_connection_table) : gmap Z qnx_connection :=
  match table with
  | Some d => slots_map 0 (take (Z.to_nat (capacity d)) (conn d))
  | None => ∅
  end.

(** all connection objects of the array, the slot behind the capacity included *)
Fixpoint slots_entries (i : Z) (l : list slot) : list (Z * qnx_connection) :=
  match l with
  | [] => []
  | Conn c :: l' => (i, c) :: slots_entries (i + 1) l'
  | _ :: l' => slots_entries (i + 1) l'
  end.

Definition owned (table : qnx_connection_table) : list (Z * qnx_connection) :=
  match table with
  | Some d => slots_entries 0 (conn d)
  | None => []
  end.

(** no id can be handed out any more without growing the table *)
Definition table_full (d : qnx_connection_table_data) : Prop :=
  forall i, 0 < i < capacity d -> conn_at d i ≠ Some Null.

Record table_wf (d : qnx_connection_table_data) : Prop := {
  wf_capacity : 0 < capacity d <= INT_MAX;
  wf_length : length (conn d) = Z.to_nat (capacity d + 1);
  wf_slot0 : conn_at d 0 = Some Null;
  wf_written : forall i, 0 <= i < capacity d -> conn_at d i ≠ Some Uninit;
  wf_upper : forall i c, conn_at d i = Some (Conn c) -> i <= max d;
  wf_max : -1 <= max d;
  wf_max_live : 0 < max d -> exists c, conn_at d (max d) = Some (Conn c)
}.

Definition table_ok (table : qnx_connection_table) : Prop :=
  match table with Some d => table_wf d | None => True end.

(** ** Lemmas on slots *)

Lemma conn_at_lookup d i : 0 <= i -> conn_at d i = conn d !! Z.to_nat i.
Proof. intros. unfold conn_at. case_cmp; [lia|done]. Qed.

Lemma conn_at_range d i s : conn_at d i = Some s -> 0 <= i < Z.of_nat (length (conn d)).
Proof.
  unfold conn_at. case_cmp; [done|]. intros Hl%lookup_lt_Some. lia.
Qed.

Lemma conn_at_is_Some d i :
  0 <= i < Z.of_nat (length (conn d)) -> exists s, conn_at d i = Some s.
Proof.
  intros. rewrite conn_at_lookup by lia. apply lookup_lt_is_Some. lia.
Qed.

Lemma conn_nonnull_at d i :
  0 <= i -> conn_nonnull d i = (let? s := conn_at d i in
    match s with Uninit => None | Null => Some false | Conn _ => Some true end).
Proof. intros. unfold conn_nonnull. case_cmp; [lia|done]. Qed.

Lemma conn_set_spec d i s :
  0 <= i < Z.of_nat (length (conn d)) ->
  exists d', conn_set i s d = Some d' /\ capacity d' = capacity d /\ max d' = max d /\
    conn d' = <[Z.to_nat i := s]> (conn d) /\
    length (conn d') = length (conn d) /\
    forall j, conn_at d' j = if decide (i = j) then Some s else conn_at d j.
Proof.
  intros Hi. unfold conn_set. rewrite bool_decide_eq_true_2 by done. eexists; split; [done|].
  cbn. rewrite length_insert. split_and!; [done..|]. intros j. unfold conn_at; cbn. case_cmp.
  - destruct (decide (i = j)); [lia|done].
  - case_decide as Hij.
    + subst. apply list_lookup_insert_eq. lia.
    + apply list_lookup_insert_ne. lia.
Qed.

Lemma slots_map_lookup i l k :
  slots_map i l !! k =
    if decide (i <= k) then match l !! Z.to_nat (k - i) with Some (Conn c) => Some c | _ => None end
    else None.
Proof.
  revert i. induction l as [|s l IH]; intros i; cbn.
  - rewrite lookup_empty. by case_decide.
  - assert (Htail : i ≠ k -> slots_map (i + 1) l !! k =
      if decide (i <= k) then
        match (s :: l) !! Z.to_nat (k - i) with Some (Conn c) => Some c | _ => None end else None).
    { intros Hne. rewrite IH. repeat case_decide; try lia; [|done].
      replace (Z.to_nat (k - i)) with (S (Z.to_nat (k - (i + 1)))) by lia. done. }
    destruct (decide (i = k)) as [->|Hne].
    + replace (Z.to_nat (k - k)) with 0%nat by lia. rewrite decide_True by lia. cbn.
      assert (Hout : slots_map (k + 1) l !! k = None) by (rewrite IH; by rewrite decide_False by lia).
      destruct s; [done..|]. by rewrite lookup_insert_eq.
    + rewrite <- Htail by done. destruct s; [done..|]. by rewrite lookup_insert_ne.
Qed.

Lemma connections_lookup d k :
  connections (Some d) !! k =
    match conn_at d k with
    | Some (Conn c) => if decide (k < capacity d) then Some c else None
    | _ => None
    end.
Proof.
  unfold connections. rewrite slots_map_lookup, Z.sub_0_r. case_decide as Hk.
  - rewrite conn_at_lookup by lia. destruct (decide (k < capacity d)).
    + rewrite lookup_take_lt by lia. by destruct (conn d !! Z.to_nat k) as [[]|].
    + rewrite lookup_take_ge by lia. by destruct (conn d !! Z.to_nat k) as [[]|].
  - unfold conn_at. case_cmp; [done|lia].
Qed.

(** rewriting one slot below the capacity rewrites one entry of the map *)
Lemma connections_set d d' i s :
  (forall j, conn_at d' j = if decide (i = j) then Some s else conn_at d j) ->
  capacity d' = capacity d -> 0 <= i < capacity d ->
  connections (Some d') =
    match s with
    | Conn c => <[i := c]> (connections (Some d))
    | _ => delete i (connections (Some d))
    end.
Proof.
  intros Hat Hcap Hi. apply map_eq. intros j. rewrite connections_lookup, Hat, Hcap.
  destruct (decide (i = j)) as [->|Hne].
  - destruct s; rewrite ?lookup_delete_eq, ?lookup_insert_eq; [done..|].
    by rewrite decide_True by lia.
  - destruct s; rewrite ?lookup_delete_ne, ?lookup_insert_ne by done; by rewrite connections_lookup.
Qed.

(** equal visible slots give equal maps *)
Lemma connections_ext d d' :
  (forall j, 0 <= j < capacity d -> conn_at d' j = conn_at d j) ->
  capacity d <= capacity d' ->
  (forall j c, capacity d <= j < capacity d' -> conn_at d' j ≠ Some (Conn c)) ->
  connections (Some d') = connections (Some d).
Proof.
  intros Hat Hcap Hnew. apply map_eq. intros j. rewrite !connections_lookup.
  destruct (decide (j < 0)) as [Hj|Hj].
  { unfold conn_at. case_cmp; [done|lia]. }
  destruct (decide (j < capacity d)) as [Hc|Hc].
  - rewrite Hat by lia. destruct (conn_at d j) as [[]|]; repeat case_decide; done || lia.
  - destruct (conn_at d' j) as [[| |c]|] eqn:E; destruct (conn_at d j) as [[]|];
      repeat case_decide; try done; exfalso; eapply Hnew; eauto; lia.
Qed.

Lemma slots_entries_lookup i l k c :
  (k, c) ∈ slots_entries i l <-> i <= k /\ l !! Z.to_nat (k - i) = Some (Conn c).
Proof.
  revert i. induction l as [|s l IH]; intros i; cbn.
  - rewrite elem_of_nil. naive_solver.
  - assert (Htail : (k, c) ∈ slots_entries (i + 1) l <->
      i < k /\ (s :: l) !! Z.to_nat (k - i) = Some (Conn c)).
    { rewrite IH. split; intros [Hk Hl]; (split; [lia|]).
      - by replace (Z.to_nat (k - i)) with (S (Z.to_nat (k - (i + 1)))) by lia.
      - replace (Z.to_nat (k - i)) with (S (Z.to_nat (k - (i + 1)))) in Hl by lia. done. }
    assert (Hhd : i = k -> (s :: l) !! Z.to_nat (k - i) = Some s).
    { intros ->. by rewrite Z.sub_diag. }
    destruct s; rewrite ?elem_of_cons, Htail; clear Htail IH.
    1-2: split; [naive_solver lia|]; intros [Hk Hl];
      destruct (decide (i = k)) as [Hik|]; [rewrite Hhd in Hl by done; done | split; [lia|done]].
    split.
    + intros [[= -> ->]|[? ?]]; [by rewrite Hhd by done; split; [lia|] | split; [lia|done]].
    + intros [Hk Hl]. destruct (decide (i = k)) as [Hik|]; [|right; split; [lia|done]].
      left. rewrite Hhd in Hl by done. congruence.
Qed.

Lemma owned_lookup d k c : (k, c) ∈ owned (Some d) <-> conn_at d k = Some (Conn c).
Proof.
  unfold owned. rewrite slots_entries_lookup, Z.sub_0_r. split.
  - intros [Hk Hl]. by rewrite conn_at_lookup.
  - intros H. pose proof (conn_at_range _ _ _ H). rewrite conn_at_lookup in H by lia. split; [lia|done].
Qed.

(** ** Lemmas on the loops *)

Ltac wf_facts :=
  match goal with
  | H : table_wf ?d |- _ =>
      pose proof (wf_capacity _ H); pose proof (wf_length _ H); pose proof (wf_max _ H); unfold INT_MAX in *
  end.

Lemma wf_slot d i :
  table_wf d -> 0 <= i < capacity d ->
  conn_at d i = Some Null \/ exists c, conn_at d i = Some (Conn c).
Proof.
  intros Hwf Hi. wf_facts. destruct (conn_at_is_Some d i) as [[| |c] Hs]; [lia|..]; [|eauto..].
  exfalso. by eapply wf_written.
Qed.

Lemma wf_max_range d : table_wf d -> max d <= capacity d.
Proof.
  intros Hwf. wf_facts. destruct (decide (0 < max d)); [|lia].
  destruct (wf_max_live _ Hwf) as [c Hc]; [done|]. apply conn_at_range in Hc. lia.
Qed.

Lemma find_free_spec d i fuel :
  table_wf d -> 0 < i -> i + Z.of_nat fuel <= capacity d ->
  exists r, find_free d i fuel = Some r /\
    ((r = 0 /\ forall j, i <= j < i + Z.of_nat fuel -> exists c, conn_at d j = Some (Conn c)) \/
     (i <= r < i + Z.of_nat fuel /\ conn_at d r = Some Null /\
      forall j, i <= j < r -> exists c, conn_at d j = Some (Conn c))).
Proof.
  intros Hwf. revert i. induction fuel as [|fuel IH]; intros i Hi Hf; cbn [find_free].
  - exists 0. split; [done|]. left. split; [done|]. intros; lia.
  - rewrite conn_nonnull_at by lia.
    destruct (wf_slot d i Hwf) as [Hn|[c Hc]]; [lia| |].
    + rewrite Hn. exists i. split; [done|]. right. split_and!; [lia|lia|done|intros; lia].
    + rewrite Hc. destruct (IH (i + 1)) as (r & -> & Hr); [lia..|]. exists r. split; [done|].
      assert (Hstep : forall j b, i <= j < b -> (forall j, i + 1 <= j < b -> exists c, conn_at d j = Some (Conn c)) ->
        exists c, conn_at d j = Some (Conn c)).
      { intros j b Hj Hall. destruct (decide (j = i)) as [->|]; [eauto|]. apply Hall; lia. }
      destruct Hr as [[-> Hall]|(Hr & Hrn & Hall)].
      * left. split; [done|]. intros j Hj. eapply Hstep; [apply Hj|]. intros; apply Hall; lia.
      * right. split_and!; [lia|lia|done|]. intros j Hj. eapply Hstep; eauto.
Qed.

(** the search of [qnx_connection_table_add] *)
Lemma find_free_full d :
  table_wf d -> table_full d -> find_free d 1 (Z.to_nat (capacity d - 1)) = Some 0.
Proof.
  intros Hwf Hfull. wf_facts.
  destruct (find_free_spec d 1 (Z.to_nat (capacity d - 1)) Hwf) as (r & -> & Hr); [lia..|].
  destruct Hr as [[-> _]|(Hr & Hn & _)]; [done|]. exfalso. apply (Hfull r); [lia|done].
Qed.

Lemma find_free_first d i :
  table_wf d -> 0 < i < capacity d -> conn_at d i = Some Null ->
  exists r, find_free d 1 (Z.to_nat (capacity d - 1)) = Some r /\ 0 < r <= i /\
    conn_at d r = Some Null /\ forall j, 0 < j < r -> exists c, conn_at d j = Some (Conn c).
Proof.
  intros Hwf Hi Hn. wf_facts.
  destruct (find_free_spec d 1 (Z.to_nat (capacity d - 1)) Hwf) as (r & -> & Hr); [lia..|].
  exists r. split; [done|]. destruct Hr as [[-> Hall]|(Hr & Hrn & Hall)].
  - destruct (Hall i) as [c Hc]; [lia|congruence].
  - split_and!; [lia| |done|intros; apply Hall; lia].
    destruct (decide (r <= i)); [done|]. destruct (Hall i) as [c Hc]; [lia|congruence].
Qed.

Lemma scan_down_spec d m fuel :
  table_wf d -> max d ≠ 0 -> -1 <= m < capacity d -> Z.of_nat fuel = m + 2 ->
  exists r, scan_down d m fuel = Some r /\ -1 <= r <= m /\ r ≠ 0 /\
    (0 < r -> exists c, conn_at d r = Some (Conn c)) /\
    (forall j, 0 <= j -> r < j <= m -> conn_at d j = Some Null).
Proof.
  intros Hwf Hmax. revert m. induction fuel as [|fuel IH]; intros m Hm Hf; [lia|]. cbn [scan_down].
  destruct (decide (m = -1)) as [->|].
  { unfold conn_nonnull. cbn. case_cmp; [done|]. exists (-1). split_and!; try done; lia. }
  rewrite conn_nonnull_at by lia. destruct (wf_slot d m Hwf) as [Hn|[c Hc]]; [lia| |].
  - rewrite Hn. destruct (IH (m - 1)) as (r & -> & Hr & H0 & Hlive & Hnull); [lia..|].
    exists r. split_and!; try done; [lia..|]. intros j H0j Hj.
    destruct (decide (j = m)) as [->|]; [done|]. apply Hnull; lia.
  - rewrite Hc. exists m. split_and!; [done|lia|lia| |eauto|intros; lia].
    intros ->. rewrite (wf_slot0 _ Hwf) in Hc. done.
Qed.

Lemma slots_entries_app i l1 l2 :
  slots_entries i (l1 ++ l2) = slots_entries i l1 ++ slots_entries (i + Z.of_nat (length l1)) l2.
Proof.
  revert i. induction l1 as [|s l1 IH]; intros i; cbn.
  - by rewrite Z.add_0_r.
  - replace (i + Z.of_nat (S (length l1))) with (i + 1 + Z.of_nat (length l1)) by lia.
    destruct s; rewrite IH; done.
Qed.

Lemma slots_entries_dead i l :
  (forall k c, l !! k ≠ Some (Conn c)) -> slots_entries i l = [].
Proof.
  revert i. induction l as [|s l IH]; intros i Hl; [done|]. cbn.
  destruct s as [| |c]; [apply IH; intros k; apply (Hl (S k))..|]. by destruct (Hl O c).
Qed.

Lemma for_each_from_spec d i fuel :
  0 <= i ->
  (forall j, i <= j < i + Z.of_nat fuel -> exists s, conn_at d j = Some s /\ s ≠ Uninit) ->
  for_each_from d i fuel = Some (slots_entries i (take fuel (drop (Z.to_nat i) (conn d)))).
Proof.
  revert i. induction fuel as [|fuel IH]; intros i Hi Hall; cbn [for_each_from]; [done|].
  destruct (Hall i) as (s & Hs & Hne); [lia|].
  assert (Hrest : for_each_from d (i + 1) fuel
    = Some (slots_entries (i + 1) (take fuel (drop (Z.to_nat (i + 1)) (conn d))))).
  { apply IH; [lia|]. intros; apply Hall; lia. }
  rewrite Hs. rewrite conn_at_lookup in Hs by lia. apply drop_S in Hs. rewrite Hs. cbn.
  replace (S (Z.to_nat i)) with (Z.to_nat (i + 1)) by lia. by destruct s; rewrite ?Hrest.
Qed.

(** ** Lemmas on the operations *)

(** storing a connection at [i] and raising [max] to [i] when it is greater *)
Lemma wf_store d d' i c :
  table_wf d -> 0 < i <= capacity d ->
  capacity d' = capacity d -> length (conn d') = length (conn d) -> max d' = Z.max (max d) i ->
  (forall j, conn_at d' j = if decide (i = j) then Some (Conn c) else conn_at d j) ->
  table_wf d'.
Proof.
  intros Hwf Hi Hcap Hlen Hmax Hat. wf_facts. split; rewrite ?Hcap, ?Hlen, ?Hmax; unfold_int; [lia|lia|..].
  - rewrite Hat, decide_False by lia. apply Hwf.
  - intros j Hj. rewrite Hat. case_decide; [done|]. by apply Hwf.
  - intros j c'. rewrite Hat. case_decide; [lia|]. intros Hc%(wf_upper _ Hwf). lia.
  - lia.
  - intros _. destruct (Z.max_spec (max d) i) as [[? ->]|[? ->]].
    + rewrite Hat, decide_True by done. eauto.
    + rewrite Hat. case_decide; [eauto|]. apply (wf_max_live _ Hwf). lia.
Qed.

Lemma reserve_grow max_conn oom oom' d newsize :
  table_wf d -> capacity d < newsize <= max_conn -> newsize <= INT_MAX ->
  kmalloc_answer oom = (true, oom') ->
  exists new, qnx_connection_table_reserve_unlocked max_conn oom (Some d) newsize
      = (capacity d, oom', Some new) /\
    capacity new = newsize /\ max new = 0 /\ length (conn new) = Z.to_nat (newsize + 1) /\
    (forall j, 0 <= j < capacity d -> conn_at new j = conn_at d j) /\
    (forall j, capacity d <= j < newsize -> conn_at new j = Some Null).
Proof.
  intros Hwf Hn Hint Hk. wf_facts. unfold qnx_connection_table_reserve_unlocked. cbn [qnx_connection_table_get_capacity].
  rewrite i32_id by (unfold_int; lia). rewrite Z.gtb_ltb. repeat (case_cmp; [lia|]).
  rewrite Hk. cbn [negb]. eexists; split; [done|]. cbn. split; [done|]. split; [done|].
  rewrite !length_app, length_take, length_replicate. cbn.
  split; [lia|]. split; intros j Hj; rewrite !conn_at_lookup by lia; cbn.
  - rewrite lookup_app_l by (rewrite length_take; lia). apply lookup_take_lt; lia.
  - rewrite lookup_app_r, length_take by (rewrite length_take; lia).
    rewrite lookup_app_l by (rewrite length_replicate; lia). apply lookup_replicate_2. lia.
Qed.

Lemma add_free max_conn oom d c i :
  table_wf d -> 0 < i < capacity d -> conn_at d i = Some Null ->
  exists r d', qnx_connection_table_add max_conn oom (Some d) c = Some (r, oom, Some d') /\
    0 < r <= i /\ conn_at d r = Some Null /\
    (forall j, 0 < j < r -> exists c, conn_at d j = Some (Conn c)) /\
    capacity d' = capacity d /\ length (conn d') = length (conn d) /\ max d' = Z.max (max d) r /\
    (forall j, conn_at d' j = if decide (r = j) then Some (Conn c) else conn_at d j).
Proof.
  intros Hwf Hi Hn. wf_facts. destruct (find_free_first d i Hwf Hi Hn) as (r & Hr & Hri & Hrn & Hfst).
  unfold qnx_connection_table_add. rewrite Hr. case_cmp; [lia|].
  destruct (conn_set_spec d r (Conn c)) as (d' & -> & Hcap & Hmax & _ & Hlen & Hat); [lia|].
  cbn [qnx_connection_table_get_max]. rewrite Z.gtb_ltb, Hmax. exists r.
  case_cmp; (eexists; split; [reflexivity|]); cbn; rewrite ?Hcap, ?Hlen, ?Hmax;
    split_and!; try done; try lia.
Qed.

(** a store behind the array of a block whose [max] is below *)
Lemma add_full max_conn oom d c :
  table_wf d -> table_full d ->
  qnx_connection_table_add max_conn oom (Some d) c =
    let '(rc, oom', table') := qnx_connection_table_reserve_unlocked max_conn oom (Some d) (i32 (2 * capacity d)) in
    let? (rc, table') :=
      (if rc >? 0
       then let? d := table' in let? d' := conn_set (capacity d) (Conn c) d in
            Some (i32 (capacity d), Some d')
       else Some (rc, table')) in
    Some (rc, oom', if rc >? qnx_connection_table_get_max table' then set_max rc <$> table' else table').
Proof.
  intros Hwf Hfull. unfold qnx_connection_table_add. rewrite (find_free_full d Hwf Hfull).
  change (0 =? 0) with true. cbn [qnx_connection_table_get_capacity].
  rewrite Z.shiftl_mul_pow2 by lia. replace (capacity d * 2 ^ 1) with (2 * capacity d) by lia.
  destruct (qnx_connection_table_reserve_unlocked _ _ _ _) as [[rc oom'] table'].
  destruct (rc >? 0); [|done].
  destruct table' as [d'|]; [|done]. by destruct (conn_set _ _ d').
Qed.

Lemma add_grow max_conn oom oom' d c :
  table_wf d -> table_full d -> 2 * capacity d <= max_conn -> 2 * capacity d <= INT_MAX ->
  kmalloc_answer oom = (true, oom') ->
  exists d', qnx_connection_table_add max_conn oom (Some d) c = Some (2 * capacity d, oom', Some d') /\
    capacity d' = 2 * capacity d /\ length (conn d') = Z.to_nat (2 * capacity d + 1) /\
    max d' = 2 * capacity d /\
    (forall j, 0 <= j < capacity d -> conn_at d' j = conn_at d j) /\
    (forall j, capacity d <= j < 2 * capacity d -> conn_at d' j = Some Null) /\
    conn_at d' (2 * capacity d) = Some (Conn c).
Proof.
  intros Hwf Hfull Hmc Hint Hk. rewrite (add_full _ _ _ _ Hwf Hfull). wf_facts.
  rewrite i32_id by (unfold_int; lia).
  destruct (reserve_grow max_conn oom oom' d (2 * capacity d)) as (new & -> & Hcap & Hmax & Hlen & Hold & Hnew);
    [done|lia|unfold_int; lia|done|].
  rewrite !Z.gtb_ltb. case_cmp; [|lia].
  destruct (conn_set_spec new (capacity new) (Conn c)) as (d' & -> & Hcap' & Hmax' & _ & Hlen' & Hat); [lia|].
  rewrite i32_id by (unfold_int; lia). rewrite Z.gtb_ltb. cbn [qnx_connection_table_get_max]. rewrite Hmax', Hmax, Hcap.
  case_cmp; [|lia]. eexists; split; [reflexivity|]. cbn. rewrite Hcap', Hlen'.
  assert (Hset : forall j, conn_at (set_max (2 * capacity d) d') j = conn_at d' j) by done.
  split_and!; try done; try lia.
  - intros j Hj. rewrite Hset, Hat, decide_False by lia. by apply Hold.
  - intros j Hj. rewrite Hset, Hat, decide_False by lia. by apply Hnew.
  - rewrite Hset, Hat, Hcap. by rewrite decide_True.
Qed.

Lemma wf_grown d d' c :
  table_wf d -> table_full d -> 2 * capacity d <= INT_MAX ->
  capacity d' = 2 * capacity d -> length (conn d') = Z.to_nat (2 * capacity d + 1) ->
  max d' = 2 * capacity d ->
  (forall j, 0 <= j < capacity d -> conn_at d' j = conn_at d j) ->
  (forall j, capacity d <= j < 2 * capacity d -> conn_at d' j = Some Null) ->
  conn_at d' (2 * capacity d) = Some (Conn c) ->
  table_wf d'.
Proof.
  intros Hwf Hfull Hint Hcap Hlen Hmax Hold Hnew Hlast. wf_facts.
  split; rewrite ?Hcap, ?Hlen, ?Hmax; unfold INT_MAX; [lia|lia|..].
  - rewrite Hold by lia. apply Hwf.
  - intros j Hj. destruct (decide (j < capacity d)).
    + rewrite Hold by lia. by apply Hwf; lia.
    + by rewrite Hnew by lia.
  - intros j c' Hj. apply conn_at_range in Hj. lia.
  - lia.
  - eauto.
Qed.

Lemma remove_present d coid c :
  table_wf d -> is_int coid -> coid < capacity d -> conn_at d coid = Some (Conn c) ->
  exists d', qnx_connection_table_remove (Some d) coid = Some (0, Some d') /\
    capacity d' = capacity d /\ length (conn d') = length (conn d) /\
    (forall j, conn_at d' j = if decide (coid = j) then Some Null else conn_at d j) /\
    (coid ≠ max d -> max d' = max d) /\
    (coid = max d -> -1 <= max d' < coid /\ max d' ≠ 0 /\
      (0 < max d' -> exists c, conn_at d (max d') = Some (Conn c)) /\
      (forall j, 0 <= j -> max d' < j < coid -> conn_at d j = Some Null)).
Proof.
  intros Hwf Hint Hlt Hc. wf_facts. pose proof (conn_at_range _ _ _ Hc).
  assert (coid ≠ 0) by (intros ->; rewrite (wf_slot0 _ Hwf) in Hc; done).
  unfold qnx_connection_table_remove. rewrite u64_ltb_range, bool_decide_eq_true_2 by (done || lia).
  rewrite conn_nonnull_at, Hc by lia. destruct (Z.eqb_spec coid (max d)) as [Heq|Hne].
  - destruct (scan_down_spec d (coid - 1) (Z.to_nat coid + 1)) as (r & -> & Hr & Hr0 & Hlive & Hnull);
      [done|lia..|].
    destruct (conn_set_spec (set_max r d) coid Null) as (d' & -> & Hcap & Hmax & _ & Hlen & Hat); [cbn; lia|].
    cbn in Hcap, Hmax, Hlen. exists d'. rewrite Hcap, Hmax, Hlen. split_and!; try done; try lia.
    intros _. split_and!; [lia|lia|done|done|]. intros; apply Hnull; lia.
  - destruct (conn_set_spec d coid Null) as (d' & -> & Hcap & Hmax & _ & Hlen & Hat); [lia|].
    exists d'. rewrite Hcap, Hmax, Hlen. by split_and!.
Qed.

Lemma remove_absent d coid :
  table_wf d -> is_int coid -> (forall c, coid < capacity d -> conn_at d coid ≠ Some (Conn c)) ->
  qnx_connection_table_remove (Some d) coid = Some (- EINVAL, Some d).
Proof.
  intros Hwf Hint Hno. wf_facts. unfold qnx_connection_table_remove.
  rewrite u64_ltb_range by (done || lia). case_bool_decide as Hr; [|done].
  rewrite conn_nonnull_at by lia. destruct (wf_slot d coid Hwf Hr) as [->|[c Hc]]; [done|].
  exfalso. eapply Hno; [lia|done].
Qed.

Lemma wf_cleared d d' coid :
  table_wf d -> capacity d' = capacity d -> length (conn d') = length (conn d) ->
  0 < coid < capacity d ->
  (forall j, conn_at d' j = if decide (coid = j) then Some Null else conn_at d j) ->
  (coid ≠ max d -> max d' = max d) ->
  (coid = max d -> -1 <= max d' < coid /\ max d' ≠ 0 /\
    (0 < max d' -> exists c, conn_at d (max d') = Some (Conn c)) /\
    (forall j, 0 <= j -> max d' < j < coid -> conn_at d j = Some Null)) ->
  table_wf d'.
Proof.
  intros Hwf Hcap Hlen Hcoid Hat Hne Heq. wf_facts.
  assert (Hcase : coid ≠ max d \/ coid = max d) by lia.
  split; rewrite ?Hcap, ?Hlen; unfold INT_MAX; [lia|lia|..].
  - rewrite Hat. case_decide; [done|]. apply Hwf.
  - intros j Hj. rewrite Hat. case_decide; [done|]. by apply Hwf.
  - intros j c. rewrite Hat. case_decide; [done|]. intros Hc. pose proof (wf_upper _ Hwf _ _ Hc).
    destruct Hcase as [Hn|He]; [rewrite (Hne Hn); lia|].
    destruct (Heq He) as (? & ? & ? & Hnull). apply conn_at_range in Hc as Hj.
    destruct (decide (j <= max d')); [done|]. rewrite Hnull in Hc; [done|lia..].
  - destruct Hcase as [Hn|He]; [rewrite (Hne Hn); lia|]. destruct (Heq He); lia.
  - intros Hpos. destruct Hcase as [Hn|He].
    + rewrite (Hne Hn) in Hpos |- *. rewrite Hat. rewrite decide_False by lia. by apply Hwf.
    + destruct (Heq He) as (? & ? & Hlive & ?). rewrite Hat, decide_False by lia. by apply Hlive.
Qed.

Lemma reserve_fail max_conn oom d newsize :
  table_wf d ->
  (exists rc oom', qnx_connection_table_reserve_unlocked max_conn oom (Some d) newsize = (rc, oom', Some d) /\
     (rc = - EMFILE \/ rc = - ENOMEM \/ (rc = capacity d /\ newsize <= capacity d))) \/
  (capacity d < newsize <= max_conn /\ exists oom', kmalloc_answer oom = (true, oom')).
Proof.
  intros Hwf. wf_facts. unfold qnx_connection_table_reserve_unlocked. cbn [qnx_connection_table_get_capacity].
  rewrite i32_id by (unfold_int; lia). rewrite Z.gtb_ltb.
  case_cmp; [left; eauto 10|]. case_cmp; [left; eauto 10|].
  destruct (kmalloc_answer oom) as [[] oom']; [right; eauto|left; eauto 10].
Qed.

(** when the doubled capacity is not an [int], the size wraps and the slot
    behind the array is stored again *)
Lemma add_wrapped max_conn oom oom' d c :
  table_wf d -> table_full d ->
  qnx_connection_table_reserve_unlocked max_conn oom (Some d) (i32 (2 * capacity d)) = (capacity d, oom', Some d) ->
  exists d', qnx_connection_table_add max_conn oom (Some d) c = Some (capacity d, oom', Some d') /\
    capacity d' = capacity d /\ length (conn d') = length (conn d) /\ max d' = Z.max (max d) (capacity d) /\
    (forall j, conn_at d' j = if decide (capacity d = j) then Some (Conn c) else conn_at d j).
Proof.
  intros Hwf Hfull Hres. rewrite (add_full _ _ _ _ Hwf Hfull), Hres. wf_facts. rewrite Z.gtb_ltb.
  case_cmp; [|lia].
  destruct (conn_set_spec d (capacity d) (Conn c)) as (d' & -> & Hcap & Hmax & _ & Hlen & Hat); [lia|].
  rewrite i32_id by (unfold_int; lia). rewrite Z.gtb_ltb. cbn [qnx_connection_table_get_max]. rewrite Hmax.
  case_cmp; (eexists; split; [reflexivity|]); cbn; rewrite ?Hcap, ?Hlen, ?Hmax; split_and!; try done; lia.
Qed.

Lemma add_refused max_conn oom oom' d c rc :
  table_wf d -> table_full d -> rc = - EMFILE \/ rc = - ENOMEM ->
  qnx_connection_table_reserve_unlocked max_conn oom (Some d) (i32 (2 * capacity d)) = (rc, oom', Some d) ->
  qnx_connection_table_add max_conn oom (Some d) c = Some (rc, oom', Some d).
Proof.
  intros Hwf Hfull Hrc Hres. rewrite (add_full _ _ _ _ Hwf Hfull), Hres. wf_facts. unfold EMFILE, ENOMEM in Hrc. rewrite !Z.gtb_ltb.
  case_cmp; [lia|]. cbn. rewrite Z.gtb_ltb. case_cmp; [lia|done].
Qed.

Lemma add_none max_conn oom c :
  0 <= max_conn -> qnx_connection_table_add max_conn oom None c = Some (0, oom, None).
Proof.
  intros. unfold qnx_connection_table_add, qnx_connection_table_reserve_unlocked; cbn.
  rewrite !Z.gtb_ltb. change (i32 (Z.shiftl 0 1)) with 0. by destruct (Z.ltb_spec max_conn 0); [lia|].
Qed.

(** every table is full or has a first empty slot *)
Lemma full_or_free d :
  table_wf d -> table_full d \/ exists i, 0 < i < capacity d /\ conn_at d i = Some Null.
Proof.
  intros Hwf. wf_facts.
  destruct (find_free_spec d 1 (Z.to_nat (capacity d - 1)) Hwf) as (r & _ & [[_ Hall]|(Hr & Hn & _)]); [lia..| |].
  - left. intros i Hi Hnull. destruct (Hall i); [lia|congruence].
  - right. exists r. split; [lia|done].
Qed.

(** a doubled capacity that passes for a greater one did not overflow *)
Lemma doubled_int d :
  table_wf d -> capacity d < i32 (2 * capacity d) ->
  2 * capacity d <= INT_MAX /\ i32 (2 * capacity d) = 2 * capacity d.
Proof.
  intros Hwf. wf_facts. intros Hlt. assert (2 * capacity d <= 2147483647).
  { unfold i32 in Hlt. destruct (decide (2 * capacity d <= 2147483647)); [done|].
    replace (2 * capacity d + 2 ^ 31) with (2 * capacity d - 2 ^ 31 + 1 * 2 ^ 32) in Hlt by lia.
    rewrite Z.mod_add, Z.mod_small in Hlt; lia. }
  split; [lia|]. apply i32_id. unfold_int. lia.
Qed.

Lemma add_total_wf max_conn oom table c :
  0 <= max_conn -> table_ok table ->
  exists rc oom' table', qnx_connection_table_add max_conn oom table c = Some (rc, oom', table') /\ table_ok table'.
Proof.
  intros Hmc. destruct table as [d|]; cbn [table_ok]; intros Hwf; [|rewrite add_none; eauto 10].
  destruct (full_or_free d Hwf) as [Hfull|(i & Hi & Hn)].
  - destruct (reserve_fail max_conn oom d (i32 (2 * capacity d)) Hwf)
      as [(rc & oom' & Hres & Hrc)|(Hsize & oom' & Hk)].
    + destruct Hrc as [Hrc|[Hrc|[-> _]]];
        [rewrite (add_refused _ _ _ _ c _ Hwf Hfull (or_introl Hrc) Hres); eauto 10
        |rewrite (add_refused _ _ _ _ c _ Hwf Hfull (or_intror Hrc) Hres); eauto 10|].
      destruct (add_wrapped _ _ _ _ c Hwf Hfull Hres) as (d' & -> & Hcap & Hlen & Hmax & Hat).
      do 3 eexists; split; [reflexivity|]. cbn. wf_facts. eapply (wf_store d d' (capacity d)); eauto; lia.
    + destruct (doubled_int d Hwf) as [Hint Hi32]; [lia|]. rewrite Hi32 in Hsize.
      destruct (add_grow max_conn oom oom' d c) as (d' & -> & ? & ? & ? & ? & ? & ?); try done; [lia|].
      do 3 eexists; split; [reflexivity|]. cbn. by eapply (wf_grown d d' c).
  - destruct (add_free max_conn oom d c i Hwf Hi Hn) as (r & d' & -> & Hr & _ & _ & Hcap & Hlen & Hmax & Hat).
    do 3 eexists; split; [reflexivity|]. cbn. wf_facts. eapply (wf_store d d' r); eauto; lia.
Qed.

Lemma init_ok max_conn oom : table_ok (snd (qnx_connection_table_init max_conn oom)).
Proof.
  unfold qnx_connection_table_init, qnx_connection_table_reserve_unlocked.
  change (i32 (qnx_connection_table_get_capacity None)) with 0. rewrite Z.gtb_ltb.
  case_cmp; [done|]. change (QNX_INITIAL_TABLE_SIZE <=? 0) with false.
  destruct (kmalloc_answer oom) as [[] oom']; [|done]. cbn [negb snd table_ok].
  set (d := TableData _ _ _).
  assert (Hnull : forall i, 0 <= i < 64 -> conn_at d i = Some Null).
  { intros i Hi. rewrite conn_at_lookup by lia. subst d. cbn [conn]. change (Z.to_nat 0) with 0%nat. cbn [take app].
    change (Z.to_nat (QNX_INITIAL_TABLE_SIZE - 0)) with 64%nat.
    rewrite lookup_app_l by (rewrite length_replicate; lia). apply lookup_replicate_2. lia. }
  assert (Hdead : forall i c, conn_at d i ≠ Some (Conn c)).
  { intros i c Hc. apply conn_at_range in Hc as Hi. change (Z.of_nat (length (conn d))) with 65 in Hi.
    destruct (decide (i < 64)).
    - by rewrite Hnull in Hc by lia.
    - replace i with 64 in Hc by lia. done. }
  split; try (cbn; unfold INT_MAX; lia); try done.
  - intros i Hi. rewrite Hnull; [done|]. cbn in Hi. unfold QNX_INITIAL_TABLE_SIZE in *. lia.
  - intros i c Hc. by apply Hdead in Hc.
Qed.

Lemma remove_total_wf table coid :
  is_int coid -> table_ok table ->
  exists rc table', qnx_connection_table_remove table coid = Some (rc, table') /\ table_ok table'.
Proof.
  intros Hint. destruct table as [d|]; [|by eauto]. intros Hwf. cbn in Hwf.
  assert (Hdec : (forall c, coid < capacity d -> conn_at d coid ≠ Some (Conn c)) \/
    exists c, coid < capacity d /\ conn_at d coid = Some (Conn c)).
  { destruct (decide (coid < capacity d)); [|left; intros; lia].
    destruct (conn_at d coid) as [[| |c]|]; eauto; left; intros; done. }
  destruct Hdec as [Hno|(c & Hlt & Hc)]; [rewrite remove_absent; eauto|].
  assert (coid ≠ 0) by (intros ->; rewrite (wf_slot0 _ Hwf) in Hc; done). pose proof (conn_at_range _ _ _ Hc).
  destruct (remove_present d coid c) as (d' & -> & Hcap & Hlen & Hat & Hne & Heq); [done..|].
  do 2 eexists. split; [done|]. eapply wf_cleared; eauto; lia.
Qed.

Lemma retrieve_lookup table coid :
  table_ok table -> is_int coid ->
  qnx_connection_table_retrieve table coid = Some (default (QnxConnection 0 0) (connections table !! coid)).
Proof.
  destruct table as [d|]; cbn [table_ok]; intros Hwf Hint; [|done]. wf_facts.
  unfold qnx_connection_table_retrieve. rewrite connections_lookup, u64_ltb_range by (done || lia).
  case_bool_decide as Hr.
  - destruct (wf_slot d coid Hwf Hr) as [->|[c ->]]; [done|]. by rewrite decide_True by lia.
  - destruct (conn_at d coid) as [[| |c]|] eqn:Hc; try done.
    apply conn_at_range in Hc. by rewrite decide_False by lia.
Qed.

Lemma slots_entries_prefix d n :
  table_wf d -> max d < Z.of_nat n -> slots_entries 0 (take n (conn d)) = owned (Some d).
Proof.
  intros Hwf Hn. unfold owned. rewrite <- (take_drop n (conn d)) at 2. rewrite slots_entries_app.
  rewrite (slots_entries_dead _ (drop n (conn d))); [by rewrite app_nil_r|].
  intros k c. rewrite lookup_drop. intros Hc.
  assert (Hat : conn_at d (Z.of_nat (n + k)) = Some (Conn c)).
  { rewrite conn_at_lookup by lia. by rewrite Nat2Z.id. }
  apply (wf_upper _ Hwf) in Hat. lia.
Qed.

Lemma for_each_owned table :
  table_ok table -> qnx_connection_table_for_each table = Some (owned table).
Proof.
  destruct table as [d|]; [|done]. cbn [table_ok qnx_connection_table_for_each]. intros Hwf. wf_facts.
  rewrite for_each_from_spec; [|done|].
  - change (Z.to_nat 0) with 0%nat. rewrite drop_0, slots_entries_prefix; [done|done|lia].
  - intros j Hj. destruct (decide (j = max d)) as [->|].
    + destruct (decide (0 < max d)).
      * destruct (wf_max_live _ Hwf) as [c Hc]; [done|]. eauto.
      * replace (max d) with 0 by lia. rewrite (wf_slot0 _ Hwf). eauto.
    + pose proof (wf_max_range _ Hwf). destruct (wf_slot d j Hwf) as [->|[c ->]]; [lia|eauto..].
Qed.

Lemma slots_entries_omap i l :
  omap (fun s => match s with Conn c => Some c | _ => None end) l = map snd (slots_entries i l).
Proof. revert i. induction l as [|[] l IH]; intros i; cbn; by rewrite ?(IH (i + 1)). Qed.

(** the loop of [destroy] covers the ids below [max] *)
Lemma owned_split d :
  table_wf d -> 0 < max d ->
  exists c, conn_at d (max d) = Some (Conn c) /\
    owned (Some d) = slots_entries 0 (take (Z.to_nat (max d)) (conn d)) ++ [(max d, c)].
Proof.
  intros Hwf Hm. destruct (wf_max_live _ Hwf Hm) as [c Hc]. exists c. split; [done|].
  pose proof (conn_at_range _ _ _ Hc). rewrite conn_at_lookup in Hc by lia.
  rewrite <- (slots_entries_prefix d (S (Z.to_nat (max d)))) by (done || lia).
  rewrite (take_S_r _ _ _ Hc), slots_entries_app. cbn. rewrite length_take_le by lia.
  by replace (0 + Z.of_nat (Z.to_nat (max d))) with (max d) by lia.
Qed.

Lemma table_add_step max_conn oom d c :
  table_wf d -> ~ table_full d ->
  exists coid d', qnx_connection_table_add max_conn oom (Some d) c = Some (coid, oom, Some d') /\
    0 < coid < capacity d /\
    connections (Some d) !! coid = None /\
    (forall j, 0 < j < coid -> is_Some (connections (Some d) !! j)) /\
    connections (Some d') = <[coid := c]> (connections (Some d)) /\
    table_wf d'.
Proof.
  intros Hwf Hnf. destruct (full_or_free d Hwf) as [Hf|(i & Hi & Hn)]; [done|].
  destruct (add_free max_conn oom d c i Hwf Hi Hn) as (r & d' & -> & Hr & Hrn & Hlow & Hcap & Hlen & Hmax & Hat).
  exists r, d'. split; [done|]. split; [lia|]. split_and!.
  - by rewrite connections_lookup, Hrn.
  - intros j Hj. destruct (Hlow j Hj) as [cj Hcj]. rewrite connections_lookup, Hcj, decide_True by lia. done.
  - apply (connections_set d d' r (Conn c)); [done..|lia].
  - eapply wf_store; eauto; lia.
Qed.

(** attaching [n] connections one after the other: the handles returned *)
Fixpoint attach_many (max_conn : Z) (oom : list bool) (table : qnx_connection_table)
    (cs : list qnx_connection) : option (list Z * qnx_connection_table) :=
  match cs with
  | [] => Some ([], table)
  | c :: cs' =>
      let? (rc, oom', table') := qnx_connection_table_add max_conn oom table c in
      let? (rcs, table'') := attach_many max_conn oom' table' cs' in
      Some (rc :: rcs, table'')
  end.

(** ** Properties *)

(** C32: while an id below the capacity is free, [qnx_connection_table_add]
    hands out the least free id, stores the connection under it and changes no
    other entry; no memory is allocated and the table stays well formed. *)
Theorem add_refines (max_conn : Z) (oom : list bool) (d : qnx_connection_table_data) (c : qnx_connection) :
  table_wf d -> ~ table_full d ->
  exists coid d', qnx_connection_table_add max_conn oom (Some d) c = Some (coid, oom, Some d') /\
    0 < coid < capacity d /\
    connections (Some d) !! coid = None /\
    (forall j, 0 < j < coid -> is_Some (connections (Some d) !! j)) /\
    connections (Some d') = <[coid := c]> (connections (Some d)) /\
    table_wf d'.
Proof. exact (table_add_step max_conn oom d c). Qed.

(** When every id below the capacity is taken and the limit allows it, the
    array is doubled and [add] returns the new capacity as the id.  That id is
    one past the range that [retrieve] and [remove] accept: the returned
    connection can be neither used nor detached, while its object stays in the
    array. *)
Theorem add_growth_handle_lost (max_conn : Z) (oom oom' : list bool) (d : qnx_connection_table_data) (c : qnx_connection) :
  table_wf d -> table_full d -> 2 * capacity d <= max_conn -> max_conn <= INT_MAX ->
  kmalloc_answer oom = (true, oom') ->
  exists d', qnx_connection_table_add max_conn oom (Some d) c = Some (2 * capacity d, oom', Some d') /\
    table_wf d' /\ capacity d' = 2 * capacity d /\
    connections (Some d') = connections (Some d) /\
    qnx_connection_table_retrieve (Some d') (2 * capacity d) = Some (QnxConnection 0 0) /\
    qnx_connection_table_remove (Some d') (2 * capacity d) = Some (- EINVAL, Some d') /\
    (2 * capacity d, c) ∈ owned (Some d').
Proof.
  intros Hwf Hfull Hmc Hint Hk.
  destruct (add_grow max_conn oom oom' d c) as (d' & -> & Hcap & Hlen & Hmax & Hold & Hnew & Hlast); [done..|lia|done|].
  assert (Hwf' : table_wf d') by (eapply (wf_grown d d' c); eauto; lia).
  wf_facts. exists d'. split; [done|]. split; [done|]. split; [done|]. split_and!.
  - apply connections_ext; [done|lia|]. intros j c' Hj. rewrite Hnew by lia. done.
  - unfold qnx_connection_table_retrieve. rewrite Hcap, u64_id by lia. by case_cmp; [lia|].
  - apply remove_absent; [done|unfold_int; lia|lia].
  - by apply owned_lookup.
Qed.

(** In a fresh process with the default limit of 256 the 64th attach
    returns the handle 128, which is not usable yet; the 130th attach returns
    128 again.  From then on the first holder's handle names the second
    holder's connection [c2]: two live handles are equal. *)
Theorem growth_handle_reused (c c1 c2 : qnx_connection) :
  match attach_many 256 [] (snd (qnx_connection_table_init 256 []))
          (replicate 63 c ++ [c1] ++ replicate 65 c ++ [c2]) with
  | Some (handles, table) =>
      take 65 handles = map Z.of_nat (seq 1 63) ++ [128; 64] /\
      drop 127 handles = [127; 256; 128] /\
      qnx_connection_table_retrieve table 128 = Some c2
  | None => False
  end.
Proof. vm_compute. done. Qed.

(** A full table whose array cannot grow refuses the connection: [-EMFILE]
    when doubling would pass the limit, [-ENOMEM] when the allocation fails; the
    table is left as it was. *)
Theorem add_refuses (max_conn : Z) (oom : list bool) (d : qnx_connection_table_data) (c : qnx_connection) :
  table_wf d -> table_full d -> 2 * capacity d <= INT_MAX ->
  (max_conn < 2 * capacity d ->
     qnx_connection_table_add max_conn oom (Some d) c = Some (- EMFILE, oom, Some d)) /\
  (2 * capacity d <= max_conn -> forall oom', kmalloc_answer oom = (false, oom') ->
     qnx_connection_table_add max_conn oom (Some d) c = Some (- ENOMEM, oom', Some d)).
Proof.
  intros Hwf Hfull Hint. wf_facts.
  assert (Hcap : i32 (capacity d) = capacity d) by (apply i32_id; unfold_int; lia).
  assert (H2 : i32 (2 * capacity d) = 2 * capacity d) by (apply i32_id; unfold_int; lia).
  split.
  - intros Hmc. apply add_refused; [done|done|auto|]. rewrite H2.
    unfold qnx_connection_table_reserve_unlocked. rewrite Z.gtb_ltb. by case_cmp; [|lia].
  - intros Hmc oom' Hk. apply add_refused; [done|done|auto|]. rewrite H2.
    unfold qnx_connection_table_reserve_unlocked. cbn [qnx_connection_table_get_capacity].
    rewrite Z.gtb_ltb, Hcap, Hk. case_cmp; [lia|]. by case_cmp; [lia|].
Qed.

(** C33: for every id, [qnx_connection_table_remove] deletes exactly the entry of
    that id when there is one (and returns 0), and otherwise returns [-EINVAL]
    and changes nothing.  Its scan for the new [max] always stops. *)
Theorem remove_refines (d : qnx_connection_table_data) (coid : Z) :
  table_wf d -> is_int coid ->
  exists rc d', qnx_connection_table_remove (Some d) coid = Some (rc, Some d') /\
    table_wf d' /\ connections (Some d') = delete coid (connections (Some d)) /\
    (rc = 0 /\ is_Some (connections (Some d) !! coid) \/
     rc = - EINVAL /\ connections (Some d) !! coid = None /\ d' = d).
Proof.
  intros Hwf Hint. destruct (connections (Some d) !! coid) as [c|] eqn:Hl.
  - rewrite connections_lookup in Hl. destruct (conn_at d coid) as [[| |c']|] eqn:Hc; try done.
    case_decide as Hlt; [|done]. pose proof (conn_at_range _ _ _ Hc).
    assert (coid ≠ 0) by (intros ->; rewrite (wf_slot0 _ Hwf) in Hc; done).
    destruct (remove_present d coid c') as (d' & -> & Hcap & Hlen & Hat & Hne & Heq); [done..|].
    exists 0, d'. split; [done|]. split_and!; [|by apply (connections_set d d' coid Null); [..|lia]|eauto].
    eapply wf_cleared; eauto; lia.
  - exists (- EINVAL), d. split_and!; [|done|by rewrite delete_id|auto].
    apply remove_absent; [done|done|]. intros c Hlt Hc.
    by rewrite connections_lookup, Hc, decide_True in Hl.
Qed.

(** C34: every operation of the table is total on well-formed tables (it never
    reads a slot that was not written nor one outside the block) and keeps the
    invariant; [init] establishes it. *)
Theorem table_invariant (max_conn : Z) (oom : list bool) (table : qnx_connection_table)
    (c : qnx_connection) (coid : Z) :
  0 <= max_conn -> is_int coid -> table_ok table ->
  table_ok (snd (qnx_connection_table_init max_conn oom)) /\
  (exists rc oom' table', qnx_connection_table_add max_conn oom table c = Some (rc, oom', table') /\ table_ok table') /\
  (exists rc table', qnx_connection_table_remove table coid = Some (rc, table') /\ table_ok table') /\
  is_Some (qnx_connection_table_retrieve table coid) /\
  is_Some (qnx_connection_table_for_each table).
Proof.
  intros Hmc Hint Hok. split; [by apply init_ok|]. split; [by apply add_total_wf|]. split_and!.
  - by apply remove_total_wf.
  - by rewrite retrieve_lookup.
  - by rewrite for_each_owned.
Qed.

(** [retrieve] is lookup in the map; an id that is not there, negative ids
    included, gives the connection [{0, 0}], which the callers treat as invalid. *)
Theorem retrieve_refines (table : qnx_connection_table) (coid : Z) :
  table_ok table -> is_int coid ->
  qnx_connection_table_retrieve table coid = Some (default (QnxConnection 0 0) (connections table !! coid)).
Proof. exact (retrieve_lookup table coid). Qed.

(** [for_each] calls its function once for every connection object of the
    table, in increasing order of the ids. *)
Theorem for_each_complete (table : qnx_connection_table) :
  table_ok table -> qnx_connection_table_for_each table = Some (owned table).
Proof. exact (for_each_owned table). Qed.

(** [destroy] does not free the connection object with the greatest id: its
    loop runs over the ids below [max].  Every other object is freed. *)
Theorem destroy_leaks_max (d : qnx_connection_table_data) :
  table_wf d -> 0 < max d ->
  exists freed c, owned (Some d) = freed ++ [(max d, c)] /\
    qnx_connection_table_destroy (Some d) = map snd freed.
Proof.
  intros Hwf Hm. destruct (owned_split d Hwf Hm) as (c & _ & Howned).
  exists (slots_entries 0 (take (Z.to_nat (max d)) (conn d))), c. split; [done|]. apply slots_entries_omap.
Qed.

(** A process whose table could not be set up (no memory, or a limit below
    the initial size) has no table, and nobody is told: each attach then returns
    0, which is not an error, without storing the connection anywhere. *)
Theorem add_without_table (max_conn : Z) (oom oom' : list bool) (c : qnx_connection) :
  0 <= max_conn ->
  max_conn < QNX_INITIAL_TABLE_SIZE \/ kmalloc_answer oom = (false, oom') ->
  snd (qnx_connection_table_init max_conn oom) = None /\
  forall oom1, qnx_connection_table_add max_conn oom1 None c = Some (0, oom1, None).
Proof.
  intros Hmc Hfail. split; [|intros; by apply add_none].
  unfold qnx_connection_table_init, qnx_connection_table_reserve_unlocked.
  change (i32 (qnx_connection_table_get_capacity None)) with 0. rewrite Z.gtb_ltb.
  case_cmp; [done|]. destruct Hfail as [?|Hk]; [lia|]. change (QNX_INITIAL_TABLE_SIZE <=? 0) with false. by rewrite Hk.
Qed.
