(* ===== verification/Layout.v ===== *)
(** * The ioctl structures and their memory layout (kernel/qnxcomm_driver.h)

    A structure crosses the system call boundary as bytes.  A [codec] is the
    layout of a C type on LP64: its size, how its bytes are written and how they
    are read.  Structures are built from the codecs of their fields, padding
    included, and every codec satisfies the round trip [codec_laws]. *)

From S2P Require Import Prelude.
From Stdlib Require Import ZArith Lia.
From stdpp Require Import base tactics list.

Open Scope Z_scope.

(** ** Bytes, little endian *)

Definition is_byte (b : Z) : Prop := 0 <= b < 2 ^ 8.

Fixpoint le_bytes (n : nat) (z : Z) : list Z :=
  match n with
  | O => []
  | S n' => z mod 2 ^ 8 :: le_bytes n' (z / 2 ^ 8)
  end.

Fixpoint le_value (n : nat) (bs : list Z) : Z :=
  match n, bs with
  | S n', b :: bs' => b + 2 ^ 8 * le_value n' bs'
  | _, _ => 0
  end.

(** ** Codecs *)

Record codec (A : Type) := Codec {
  c_size : nat;
  c_ok : A -> Prop;
  c_enc : A -> list Z;
  c_dec : list Z -> A
}.
Arguments Codec {A}. Arguments c_size {A}. Arguments c_ok {A}. Arguments c_enc {A}. Arguments c_dec {A}.

Class CodecLaws {A} (c : codec A) : Prop := {
  enc_length a : length (c_enc c a) = c_size c;
  enc_bytes a : Forall is_byte (c_enc c a);
  dec_enc a rest : c_ok c a -> c_dec c (c_enc c a ++ rest) = a
}.

Definition c_unsigned (n : nat) : codec Z :=
  Codec n (fun z => 0 <= z < 2 ^ (8 * Z.of_nat n)) (le_bytes n) (le_value n).

Definition c_int : codec Z := Codec 4 is_int (le_bytes 4) (fun bs => i32 (le_value 4 bs)).
Definition c_int16 : codec Z :=
  Codec 2 (fun z => - 2 ^ 15 <= z < 2 ^ 15) (le_bytes 2) (fun bs => i16 (le_value 2 bs)).
Definition c_int8 : codec Z :=
  Codec 1 (fun z => - 2 ^ 7 <= z < 2 ^ 7) (le_bytes 1) (fun bs => i8 (le_value 1 bs)).
Definition c_uint : codec Z := c_unsigned 4.
Definition c_size_t : codec Z := c_unsigned 8.

(** [n] bytes of padding *)
Definition c_pad (n : nat) : codec unit :=
  Codec n (fun _ => True) (fun _ => replicate n 0) (fun _ => tt).

Definition c_pair {A B} (ca : codec A) (cb : codec B) : codec (A * B) :=
  Codec (c_size ca + c_size cb)
    (fun p => c_ok ca p.1 /\ c_ok cb p.2)
    (fun p => c_enc ca p.1 ++ c_enc cb p.2)
    (fun bs => (c_dec ca bs, c_dec cb (drop (c_size ca) bs))).

(** a structure whose fields are the tuple [A] *)
Definition c_struct {A R} (to : A -> R) (from : R -> A) (ca : codec A) : codec R :=
  Codec (c_size ca) (fun r => c_ok ca (from r)) (fun r => c_enc ca (from r)) (fun bs => to (c_dec ca bs)).

Infix "⊗" := c_pair (at level 45, left associativity) : qnx_scope.

(** ** The structures *)

Record iovec := Iovec { iov_base : Z; iov_len : Z }.

Record qnx_io_channelcreate := IoChannelcreate { cc_flags : Z }.

Record qnx_io_attach := IoAttach { at_pid : Z; at_chid : Z; at_flags : Z }.

Record qnx_io_msgsend := IoMsgsend {
  ms_coid : Z;
  ms_timeout_ms : Z;
  ms_in : iovec;
  ms_out : iovec
}.

Record qnx_io_msgsendv := IoMsgsendv {
  mv_coid : Z;
  mv_timeout_ms : Z;
  mv_in : Z;
  mv_in_len : Z;
  mv_out : Z;
  mv_out_len : Z
}.

Record qnx_io_msgsendpulse := IoMsgsendpulse { mp_coid : Z; mp_code : Z; mp_value : Z }.

Record msg_info := MsgInfo {
  mi_nd : Z; mi_pid : Z; mi_tid : Z; mi_chid : Z; mi_scoid : Z; mi_coid : Z;
  mi_msglen : Z; mi_srcmsglen : Z; mi_dstmsglen : Z; mi_priority : Z; mi_flags : Z; mi_reserved : Z
}.

Record qnx_io_receive := IoReceive {
  rv_chid : Z;
  rv_timeout_ms : Z;
  rv_out : iovec;
  rv_info : msg_info
}.

Record qnx_io_reply := IoReply { rp_rcvid : Z; rp_status : Z; rp_in : iovec }.
Record qnx_io_error_reply := IoErrorReply { er_rcvid : Z; er_error : Z }.
Record qnx_io_read := IoRead { rd_rcvid : Z; rd_offset : Z; rd_out : iovec }.

Definition c_iovec : codec iovec :=
  c_struct (fun '(b, l) => Iovec b l) (fun v => (iov_base v, iov_len v)) (c_size_t ⊗ c_size_t).

Definition c_io_channelcreate : codec qnx_io_channelcreate := c_struct IoChannelcreate cc_flags c_uint.

Definition c_io_attach : codec qnx_io_attach :=
  c_struct (fun '(p, c, f) => IoAttach p c f) (fun a => (at_pid a, at_chid a, at_flags a))
    (c_int ⊗ c_int ⊗ c_int).

Definition c_io_msgsend : codec qnx_io_msgsend :=
  c_struct (fun '(c, t, i, o) => IoMsgsend c t i o)
    (fun m => (ms_coid m, ms_timeout_ms m, ms_in m, ms_out m))
    (c_int ⊗ c_int ⊗ c_iovec ⊗ c_iovec).

Definition c_io_msgsendv : codec qnx_io_msgsendv :=
  c_struct (fun '(c, t, i, il, _, o, ol, _) => IoMsgsendv c t i il o ol)
    (fun m => (mv_coid m, mv_timeout_ms m, mv_in m, mv_in_len m, tt, mv_out m, mv_out_len m, tt))
    (c_int ⊗ c_int ⊗ c_size_t ⊗ c_int ⊗ c_pad 4 ⊗ c_size_t ⊗ c_int ⊗ c_pad 4).

Definition c_io_msgsendpulse : codec qnx_io_msgsendpulse :=
  c_struct (fun '(c, k, v) => IoMsgsendpulse c k v) (fun m => (mp_coid m, mp_code m, mp_value m))
    (c_int ⊗ c_int ⊗ c_int).

Definition c_msg_info : codec msg_info :=
  c_struct
    (fun '(nd, p, t, c, s, co, ml, sl, dl, pr, fl, re) => MsgInfo nd p t c s co ml sl dl pr fl re)
    (fun i => (mi_nd i, mi_pid i, mi_tid i, mi_chid i, mi_scoid i, mi_coid i,
               mi_msglen i, mi_srcmsglen i, mi_dstmsglen i, mi_priority i, mi_flags i, mi_reserved i))
    (c_uint ⊗ c_int ⊗ c_int ⊗ c_int ⊗ c_int ⊗ c_int ⊗ c_int ⊗ c_int ⊗ c_int ⊗ c_int16 ⊗ c_int16 ⊗ c_uint).

Definition c_io_receive : codec qnx_io_receive :=
  c_struct (fun '(c, t, o, i, _) => IoReceive c t o i)
    (fun r => (rv_chid r, rv_timeout_ms r, rv_out r, rv_info r, tt))
    (c_int ⊗ c_int ⊗ c_iovec ⊗ c_msg_info ⊗ c_pad 4).

Definition c_io_reply : codec qnx_io_reply :=
  c_struct (fun '(r, s, i) => IoReply r s i) (fun m => (rp_rcvid m, rp_status m, rp_in m))
    (c_int ⊗ c_int ⊗ c_iovec).

Definition c_io_error_reply : codec qnx_io_error_reply :=
  c_struct (fun '(r, e) => IoErrorReply r e) (fun m => (er_rcvid m, er_error m)) (c_int ⊗ c_int).

Definition c_io_read : codec qnx_io_read :=
  c_struct (fun '(r, o, v) => IoRead r o v) (fun m => (rd_rcvid m, rd_offset m, rd_out m))
    (c_int ⊗ c_int ⊗ c_iovec).

(** [struct _pulse]: offsets of the fields that the driver writes, and its size *)
Definition pulse_code_offset : Z := 4.
Definition pulse_value_offset : Z := 8.
Definition pulse_scoid_offset : Z := 16.
Definition sizeof_pulse : Z := 24.

(** an array of [n] elements *)
Fixpoint dec_array {A} (c : codec A) (n : nat) (bs : list Z) : list A :=
  match n with
  | O => []
  | S n' => c_dec c bs :: dec_array c n' (drop (c_size c) bs)
  end.

(** ** ioctl numbers

    [_IOC] of <asm-generic/ioctl.h>: two bits of direction, fourteen of size,
    eight of type, eight of number. *)

Definition _IOC (dir type nr size : Z) : Z :=
  Z.lor (Z.shiftl dir 30) (Z.lor (Z.shiftl size 16) (Z.lor (Z.shiftl type 8) nr)).
Definition QNXCOMM_MAGIC : Z := 113.
Definition _IOW {A} (nr : Z) (c : codec A) : Z := _IOC 1 QNXCOMM_MAGIC nr (Z.of_nat (c_size c)).
Definition _IOWR {A} (nr : Z) (c : codec A) : Z := _IOC 3 QNXCOMM_MAGIC nr (Z.of_nat (c_size c)).

Definition QNX_IO_CHANNELCREATE : Z := _IOW 1 c_io_channelcreate.
Definition QNX_IO_CHANNELDESTROY : Z := _IOW 2 c_int.
Definition QNX_IO_CONNECTATTACH : Z := _IOW 3 c_io_attach.
Definition QNX_IO_CONNECTDETACH : Z := _IOW 4 c_int.
Definition QNX_IO_MSGSEND : Z := _IOW 5 c_io_msgsend.
Definition QNX_IO_MSGSENDPULSE : Z := _IOW 6 c_io_msgsendpulse.
Definition QNX_IO_MSGRECEIVE : Z := _IOWR 7 c_io_receive.
Definition QNX_IO_MSGREPLY : Z := _IOW 8 c_io_reply.
Definition QNX_IO_MSGERROR : Z := _IOW 9 c_io_error_reply.
Definition QNX_IO_MSGREAD : Z := _IOW 10 c_io_read.
Definition QNX_IO_MSGSENDV : Z := _IOW 11 c_io_msgsendv.
Definition QNX_IO_REGISTER_POLLFD : Z := _IOW 12 c_int.
Definition QNX_IO_MSGSENDNOREPLY : Z := _IOW 13 c_io_msgsend.
Definition QNX_IO_MSGSENDNOREPLYV : Z := _IOW 14 c_io_msgsendv.

Definition qnx_ioctls : list Z :=
  [QNX_IO_CHANNELCREATE; QNX_IO_CHANNELDESTROY; QNX_IO_CONNECTATTACH; QNX_IO_CONNECTDETACH;
   QNX_IO_MSGSEND; QNX_IO_MSGSENDPULSE; QNX_IO_MSGRECEIVE; QNX_IO_MSGREPLY; QNX_IO_MSGERROR;
   QNX_IO_MSGREAD; QNX_IO_MSGSENDV; QNX_IO_REGISTER_POLLFD; QNX_IO_MSGSENDNOREPLY;
   QNX_IO_MSGSENDNOREPLYV].

(** ** Laws of the codecs *)

Lemma length_le_bytes n z : length (le_bytes n z) = n.
Proof. revert z. induction n as [|n IH]; intros z; cbn; [done|]. by rewrite IH. Qed.

Lemma le_bytes_range n z : Forall is_byte (le_bytes n z).
Proof.
  revert z. induction n as [|n IH]; intros z; cbn [le_bytes]; constructor; [|done].
  unfold is_byte. apply Z.mod_pos_bound. lia.
Qed.

Lemma le_value_bytes n z rest : le_value n (le_bytes n z ++ rest) = z mod 2 ^ (8 * Z.of_nat n).
Proof.
  revert z. induction n as [|n IH]; intros z; cbn [le_bytes le_value app].
  - by rewrite Z.mod_1_r.
  - rewrite IH. replace (8 * Z.of_nat (S n)) with (8 + 8 * Z.of_nat n) by lia.
    rewrite Z.pow_add_r, Z.rem_mul_r by lia. lia.
Qed.

#[export] Instance c_unsigned_laws n : CodecLaws (c_unsigned n).
Proof.
  split; cbn [c_unsigned c_size c_ok c_enc c_dec]; intros.
  - apply length_le_bytes.
  - apply le_bytes_range.
  - rewrite le_value_bytes. by apply Z.mod_small.
Qed.

(** a signed field: the value is recovered from its residue *)
Lemma signed_laws n (ok : Z -> Prop) (sgn : Z -> Z) :
  (forall z, ok z -> sgn (z mod 2 ^ (8 * Z.of_nat n)) = z) ->
  CodecLaws (Codec n ok (le_bytes n) (fun bs => sgn (le_value n bs))).
Proof.
  intros Hsgn. split; cbn [c_size c_ok c_enc c_dec]; intros.
  - apply length_le_bytes.
  - apply le_bytes_range.
  - rewrite le_value_bytes. by apply Hsgn.
Qed.

Ltac signed_residue :=
  unfold_int; intros z Hz; cbn;
  rewrite Zplus_mod_idemp_l; rewrite Z.mod_small; lia.

#[export] Instance c_int_laws : CodecLaws c_int.
Proof. apply (signed_laws 4). signed_residue. Qed.
#[export] Instance c_int16_laws : CodecLaws c_int16.
Proof. apply (signed_laws 2). signed_residue. Qed.
#[export] Instance c_int8_laws : CodecLaws c_int8.
Proof. apply (signed_laws 1). signed_residue. Qed.
#[export] Instance c_uint_laws : CodecLaws c_uint.
Proof. apply c_unsigned_laws. Qed.
#[export] Instance c_size_t_laws : CodecLaws c_size_t.
Proof. apply c_unsigned_laws. Qed.

#[export] Instance c_pad_laws n : CodecLaws (c_pad n).
Proof.
  split; cbn; intros.
  - apply length_replicate.
  - apply Forall_replicate. unfold is_byte. lia.
  - by destruct a.
Qed.

#[export] Instance c_pair_laws {A B} (ca : codec A) (cb : codec B) :
  CodecLaws ca -> CodecLaws cb -> CodecLaws (ca ⊗ cb).
Proof.
  intros Ha Hb. split; cbn; intros.
  - rewrite length_app. f_equal; apply enc_length.
  - apply Forall_app. split; apply enc_bytes.
  - destruct a as [a b], H as [H1 H2]. cbn in *. rewrite <- app_assoc. rewrite dec_enc by done.
    f_equal. rewrite <- (enc_length a), drop_app_length. by apply dec_enc.
Qed.

Lemma c_struct_laws {A R} (to : A -> R) (from : R -> A) (ca : codec A) :
  CodecLaws ca -> (forall r, to (from r) = r) -> CodecLaws (c_struct to from ca).
Proof.
  intros Ha Hto. split; cbn; intros.
  - apply enc_length.
  - apply enc_bytes.
  - rewrite dec_enc by done. apply Hto.
Qed.

Ltac struct_laws := apply c_struct_laws; [apply _ | by intros []].

#[export] Instance c_iovec_laws : CodecLaws c_iovec. Proof. struct_laws. Qed.
#[export] Instance c_io_channelcreate_laws : CodecLaws c_io_channelcreate. Proof. struct_laws. Qed.
#[export] Instance c_io_attach_laws : CodecLaws c_io_attach. Proof. struct_laws. Qed.
#[export] Instance c_io_msgsend_laws : CodecLaws c_io_msgsend. Proof. struct_laws. Qed.
#[export] Instance c_io_msgsendv_laws : CodecLaws c_io_msgsendv. Proof. struct_laws. Qed.
#[export] Instance c_io_msgsendpulse_laws : CodecLaws c_io_msgsendpulse. Proof. struct_laws. Qed.
#[export] Instance c_msg_info_laws : CodecLaws c_msg_info. Proof. struct_laws. Qed.
#[export] Instance c_io_receive_laws : CodecLaws c_io_receive. Proof. struct_laws. Qed.
#[export] Instance c_io_reply_laws : CodecLaws c_io_reply. Proof. struct_laws. Qed.
#[export] Instance c_io_error_reply_laws : CodecLaws c_io_error_reply. Proof. struct_laws. Qed.
#[export] Instance c_io_read_laws : CodecLaws c_io_read. Proof. struct_laws. Qed.

Lemma le_value_range n bs : Forall is_byte bs -> 0 <= le_value n bs < 2 ^ (8 * Z.of_nat n).
Proof.
  revert bs. induction n as [|n IH]; intros bs Hb; cbn [le_value]; [lia|].
  replace (8 * Z.of_nat (S n)) with (8 + 8 * Z.of_nat n) by lia. rewrite Z.pow_add_r by lia.
  destruct Hb as [|b bs Hb Hbs]; [lia|]. specialize (IH bs Hbs). unfold is_byte in Hb. nia.
Qed.

(** the length that a structure in memory has is a [size_t] *)
Lemma dec_iovec_len bs : Forall is_byte bs -> 0 <= iov_len (c_dec c_iovec bs).
Proof. intros Hb. apply (le_value_range 8 (drop 8 bs)). by apply Forall_drop. Qed.

(** ** Properties *)

