(* ===== verification/UserMem.v ===== *)
(** * User memory and scatter/gather vectors (kernel/compatibility.h)

    The memory of the user processes is reached only through [copy_from_user]
    and [copy_to_user] of the Linux kernel.  They are an interface here: the
    class [UserMem] has the two operations on an abstract memory [M] whose
    address spaces are named by integers, and [UserMemLaws] states the
    documented behaviour the driver relies on.  [flatmem] is a concrete memory
    that satisfies the laws. *)

From S2P Require Import Prelude Layout.
From Stdlib Require Import ZArith Lia.
From stdpp Require Import base tactics list option gmap fin_maps.

Open Scope Z_scope.

(** ** The interface *)

(** the size of the user part of an address space; no larger copy succeeds *)
Definition TASK_SIZE : Z := 2 ^ 47.

Class UserMem (M : Type) := {
  (** [copy_from_user m mm addr n]: the [n] bytes at [addr] of the address space
      [mm], or [None] when not all of them could be read *)
  copy_from_user : M -> Z -> Z -> Z -> option (list Z);
  (** [copy_to_user m mm addr bytes]: the memory afterwards, and whether all
      bytes were written *)
  copy_to_user : M -> Z -> Z -> list Z -> M * bool
}.

Definition disjoint_ranges (a n b m : Z) : Prop := a + n <= b \/ b + m <= a.

Class UserMemLaws (M : Type) `{!UserMem M} : Prop := {
  copy_from_user_length u mm a n bs :
    copy_from_user u mm a n = Some bs -> Z.of_nat (length bs) = n /\ Forall is_byte bs;
  copy_from_user_size u mm a n : TASK_SIZE < n -> copy_from_user u mm a n = None;
  copy_to_from_user u u' mm a bs :
    copy_to_user u mm a bs = (u', true) -> Forall is_byte bs ->
    copy_from_user u' mm a (Z.of_nat (length bs)) = Some bs;
  copy_to_user_frame u u' ok mm mm' a a' bs n :
    copy_to_user u mm a bs = (u', ok) ->
    mm ≠ mm' \/ disjoint_ranges a (Z.of_nat (length bs)) a' n ->
    copy_from_user u' mm' a' n = copy_from_user u mm' a' n
}.

(** ** A concrete memory: bytes of the mapped addresses *)

Record flatmem := FlatMem { fm_bytes : gmap (Z * Z) Z }.

Fixpoint fm_read (m : gmap (Z * Z) Z) (mm a : Z) (n : nat) : option (list Z) :=
  match n with
  | O => Some []
  | S n' =>
      let? b := m !! (mm, a) in
      let? bs := fm_read m mm (a + 1) n' in
      Some (b mod 2 ^ 8 :: bs)
  end.

Fixpoint fm_write (m : gmap (Z * Z) Z) (mm a : Z) (bs : list Z) : gmap (Z * Z) Z * bool :=
  match bs with
  | [] => (m, true)
  | b :: bs' =>
      match m !! (mm, a) with
      | None => (m, false)
      | Some _ => fm_write (<[(mm, a) := b]> m) mm (a + 1) bs'
      end
  end.

#[export] Instance flatmem_user : UserMem flatmem := {
  copy_from_user u mm a n :=
    if bool_decide (0 <= n <= TASK_SIZE) then fm_read (fm_bytes u) mm a (Z.to_nat n) else None;
  copy_to_user u mm a bs :=
    let '(m, ok) := fm_write (fm_bytes u) mm a bs in
    (FlatMem m, ok && bool_decide (Z.of_nat (length bs) <= TASK_SIZE))
}.

(** ** Scatter/gather vectors *)

(** [iov_length] of <linux/uio.h>: the sum of the lengths, a [size_t] *)
Definition iov_length (iov : list iovec) : Z := foldr (fun v n => u64 (iov_len v + n)) 0 iov.

Definition min_unsigned (a b : Z) : Z := Z.min (u32 a) (u32 b).

Section Iovec.
  Context {M : Type} `{!UserMem M}.

(** The loops of memcpy_fromiovec and memcpy_toiovec.  The result is the return
    code, with the bytes gathered so far or the memory afterwards; [None] when
    the loop runs past the end of the vector or of the kernel buffer.  (The C
    code also advances the entries of its copy of the vector; the callers do not
    look at it again.) *)
Fixpoint memcpy_fromiovec (u : M) (mm : Z) (iov : list iovec) (len : Z) : option (Z * list Z) :=
  if len >? 0 then
    match iov with
    | [] => None
    | v :: iov' =>
        if iov_len v =? 0 then memcpy_fromiovec u mm iov' len
        else
          let copy := i32 (min_unsigned len (iov_len v)) in
          match copy_from_user u mm (iov_base v) copy with
          | None => Some (- EFAULT, [])
          | Some bs =>
              let? (rc, rest) := memcpy_fromiovec u mm iov' (len - copy) in
              Some (rc, bs ++ rest)
          end
    end
  else Some (0, []).

Fixpoint memcpy_toiovec (u : M) (mm : Z) (iov : list iovec) (kdata : list Z) (len : Z) : option (Z * M) :=
  if len >? 0 then
    match iov with
    | [] => None
    | v :: iov' =>
        if iov_len v =? 0 then memcpy_toiovec u mm iov' kdata len
        else
          let copy := i32 (min_unsigned (iov_len v) len) in
          if Z.of_nat (length kdata) <? copy then None
          else
            match copy_to_user u mm (iov_base v) (take (Z.to_nat copy) kdata) with
            | (u', false) => Some (- EFAULT, u')
            | (u', true) => memcpy_toiovec u' mm iov' (drop (Z.to_nat copy) kdata) (len - copy)
            end
    end
  else Some (0, u).

(** ** Reference definitions *)

(** the ranges that a transfer of [len] bytes touches, in order *)
Fixpoint iov_ranges (iov : list iovec) (len : Z) : list (Z * Z) :=
  match iov with
  | [] => []
  | v :: iov' =>
      if len <=? 0 then []
      else let n := Z.min (iov_len v) len in (iov_base v, n) :: iov_ranges iov' (len - n)
  end.

(** read all ranges, concatenated *)
Fixpoint gather (u : M) (mm : Z) (rs : list (Z * Z)) : option (list Z) :=
  match rs with
  | [] => Some []
  | (a, n) :: rs' =>
      let? bs := (if n =? 0 then Some [] else copy_from_user u mm a n) in
      let? rest := gather u mm rs' in Some (bs ++ rest)
  end.

End Iovec.

(** the lengths of a vector that a 32-bit process could pass: no length and no
    sum overflows *)
Definition iov_ok (iov : list iovec) : Prop :=
  Forall (fun v => 0 <= iov_len v <= INT_MAX) iov.

Definition iov_total (iov : list iovec) : Z := foldr (fun v n => iov_len v + n) 0 iov.

(** no byte is named by two of the ranges *)
Fixpoint ranges_disjoint (rs : list (Z * Z)) : Prop :=
  match rs with
  | [] => True
  | (a, n) :: rs' => Forall (fun '(b, m) => disjoint_ranges a n b m) rs' /\ ranges_disjoint rs'
  end.

(** ** Lemmas: the concrete memory satisfies the laws *)

Lemma fm_read_length m mm a n bs :
  fm_read m mm a n = Some bs -> length bs = n /\ Forall is_byte bs.
Proof.
  revert a bs. induction n as [|n IH]; intros a bs; cbn; [by intros [= <-]|].
  destruct (m !! (mm, a)) as [b|]; [|done]. destruct (fm_read m mm (a + 1) n) as [bs'|] eqn:E; [|done].
  intros [= <-]. apply IH in E as [<- ?]. split; [done|]. constructor; [|done].
  unfold is_byte. apply Z.mod_pos_bound. lia.
Qed.

Lemma fm_read_ext m m' mm a n :
  (forall b, a <= b < a + Z.of_nat n -> m !! (mm, b) = m' !! (mm, b)) ->
  fm_read m mm a n = fm_read m' mm a n.
Proof.
  revert a. induction n as [|n IH]; intros a Hm; cbn; [done|].
  rewrite (Hm a) by lia. rewrite (IH (a + 1)); [done|]. intros; apply Hm; lia.
Qed.

Lemma fm_write_lookup m mm a bs m' ok mm' a' :
  fm_write m mm a bs = (m', ok) ->
  mm ≠ mm' \/ ~ (a <= a' < a + Z.of_nat (length bs)) -> m' !! (mm', a') = m !! (mm', a').
Proof.
  revert m a. induction bs as [|b bs IH]; intros m a; cbn [fm_write length]; [by intros [= <- _]|].
  destruct (m !! (mm, a)) eqn:E; [|by intros [= <- _]]. intros Hw Hout.
  rewrite (IH _ _ Hw) by lia. apply lookup_insert_ne. intros [= -> ->]. lia.
Qed.

Lemma fm_write_read m mm a bs m' :
  fm_write m mm a bs = (m', true) -> Forall is_byte bs -> fm_read m' mm a (length bs) = Some bs.
Proof.
  revert m a. induction bs as [|b bs IH]; intros m a; cbn [fm_write length fm_read]; [done|].
  destruct (m !! (mm, a)) eqn:E; [|done]. intros Hw Hb. apply Forall_cons in Hb as [Hb Hbs].
  rewrite (fm_write_lookup _ _ _ _ _ _ mm a Hw), lookup_insert_eq by lia.
  rewrite (IH _ _ Hw Hbs). unfold is_byte in Hb. by rewrite Z.mod_small.
Qed.

#[export] Instance flatmem_laws : UserMemLaws flatmem.
Proof.
  split; cbn.
  - intros u mm a n bs. case_bool_decide; [|done]. intros [Hl ?]%fm_read_length. split; [lia|done].
  - intros u mm a n Hn. case_bool_decide; [lia|done].
  - intros u u' mm a bs. destruct (fm_write _ _ _ _) as [m' ok] eqn:E. intros [= <- Hok] Hb. cbn.
    apply andb_true_iff in Hok as [-> Hlen%bool_decide_eq_true].
    rewrite bool_decide_eq_true_2 by lia. rewrite Nat2Z.id. by eapply fm_write_read.
  - intros u u' ok mm mm' a a' bs n. destruct (fm_write _ _ _ _) as [m' ok'] eqn:E. intros [= <- _] Hd. cbn.
    case_bool_decide; [|done]. apply fm_read_ext. intros b Hb.
    eapply fm_write_lookup; [done|]. unfold disjoint_ranges in Hd. destruct Hd; [by left|right; lia].
Qed.

(** ** Lemmas on vectors *)

Lemma min_unsigned_int a b :
  0 <= a <= INT_MAX -> 0 <= b <= INT_MAX -> i32 (min_unsigned a b) = Z.min a b.
Proof.
  intros. unfold min_unsigned, INT_MAX in *. rewrite !u32_id by lia. apply i32_id. unfold_int. lia.
Qed.

Section IovecLemmas.
Context {M : Type} `{!UserMem M} `{!UserMemLaws M}.
Implicit Types (u : M) (iov : list iovec).

(** one pass of either loop *)
Lemma iov_ranges_cons v iov len :
  0 < len -> iov_ranges (v :: iov) len
    = (iov_base v, Z.min (iov_len v) len) :: iov_ranges iov (len - Z.min (iov_len v) len).
Proof. intros. cbn. case_cmp; [lia|done]. Qed.

Lemma iov_total_cons v iov : iov_total (v :: iov) = iov_len v + iov_total iov.
Proof. done. Qed.

Lemma iov_total_nonneg iov : iov_ok iov -> 0 <= iov_total iov.
Proof. induction 1 as [|v iov Hv Hok IH]; [done|]. rewrite iov_total_cons. lia. Qed.

Lemma iov_ranges_sum iov len :
  iov_ok iov -> 0 <= len -> len <= iov_total iov ->
  Forall (fun '(_, n) => 0 <= n) (iov_ranges iov len) /\
  foldr (fun '(_, n) s => n + s) 0 (iov_ranges iov len) = len.
Proof.
  revert len. induction iov as [|v iov IH]; intros len Hok Hlen Htot.
  { unfold iov_total in Htot. cbn in *. split; [constructor|lia]. }
  apply Forall_cons in Hok as [Hv Hok]. rewrite iov_total_cons in Htot.
  pose proof (iov_total_nonneg _ Hok). cbn [iov_ranges]. case_cmp; [split; [constructor|cbn; lia]|].
  destruct (IH (len - Z.min (iov_len v) len)) as [Hpos Hsum]; [done|lia|lia|].
  split; [constructor; [lia|done]|]. cbn [foldr]. rewrite Hsum. lia.
Qed.

Lemma gather_length u mm rs bs :
  gather u mm rs = Some bs -> Forall (fun '(_, n) => 0 <= n) rs ->
  Z.of_nat (length bs) = foldr (fun '(_, n) s => n + s) 0 rs.
Proof.
  revert bs. induction rs as [|[a n] rs IH]; intros bs; cbn; [by intros [= <-]|].
  destruct (if n =? 0 then _ else _) as [b1|] eqn:E1; [|done].
  destruct (gather u mm rs) as [b2|] eqn:E2; [|done]. intros [= <-] [Hn Hrs]%Forall_cons.
  rewrite length_app, Nat2Z.inj_add, (IH _ eq_refl Hrs). f_equal.
  case_cmp_in E1; [injection E1 as <-; cbn; lia|]. by apply copy_from_user_length in E1 as [? _].
Qed.

(** a write outside of all ranges does not change what is gathered *)
Lemma gather_frame u u' ok mm a bs rs :
  copy_to_user u mm a bs = (u', ok) ->
  Forall (fun '(b, m) => disjoint_ranges a (Z.of_nat (length bs)) b m) rs ->
  gather u' mm rs = gather u mm rs.
Proof.
  intros Hw. induction rs as [|[b m] rs IH]; cbn; [done|]. intros [Hd Hrs]%Forall_cons.
  rewrite (IH Hrs). by rewrite (copy_to_user_frame _ _ _ _ _ _ _ _ _ Hw (or_intror Hd)).
Qed.

Lemma fromiovec_gather u mm iov len :
  iov_ok iov -> 0 <= len <= INT_MAX -> len <= iov_total iov ->
  exists part, memcpy_fromiovec u mm iov len =
    Some (match gather u mm (iov_ranges iov len) with Some bs => (0, bs) | None => (- EFAULT, part) end).
Proof.
  revert len. induction iov as [|v iov IH]; intros len Hok Hlen Htot; cbn [memcpy_fromiovec].
  { unfold iov_total in Htot. cbn in Htot. rewrite Z.gtb_ltb. case_cmp; [lia|]. by exists []. }
  apply Forall_cons in Hok as [Hv Hok]. rewrite iov_total_cons in Htot.
  pose proof (iov_total_nonneg _ Hok). rewrite Z.gtb_ltb.
  destruct (Z.ltb_spec 0 len) as [Hpos|]; [|cbn; case_cmp; [by exists []|lia]].
  rewrite iov_ranges_cons by done. cbn [gather]. rewrite min_unsigned_int by lia.
  rewrite (Z.min_comm len). destruct (Z.eqb_spec (iov_len v) 0) as [H0|H0].
  - rewrite H0, Z.min_l, Z.sub_0_r by lia. change (0 =? 0) with true. cbn iota.
    destruct (IH len) as [part Hp]; [done|lia|lia|]. exists part. rewrite Hp.
    by destruct (gather u mm (iov_ranges iov len)).
  - case_cmp; [lia|]. destruct (copy_from_user u mm (iov_base v) _) as [bs|]; [|by exists []].
    destruct (IH (len - Z.min (iov_len v) len)) as [part ->]; [done|lia|lia|]. exists (bs ++ part).
    by destruct (gather u mm (iov_ranges iov _)).
Qed.

(** the frame of the whole loop *)
Lemma toiovec_frame u mm iov kdata len rc u' rs :
  iov_ok iov -> 0 <= len <= INT_MAX ->
  memcpy_toiovec u mm iov kdata len = Some (rc, u') ->
  Forall (fun '(a, n) => Forall (fun '(b, m) => disjoint_ranges a n b m) rs) (iov_ranges iov len) ->
  gather u' mm rs = gather u mm rs.
Proof.
  revert u kdata len. induction iov as [|v iov IH]; intros u kdata len Hok Hlen; cbn [memcpy_toiovec];
    rewrite Z.gtb_ltb; (destruct (Z.ltb_spec 0 len) as [Hpos|]; [|by intros [= <- <-]]); [done|].
  apply Forall_cons in Hok as [Hv Hok]. rewrite iov_ranges_cons by done. rewrite min_unsigned_int by lia.
  destruct (Z.eqb_spec (iov_len v) 0) as [H0|H0].
  { rewrite H0, Z.min_l, Z.sub_0_r by lia. intros Hr [_ Hd]%Forall_cons. by eapply IH. }
  case_cmp; [done|]. destruct (copy_to_user u mm (iov_base v) _) as [u1 ok] eqn:Hw.
  intros Hr [Hd1 Hd]%Forall_cons.
  assert (Hu1 : gather u1 mm rs = gather u mm rs).
  { eapply gather_frame; [done|]. rewrite length_take_le by lia. rewrite Z2Nat.id by lia. done. }
  destruct ok; [|by injection Hr as <- <-]. rewrite <- Hu1. eapply IH; [done| |done|done]. lia.
Qed.

Lemma toiovec_gather u mm iov kdata len :
  iov_ok iov -> 0 <= len <= INT_MAX -> len <= iov_total iov -> len <= Z.of_nat (length kdata) ->
  Forall is_byte kdata -> ranges_disjoint (iov_ranges iov len) ->
  exists rc u', memcpy_toiovec u mm iov kdata len = Some (rc, u') /\
    (rc = - EFAULT \/ rc = 0 /\ gather u' mm (iov_ranges iov len) = Some (take (Z.to_nat len) kdata)).
Proof.
  revert u kdata len. induction iov as [|v iov IH]; intros u kdata len Hok Hlen Htot Hk Hb; cbn [memcpy_toiovec];
    rewrite Z.gtb_ltb; (destruct (Z.ltb_spec 0 len) as [Hpos|Hneg];
      [|intros _; replace len with 0 by lia; do 2 eexists; split; [done|]; right; split; done]).
  { unfold iov_total in Htot. cbn in Htot. lia. }
  apply Forall_cons in Hok as [Hv Hok]. rewrite iov_total_cons in Htot.
  pose proof (iov_total_nonneg _ Hok).
  rewrite iov_ranges_cons by done. rewrite min_unsigned_int by lia. intros [Hd1 Hd].
  destruct (Z.eqb_spec (iov_len v) 0) as [H0|H0].
  { rewrite H0, Z.min_l, Z.sub_0_r in * by lia. cbn [gather]. change (0 =? 0) with true. cbn iota.
    destruct (IH u kdata len) as (rc & u' & Hr & Hres); [done|lia..|done|done|]. exists rc, u'. split; [done|].
    destruct Hres as [?|[? ->]]; [by left|by right]. }
  set (n := Z.min (iov_len v) len) in *. case_cmp; [lia|].
  assert (Hlt : length (take (Z.to_nat n) kdata) = Z.to_nat n) by (rewrite length_take_le; lia).
  destruct (copy_to_user u mm (iov_base v) _) as [u1 []] eqn:Hw; [|do 2 eexists; split; [done|by left]].
  destruct (IH u1 (drop (Z.to_nat n) kdata) (len - n)) as (rc & u' & Hr & Hres);
    [done|lia|lia|rewrite length_drop; lia|by apply Forall_drop|done|].
  exists rc, u'. split; [done|]. destruct Hres as [?|[-> Hg]]; [by left|right]. split; [done|].
  cbn [gather]. case_cmp; [lia|]. rewrite Hg.
  assert (Hself : gather u' mm [(iov_base v, n)] = gather u1 mm [(iov_base v, n)]).
  { eapply toiovec_frame; [| |done|]; [done|lia|]. eapply Forall_impl; [exact Hd1|].
    intros [b m] Hbm. constructor; [|done]. unfold disjoint_ranges in *. lia. }
  cbn [gather] in Hself. case_cmp_in Hself; [lia|].
  pose proof (copy_to_from_user _ _ _ _ _ Hw ltac:(by apply Forall_take)) as Hback.
  rewrite Hlt, Z2Nat.id in Hback by lia. rewrite Hback in Hself.
  destruct (copy_from_user u' mm (iov_base v) n) as [bs|]; [|done]. injection Hself as Hself.
  rewrite !app_nil_r in Hself. subst bs. rewrite take_take_drop.
  by replace (Z.to_nat n + Z.to_nat (len - n))%nat with (Z.to_nat len) by lia.
Qed.
End IovecLemmas.

(** ** Properties *)

(** Memcpy_fromiovec, called with a length that the vector covers, never
    runs past the vector.  It gathers exactly the first [len] bytes of the
    vector's ranges in order, and [-EFAULT] is returned when one of those ranges
    cannot be read. *)
Theorem memcpy_fromiovec_gathers {M : Type} `{!UserMem M} `{!UserMemLaws M}
    (u : M) (mm : Z) (iov : list iovec) (len : Z) :
  iov_ok iov -> 0 <= len <= INT_MAX -> len <= iov_total iov ->
  match memcpy_fromiovec u mm iov len, gather u mm (iov_ranges iov len) with
  | Some (rc, bs), Some bs' => rc = 0 /\ bs = bs' /\ Z.of_nat (length bs) = len
  | Some (rc, _), None => rc = - EFAULT
  | None, _ => False
  end.
Proof.
  intros Hok Hlen Htot. destruct (fromiovec_gather u mm iov len) as [part ->]; [done..|].
  destruct (gather u mm (iov_ranges iov len)) as [bs|] eqn:Hg; [|done]. split_and!; [done..|].
  destruct (iov_ranges_sum iov len) as [Hpos Hsum]; [done|lia|lia|].
  by rewrite (gather_length _ _ _ _ Hg Hpos).
Qed.

