(* ===== verification/Kernel.v ===== *)
(** * The kernel state the driver works on, and its monad

    The objects that the driver allocates live in one typed heap; pointers are
    shared between lists, other objects and stack frames as in the C code.  A
    driver function is a computation [K M A]: it runs on a kernel state and is
    [Done] with a result and a new state, or is an [Oops] (an access to memory
    that is not there: a freed object, NULL, a read past a buffer) or a [Spin]
    (a busy loop on a condition that only another thread can change).

    The primitives of the Linux kernel that the driver calls ([kmalloc],
    [kfree], the circular lists, [wake_up_process]) are defined here or in the
    prelude.  Spin locks and RCU sections delimit what one computation does
    atomically and have no effect of their own. *)

From S2P Require Import Prelude Layout UserMem ConnectionTable.
From Stdlib Require Import ZArith Lia.
From stdpp Require Import base tactics list option gmap fin_maps sets.

Open Scope Z_scope.

(** ** Objects *)

Abbreviation ptr := positive.

(** [struct task_struct]: thread id and process id *)
Record task_struct := Task { tsk_pid : Z; tsk_tgid : Z }.

Definition current_get_pid_nr (cur : task_struct) : Z := tsk_tgid cur.
Definition current_get_tid_nr (cur : task_struct) : Z := tsk_pid cur.

(** where the bytes of a message to send are: still in user memory, in a buffer
    of its own, or directly behind the message object ([data + 1]) *)
Inductive in_buffer :=
  | InUser (addr : Z)
  | InKernel (p : ptr)
  | InTail.

(** the buffer for the reply: in user memory, or (vectored send) a kernel buffer
    that only says that there is one *)
Inductive out_buffer :=
  | OutUser (addr : Z)
  | OutKernel (p : ptr).

Definition out_is_null (b : out_buffer) : bool :=
  match b with OutUser a => a =? 0 | OutKernel _ => false end.

(** the kernel's copy of [struct qnx_io_msgsend] *)
Record msg_body := MsgBody {
  mb_coid : Z;
  mb_timeout_ms : Z;
  mb_in_base : in_buffer;
  mb_in_len : Z;
  mb_out_base : out_buffer;
  mb_out_len : Z
}.

(** [union { struct qnx_io_msgsend msg; struct qnx_io_msgsendpulse pulse; }] *)
Inductive msg_data :=
  | DMsg (b : msg_body)
  | DPulse (p : qnx_io_msgsendpulse).

Definition QNX_STATE_INITIAL : Z := 0.
Definition QNX_STATE_RECEIVING : Z := 1.
Definition QNX_STATE_PENDING : Z := 2.
Definition QNX_STATE_FINISHED : Z := 3.

Record qnx_internal_msgsend := Msgsend {
  rcvid : Z;
  status : Z;
  sender_pid : Z;
  receiver_pid : Z;
  receiver_chid : Z;
  data : msg_data;
  reply_base : option ptr;
  reply_len : Z;
  task : option task_struct;
  state : Z;
  msg_tail : list Z            (* the bytes behind the object, for [InTail] *)
}.

Record qnx_channel := Channel {
  ch_refcnt : Z;
  ch_chid : Z;
  waiting : list ptr;
  num_waiting : Z;
  num_waiting_noreply : Z
}.

Record qnx_pollfd := Pollfd { pf_file : ptr; pf_chid : Z }.

Record qnx_process_entry := ProcessEntry {
  pe_refcnt : Z;
  pe_pid : Z;
  channels : list ptr;
  pe_connections : qnx_connection_table;
  pending : list ptr;
  pollfds : list ptr
}.

(** [struct file]: the fields the driver uses *)
Record file := File { f_mode : Z; private_data : option ptr }.

Inductive kobj :=
  | ORaw                                   (* allocated, contents not written *)
  | OBuf (bytes : list Z)
  | OMsg (m : qnx_internal_msgsend)
  | OChan (c : qnx_channel)
  | OProc (e : qnx_process_entry)
  | OPollfd (f : qnx_pollfd)
  | OFile (f : file).

(** ** Field updates *)

Definition set_status (v : Z) (m : qnx_internal_msgsend) : qnx_internal_msgsend :=
  Msgsend (rcvid m) v (sender_pid m) (receiver_pid m) (receiver_chid m) (data m)
    (reply_base m) (reply_len m) (task m) (state m) (msg_tail m).
Definition set_state (v : Z) (m : qnx_internal_msgsend) : qnx_internal_msgsend :=
  Msgsend (rcvid m) (status m) (sender_pid m) (receiver_pid m) (receiver_chid m) (data m)
    (reply_base m) (reply_len m) (task m) v (msg_tail m).
Definition set_receiver_pid (v : Z) (m : qnx_internal_msgsend) : qnx_internal_msgsend :=
  Msgsend (rcvid m) (status m) (sender_pid m) v (receiver_chid m) (data m)
    (reply_base m) (reply_len m) (task m) (state m) (msg_tail m).
Definition set_receiver_chid (v : Z) (m : qnx_internal_msgsend) : qnx_internal_msgsend :=
  Msgsend (rcvid m) (status m) (sender_pid m) (receiver_pid m) v (data m)
    (reply_base m) (reply_len m) (task m) (state m) (msg_tail m).
Definition set_data (v : msg_data) (m : qnx_internal_msgsend) : qnx_internal_msgsend :=
  Msgsend (rcvid m) (status m) (sender_pid m) (receiver_pid m) (receiver_chid m) v
    (reply_base m) (reply_len m) (task m) (state m) (msg_tail m).
Definition set_reply (b : option ptr) (l : Z) (m : qnx_internal_msgsend) : qnx_internal_msgsend :=
  Msgsend (rcvid m) (status m) (sender_pid m) (receiver_pid m) (receiver_chid m) (data m)
    b l (task m) (state m) (msg_tail m).
Definition set_task (t : option task_struct) (m : qnx_internal_msgsend) : qnx_internal_msgsend :=
  Msgsend (rcvid m) (status m) (sender_pid m) (receiver_pid m) (receiver_chid m) (data m)
    (reply_base m) (reply_len m) t (state m) (msg_tail m).

Definition set_ch_refcnt (v : Z) (c : qnx_channel) : qnx_channel :=
  Channel v (ch_chid c) (waiting c) (num_waiting c) (num_waiting_noreply c).
Definition set_waiting (v : list ptr) (c : qnx_channel) : qnx_channel :=
  Channel (ch_refcnt c) (ch_chid c) v (num_waiting c) (num_waiting_noreply c).
Definition set_num_waiting (v : Z) (c : qnx_channel) : qnx_channel :=
  Channel (ch_refcnt c) (ch_chid c) (waiting c) v (num_waiting_noreply c).
Definition set_num_waiting_noreply (v : Z) (c : qnx_channel) : qnx_channel :=
  Channel (ch_refcnt c) (ch_chid c) (waiting c) (num_waiting c) v.

Definition set_pe_refcnt (v : Z) (e : qnx_process_entry) : qnx_process_entry :=
  ProcessEntry v (pe_pid e) (channels e) (pe_connections e) (pending e) (pollfds e).
Definition set_channels (v : list ptr) (e : qnx_process_entry) : qnx_process_entry :=
  ProcessEntry (pe_refcnt e) (pe_pid e) v (pe_connections e) (pending e) (pollfds e).
Definition set_connections (v : qnx_connection_table) (e : qnx_process_entry) : qnx_process_entry :=
  ProcessEntry (pe_refcnt e) (pe_pid e) (channels e) v (pending e) (pollfds e).
Definition set_pending (v : list ptr) (e : qnx_process_entry) : qnx_process_entry :=
  ProcessEntry (pe_refcnt e) (pe_pid e) (channels e) (pe_connections e) v (pollfds e).
Definition set_pollfds (v : list ptr) (e : qnx_process_entry) : qnx_process_entry :=
  ProcessEntry (pe_refcnt e) (pe_pid e) (channels e) (pe_connections e) (pending e) v.

Definition set_private_data (v : option ptr) (f : file) : file := File (f_mode f) v.

(** ** The kernel state *)

(** the module parameters *)
Record params := Params {
  qnx_max_connections_per_process : Z;
  qnx_max_channels_per_process : Z;
  qnx_max_noreply_msg_size : Z;
  qnx_max_noreply_msg_num : Z
}.

Definition default_params : params := Params 256 64 4096 128.

(** what other threads can notice of a call *)
Inductive event :=
  | EvWakeUpProcess (t : task_struct)
  | EvWakeUp (chnl : ptr).

Record kstate (M : Type) := KState {
  ks_heap : gmap ptr kobj;
  ks_next : ptr;               (* all addresses in use are below *)
  ks_oom : list bool;          (* the coming answers of kmalloc, see the prelude *)
  ks_garbage : Z;              (* what memory that was never written reads as *)
  ks_user : M;                 (* user memory *)
  ks_entries : list ptr;       (* driver_data.process_entries *)
  ks_next_channel_id : Z;      (* gbl_next_channel_id *)
  ks_next_rcvid : Z;           (* gbl_next_rcvid *)
  ks_params : params;
  ks_sleeping : gset Z;        (* the threads in TASK_INTERRUPTIBLE *)
  ks_trace : list event        (* the latest event first *)
}.
Arguments KState {M}.
Arguments ks_heap {M}. Arguments ks_next {M}. Arguments ks_oom {M}. Arguments ks_garbage {M}.
Arguments ks_user {M}. Arguments ks_entries {M}. Arguments ks_next_channel_id {M}.
Arguments ks_next_rcvid {M}. Arguments ks_params {M}. Arguments ks_sleeping {M}. Arguments ks_trace {M}.

Inductive oops :=
  | BadAccess (p : ptr)        (* no object of the expected type at [p] *)
  | BadFree
  | NullAccess
  | OutOfBounds
  | UnionMisread.              (* the other member of the union was written *)

Inductive outcome (A : Type) :=
  | Done (a : A)
  | Oops (o : oops)
  | Spin.
Arguments Done {A}. Arguments Oops {A}. Arguments Spin {A}.

Definition K (M A : Type) : Type := kstate M -> outcome (A * kstate M).

Section Monad.
Context {M : Type}.

Definition kret {A} (a : A) : K M A := fun s => Done (a, s).

Definition kbind {A B} (c : K M A) (k : A -> K M B) : K M B := fun s =>
  match c s with
  | Done (a, s') => k a s'
  | Oops o => Oops o
  | Spin => Spin
  end.

Definition koops {A} (o : oops) : K M A := fun _ => Oops o.

(** [while (b);] *)
Definition spin_while (b : bool) : K M unit := fun s => if b then Spin else Done (tt, s).
End Monad.

Notation "'let!' x ':=' c 'in' k" := (kbind c (fun x => k))
  (at level 200, x pattern, c at level 200, k at level 200,
   format "'[v' 'let!'  x  ':='  c  'in' '/' k ']'") : qnx_scope.
Notation "c ;;; k" := (kbind c (fun _ => k)) (at level 199, right associativity,
   format "'[v' c  ;;; '/' k ']'") : qnx_scope.

(** ** State updates *)

Section Updates.
Context {M : Type}.
Implicit Types s : kstate M.

Definition upd_heap (f : gmap ptr kobj -> gmap ptr kobj) s : kstate M :=
  KState (f (ks_heap s)) (ks_next s) (ks_oom s) (ks_garbage s) (ks_user s) (ks_entries s)
    (ks_next_channel_id s) (ks_next_rcvid s) (ks_params s) (ks_sleeping s) (ks_trace s).
Definition upd_alloc (p : ptr) (o : kobj) s : kstate M :=
  KState (<[p := o]> (ks_heap s)) (Pos.succ p) (ks_oom s) (ks_garbage s) (ks_user s) (ks_entries s)
    (ks_next_channel_id s) (ks_next_rcvid s) (ks_params s) (ks_sleeping s) (ks_trace s).
Definition upd_oom (l : list bool) s : kstate M :=
  KState (ks_heap s) (ks_next s) l (ks_garbage s) (ks_user s) (ks_entries s)
    (ks_next_channel_id s) (ks_next_rcvid s) (ks_params s) (ks_sleeping s) (ks_trace s).
Definition upd_user (u : M) s : kstate M :=
  KState (ks_heap s) (ks_next s) (ks_oom s) (ks_garbage s) u (ks_entries s)
    (ks_next_channel_id s) (ks_next_rcvid s) (ks_params s) (ks_sleeping s) (ks_trace s).
Definition upd_entries (l : list ptr) s : kstate M :=
  KState (ks_heap s) (ks_next s) (ks_oom s) (ks_garbage s) (ks_user s) l
    (ks_next_channel_id s) (ks_next_rcvid s) (ks_params s) (ks_sleeping s) (ks_trace s).
Definition upd_next_channel_id (n : Z) s : kstate M :=
  KState (ks_heap s) (ks_next s) (ks_oom s) (ks_garbage s) (ks_user s) (ks_entries s)
    n (ks_next_rcvid s) (ks_params s) (ks_sleeping s) (ks_trace s).
Definition upd_next_rcvid (n : Z) s : kstate M :=
  KState (ks_heap s) (ks_next s) (ks_oom s) (ks_garbage s) (ks_user s) (ks_entries s)
    (ks_next_channel_id s) n (ks_params s) (ks_sleeping s) (ks_trace s).
Definition upd_params (p : params) s : kstate M :=
  KState (ks_heap s) (ks_next s) (ks_oom s) (ks_garbage s) (ks_user s) (ks_entries s)
    (ks_next_channel_id s) (ks_next_rcvid s) p (ks_sleeping s) (ks_trace s).
Definition upd_sleeping (g : gset Z) s : kstate M :=
  KState (ks_heap s) (ks_next s) (ks_oom s) (ks_garbage s) (ks_user s) (ks_entries s)
    (ks_next_channel_id s) (ks_next_rcvid s) (ks_params s) g (ks_trace s).
Definition upd_trace (e : event) s : kstate M :=
  KState (ks_heap s) (ks_next s) (ks_oom s) (ks_garbage s) (ks_user s) (ks_entries s)
    (ks_next_channel_id s) (ks_next_rcvid s) (ks_params s) (ks_sleeping s) (e :: ks_trace s).
End Updates.

(** ** Primitives *)

Section Primitives.
Context {M : Type} `{!UserMem M}.

Definition kget {A} (f : kstate M -> A) : K M A := fun s => Done (f s, s).
Definition kmod (f : kstate M -> kstate M) : K M unit := fun s => Done (tt, f s).

Definition get_msg (p : ptr) : K M qnx_internal_msgsend := fun s =>
  match ks_heap s !! p with Some (OMsg m) => Done (m, s) | _ => Oops (BadAccess p) end.
Definition get_chan (p : ptr) : K M qnx_channel := fun s =>
  match ks_heap s !! p with Some (OChan c) => Done (c, s) | _ => Oops (BadAccess p) end.
Definition get_proc (p : ptr) : K M qnx_process_entry := fun s =>
  match ks_heap s !! p with Some (OProc e) => Done (e, s) | _ => Oops (BadAccess p) end.
Definition get_pollfd (p : ptr) : K M qnx_pollfd := fun s =>
  match ks_heap s !! p with Some (OPollfd f) => Done (f, s) | _ => Oops (BadAccess p) end.
Definition get_file (p : ptr) : K M file := fun s =>
  match ks_heap s !! p with Some (OFile f) => Done (f, s) | _ => Oops (BadAccess p) end.
Definition get_buf (p : ptr) : K M (list Z) := fun s =>
  match ks_heap s !! p with Some (OBuf b) => Done (b, s) | _ => Oops (BadAccess p) end.

(** a store through a pointer to an allocated object *)
Definition put (p : ptr) (o : kobj) : K M unit := fun s =>
  match ks_heap s !! p with
  | Some _ => Done (tt, upd_heap <[p := o]> s)
  | None => Oops (BadAccess p)
  end.
Definition put_msg (p : ptr) (m : qnx_internal_msgsend) : K M unit := put p (OMsg m).
Definition put_chan (p : ptr) (c : qnx_channel) : K M unit := put p (OChan c).
Definition put_proc (p : ptr) (e : qnx_process_entry) : K M unit := put p (OProc e).

(** a new object at a fresh address; local variables of a stack frame whose
    address is taken are objects too *)
Definition new_obj (o : kobj) : K M ptr := fun s => Done (ks_next s, upd_alloc (ks_next s) o s).

Definition kmalloc : K M (option ptr) := fun s =>
  let '(ok, oom') := kmalloc_answer (ks_oom s) in
  if ok then Done (Some (ks_next s), upd_oom oom' (upd_alloc (ks_next s) ORaw s))
  else Done (None, upd_oom oom' s).

Definition kfree (p : ptr) : K M unit := fun s =>
  match ks_heap s !! p with
  | Some _ => Done (tt, upd_heap (delete p) s)
  | None => Oops BadFree
  end.

(** [kfree(NULL)] does nothing *)
Definition kfree_opt (p : option ptr) : K M unit :=
  match p with Some p => kfree p | None => kret tt end.

(** the frame of a local object ends *)
Definition end_frame (p : ptr) : K M unit := kfree p.

Definition user_read (mm a n : Z) : K M (option (list Z)) :=
  kget (fun s => copy_from_user (ks_user s) mm a n).

(** [copy_to_user(a, bytes) == 0] *)
Definition user_write (mm a : Z) (bytes : list Z) : K M bool := fun s =>
  let '(u, ok) := copy_to_user (ks_user s) mm a bytes in Done (ok, upd_user u s).

(** [copy_from_user] of a structure *)
Definition user_read_struct {A} (c : codec A) (mm a : Z) : K M (option A) :=
  let! bs := user_read mm a (Z.of_nat (c_size c)) in kret (option_map (c_dec c) bs).

Definition set_current_state_interruptible (t : task_struct) : K M unit :=
  kmod (fun s => upd_sleeping ({[tsk_pid t]} ∪ ks_sleeping s) s).

Definition wake_up_process (t : task_struct) : K M unit :=
  kmod (fun s => upd_trace (EvWakeUpProcess t) (upd_sleeping (ks_sleeping s ∖ {[tsk_pid t]}) s)).

Definition wake_up (chnl : ptr) : K M unit := kmod (upd_trace (EvWakeUp chnl)).

(** bytes [off .. off + n) of a kernel buffer *)
Definition slice (off n : Z) (bytes : list Z) : K M (list Z) :=
  if bool_decide (0 <= off /\ 0 <= n /\ off + n <= Z.of_nat (length bytes))
  then kret (take (Z.to_nat n) (drop (Z.to_nat off) bytes))
  else koops OutOfBounds.

(** a loop [list_for_each] that stops at the first object that passes a test *)
Fixpoint list_find_entry (test : ptr -> K M bool) (l : list ptr) : K M (option ptr) :=
  match l with
  | [] => kret None
  | p :: l' => let! b := test p in if b then kret (Some p) else list_find_entry test l'
  end.
End Primitives.

(** ** Total correctness

    [wp c Q s]: started in [s], the computation [c] returns (it neither oopses
    nor spins) and its result and final state satisfy [Q]. *)

Definition wp {M A} (c : K M A) (Q : A -> kstate M -> Prop) (s : kstate M) : Prop :=
  match c s with
  | Done (a, s') => Q a s'
  | Oops _ => False
  | Spin => False
  end.

Section WpRules.
Context {M : Type} `{!UserMem M}.
Implicit Types s : kstate M.

Lemma wp_mono {A} (c : K M A) (Q R : A -> kstate M -> Prop) s :
  wp c Q s -> (forall a s', Q a s' -> R a s') -> wp c R s.
Proof. unfold wp. destruct (c s) as [[a s']| |]; eauto. Qed.

Lemma wp_run {A} (c : K M A) (Q : A -> kstate M -> Prop) s :
  wp c Q s <-> exists a s', c s = Done (a, s') /\ Q a s'.
Proof. unfold wp. destruct (c s) as [[a s']| |]; naive_solver. Qed.

(** to show that a computation oopses: run it up to the bad step *)
Lemma oops_next {A B} (c : K M A) (k : A -> K M B) o s :
  wp c (fun a s' => k a s' = Oops o) s -> kbind c k s = Oops o.
Proof. unfold wp, kbind. by destruct (c s) as [[a s']| |]. Qed.

Lemma oops_here {A B} (c : K M A) (k : A -> K M B) o s : c s = Oops o -> kbind c k s = Oops o.
Proof. unfold kbind. by intros ->. Qed.

Lemma wp_ret {A} (a : A) Q s : Q a s -> wp (kret a) Q s.
Proof. done. Qed.

Lemma wp_bind {A B} (c : K M A) (k : A -> K M B) Q s :
  wp c (fun a s' => wp (k a) Q s') s -> wp (kbind c k) Q s.
Proof. unfold wp, kbind. by destruct (c s) as [[a s']| |]. Qed.

Lemma wp_kget {A} (f : kstate M -> A) Q s : Q (f s) s -> wp (kget f) Q s.
Proof. done. Qed.

Lemma wp_kmod f Q s : Q tt (f s) -> wp (kmod f) Q s.
Proof. done. Qed.

Lemma wp_get_msg p m Q s : ks_heap s !! p = Some (OMsg m) -> Q m s -> wp (get_msg p) Q s.
Proof. unfold wp, get_msg. by intros ->. Qed.
Lemma wp_get_chan p c Q s : ks_heap s !! p = Some (OChan c) -> Q c s -> wp (get_chan p) Q s.
Proof. unfold wp, get_chan. by intros ->. Qed.
Lemma wp_get_proc p e Q s : ks_heap s !! p = Some (OProc e) -> Q e s -> wp (get_proc p) Q s.
Proof. unfold wp, get_proc. by intros ->. Qed.
Lemma wp_get_pollfd p f Q s : ks_heap s !! p = Some (OPollfd f) -> Q f s -> wp (get_pollfd p) Q s.
Proof. unfold wp, get_pollfd. by intros ->. Qed.
Lemma wp_get_file p f Q s : ks_heap s !! p = Some (OFile f) -> Q f s -> wp (get_file p) Q s.
Proof. unfold wp, get_file. by intros ->. Qed.
Lemma wp_get_buf p b Q s : ks_heap s !! p = Some (OBuf b) -> Q b s -> wp (get_buf p) Q s.
Proof. unfold wp, get_buf. by intros ->. Qed.

Lemma wp_put p o o' Q s :
  ks_heap s !! p = Some o' -> Q tt (upd_heap <[p := o]> s) -> wp (put p o) Q s.
Proof. unfold wp, put. by intros ->. Qed.

Lemma wp_kfree p o Q s :
  ks_heap s !! p = Some o -> Q tt (upd_heap (delete p) s) -> wp (kfree p) Q s.
Proof. unfold wp, kfree. by intros ->. Qed.

Lemma wp_new_obj o Q s : Q (ks_next s) (upd_alloc (ks_next s) o s) -> wp (new_obj o) Q s.
Proof. done. Qed.

Lemma wp_kmalloc oom' Q s :
  kmalloc_answer (ks_oom s) = (true, oom') ->
  Q (Some (ks_next s)) (upd_oom oom' (upd_alloc (ks_next s) ORaw s)) -> wp kmalloc Q s.
Proof. unfold wp, kmalloc. by intros ->. Qed.

Lemma wp_kmalloc_fail oom' Q s :
  kmalloc_answer (ks_oom s) = (false, oom') -> Q None (upd_oom oom' s) -> wp kmalloc Q s.
Proof. unfold wp, kmalloc. by intros ->. Qed.

Lemma wp_user_write mm a bs u ok Q s :
  copy_to_user (ks_user s) mm a bs = (u, ok) -> Q ok (upd_user u s) -> wp (user_write mm a bs) Q s.
Proof. unfold wp, user_write. by intros ->. Qed.

Lemma wp_user_read mm a n Q s : Q (copy_from_user (ks_user s) mm a n) s -> wp (user_read mm a n) Q s.
Proof. done. Qed.

Lemma wp_user_read_struct {A} (c : codec A) mm a Q s :
  Q (option_map (c_dec c) (copy_from_user (ks_user s) mm a (Z.of_nat (c_size c)))) s ->
  wp (user_read_struct c mm a) Q s.
Proof. done. Qed.

Lemma wp_spin_while b Q s : b = false -> Q tt s -> wp (M := M) (spin_while b) Q s.
Proof. by intros ->. Qed.

Lemma wp_slice off n bytes Q s :
  0 <= off -> 0 <= n -> off + n <= Z.of_nat (length bytes) ->
  Q (take (Z.to_nat n) (drop (Z.to_nat off) bytes)) s -> wp (slice (M := M) off n bytes) Q s.
Proof. intros. unfold slice. by rewrite bool_decide_eq_true_2. Qed.

Lemma list_find_entry_run (test : ptr -> K M bool) (f : ptr -> bool) l s :
  (forall p, p ∈ l -> test p s = Done (f p, s)) ->
  list_find_entry test l s = Done (List.find f l, s).
Proof.
  induction l as [|p l IH]; intros Ht; [done|]. cbn. unfold kbind at 1. rewrite Ht by left.
  destruct (f p); [done|]. apply IH. intros q Hq. apply Ht. by right.
Qed.

Lemma wp_eq {A} (c : K M A) a s' (Q : A -> kstate M -> Prop) s : c s = Done (a, s') -> Q a s' -> wp c Q s.
Proof. unfold wp. by intros ->. Qed.

Lemma wp_of_run {A} (c : K M A) o (Q : A -> kstate M -> Prop) s :
  c s = o -> match o with Done (a, s') => Q a s' | _ => False end -> wp c Q s.
Proof. unfold wp. by intros ->. Qed.

(** heap pointers to objects of different kinds differ *)
Lemma heap_ne s p q o o' :
  ks_heap s !! p = Some o -> ks_heap s !! q = Some o' -> o ≠ o' -> p ≠ q.
Proof. congruence. Qed.
End WpRules.

Ltac ks_simpl :=
  cbn [ks_heap ks_next ks_oom ks_garbage ks_user ks_entries ks_next_channel_id ks_next_rcvid
       ks_params ks_sleeping ks_trace upd_heap upd_alloc upd_oom upd_user upd_entries
       upd_next_channel_id upd_next_rcvid upd_params upd_sleeping upd_trace] in *.

(** two pointers to objects of different kinds, or one of them fresh *)
Ltac ptr_ne := solve [ congruence | let H := fresh in intros H; subst; congruence ].

(** a lookup in a heap after updates *)
Ltac heap_lookup :=
  ks_simpl;
  repeat first
    [ rewrite lookup_insert_eq
    | rewrite lookup_delete_ne by ptr_ne
    | rewrite lookup_insert_ne by ptr_ne ];
  first [eassumption | reflexivity].

(** one step of symbolic execution *)
Ltac kstep :=
  lazymatch goal with
  | |- wp (kbind _ _) _ _ => apply wp_bind
  | |- wp (kret _) _ _ => apply wp_ret
  | |- wp (kget _) _ _ => apply wp_kget
  | |- wp (kmod _) _ _ => apply wp_kmod
  | |- wp (get_msg _) _ _ => eapply wp_get_msg; [heap_lookup|]
  | |- wp (get_chan _) _ _ => eapply wp_get_chan; [heap_lookup|]
  | |- wp (get_proc _) _ _ => eapply wp_get_proc; [heap_lookup|]
  | |- wp (get_pollfd _) _ _ => eapply wp_get_pollfd; [heap_lookup|]
  | |- wp (get_file _) _ _ => eapply wp_get_file; [heap_lookup|]
  | |- wp (get_buf _) _ _ => eapply wp_get_buf; [heap_lookup|]
  | |- wp (put _ _) _ _ => eapply wp_put; [heap_lookup|]
  | |- wp (put_msg _ _) _ _ => unfold put_msg; eapply wp_put; [heap_lookup|]
  | |- wp (put_chan _ _) _ _ => unfold put_chan; eapply wp_put; [heap_lookup|]
  | |- wp (put_proc _ _) _ _ => unfold put_proc; eapply wp_put; [heap_lookup|]
  | |- wp (kfree _) _ _ => eapply wp_kfree; [heap_lookup|]
  | |- wp (end_frame _) _ _ => unfold end_frame; eapply wp_kfree; [heap_lookup|]
  | |- wp (new_obj _) _ _ => apply wp_new_obj
  | |- wp (wake_up _) _ _ => apply wp_kmod
  | |- wp (wake_up_process _) _ _ => apply wp_kmod
  | |- wp (set_current_state_interruptible _) _ _ => apply wp_kmod
  | |- wp (user_write _ _ _) _ _ => eapply wp_user_write; [ks_simpl; eassumption|]
  | |- wp (user_read _ _ _) _ _ => apply wp_user_read; ks_simpl
  | |- wp (user_read_struct _ _ _) _ _ => apply wp_user_read_struct; ks_simpl
  | |- wp (spin_while _) _ _ => apply wp_spin_while; [reflexivity || eassumption|]
  | |- wp (slice _ _ _) _ _ => apply wp_slice; [lia..|]
  end.

Ltac ksteps := cbn beta iota; repeat (kstep; cbn beta iota).

(** equality of two heaps built by updates from the same one *)
Ltac heap_eq :=
  ks_simpl; apply map_eq; intros ?; 
  repeat first [rewrite lookup_insert | rewrite lookup_delete];
  repeat case_decide; subst; try first [congruence | done].

(** everything but the heap and the counters of the allocator *)
Definition rest {M} (s : kstate M) : M * list ptr * Z * params * gset Z * list event :=
  (ks_user s, ks_entries s, ks_next_channel_id s, ks_params s, ks_sleeping s, ks_trace s).

(** the process list, the state of the allocator and the counter for ids *)
Definition alloc {M} (s : kstate M) : list ptr * ptr * list bool * Z := (ks_entries s, ks_next s, ks_oom s, ks_next_rcvid s).

(** no object at the addresses that are not handed out yet *)
Definition fresh_above {M} (s : kstate M) : Prop :=
  forall q, (ks_next s <= q)%positive -> ks_heap s !! q = None.

Lemma fresh_next {M} (s : kstate M) : fresh_above s -> ks_heap s !! ks_next s = None.
Proof. intros Hf. apply Hf. lia. Qed.

Lemma fresh_lt {M} (s : kstate M) p o : fresh_above s -> ks_heap s !! p = Some o -> (p < ks_next s)%positive.
Proof.
  intros Hf Hp. destruct (Pos.lt_total p (ks_next s)) as [?|Hge]; [done|].
  rewrite Hf in Hp by lia. done.
Qed.

Ltac onext := apply oops_next; kstep; cbn beta iota.
Ltac ohere := apply oops_here.

(** equality of two states built by updates from the same one *)
Ltac state_eq :=
  unfold upd_heap, upd_user, upd_oom, upd_alloc, upd_trace, upd_sleeping, upd_next_rcvid,
    upd_next_channel_id, upd_entries, upd_params; ks_simpl; f_equal; try done; heap_eq.
