(* ===== verification/Msgsend.v ===== *)
(** * Messages (kernel/internal_msgsend.{h,c})

    Constructors and destructors of [struct qnx_internal_msgsend].  A message
    that is sent by a blocking call lives on the sender's stack and owns its
    buffers; a pulse and a no-reply message are heap objects of their own, and
    the bytes of a no-reply message are stored directly behind the object. *)

From S2P Require Import Prelude Layout UserMem ConnectionTable Kernel.
From Stdlib Require Import ZArith Lia.
From stdpp Require Import base tactics list option gmap fin_maps sets.

Open Scope Z_scope.

(** an object whose memory was not written, and one after [memset(.., 0, ..)] *)
Definition garbage_msg (g : Z) : qnx_internal_msgsend :=
  Msgsend g g g g g (DPulse (IoMsgsendpulse g g g)) None g None g [].
Definition zero_msg : qnx_internal_msgsend := garbage_msg 0.

Section Msgsend.
  Context {M : Type} `{!UserMem M}.

(** [atomic_inc_return(&gbl_next_rcvid)] *)
Definition get_new_rcvid : K M Z :=
  let! n := kget ks_next_rcvid in
  let id := i32 (n + 1) in
  kmod (upd_next_rcvid id) ;;; kret id.

(** [kfree] of the [in.iov_base] of a message *)
Definition kfree_in (b : in_buffer) : K M unit :=
  match b with
  | InKernel p => kfree p
  | InUser a => if a =? 0 then kret tt else koops BadFree
  | InTail => koops BadFree
  end.

Definition kfree_out (b : out_buffer) : K M unit :=
  match b with
  | OutKernel p => kfree p
  | OutUser a => if a =? 0 then kret tt else koops BadFree
  end.

(** [data->data.msg] and [data->data.pulse] *)
Definition body_of (m : qnx_internal_msgsend) : K M msg_body :=
  match data m with DMsg b => kret b | DPulse _ => koops UnionMisread end.
Definition pulse_of (m : qnx_internal_msgsend) : K M qnx_io_msgsendpulse :=
  match data m with DPulse p => kret p | DMsg _ => koops UnionMisread end.

(** the bytes behind [in.iov_base] *)
Definition in_bytes (m : qnx_internal_msgsend) (b : in_buffer) : K M (list Z) :=
  match b with
  | InKernel p => get_buf p
  | InTail => kret (msg_tail m)
  | InUser a => koops NullAccess
  end.

(** the part of qnx_internal_msgsend_initv after the allocations *)
Definition msgsend_gather (p : ptr) (cur : task_struct) (io : qnx_io_msgsendv) (iov_in iov_out : list iovec)
    (pid : Z) (inbuf : ptr) (outbuf : out_buffer) : K M Z :=
  let! m := get_msg p in
  put_msg p (set_task (Some cur) m) ;;;
  let! u := kget ks_user in
  match memcpy_fromiovec u (tsk_tgid cur) iov_in (i32 (iov_length iov_in)) with
  | None => koops OutOfBounds
  | Some (rc, bytes) =>
      if negb (rc =? 0)
      then kfree_out outbuf ;;; kfree inbuf ;;; kret (- EFAULT)
      else
        put inbuf (OBuf bytes) ;;;
        let! id := get_new_rcvid in
        let body := MsgBody (mv_coid io) (mv_timeout_ms io) (InKernel inbuf) (iov_length iov_in)
                      outbuf (iov_length iov_out) in
        put_msg p (Msgsend id 0 pid 0 (receiver_chid m) (DMsg body) None 0 (Some cur)
                     QNX_STATE_INITIAL (msg_tail m)) ;;;
        kret 0
  end.

Definition qnx_internal_msgsend_initv (p : ptr) (cur : task_struct) (io : qnx_io_msgsendv)
    (iov_in iov_out : list iovec) (pid : Z) : K M Z :=
  let! inbuf := kmalloc in
  match inbuf with
  | None => kret (- ENOMEM)
  | Some inbuf =>
      let! outbuf := (if iov_length iov_out >? 0
                      then let! o := kmalloc in kret (option_map OutKernel o)
                      else kret (Some (OutUser 0))) in
      match outbuf with
      | None => kfree inbuf ;;; kret (- ENOMEM)
      | Some outbuf =>
          msgsend_gather p cur io iov_in iov_out pid inbuf outbuf
      end
  end.

(** The result is the return code and the object ([*_data]).  When the gather
    fails the C function returns its variable [rc], which was never assigned. *)
Definition qnx_internal_msgsend_init_noreplyv (cur : task_struct) (io : qnx_io_msgsendv)
    (iov_in : list iovec) (pid : Z) : K M (Z * option ptr) :=
  let inlen := iov_length iov_in in
  let! pars := kget ks_params in
  if inlen >? qnx_max_noreply_msg_size pars then kret (- EINVAL, None)
  else
    let! p := kmalloc in
    match p with
    | None => kret (- ENOMEM, None)
    | Some p =>
        let! g := kget ks_garbage in
        let! u := kget ks_user in
        match memcpy_fromiovec u (tsk_tgid cur) iov_in (i32 inlen) with
        | None => koops OutOfBounds
        | Some (rc, bytes) =>
            if negb (rc =? 0)
            then kfree p ;;; kret (i32 g, Some p)
            else
              let! id := get_new_rcvid in
              let body := MsgBody (mv_coid io) (mv_timeout_ms io) InTail inlen (OutUser 0) 0 in
              put_msg p (Msgsend id 0 pid 0 g (DMsg body) None 0 None QNX_STATE_INITIAL bytes) ;;;
              kret (0, Some p)
        end
    end.

(** the kernel's copy of the caller's structure, the buffer still in user memory *)
Definition body_from_user (io : qnx_io_msgsend) : msg_body :=
  MsgBody (ms_coid io) (ms_timeout_ms io) (InUser (iov_base (ms_in io))) (iov_len (ms_in io))
    (OutUser (iov_base (ms_out io))) (iov_len (ms_out io)).

Definition with_in_base (b : in_buffer) (m : msg_body) : msg_body :=
  MsgBody (mb_coid m) (mb_timeout_ms m) b (mb_in_len m) (mb_out_base m) (mb_out_len m).

Definition qnx_internal_msgsend_init (p : ptr) (cur : task_struct) (io_addr pid : Z) : K M Z :=
  put_msg p zero_msg ;;;
  let! io := user_read_struct c_io_msgsend (tsk_tgid cur) io_addr in
  match io with
  | None => kret (- EFAULT)
  | Some io =>
      put_msg p (set_data (DMsg (body_from_user io)) zero_msg) ;;;
      let! buf := kmalloc in
      match buf with
      | None => kret (- ENOMEM)
      | Some buf =>
          let! bytes := user_read (tsk_tgid cur) (iov_base (ms_in io)) (iov_len (ms_in io)) in
          match bytes with
          | None => kfree buf ;;; kret (- EFAULT)
          | Some bytes =>
              put buf (OBuf bytes) ;;;
              let! id := get_new_rcvid in
              put_msg p (Msgsend id 0 pid 0 0 (DMsg (with_in_base (InKernel buf) (body_from_user io)))
                           None 0 (Some cur) QNX_STATE_INITIAL []) ;;;
              kret 0
          end
      end
  end.

(** the result is the return code and [*out_data] when it was assigned *)
Definition qnx_internal_msgsend_init_noreply (cur : task_struct) (io_addr pid : Z) : K M (Z * option ptr) :=
  let! io := user_read_struct c_io_msgsend (tsk_tgid cur) io_addr in
  match io with
  | None => kret (- EFAULT, None)
  | Some io =>
      let! p := kmalloc in
      match p with
      | None => kret (- ENOMEM, None)
      | Some p =>
          put_msg p (set_data (DMsg (body_from_user io)) zero_msg) ;;;
          let! bytes := user_read (tsk_tgid cur) (iov_base (ms_in io)) (iov_len (ms_in io)) in
          match bytes with
          | None => kfree p ;;; kret (- EFAULT, None)
          | Some bytes =>
              let! id := get_new_rcvid in
              put_msg p (Msgsend id 0 pid 0 0 (DMsg (with_in_base InTail (body_from_user io)))
                           None 0 None QNX_STATE_INITIAL bytes) ;;;
              kret (0, Some p)
          end
      end
  end.

Definition qnx_internal_msgsend_init_pulse (p : ptr) (cur : task_struct) (io_addr pid : Z) : K M Z :=
  let! io := user_read_struct c_io_msgsendpulse (tsk_tgid cur) io_addr in
  match io with
  | None => kret (- EFAULT)
  | Some io =>
      let! g := kget ks_garbage in
      put_msg p (Msgsend 0 0 pid 0 g (DPulse io) None 0 None QNX_STATE_INITIAL []) ;;;
      kret 0
  end.

Definition qnx_internal_msgsend_destroy (p : ptr) : K M unit :=
  let! m := get_msg p in
  match task m with
  | None => kret tt
  | Some _ =>
      let! b := body_of m in
      kfree_in (mb_in_base b) ;;; kfree_opt (reply_base m)
  end.

Definition qnx_internal_msgsend_destroyv (p : ptr) : K M unit :=
  let! m := get_msg p in
  match task m with
  | None => kret tt
  | Some _ =>
      let! b := body_of m in
      kfree_in (mb_in_base b) ;;; kfree_out (mb_out_base b) ;;; kfree_opt (reply_base m)
  end.

Definition qnx_internal_msgsend_cleanup_and_free (p : ptr) : K M unit :=
  let! m := get_msg p in
  match task m with
  | None => kfree p
  | Some t => put_msg p (set_status (- ESRCH) m) ;;; wake_up_process t
  end.

End Msgsend.

(** ** Specification of the construction of a message *)

Section MsgsendSpec.
  Context {M : Type} `{!UserMem M}.
  Implicit Types (s : kstate M).

(** what a MsgSend or MsgSendNoReply with its structure at [addr] asks for: an
    error, or the structure, the bytes to send and the coming answers of kmalloc *)
Definition send_request s (cur : task_struct) (addr : Z) : Z + qnx_io_msgsend * list Z * list bool :=
  match copy_from_user (ks_user s) (tsk_tgid cur) addr (Z.of_nat (c_size c_io_msgsend)) with
  | None => inl (- EFAULT)
  | Some bs =>
      let io := c_dec c_io_msgsend bs in
      let '(ok, oom') := kmalloc_answer (ks_oom s) in
      if negb ok then inl (- ENOMEM)
      else match copy_from_user (ks_user s) (tsk_tgid cur) (iov_base (ms_in io)) (iov_len (ms_in io)) with
           | None => inl (- EFAULT)
           | Some bytes => inr (io, bytes, oom')
           end
  end.

(** the message object of a blocking send, before it is queued *)
Definition new_message (id pid : Z) (cur : task_struct) (io : qnx_io_msgsend) (buf : ptr) : qnx_internal_msgsend :=
  Msgsend id 0 pid 0 0 (DMsg (with_in_base (InKernel buf) (body_from_user io))) None 0 (Some cur)
    QNX_STATE_INITIAL [].

(** the object of a message without reply; the bytes are behind it *)
Definition new_noreply (id pid : Z) (io : qnx_io_msgsend) (bytes : list Z) : qnx_internal_msgsend :=
  Msgsend id 0 pid 0 0 (DMsg (with_in_base InTail (body_from_user io))) None 0 None QNX_STATE_INITIAL bytes.

(** ** Lemmas *)

Lemma send_request_coid s cur addr io bytes oom' :
  send_request s cur addr = inr (io, bytes, oom') -> is_int (ms_coid io).
Proof.
  unfold send_request. destruct (copy_from_user _ _ addr _) as [bs|]; [|done].
  destruct (kmalloc_answer _) as [[] oom1]; [|done]. cbn [negb].
  destruct (copy_from_user _ _ _ _); [|done]. intros [= <- _ _]. apply i32_range.
Qed.

Lemma send_request_length `{!UserMemLaws M} s cur addr io bytes oom' :
  send_request s cur addr = inr (io, bytes, oom') ->
  Z.of_nat (length bytes) = iov_len (ms_in io) /\ Forall is_byte bytes /\ 0 <= iov_len (ms_out io).
Proof.
  unfold send_request. destruct (copy_from_user _ _ addr _) as [bs|] eqn:Hbs; [|done].
  destruct (kmalloc_answer _) as [[] oom1]; [|done]. cbn [negb].
  destruct (copy_from_user _ _ (iov_base _) _) as [b|] eqn:Hb; [|done]. intros [= <- <- _].
  apply copy_from_user_length in Hb as [? ?]. apply copy_from_user_length in Hbs as [_ Hbs]. split_and!; [done|done|].
  apply (dec_iovec_len (drop 24 bs)). by apply Forall_drop.
Qed.

Lemma msgsend_init_spec s p o cur addr pid :
  ks_heap s !! p = Some o -> ks_heap s !! ks_next s = None ->
  wp (qnx_internal_msgsend_init p cur addr pid) (fun rc s' =>
    rest s' = rest s /\ ks_garbage s' = ks_garbage s /\ (ks_next s <= ks_next s')%positive /\
    match send_request s cur addr with
    | inl rc0 => rc = rc0 /\ rc0 < 0 /\ ks_next_rcvid s' = ks_next_rcvid s /\ exists m, ks_heap s' = <[p := OMsg m]> (ks_heap s)
    | inr (io, bytes, oom') =>
        rc = 0 /\ ks_oom s' = oom' /\ ks_next s' = Pos.succ (ks_next s) /\
        ks_next_rcvid s' = i32 (ks_next_rcvid s + 1) /\
        ks_heap s' = <[p := OMsg (new_message (i32 (ks_next_rcvid s + 1)) pid cur io (ks_next s))]>
                       (<[ks_next s := OBuf bytes]> (ks_heap s))
    end) s.
Proof.
  intros Hp Hfresh. assert (p ≠ ks_next s) by congruence.
  unfold qnx_internal_msgsend_init, send_request, get_new_rcvid. ksteps.
  destruct (copy_from_user _ _ addr _) as [bs|]; cbn [option_map]; ksteps; [|split_and!; try done; by eexists].
  destruct (kmalloc_answer (ks_oom s)) as [[] oom'] eqn:Hk; cbn [negb].
  - eapply wp_kmalloc; [done|]. ksteps. destruct (copy_from_user _ _ _ _) as [bytes|]; ksteps; ks_simpl.
    + split_and!; try done; [lia|]. clear -H. heap_eq.
    + split_and!; try done; try lia. eexists. rewrite insert_insert_eq. clear -Hfresh H. heap_eq.
  - eapply wp_kmalloc_fail; [done|]. ksteps. ks_simpl. split_and!; try done; try lia. eexists. by rewrite insert_insert_eq.
Qed.

Lemma msgsend_init_noreply_spec s cur addr pid :
  ks_heap s !! ks_next s = None ->
  wp (qnx_internal_msgsend_init_noreply cur addr pid) (fun '(rc, r) s' =>
    rest s' = rest s /\
    match send_request s cur addr with
    | inl rc0 => rc = rc0 /\ rc0 < 0 /\ ks_heap s' = ks_heap s
    | inr (io, bytes, _) =>
        rc = 0 /\ r = Some (ks_next s) /\
        ks_heap s' = <[ks_next s := OMsg (new_noreply (i32 (ks_next_rcvid s + 1)) pid io bytes)]> (ks_heap s)
    end) s.
Proof.
  intros Hfresh. unfold qnx_internal_msgsend_init_noreply, send_request, get_new_rcvid. ksteps.
  destruct (copy_from_user _ _ addr _) as [bs|]; cbn [option_map]; ksteps; [|done].
  destruct (kmalloc_answer (ks_oom s)) as [[] oom'] eqn:Hk; cbn [negb].
  - eapply wp_kmalloc; [done|]. ksteps. destruct (copy_from_user _ _ _ _) as [bytes|]; ksteps; ks_simpl.
    + split_and!; try done. clear. heap_eq.
    + split_and!; try done. clear -Hfresh. heap_eq.
  - eapply wp_kmalloc_fail; [done|]. ksteps. done.
Qed.

End MsgsendSpec.
