(* ===== verification/Channel.v ===== *)
(** * Channels (kernel/channel.{h,c})

    A channel has a queue of messages that wait to be received, the counter
    [num_waiting] that receivers sleep on, and a count of the queued no-reply
    messages.  Channels are reference counted: one reference belongs to the
    process that created the channel, one to every call that works on it. *)

From S2P Require Import Prelude Layout UserMem ConnectionTable Kernel Msgsend.
From Stdlib Require Import ZArith Lia.
From stdpp Require Import base tactics list option gmap fin_maps sets.

Open Scope Z_scope.

(** a message that nobody waits for a reply of and that is not a pulse *)
Definition is_noreply (m : qnx_internal_msgsend) : bool :=
  negb (rcvid m =? 0) && match task m with None => true | Some _ => false end.

Section Channel.
  Context {M : Type} `{!UserMem M}.

(** [atomic_inc_return(&gbl_next_channel_id)] *)
Definition get_new_channel_id : K M Z :=
  let! n := kget ks_next_channel_id in
  let id := i32 (n + 1) in
  kmod (upd_next_channel_id id) ;;; kret id.

Definition qnx_channel_init (chnl : ptr) : K M Z :=
  let! id := get_new_channel_id in
  put_chan chnl (Channel 1 id [] 0 0) ;;; kret id.

(** [list_del(&data->hook)] of a message in the queue of [chnl]: it reads the
    hook of the message, which must be there *)
Definition list_del_waiting (chnl p : ptr) : K M unit :=
  let! _ := get_msg p in
  let! c := get_chan chnl in
  put_chan chnl (set_waiting (list_del p (waiting c)) c).

(** the loop of [qnx_channel_free] *)
Fixpoint free_waiting (chnl : ptr) (l : list ptr) : K M unit :=
  match l with
  | [] => kret tt
  | p :: l' =>
      qnx_internal_msgsend_cleanup_and_free p ;;;
      list_del_waiting chnl p ;;;
      free_waiting chnl l'
  end.

Definition qnx_channel_free (chnl : ptr) : K M unit :=
  let! c := get_chan chnl in
  free_waiting chnl (waiting c) ;;;
  kfree chnl.

(** [kref_get(&chnl->refcnt)] and [kref_put(&chnl->refcnt, &qnx_channel_free)] *)
Definition qnx_channel_get (chnl : ptr) : K M unit :=
  let! c := get_chan chnl in
  put_chan chnl (set_ch_refcnt (ch_refcnt c + 1) c).

Definition qnx_channel_release (chnl : ptr) : K M unit :=
  let! c := get_chan chnl in
  put_chan chnl (set_ch_refcnt (ch_refcnt c - 1) c) ;;;
  if ch_refcnt c - 1 =? 0 then qnx_channel_free chnl else kret tt.

(** the critical section of [qnx_channel_add_new_message]: the new channel and
    the return code *)
Definition enqueue (max_noreply : Z) (p : ptr) (m : qnx_internal_msgsend) (c : qnx_channel) : Z * qnx_channel :=
  let '(rc, c') :=
    if (rcvid m =? 0) || match task m with Some _ => true | None => false end
    then (0, set_waiting (list_add_tail p (waiting c)) c)
    else if u32 (num_waiting_noreply c) <? max_noreply
    then (0, set_num_waiting_noreply (i32 (num_waiting_noreply c + 1))
               (set_waiting (list_add_tail p (waiting c)) c))
    else (-1, c) in
  (rc, set_num_waiting (i32 (num_waiting c' + 1)) c').

Definition qnx_channel_add_new_message (chnl p : ptr) : K M Z :=
  let! c := get_chan chnl in
  let! m := get_msg p in
  put_msg p (set_receiver_chid (ch_chid c) m) ;;;
  let! pars := kget ks_params in
  let '(rc, c') := enqueue (qnx_max_noreply_msg_num pars) p m c in
  put_chan chnl c' ;;;
  wake_up chnl ;;;
  kret rc.

(** the first message of the list with the given id *)
Definition find_rcvid (l : list ptr) (id : Z) : K M (option ptr) :=
  list_find_entry (fun p => let! m := get_msg p in kret (rcvid m =? id)) l.

Definition qnx_channel_remove_message (chnl : ptr) (id : Z) : K M Z :=
  let! c := get_chan chnl in
  let! found := find_rcvid (waiting c) id in
  match found with
  | None => kret 0
  | Some p =>
      put_chan chnl (set_num_waiting (i32 (num_waiting c - 1)) (set_waiting (list_del p (waiting c)) c)) ;;;
      kret 1
  end.

End Channel.

(** ** Specification of the queue *)

Section ChannelSpec.
  Context {M : Type} `{!UserMem M}.
  Implicit Types (h : gmap ptr kobj) (s : kstate M).

Definition msg_test (f : qnx_internal_msgsend -> bool) h (p : ptr) : bool :=
  match h !! p with Some (OMsg m) => f m | _ => false end.

Definition has_rcvid h (id : Z) : ptr -> bool := msg_test (fun m => rcvid m =? id) h.
Definition noreply_at h : ptr -> bool := msg_test is_noreply h.

(** the counter runs ahead of the queue by this much *)
Definition excess (c : qnx_channel) : Z := num_waiting c - Z.of_nat (length (waiting c)).

(** the queue of [c] in the heap [h], with at most [max] no-reply messages *)
Record channel_ok h (max : Z) (c : qnx_channel) : Prop := {
  co_nodup : NoDup (waiting c);
  co_msgs : forall p, p ∈ waiting c -> exists m, h !! p = Some (OMsg m) /\ 0 <= rcvid m;
  co_noreply : num_waiting_noreply c = Z.of_nat (length (List.filter (noreply_at h) (waiting c)));
  co_bound : num_waiting_noreply c <= max;
  co_excess : 0 <= excess c
}.

(** ** Lemmas *)

Lemma find_rcvid_run l id s :
  (forall p, p ∈ l -> exists m, ks_heap s !! p = Some (OMsg m)) ->
  find_rcvid l id s = Done (List.find (has_rcvid (ks_heap s) id) l, s).
Proof.
  intros Hl. apply list_find_entry_run. intros p Hp. destruct (Hl p Hp) as [m Hm].
  unfold has_rcvid, msg_test, kbind, get_msg, kret. by rewrite Hm.
Qed.

Lemma filter_same (f g : ptr -> bool) l :
  (forall p, p ∈ l -> f p = g p) -> List.filter f l = List.filter g l.
Proof.
  induction l as [|p l IH]; cbn; intros Hfg; [done|]. rewrite (Hfg p) by left.
  rewrite IH; [done|]. intros q Hq. apply Hfg. by right.
Qed.

Lemma length_filter_del (f : ptr -> bool) p l :
  p ∈ l -> length (List.filter f l) =
    ((if f p then 1 else 0) + length (List.filter f (list_del p l)))%nat.
Proof.
  induction l as [|q l IH]; [by intros ?%elem_of_nil|]. rewrite elem_of_cons. cbn.
  destruct (decide (q = p)) as [->|Hne]; [by destruct (f p)|].
  intros [->|Hp]; [done|]. cbn. destruct (f q); cbn; rewrite (IH Hp); lia.
Qed.

(** the invariant looks at the queued messages only *)
Lemma channel_ok_heap h h' max c :
  channel_ok h max c ->
  (forall p m, p ∈ waiting c -> h !! p = Some (OMsg m) ->
    exists m', h' !! p = Some (OMsg m') /\ rcvid m' = rcvid m /\ task m' = task m) ->
  channel_ok h' max c.
Proof.
  intros [Hnd Hm Hn Hb He] Hh. split; try done.
  - intros p Hp. destruct (Hm p Hp) as (m & Hpm & Hr). destruct (Hh p m Hp Hpm) as (m' & ? & ? & ?).
    exists m'. split; [done|lia].
  - rewrite Hn. do 2 f_equal. apply filter_same. intros p Hp. destruct (Hm p Hp) as (m & Hpm & _).
    destruct (Hh p m Hp Hpm) as (m' & Hpm' & Hr & Ht). unfold noreply_at, msg_test, is_noreply.
    by rewrite Hpm, Hpm', Hr, Ht.
Qed.

Definition b2z (b : bool) : Z := if b then 1 else 0.

(** taking a message out of the queue, with the counters adjusted *)
Lemma channel_ok_del h max c c' p :
  channel_ok h max c -> p ∈ waiting c ->
  waiting c' = list_del p (waiting c) ->
  num_waiting c' = num_waiting c - 1 ->
  num_waiting_noreply c' = num_waiting_noreply c - b2z (noreply_at h p) ->
  channel_ok h max c' /\ excess c' = excess c.
Proof.
  intros [Hnd Hm Hn Hb He] Hp Hw Hnw Hnr. pose proof (length_list_del p _ Hp) as Hlen.
  pose proof (length_filter_del (noreply_at h) p _ Hp) as Hfl.
  assert (Hex : excess c' = excess c) by (unfold excess in *; rewrite Hw, Hnw; lia).
  split; [split|done]; rewrite ?Hw, ?Hnr, ?Hex; [by apply list_del_NoDup| | | |done].
  - intros q Hq%elem_of_list_del. by apply Hm.
  - rewrite Hn, Hfl. unfold b2z. destruct (noreply_at h p); lia.
  - unfold b2z. destruct (noreply_at h p); lia.
Qed.

(** putting one in *)
Lemma channel_ok_add h max c c' p m :
  channel_ok h max c -> p ∉ waiting c -> h !! p = Some (OMsg m) -> 0 <= rcvid m ->
  waiting c' = waiting c ++ [p] ->
  num_waiting c' = num_waiting c + 1 ->
  num_waiting_noreply c' = num_waiting_noreply c + b2z (noreply_at h p) -> num_waiting_noreply c' <= max ->
  channel_ok h max c' /\ excess c' = excess c.
Proof.
  intros [Hnd Hm Hn Hb He] Hp Hpm Hr Hw Hnw Hnr Hmax.
  assert (Hex : excess c' = excess c) by (unfold excess in *; rewrite Hw, Hnw, length_app; cbn; lia).
  split; [split|done]; rewrite ?Hw, ?Hex; try done.
  - apply NoDup_app. split_and!; [done| |apply NoDup_singleton]. intros q Hq ->%list_elem_of_singleton. done.
  - intros q [Hq| ->%list_elem_of_singleton]%elem_of_app; eauto.
  - rewrite Hnr, Hn, List.filter_app, length_app, Nat2Z.inj_add. cbn. unfold b2z.
    by destruct (noreply_at h p).
Qed.

Lemma enqueue_normal max p m c :
  is_noreply m = false ->
  enqueue max p m c = (0, set_num_waiting (i32 (num_waiting c + 1)) (set_waiting (waiting c ++ [p]) c)).
Proof.
  unfold enqueue, is_noreply. by destruct (rcvid m =? 0), (task m).
Qed.

Lemma enqueue_noreply max p m c :
  is_noreply m = true -> 0 <= num_waiting_noreply c <= max -> max <= INT_MAX ->
  enqueue max p m c =
    if num_waiting_noreply c <? max
    then (0, set_num_waiting (i32 (num_waiting c + 1))
               (set_num_waiting_noreply (num_waiting_noreply c + 1) (set_waiting (waiting c ++ [p]) c)))
    else (-1, set_num_waiting (i32 (num_waiting c + 1)) c).
Proof.
  unfold enqueue, is_noreply. destruct (rcvid m =? 0), (task m); cbn [negb andb]; try done.
  intros _ Hn Hmax. cbn [orb]. rewrite u32_id by (unfold INT_MAX in *; lia). case_cmp; [|done].
  rewrite (i32_id (num_waiting_noreply c + 1)) by (unfold_int; lia). done.
Qed.

Lemma add_new_message_run chnl p c m s :
  ks_heap s !! chnl = Some (OChan c) -> ks_heap s !! p = Some (OMsg m) ->
  let '(rc, c') := enqueue (qnx_max_noreply_msg_num (ks_params s)) p m c in
  qnx_channel_add_new_message chnl p s =
    Done (rc, upd_trace (EvWakeUp chnl)
      (upd_heap <[chnl := OChan c']> (upd_heap <[p := OMsg (set_receiver_chid (ch_chid c) m)]> s))).
Proof.
  intros Hc Hm. destruct (enqueue _ _ _ _) as [rc c'] eqn:He.
  assert (chnl ≠ p) by congruence.
  unfold qnx_channel_add_new_message, kbind, get_chan, get_msg, put_msg, put_chan, put, kget, wake_up, kmod, kret.
  rewrite Hc, Hm. ks_simpl. rewrite Hm. ks_simpl. rewrite He. ks_simpl.
  rewrite lookup_insert_ne by done. by rewrite Hc.
Qed.

Lemma noreply_at_msg h p m : h !! p = Some (OMsg m) -> noreply_at h p = is_noreply m.
Proof. unfold noreply_at, msg_test. by intros ->. Qed.

(** the state of the queue after [enqueue] *)
Lemma enqueue_ok h max c p m :
  channel_ok h max c -> p ∉ waiting c -> h !! p = Some (OMsg m) -> 0 <= rcvid m ->
  num_waiting c < INT_MAX -> max <= INT_MAX ->
  let '(rc, c') := enqueue max p m c in
  channel_ok h max c' /\ num_waiting c' = num_waiting c + 1 /\ ch_refcnt c' = ch_refcnt c /\ ch_chid c' = ch_chid c /\
  if is_noreply m && (max <=? num_waiting_noreply c)
  then rc = -1 /\ waiting c' = waiting c /\ excess c' = excess c + 1
  else rc = 0 /\ waiting c' = waiting c ++ [p] /\ excess c' = excess c.
Proof.
  intros Hok Hp Hpm Hr Hnw Hmax. pose proof Hok as [Hnd Hm Hn Hb He].
  assert (Hi : i32 (num_waiting c + 1) = num_waiting c + 1).
  { apply i32_id. unfold excess in He. unfold_int. lia. }
  pose proof (noreply_at_msg _ _ _ Hpm) as Hat.
  destruct (is_noreply m) eqn:Hno; cbn [andb].
  - rewrite enqueue_noreply by (done || lia). case_cmp; case_cmp; try lia; rewrite Hi.
    + match goal with |- channel_ok _ _ ?c' /\ _ =>
        destruct (channel_ok_add h max c c' p m) as [Hok' Hex]; try done; cbn; rewrite ?Hat; cbn; lia end.
    + split_and!; try done. split; cbn; [done|done|done|lia|]. unfold excess in *. cbn. lia.
      unfold excess. cbn. lia.
  - rewrite enqueue_normal by done. rewrite Hi.
    match goal with |- channel_ok _ _ ?c' /\ _ =>
      destruct (channel_ok_add h max c c' p m) as [Hok' Hex]; try done; cbn; rewrite ?Hat; cbn; lia end.
Qed.

Lemma cleanup_and_free_run p m t s :
  ks_heap s !! p = Some (OMsg m) -> task m = Some t ->
  qnx_internal_msgsend_cleanup_and_free p s =
    Done (tt, upd_trace (EvWakeUpProcess t) (upd_sleeping (ks_sleeping s ∖ {[tsk_pid t]})
      (upd_heap <[p := OMsg (set_status (- ESRCH) m)]> s))).
Proof.
  intros Hp Ht. unfold qnx_internal_msgsend_cleanup_and_free, kbind, get_msg. rewrite Hp, Ht.
  unfold put_msg, put. by rewrite Hp.
Qed.

(** the loop of [qnx_channel_free] when every queued message has a sender that
    waits for it *)
Lemma free_waiting_spec chnl c l s :
  ks_heap s !! chnl = Some (OChan c) -> waiting c = l -> NoDup l ->
  (forall p, p ∈ l -> exists m t, ks_heap s !! p = Some (OMsg m) /\ task m = Some t) ->
  wp (free_waiting chnl l) (fun _ s' =>
    ks_heap s' !! chnl = Some (OChan (set_waiting [] c)) /\
    (forall p m t, p ∈ l -> ks_heap s !! p = Some (OMsg m) -> task m = Some t ->
       ks_heap s' !! p = Some (OMsg (set_status (- ESRCH) m)) /\ tsk_pid t ∉ ks_sleeping s') /\
    (forall q, q ≠ chnl -> q ∉ l -> ks_heap s' !! q = ks_heap s !! q) /\
    ks_sleeping s' ⊆ ks_sleeping s) s.
Proof.
  revert c s. induction l as [|p l IH]; intros c s Hc Hw Hnd Hl.
  { apply wp_ret. split_and!; [by destruct c; cbn in *; subst|by intros ??? ?%elem_of_nil|done|done]. }
  apply NoDup_cons in Hnd as [Hpl Hnd]. destruct (Hl p) as (m & t & Hp & Ht); [by left|].
  cbn [free_waiting]. kstep. eapply wp_eq; [by apply cleanup_and_free_run|].
  assert (chnl ≠ p) by congruence. kstep. unfold list_del_waiting. ksteps.
  rewrite Hw. cbn [list_del]. rewrite decide_True by done.
  eapply wp_mono; [apply (IH (set_waiting l c))|].
  - heap_lookup.
  - done.
  - done.
  - intros q Hq. destruct (Hl q) as (mq & tq & Hmq & Htq); [by right|]. exists mq, tq. split; [|done].
    assert (q ≠ p) by (intros ->; done). assert (q ≠ chnl) by congruence. ks_simpl.
    by rewrite !lookup_insert_ne.
  - cbn beta. intros _ s' (Hc' & Hmsgs & Hrest & Hsub). ks_simpl. split_and!.
    + done.
    + intros q mq tq Hq Hmq Htq. assert (q ≠ chnl) by congruence.
      apply elem_of_cons in Hq as [->|Hq].
      * simplify_eq. split; [|clear -Hsub; set_solver]. rewrite Hrest by done. by rewrite lookup_insert_ne, lookup_insert_eq.
      * assert (q ≠ p) by (intros ->; done). eapply Hmsgs; [done| |done]. by rewrite !lookup_insert_ne.
    + intros q Hqc Hq. apply not_elem_of_cons in Hq as [Hqp Hq]. rewrite Hrest by done.
      by rewrite !lookup_insert_ne.
    + clear -Hsub; set_solver.
Qed.

End ChannelSpec.

(** ** Properties *)

(** [qnx_channel_add_new_message] keeps the queue invariant.  A normal
    message, a pulse, and a no-reply message below the limit go to the end of
    the queue.  A no-reply message beyond the limit is refused with -1 and the
    queue is unchanged -- but [num_waiting] is incremented all the same, so each
    refusal moves the counter one further ahead of the queue. *)
Theorem add_new_message_queue {M : Type} (s : kstate M) (chnl p : ptr) (c : qnx_channel) (m : qnx_internal_msgsend) :
  let max := qnx_max_noreply_msg_num (ks_params s) in
  ks_heap s !! chnl = Some (OChan c) -> ks_heap s !! p = Some (OMsg m) ->
  channel_ok (ks_heap s) max c -> p ∉ waiting c -> 0 <= rcvid m ->
  num_waiting c < INT_MAX -> max <= INT_MAX ->
  wp (qnx_channel_add_new_message chnl p) (fun rc s' =>
    exists c', ks_heap s' !! chnl = Some (OChan c') /\ channel_ok (ks_heap s') max c' /\
      num_waiting c' = num_waiting c + 1 /\
      if is_noreply m && (max <=? num_waiting_noreply c)
      then rc = -1 /\ waiting c' = waiting c /\ excess c' = excess c + 1
      else rc = 0 /\ waiting c' = waiting c ++ [p] /\ excess c' = excess c) s.
Proof.
  intros max Hc Hp Hok Hpw Hr Hnw Hmax. assert (chnl ≠ p) by congruence.
  pose proof (add_new_message_run chnl p c m s Hc Hp) as Hrun.
  pose proof (enqueue_ok _ max c p m Hok Hpw Hp Hr Hnw Hmax) as Henq. fold max in Hrun.
  destruct (enqueue max p m c) as [rc c']. destruct Henq as (Hok' & Hn & _ & _ & Hcase).
  eapply wp_eq; [exact Hrun|]. exists c'. ks_simpl. split_and!; [by rewrite lookup_insert_eq| |done|done].
  eapply channel_ok_heap; [exact Hok'|]. intros q mq Hq Hmq.
  assert (q ≠ chnl) by congruence. rewrite lookup_insert_ne by done.
  destruct (decide (q = p)) as [->|Hqp].
  - rewrite Hp in Hmq. injection Hmq as <-. rewrite lookup_insert_eq. by eexists.
  - rewrite lookup_insert_ne by done. by eexists.
Qed.

(** [qnx_channel_remove_message] takes out exactly the first queued message
    with the given id and returns 1; when there is none it returns 0 and changes
    nothing.  For a message that is not a no-reply message, the only ones it is
    called for, the queue invariant is kept. *)
Theorem remove_message_queue {M : Type} (s : kstate M) (chnl : ptr) (c : qnx_channel) (max id : Z) :
  ks_heap s !! chnl = Some (OChan c) -> channel_ok (ks_heap s) max c -> num_waiting c <= INT_MAX ->
  wp (qnx_channel_remove_message chnl id) (fun rc s' =>
    match List.find (has_rcvid (ks_heap s) id) (waiting c) with
    | None => rc = 0 /\ s' = s
    | Some p =>
        rc = 1 /\ exists c', s' = upd_heap <[chnl := OChan c']> s /\ waiting c' = list_del p (waiting c) /\
          (noreply_at (ks_heap s) p = false -> channel_ok (ks_heap s') max c' /\ excess c' = excess c)
    end) s.
Proof.
  intros Hc Hok Hnw. pose proof (co_excess _ _ _ Hok) as He. unfold excess in He.
  unfold qnx_channel_remove_message. kstep. kstep. kstep. eapply wp_eq.
  { apply find_rcvid_run. intros p Hp. destruct (co_msgs _ _ _ Hok p Hp) as (m & Hm & _). eauto. }
  destruct (List.find _ _) as [p|] eqn:Hfind; [|by apply wp_ret].
  apply find_elem in Hfind as [Hp Hid]. ksteps. split; [done|]. eexists; split_and!; [done|done|].
  intros Hno. pose proof (length_list_del p _ Hp) as Hlen.
  set (c' := set_num_waiting _ _). destruct (channel_ok_del (ks_heap s) max c c' p Hok Hp) as [Hok' Hex].
  - done.
  - cbn. apply i32_id. unfold_int. lia.
  - cbn. rewrite Hno. cbn. lia.
  - split; [|done]. eapply channel_ok_heap; [exact Hok'|]. intros q mq Hq Hmq. ks_simpl.
    rewrite lookup_insert_ne by congruence. eauto.
Qed.


(** A channel that goes away while a pulse or a no-reply message is at the
    head of its queue is a use after free: the message is freed, and then
    [list_del] reads and writes the links inside of it. *)
Theorem release_last_queued_pulse {M : Type} (s : kstate M) (chnl p : ptr) (l : list ptr)
    (c : qnx_channel) (m : qnx_internal_msgsend) :
  ks_heap s !! chnl = Some (OChan c) -> ch_refcnt c = 1 -> waiting c = p :: l ->
  ks_heap s !! p = Some (OMsg m) -> task m = None ->
  qnx_channel_release chnl s = Oops (BadAccess p).
Proof.
  intros Hc Hr Hw Hp Ht. assert (chnl ≠ p) by congruence.
  unfold qnx_channel_release. do 2 onext. rewrite Hr. change (1 - 1 =? 0) with true. cbn beta iota.
  unfold qnx_channel_free. onext. ohere. cbn [waiting set_ch_refcnt]. rewrite Hw. cbn [free_waiting].
  apply oops_next. unfold qnx_internal_msgsend_cleanup_and_free. kstep. kstep. rewrite Ht. kstep.
  ohere. unfold list_del_waiting. ohere. unfold get_msg. ks_simpl. by rewrite lookup_delete_eq.
Qed.
