(* ===== verification/ProcessEntry.v ===== *)
(** * Process entries (kernel/process_entry.{h,c})

    One entry for each process that has the device open: its channels, its
    connection table, the messages it received and did not reply to yet
    ([pending]), and the file descriptors it polls on.  [add_connection] needs
    the list of all processes and is in DriverData.v. *)

From Stdlib Require Import ZArith Lia.
From stdpp Require Import base tactics list option gmap fin_maps sets.
From S2P Require Import Prelude Layout UserMem ConnectionTable Kernel Msgsend Channel.

Open Scope Z_scope.

Section ProcessEntry.
  Context {M : Type} `{!UserMem M}.

Definition get_num_channels_unlocked (entry : ptr) : K M Z :=
  let! e := get_proc entry in kret (Z.of_nat (length (channels e))).

Definition qnx_process_entry_init (entry : ptr) (cur : task_struct) : K M unit :=
  let! pars := kget ks_params in
  let! oom := kget ks_oom in
  let '(_, oom', table) := qnx_connection_table_init (qnx_max_connections_per_process pars) oom in
  kmod (upd_oom oom') ;;;
  put_proc entry (ProcessEntry 1 (current_get_pid_nr cur) [] table [] []).

(** [while(!list_empty(&entry->channels))]: the first channel is unlinked and
    released *)
Fixpoint release_channels (entry : ptr) (l : list ptr) : K M unit :=
  match l with
  | [] => kret tt
  | chnl :: l' =>
      let! _ := get_chan chnl in
      let! e := get_proc entry in
      put_proc entry (set_channels (list_del chnl (channels e)) e) ;;;
      qnx_channel_release chnl ;;;
      release_channels entry l'
  end.

(** [list_for_each_safe(iter, next, &entry->pending)] *)
Fixpoint release_pendings (entry : ptr) (l : list ptr) : K M unit :=
  match l with
  | [] => kret tt
  | p :: l' =>
      qnx_internal_msgsend_cleanup_and_free p ;;;
      let! _ := get_msg p in
      let! e := get_proc entry in
      put_proc entry (set_pending (list_del p (pending e)) e) ;;;
      release_pendings entry l'
  end.

(** (the connection objects that [qnx_connection_table_destroy] frees belong to
    the table, which goes with the entry) *)
Definition qnx_process_entry_free (entry : ptr) : K M unit :=
  let! e := get_proc entry in
  release_channels entry (channels e) ;;;
  let! e := get_proc entry in
  release_pendings entry (pending e) ;;;
  kfree entry.

Definition qnx_process_entry_get (entry : ptr) : K M unit :=
  let! e := get_proc entry in
  put_proc entry (set_pe_refcnt (pe_refcnt e + 1) e).

Definition qnx_process_entry_release (entry : ptr) : K M unit :=
  let! e := get_proc entry in
  put_proc entry (set_pe_refcnt (pe_refcnt e - 1) e) ;;;
  if pe_refcnt e - 1 =? 0 then qnx_process_entry_free entry else kret tt.

(** the first channel of the list with the given id *)
Definition find_chid (l : list ptr) (id : Z) : K M (option ptr) :=
  list_find_entry (fun chnl => let! c := get_chan chnl in kret (ch_chid c =? id)) l.

Definition qnx_process_entry_remove_channel (entry : ptr) (id : Z) : K M Z :=
  let! e := get_proc entry in
  let! found := find_chid (channels e) id in
  match found with
  | None => kret (- EINVAL)
  | Some chnl =>
      put_proc entry (set_channels (list_del chnl (channels e)) e) ;;;
      qnx_channel_release chnl ;;;
      kret 0
  end.

Definition qnx_process_entry_is_channel_available (entry : ptr) (id : Z) : K M bool :=
  let! e := get_proc entry in
  let! found := find_chid (channels e) id in
  kret (match found with Some _ => true | None => false end).

Definition qnx_process_entry_add_pollfd (entry f : ptr) (id : Z) : K M Z :=
  let! avail := qnx_process_entry_is_channel_available entry id in
  if negb avail then kret (- ESRCH)
  else
    let! pollfd := kmalloc in
    match pollfd with
    | None => kret (- ENOMEM)
    | Some pollfd =>
        put pollfd (OPollfd (Pollfd f id)) ;;;
        let! e := get_proc entry in
        put_proc entry (set_pollfds (list_add pollfd (pollfds e)) e) ;;;
        kret 0
    end.

(** the first entry of the list for the file [f] *)
Definition find_pollfd (l : list ptr) (f : ptr) : K M (option ptr) :=
  list_find_entry (fun p => let! pf := get_pollfd p in kret (bool_decide (pf_file pf = f))) l.

Definition qnx_process_entry_remove_pollfd (entry f : ptr) : K M Z :=
  let! e := get_proc entry in
  let! found := find_pollfd (pollfds e) f in
  match found with
  | None => kret (- EINVAL)
  | Some p =>
      put_proc entry (set_pollfds (list_del p (pollfds e)) e) ;;;
      kfree p ;;;
      kret 0
  end.

Definition qnx_process_entry_add_pending (entry p : ptr) : K M unit :=
  let! e := get_proc entry in
  let! m := get_msg p in
  put_proc entry (set_pending (list_add p (pending e)) e) ;;;
  put_msg p (set_state QNX_STATE_PENDING m).

Definition qnx_process_entry_release_pending (entry : ptr) (id : Z) : K M (option ptr) :=
  let! e := get_proc entry in
  let! found := find_rcvid (pending e) id in
  match found with
  | None => kret None
  | Some p =>
      put_proc entry (set_pending (list_del p (pending e)) e) ;;;
      kret (Some p)
  end.

Definition qnx_process_entry_add_channel (entry : ptr) : K M Z :=
  let! chnl := kmalloc in
  match chnl with
  | None => kret (- ENOMEM)
  | Some chnl =>
      let! id := qnx_channel_init chnl in
      let! n := get_num_channels_unlocked entry in
      let! pars := kget ks_params in
      let! rc :=
        (if n <? qnx_max_channels_per_process pars
         then let! e := get_proc entry in
              put_proc entry (set_channels (list_add chnl (channels e)) e) ;;; kret id
         else kret (- EMFILE)) in
      (if rc <? 0 then kfree chnl else kret tt) ;;;
      kret rc
  end.

(** the channel comes with a reference for the caller *)
Definition qnx_process_entry_find_channel (entry : ptr) (id : Z) : K M (option ptr) :=
  let! e := get_proc entry in
  let! found := find_chid (channels e) id in
  match found with
  | None => kret None
  | Some chnl => qnx_channel_get chnl ;;; kret (Some chnl)
  end.

Definition qnx_process_entry_find_channel_from_file (entry f : ptr) : K M (option ptr) :=
  let! e := get_proc entry in
  let! found := find_pollfd (pollfds e) f in
  match found with
  | None => kret None
  | Some p => let! pf := get_pollfd p in qnx_process_entry_find_channel entry (pf_chid pf)
  end.

Definition qnx_process_entry_remove_connection (entry : ptr) (coid : Z) : K M Z :=
  let! e := get_proc entry in
  match qnx_connection_table_remove (pe_connections e) coid with
  | None => koops OutOfBounds
  | Some (rc, table) => put_proc entry (set_connections table e) ;;; kret rc
  end.

Definition qnx_process_entry_find_connection (entry : ptr) (coid : Z) : K M qnx_connection :=
  let! e := get_proc entry in
  match qnx_connection_table_retrieve (pe_connections e) coid with
  | None => koops OutOfBounds
  | Some c => kret c
  end.

End ProcessEntry.

(** ** Specification *)

Section ProcessSpec.
  Context {M : Type} `{!UserMem M}.
  Implicit Types (h : gmap ptr kobj) (s : kstate M).

Definition has_chid h (id : Z) (p : ptr) : bool :=
  match h !! p with Some (OChan c) => ch_chid c =? id | _ => false end.

Definition polls_file h (f p : ptr) : bool :=
  match h !! p with Some (OPollfd pf) => bool_decide (pf_file pf = f) | _ => false end.

(** the objects that the lists of an entry name are there and have the right type;
    a message in [pending] has a sender that waits for the reply *)
Record entry_ok h (e : qnx_process_entry) : Prop := {
  eo_channels_nodup : NoDup (channels e);
  eo_channels : forall p, p ∈ channels e -> exists c, h !! p = Some (OChan c) /\ 0 < ch_refcnt c;
  eo_connections : table_ok (pe_connections e);
  eo_pending_nodup : NoDup (pending e);
  eo_pending : forall p, p ∈ pending e -> exists m, h !! p = Some (OMsg m) /\ is_Some (task m);
  eo_pollfds_nodup : NoDup (pollfds e);
  eo_pollfds : forall p, p ∈ pollfds e -> exists f, h !! p = Some (OPollfd f)
}.

(** the channel of the entry with the given id *)
Definition entry_channel h (e : qnx_process_entry) (id : Z) : option ptr :=
  List.find (has_chid h id) (channels e).

(** ** Lemmas *)

Lemma find_chid_run l id s :
  (forall p, p ∈ l -> exists c, ks_heap s !! p = Some (OChan c)) ->
  find_chid l id s = Done (List.find (has_chid (ks_heap s) id) l, s).
Proof.
  intros Hl. apply list_find_entry_run. intros p Hp. destruct (Hl p Hp) as [c Hc].
  unfold has_chid, kbind, get_chan, kret. by rewrite Hc.
Qed.

Lemma find_pollfd_run l f s :
  (forall p, p ∈ l -> exists pf, ks_heap s !! p = Some (OPollfd pf)) ->
  find_pollfd l f s = Done (List.find (polls_file (ks_heap s) f) l, s).
Proof.
  intros Hl. apply list_find_entry_run. intros p Hp. destruct (Hl p Hp) as [c Hc].
  unfold polls_file, kbind, get_pollfd, kret. by rewrite Hc.
Qed.

Lemma entry_ok_chans h e p : entry_ok h e -> p ∈ channels e -> exists c, h !! p = Some (OChan c).
Proof. intros He Hp. destruct (eo_channels _ _ He p Hp) as (c & ? & _). eauto. Qed.

Lemma entry_ok_msgs h e p : entry_ok h e -> p ∈ pending e -> exists m, h !! p = Some (OMsg m).
Proof. intros He Hp. destruct (eo_pending _ _ He p Hp) as (c & ? & _). eauto. Qed.

Lemma entry_channel_Some h e id chnl :
  entry_channel h e id = Some chnl ->
  chnl ∈ channels e /\ exists c, h !! chnl = Some (OChan c) /\ ch_chid c = id.
Proof.
  intros [Hin Ht]%find_elem. split; [done|]. unfold has_chid in Ht.
  destruct (h !! chnl) as [[| | |c| | |]|]; try done. exists c. split; [done|]. by apply Z.eqb_eq.
Qed.

Lemma find_channel_run entry e id s :
  ks_heap s !! entry = Some (OProc e) -> entry_ok (ks_heap s) e ->
  qnx_process_entry_find_channel entry id s =
    match entry_channel (ks_heap s) e id with
    | None => Done (None, s)
    | Some chnl =>
        match ks_heap s !! chnl with
        | Some (OChan c) => Done (Some chnl, upd_heap <[chnl := OChan (set_ch_refcnt (ch_refcnt c + 1) c)]> s)
        | _ => Oops (BadAccess chnl)
        end
    end.
Proof.
  intros He Hok. unfold qnx_process_entry_find_channel, kbind, get_proc. rewrite He.
  rewrite find_chid_run by (intros; by eapply entry_ok_chans). fold (entry_channel (ks_heap s) e id).
  destruct (entry_channel _ _ _) as [chnl|] eqn:Hf; [|done].
  apply entry_channel_Some in Hf as (_ & c & Hc & _).
  unfold qnx_channel_get, kbind, get_chan, put_chan, put. rewrite Hc. by rewrite Hc.
Qed.

(** a reference is dropped that is not the last one *)
Lemma entry_release_run entry e s :
  ks_heap s !! entry = Some (OProc e) -> 1 < pe_refcnt e ->
  qnx_process_entry_release entry s = Done (tt, upd_heap <[entry := OProc (set_pe_refcnt (pe_refcnt e - 1) e)]> s).
Proof.
  intros He Hr. unfold qnx_process_entry_release, kbind, get_proc, put_proc, put. rewrite He, He.
  case_cmp; [lia|done].
Qed.

Lemma channel_release_run chnl c s :
  ks_heap s !! chnl = Some (OChan c) -> 1 < ch_refcnt c ->
  qnx_channel_release chnl s = Done (tt, upd_heap <[chnl := OChan (set_ch_refcnt (ch_refcnt c - 1) c)]> s).
Proof.
  intros Hc Hr. unfold qnx_channel_release, kbind, get_chan, put_chan, put. rewrite Hc, Hc.
  case_cmp; [lia|done].
Qed.

Lemma release_pending_run entry e id s :
  ks_heap s !! entry = Some (OProc e) -> (forall p, p ∈ pending e -> exists m, ks_heap s !! p = Some (OMsg m)) ->
  qnx_process_entry_release_pending entry id s =
    match List.find (has_rcvid (ks_heap s) id) (pending e) with
    | None => Done (None, s)
    | Some p => Done (Some p, upd_heap <[entry := OProc (set_pending (list_del p (pending e)) e)]> s)
    end.
Proof.
  intros He Hp. unfold qnx_process_entry_release_pending, kbind, get_proc. rewrite He.
  rewrite find_rcvid_run by done. destruct (List.find _ _); [|done].
  unfold put_proc, put. by rewrite He.
Qed.

Lemma find_connection_run entry e coid s :
  ks_heap s !! entry = Some (OProc e) -> table_ok (pe_connections e) -> is_int coid ->
  qnx_process_entry_find_connection entry coid s =
    Done (default (QnxConnection 0 0) (connections (pe_connections e) !! coid), s).
Proof.
  intros He Hok Hint. unfold qnx_process_entry_find_connection, kbind, get_proc. rewrite He.
  by rewrite retrieve_lookup.
Qed.

(** a channel as its process leaves it behind: freed when nobody uses it, else
    one reference less *)
Definition after_release (c : qnx_channel) : option kobj :=
  if ch_refcnt c =? 1 then None else Some (OChan (set_ch_refcnt (ch_refcnt c - 1) c)).

(** somebody holds a reference, or the queue is empty *)
Definition quiet (c : qnx_channel) : Prop := 1 < ch_refcnt c \/ ch_refcnt c = 1 /\ waiting c = [].

Lemma channel_release_eq chnl c s :
  ks_heap s !! chnl = Some (OChan c) -> quiet c ->
  qnx_channel_release chnl s = Done (tt, upd_heap (partial_alter (fun _ => after_release c) chnl) s).
Proof.
  intros Hc Hq. unfold after_release. destruct Hq as [Hr|[Hr Hw]].
  - rewrite (channel_release_run _ _ _ Hc Hr). case_cmp; [lia|done].
  - rewrite Hr. change (1 =? 1) with true. cbn iota. fold (delete (M := gmap ptr kobj) chnl).
    enough (Hwp : wp (qnx_channel_release chnl) (fun _ s' => s' = upd_heap (delete chnl) s) s).
    { apply wp_run in Hwp as ([] & s' & -> & ->). done. }
    unfold qnx_channel_release. ksteps. rewrite Hr.
    change (1 - 1 =? 0) with true. cbn iota. unfold qnx_channel_free. ksteps.
    cbn [waiting set_ch_refcnt]. rewrite Hw. cbn [free_waiting]. ksteps. state_eq.
Qed.

Lemma channel_release_quiet chnl c s :
  ks_heap s !! chnl = Some (OChan c) -> quiet c ->
  wp (qnx_channel_release chnl) (fun _ s' =>
    ks_heap s' !! chnl = after_release c /\
    (forall q, q ≠ chnl -> ks_heap s' !! q = ks_heap s !! q) /\ rest s' = rest s /\ alloc s' = alloc s /\
    ks_trace s' = ks_trace s /\ ks_sleeping s' = ks_sleeping s /\ ks_user s' = ks_user s) s.
Proof.
  intros Hc Hq. eapply wp_eq; [by apply channel_release_eq|]. ks_simpl.
  split_and!; try done; [apply lookup_partial_alter_eq|]. intros q Hne. by rewrite lookup_partial_alter_ne.
Qed.

(** the first loop of [qnx_process_entry_free] *)
Lemma release_channels_spec entry e l s :
  ks_heap s !! entry = Some (OProc e) -> channels e = l -> NoDup l ->
  (forall p, p ∈ l -> exists c, ks_heap s !! p = Some (OChan c) /\ quiet c) ->
  wp (release_channels entry l) (fun _ s' =>
    ks_heap s' !! entry = Some (OProc (set_channels [] e)) /\
    (forall p c, p ∈ l -> ks_heap s !! p = Some (OChan c) -> ks_heap s' !! p = after_release c) /\
    (forall q, q ≠ entry -> q ∉ l -> ks_heap s' !! q = ks_heap s !! q) /\
    ks_trace s' = ks_trace s /\ ks_sleeping s' = ks_sleeping s /\ ks_user s' = ks_user s /\ alloc s' = alloc s) s.
Proof.
  revert e s. induction l as [|p l IH]; intros e s He Hl Hnd Hq.
  { apply wp_ret. split_and!; try done; [by destruct e; cbn in *; subst|by intros ?? ?%elem_of_nil]. }
  apply NoDup_cons in Hnd as [Hpl Hnd]. destruct (Hq p) as (c & Hc & Hquiet); [by left|].
  assert (p ≠ entry) by congruence. cbn [release_channels]. ksteps.
  eapply wp_mono; [eapply channel_release_quiet; [heap_lookup|done]|].
  cbn beta. intros _ s1 (Hp1 & Hrest1 & _ & Hal1 & Htr1 & Hsl1 & Hus1). ks_simpl.
  assert (Hkeep : forall q, q ≠ p -> q ≠ entry -> ks_heap s1 !! q = ks_heap s !! q).
  { intros q Hqp Hqe. rewrite Hrest1 by done. by rewrite lookup_insert_ne. }
  eapply wp_mono; [apply (IH (set_channels l e)); try done|].
  - rewrite Hrest1 by congruence. rewrite lookup_insert_eq, Hl. cbn [list_del]. by rewrite decide_True.
  - intros q Hin. destruct (Hq q) as (cq & Hcq & Hqq); [by right|]. exists cq. split; [|done].
    rewrite Hkeep; [done| |congruence]. intros ->. done.
  - cbn beta. intros _ s2 (He2 & Hp2 & Hrest2 & Htr2 & Hsl2 & Hus2 & Hal2). split_and!; try congruence; [done| | |exact (eq_trans Hal2 Hal1)].
    + intros q cq Hin Hcq. apply elem_of_cons in Hin as [->|Hin].
      * simplify_eq. by rewrite Hrest2.
      * eapply Hp2; [done|]. rewrite Hkeep; [done| |congruence]. intros ->. done.
    + intros q Hqe Hqn. apply not_elem_of_cons in Hqn as [Hqp Hqn]. rewrite Hrest2 by done. by apply Hkeep.
Qed.

(** the second loop *)
Lemma release_pendings_spec entry e l s :
  ks_heap s !! entry = Some (OProc e) -> pending e = l -> NoDup l ->
  (forall p, p ∈ l -> exists m t, ks_heap s !! p = Some (OMsg m) /\ task m = Some t) ->
  wp (release_pendings entry l) (fun _ s' =>
    ks_heap s' !! entry = Some (OProc (set_pending [] e)) /\
    (forall p m t, p ∈ l -> ks_heap s !! p = Some (OMsg m) -> task m = Some t ->
       ks_heap s' !! p = Some (OMsg (set_status (- ESRCH) m)) /\ tsk_pid t ∉ ks_sleeping s') /\
    (forall q, q ≠ entry -> q ∉ l -> ks_heap s' !! q = ks_heap s !! q) /\
    ks_sleeping s' ⊆ ks_sleeping s /\ alloc s' = alloc s /\ ks_user s' = ks_user s) s.
Proof.
  revert e s. induction l as [|p l IH]; intros e s He Hl Hnd Hq.
  { apply wp_ret. split_and!; try done; [by destruct e; cbn in *; subst|by intros ??? ?%elem_of_nil]. }
  apply NoDup_cons in Hnd as [Hpl Hnd]. destruct (Hq p) as (m & t & Hm & Ht); [by left|].
  assert (p ≠ entry) by congruence. cbn [release_pendings]. kstep.
  eapply wp_eq; [by apply cleanup_and_free_run|]. ksteps.
  rewrite Hl. cbn [list_del]. rewrite decide_True by done.
  eapply wp_mono; [apply (IH (set_pending l e)); try done|].
  - heap_lookup.
  - intros q Hin. destruct (Hq q) as (mq & tq & Hmq & Htq); [by right|]. exists mq, tq. split; [|done].
    assert (q ≠ p) by (intros ->; done). ks_simpl. by rewrite !lookup_insert_ne by congruence.
  - cbn beta. intros _ s' (He' & Hmsgs & Hrest & Hsub & Hal & Hus). ks_simpl. split_and!; [done| | | |exact Hal|done].
    + intros q mq tq Hin Hmq Htq. assert (q ≠ entry) by congruence.
      apply elem_of_cons in Hin as [->|Hin].
      * simplify_eq. split; [|clear -Hsub; set_solver]. rewrite Hrest by done.
        by rewrite lookup_insert_ne, lookup_insert_eq.
      * assert (q ≠ p) by (intros ->; done). eapply Hmsgs; [done| |done]. by rewrite !lookup_insert_ne.
    + intros q Hqe Hqn. apply not_elem_of_cons in Hqn as [Hqp Hqn]. rewrite Hrest by done.
      by rewrite !lookup_insert_ne.
    + clear -Hsub; set_solver.
Qed.

(** the entry with its reference given back, as [qnx_process_entry_free] leaves
    the heap: the channels released, the pending messages failed *)
Record freed s (q : ptr) (e : qnx_process_entry) (h' : gmap ptr kobj) (asleep : gset Z) : Prop := {
  fr_channels : forall c ch, c ∈ channels e -> ks_heap s !! c = Some (OChan ch) -> h' !! c = after_release ch;
  fr_pending : forall p m t, p ∈ pending e -> ks_heap s !! p = Some (OMsg m) -> task m = Some t ->
    h' !! p = Some (OMsg (set_status (- ESRCH) m)) /\ tsk_pid t ∉ asleep;
  fr_rest : forall r, r ≠ q -> r ∉ channels e -> r ∉ pending e -> h' !! r = ks_heap s !! r
}.

(** the last reference to an entry goes *)
Lemma entry_free_run s q e :
  ks_heap s !! q = Some (OProc e) -> pe_refcnt e = 1 -> entry_ok (ks_heap s) e ->
  (forall c ch, c ∈ channels e -> ks_heap s !! c = Some (OChan ch) -> quiet ch) ->
  wp (qnx_process_entry_release q) (fun _ s' =>
    freed s q e (ks_heap s') (ks_sleeping s') /\ ks_heap s' !! q = None /\ alloc s' = alloc s /\ ks_sleeping s' ⊆ ks_sleeping s /\ ks_user s' = ks_user s) s.
Proof.
  intros He Hr Hok Hquiet. unfold qnx_process_entry_release. ksteps. rewrite Hr. change (1 - 1 =? 0) with true.
  cbn iota. unfold qnx_process_entry_free. ksteps. cbn [channels set_pe_refcnt].
  eapply wp_mono.
  { eapply release_channels_spec; [heap_lookup|done|by apply Hok|]. intros p Hp.
    destruct (entry_ok_chans _ _ _ Hok Hp) as (c & Hc). exists c. split; [|by eauto]. ks_simpl.
    by rewrite lookup_insert_ne by congruence. }
  cbn beta. intros _ s1 (He1 & Hch1 & Hrest1 & Htr1 & Hsl1 & Hus1 & Hal1). ks_simpl. ksteps. cbn [pending set_channels set_pe_refcnt].
  assert (Hmsg : forall p m, ks_heap s !! p = Some (OMsg m) -> ks_heap s1 !! p = Some (OMsg m)).
  { intros p m Hm. rewrite Hrest1; [by rewrite lookup_insert_ne by congruence|congruence|].
    intros Hin. destruct (entry_ok_chans _ _ _ Hok Hin) as (c & Hc). congruence. }
  eapply wp_mono.
  { eapply release_pendings_spec; [done|done|by apply Hok|]. intros p Hp.
    destruct (eo_pending _ _ Hok p Hp) as (m & Hm & t & Ht). eauto. }
  cbn beta. intros _ s2 (He2 & Hm2 & Hrest2 & Hsub2 & Hal2 & Hus2). kstep. ks_simpl.
  split; [split|split_and!; [apply lookup_delete_eq|exact (eq_trans Hal2 Hal1)|by rewrite <- Hsl1|by rewrite Hus2]].
  - intros p c Hp Hc. assert (p ≠ q) by congruence. ks_simpl. rewrite lookup_delete_ne by done.
    rewrite Hrest2; [|done|intros Hin; destruct (eo_pending _ _ Hok p Hin) as (? & ? & _); congruence].
    apply Hch1; [done|]. by rewrite lookup_insert_ne.
  - intros p m t Hp Hm Ht. ks_simpl. rewrite lookup_delete_ne by congruence. by apply Hm2; auto.
  - intros r Hrq Hrc Hrp. ks_simpl. rewrite lookup_delete_ne by done. rewrite Hrest2, Hrest1 by done.
    by rewrite lookup_insert_ne.
Qed.

End ProcessSpec.

(** ** Properties *)

(** ChannelCreate.  Below the limit the process gets a new channel, empty
    and with one reference, whose id is the next one of a global counter.  At the
    limit the call returns [-EMFILE] and the heap is as before; the id is used up
    all the same. *)
Theorem add_channel_creates {M : Type} (s : kstate M) (entry : ptr) (e : qnx_process_entry) (oom' : list bool) :
  ks_heap s !! entry = Some (OProc e) -> ks_heap s !! ks_next s = None ->
  kmalloc_answer (ks_oom s) = (true, oom') ->
  0 <= ks_next_channel_id s < INT_MAX ->
  let id := ks_next_channel_id s + 1 in
  wp (qnx_process_entry_add_channel entry) (fun rc s' =>
    ks_next_channel_id s' = id /\
    if Z.of_nat (length (channels e)) <? qnx_max_channels_per_process (ks_params s)
    then rc = id /\ ks_heap s' = <[entry := OProc (set_channels (ks_next s :: channels e) e)]>
                                  (<[ks_next s := OChan (Channel 1 id [] 0 0)]> (ks_heap s))
    else rc = - EMFILE /\ ks_heap s' = ks_heap s) s.
Proof.
  intros He Hfresh Hk Hid id. assert (entry ≠ ks_next s) by congruence.
  assert (Hi : i32 (ks_next_channel_id s + 1) = id) by (apply i32_id; unfold_int; lia).
  unfold qnx_process_entry_add_channel, qnx_channel_init, get_new_channel_id, get_num_channels_unlocked.
  kstep. eapply wp_kmalloc; [done|]. ksteps. ks_simpl. rewrite Hi. case_cmp.
  - ksteps. assert (id <? 0 = false) as -> by (subst id; lia). ksteps. ks_simpl. split_and!; try done.
    by rewrite insert_insert_eq.
  - ksteps. change (- EMFILE <? 0) with true. cbn iota. ksteps. ks_simpl. split_and!; try done.
    rewrite insert_insert_eq. by rewrite delete_insert_id.
Qed.

(** ChannelDestroy of a channel that nobody else uses unlinks and frees it;
    an unknown id is [-EINVAL]. *)
Theorem remove_channel_idle {M : Type} (s : kstate M) (entry : ptr) (e : qnx_process_entry) (id : Z) :
  ks_heap s !! entry = Some (OProc e) -> entry_ok (ks_heap s) e ->
  match entry_channel (ks_heap s) e id with
  | None => qnx_process_entry_remove_channel entry id s = Done (- EINVAL, s)
  | Some chnl =>
      forall c, ks_heap s !! chnl = Some (OChan c) -> ch_refcnt c = 1 -> waiting c = [] ->
        wp (qnx_process_entry_remove_channel entry id) (fun rc s' =>
          rc = 0 /\ ks_heap s' !! chnl = None /\
          ks_heap s' !! entry = Some (OProc (set_channels (list_del chnl (channels e)) e)) /\
          (forall q, q ≠ chnl -> q ≠ entry -> ks_heap s' !! q = ks_heap s !! q)) s
  end.
Proof.
  intros He Hok. pose proof (find_chid_run (channels e) id s (fun p => entry_ok_chans _ _ p Hok)) as Hrun.
  fold (entry_channel (ks_heap s) e id) in Hrun.
  destruct (entry_channel (ks_heap s) e id) as [chnl|] eqn:Hf.
  - intros c Hc Hr Hw. assert (chnl ≠ entry) by congruence. unfold qnx_process_entry_remove_channel. ksteps.
    eapply wp_eq; [exact Hrun|]. ksteps.
    eapply wp_mono; [eapply channel_release_quiet; [heap_lookup|by right]|]. cbn beta.
    intros _ s' (Hc' & Hrest & _). kstep. split_and!; [done| | |].
    + rewrite Hc'. unfold after_release. by rewrite Hr.
    + rewrite Hrest by congruence. heap_lookup.
    + intros q Hqc Hqe. rewrite Hrest by done. ks_simpl. by rewrite lookup_insert_ne.
  - unfold qnx_process_entry_remove_channel, kbind, get_proc. by rewrite He, Hrun.
Qed.

(** ChannelDestroy of a channel in which a sender waits returns 0 and drops
    one reference, but the sender keeps its own: the channel, its queue and every
    message stay as they are and nobody is woken. *)
Theorem remove_channel_busy {M : Type} (s : kstate M) (entry chnl : ptr) (e : qnx_process_entry)
    (c : qnx_channel) (id : Z) :
  ks_heap s !! entry = Some (OProc e) -> entry_ok (ks_heap s) e ->
  entry_channel (ks_heap s) e id = Some chnl -> ks_heap s !! chnl = Some (OChan c) -> 1 < ch_refcnt c ->
  wp (qnx_process_entry_remove_channel entry id) (fun rc s' =>
    rc = 0 /\ ks_heap s' !! chnl = Some (OChan (set_ch_refcnt (ch_refcnt c - 1) c)) /\
    ks_heap s' !! entry = Some (OProc (set_channels (list_del chnl (channels e)) e)) /\
    (forall q, q ≠ chnl -> q ≠ entry -> ks_heap s' !! q = ks_heap s !! q) /\
    ks_trace s' = ks_trace s /\ ks_sleeping s' = ks_sleeping s) s.
Proof.
  intros He Hok Hf Hc Hr. assert (chnl ≠ entry) by congruence. unfold qnx_process_entry_remove_channel. ksteps.
  eapply wp_eq; [apply find_chid_run; intros; by eapply entry_ok_chans|].
  fold (entry_channel (ks_heap s) e id). rewrite Hf. ksteps.
  eapply wp_eq; [eapply channel_release_run; [heap_lookup|done]|]. kstep. ks_simpl. split_and!; try done.
  - apply lookup_insert_eq.
  - heap_lookup.
  - intros q Hqc Hqe. by rewrite !lookup_insert_ne.
Qed.

(** A message put into [pending] is found again by its id: MsgReply and
    MsgError get exactly this object, and the list is as it was before. *)
Theorem pending_roundtrip {M : Type} (s : kstate M) (entry p : ptr) (e : qnx_process_entry) (m : qnx_internal_msgsend) :
  ks_heap s !! entry = Some (OProc e) -> entry_ok (ks_heap s) e -> ks_heap s !! p = Some (OMsg m) ->
  wp (let! _ := qnx_process_entry_add_pending entry p in qnx_process_entry_release_pending entry (rcvid m))
    (fun r s' => r = Some p /\
       ks_heap s' = <[p := OMsg (set_state QNX_STATE_PENDING m)]> (ks_heap s)) s.
Proof.
  intros He Hok Hp. assert (p ≠ entry) by congruence. unfold qnx_process_entry_add_pending. ksteps.
  eapply wp_of_run; [eapply release_pending_run; [heap_lookup|]|].
  - intros q Hq. cbn in Hq. apply elem_of_cons in Hq as [->|Hq]; ks_simpl.
    + rewrite lookup_insert_eq. eauto.
    + destruct (entry_ok_msgs _ _ _ Hok Hq) as [mq Hmq]. assert (q ≠ entry) by congruence.
      destruct (decide (q = p)) as [->|]; [rewrite lookup_insert_eq; eauto|]. rewrite !lookup_insert_ne by done. eauto.
  - cbn. unfold has_rcvid at 1, msg_test. ks_simpl. rewrite lookup_insert_eq. cbn. rewrite Z.eqb_refl.
    split; [done|]. ks_simpl. rewrite decide_True by done. apply map_eq. intros q.
    rewrite !lookup_insert. repeat case_decide; subst; try congruence. by destruct e.
Qed.

(** The last reference to a process entry goes (its process has closed the
    device): its channels lose the process's reference, and those nobody uses
    are freed; every sender that waits for a reply from the process gets
    [-ESRCH] and is woken; the entry is freed; nothing else changes. *)
Theorem process_exit_releases {M : Type} (s : kstate M) (entry : ptr) (e : qnx_process_entry) :
  ks_heap s !! entry = Some (OProc e) -> pe_refcnt e = 1 -> entry_ok (ks_heap s) e ->
  (forall p c, p ∈ channels e -> ks_heap s !! p = Some (OChan c) -> quiet c) ->
  wp (qnx_process_entry_release entry) (fun _ s' =>
    ks_heap s' !! entry = None /\
    (forall p c, p ∈ channels e -> ks_heap s !! p = Some (OChan c) -> ks_heap s' !! p = after_release c) /\
    (forall p m t, p ∈ pending e -> ks_heap s !! p = Some (OMsg m) -> task m = Some t ->
       ks_heap s' !! p = Some (OMsg (set_status (- ESRCH) m)) /\ tsk_pid t ∉ ks_sleeping s') /\
    (forall q, q ≠ entry -> q ∉ channels e -> q ∉ pending e -> ks_heap s' !! q = ks_heap s !! q)) s.
Proof.
  intros He Hr Hok Hquiet. eapply wp_mono; [by apply (entry_free_run s entry e)|]. cbn beta.
  intros _ s' ([Hc Hp Hrest] & Hgone & _ & _). by split_and!.
Qed.
