(* ===== verification/DriverData.v ===== *)
(** * The list of processes (kernel/driver_data.{h,c})

    [driver_data] is the one global list of process entries.  The lookups give
    the caller a reference of its own.  [qnx_process_entry_add_connection]
    (kernel/process_entry.c) is here because it looks up another process. *)

From Stdlib Require Import ZArith Lia.
From stdpp Require Import base tactics list option gmap fin_maps sets.
From S2P Require Import Prelude Layout UserMem ConnectionTable Kernel Msgsend Channel ProcessEntry.

Open Scope Z_scope.

Section DriverData.
  Context {M : Type} `{!UserMem M}.

Definition qnx_driver_data_init : K M unit := kmod (upd_entries []).

Definition qnx_driver_data_add_process (entry : ptr) : K M unit :=
  kmod (fun s => upd_entries (list_add entry (ks_entries s)) s).

(** the first entry of the list for the process *)
Definition find_pid (l : list ptr) (pid : Z) : K M (option ptr) :=
  list_find_entry (fun entry => let! e := get_proc entry in kret (pe_pid e =? pid)) l.

Definition qnx_driver_data_find_process (pid : Z) : K M (option ptr) :=
  let! l := kget ks_entries in
  let! found := find_pid l pid in
  match found with
  | None => kret None
  | Some entry => qnx_process_entry_get entry ;;; kret (Some entry)
  end.

Definition qnx_driver_data_is_process_available (pid : Z) : K M bool :=
  let! l := kget ks_entries in
  let! found := find_pid l pid in
  kret (match found with Some _ => true | None => false end).

Definition qnx_driver_data_remove (pid : Z) : K M unit :=
  let! l := kget ks_entries in
  let! found := find_pid l pid in
  match found with
  | None => kret tt
  | Some entry => kmod (fun s => upd_entries (list_del entry (ks_entries s)) s)
  end.

Definition qnx_driver_data_find_channel (pid id : Z) : K M (option ptr) :=
  let! proc := qnx_driver_data_find_process pid in
  match proc with
  | None => kret None
  | Some proc =>
      let! chnl := qnx_process_entry_find_channel proc id in
      qnx_process_entry_release proc ;;;
      kret chnl
  end.

Definition qnx_process_entry_add_connection (entry : ptr) (att : qnx_io_attach) : K M Z :=
  let! proc := qnx_driver_data_find_process (at_pid att) in
  match proc with
  | None => kret (- ESRCH)
  | Some proc =>
      let! avail := qnx_process_entry_is_channel_available proc (at_chid att) in
      let! rc :=
        (if avail
         then
           let! oom := kget ks_oom in
           let '(ok, oom') := kmalloc_answer oom in
           kmod (upd_oom oom') ;;;
           if ok
           then
             let! pars := kget ks_params in
             let! e := get_proc entry in
             match qnx_connection_table_add (qnx_max_connections_per_process pars) oom'
                     (pe_connections e) (qnx_connection_init (at_pid att) (at_chid att)) with
             | None => koops OutOfBounds
             | Some (rc, oom'', table) =>
                 kmod (upd_oom oom'') ;;;
                 put_proc entry (set_connections table e) ;;;
                 kret rc
             end
           else kret (- ENOMEM)
         else kret (- ESRCH)) in
      qnx_process_entry_release proc ;;;
      kret rc
  end.

End DriverData.

(** ** Specification *)

Section DriverSpec.
  Context {M : Type} `{!UserMem M}.
  Implicit Types (h : gmap ptr kobj) (s : kstate M).

Definition has_pid h (pid : Z) (p : ptr) : bool :=
  match h !! p with Some (OProc e) => pe_pid e =? pid | _ => false end.

Definition find_process s (pid : Z) : option ptr := List.find (has_pid (ks_heap s) pid) (ks_entries s).

(** the channel that a connection to [(pid, id)] leads to *)
Definition lookup_channel s (pid id : Z) : option ptr :=
  match find_process s pid with
  | Some p => match ks_heap s !! p with Some (OProc e) => entry_channel (ks_heap s) e id | _ => None end
  | None => None
  end.

(** the list of processes: every entry is there, has a reference, and is well formed *)
Record entries_ok s : Prop := {
  es_nodup : NoDup (ks_entries s);
  es_entries : forall p, p ∈ ks_entries s ->
    exists e, ks_heap s !! p = Some (OProc e) /\ 0 < pe_refcnt e /\ entry_ok (ks_heap s) e
}.

(** ** Lemmas *)

Lemma find_pid_run l pid s :
  (forall p, p ∈ l -> exists e, ks_heap s !! p = Some (OProc e)) ->
  find_pid l pid s = Done (List.find (has_pid (ks_heap s) pid) l, s).
Proof.
  intros Hl. apply list_find_entry_run. intros p Hp. destruct (Hl p Hp) as [e He].
  unfold has_pid, kbind, get_proc, kret. by rewrite He.
Qed.

Lemma entries_procs s p : entries_ok s -> p ∈ ks_entries s -> exists e, ks_heap s !! p = Some (OProc e).
Proof. intros Hok Hp. destruct (es_entries _ Hok p Hp) as (e & He & _). eauto. Qed.

Lemma find_process_Some s pid p :
  entries_ok s -> find_process s pid = Some p ->
  p ∈ ks_entries s /\ exists e, ks_heap s !! p = Some (OProc e) /\ pe_pid e = pid /\ 0 < pe_refcnt e /\
    entry_ok (ks_heap s) e.
Proof.
  intros Hok [Hin Ht]%find_elem. split; [done|]. destruct (es_entries _ Hok p Hin) as (e & He & Hr & Heo).
  exists e. unfold has_pid in Ht. rewrite He in Ht. apply Z.eqb_eq in Ht. done.
Qed.

Lemma find_process_run s pid :
  entries_ok s ->
  qnx_driver_data_find_process pid s =
    match find_process s pid with
    | None => Done (None, s)
    | Some p =>
        match ks_heap s !! p with
        | Some (OProc e) => Done (Some p, upd_heap <[p := OProc (set_pe_refcnt (pe_refcnt e + 1) e)]> s)
        | _ => Oops (BadAccess p)
        end
    end.
Proof.
  intros Hok. unfold qnx_driver_data_find_process, kbind, kget.
  rewrite find_pid_run by (intros; by eapply entries_procs). fold (find_process s pid).
  destruct (find_process s pid) as [p|] eqn:Hf; [|done].
  destruct (find_process_Some _ _ _ Hok Hf) as (_ & e & He & _).
  unfold qnx_process_entry_get, kbind, get_proc, put_proc, put. by rewrite He, He.
Qed.

(** what [entry_ok] and [entry_channel] say does not depend on process entries *)
Definition same_objects h h' : Prop :=
  forall p, (forall e, h !! p ≠ Some (OProc e)) -> h' !! p = h !! p.

Lemma same_objects_insert h p e e' : h !! p = Some (OProc e) -> same_objects h (<[p := OProc e']> h).
Proof. intros Hp q Hq. apply lookup_insert_ne. intros ->. by eapply Hq. Qed.

Lemma entry_ok_same h h' e : same_objects h h' -> entry_ok h e -> entry_ok h' e.
Proof.
  intros Hs [Hcn Hc Ht Hpn Hp Hfn Hf]. split; try done; intros p Hin.
  - destruct (Hc p Hin) as (c & Hpc & ?). rewrite Hs; [eauto|intros; congruence].
  - destruct (Hp p Hin) as (c & Hpc & ?). rewrite Hs; [eauto|intros; congruence].
  - destruct (Hf p Hin) as (c & Hpc). rewrite Hs; [eauto|intros; congruence].
Qed.

Lemma entry_channel_same h h' e id : same_objects h h' -> entry_ok h e -> entry_channel h' e id = entry_channel h e id.
Proof.
  intros Hs Hok. apply find_ext. intros p Hp. destruct (entry_ok_chans _ _ _ Hok Hp) as [c Hc].
  unfold has_chid. rewrite Hs; [done|intros; congruence].
Qed.

Lemma entry_ok_refcnt h e r : entry_ok h e -> entry_ok h (set_pe_refcnt r e).
Proof. intros []. by split. Qed.

(** more objects do not change what is found *)
Lemma entry_ok_mono h h' e : h ⊆ h' -> entry_ok h e -> entry_ok h' e.
Proof.
  intros Hs [Hcn Hc Ht Hpn Hp Hfn Hf]. split; try done; intros p Hin.
  - destruct (Hc p Hin) as (c & Hpc & ?). exists c. split; [by eapply lookup_weaken|done].
  - destruct (Hp p Hin) as (m & Hpm & ?). exists m. split; [by eapply lookup_weaken|done].
  - destruct (Hf p Hin) as (f & Hpf). exists f. by eapply lookup_weaken.
Qed.

Lemma entry_channel_mono h h' e id : h ⊆ h' -> entry_ok h e -> entry_channel h' e id = entry_channel h e id.
Proof.
  intros Hs Hok. apply find_ext. intros p Hp. destruct (entry_ok_chans _ _ _ Hok Hp) as [c Hc].
  unfold has_chid. by rewrite Hc, (lookup_weaken _ _ _ _ Hc Hs).
Qed.

Lemma entries_ok_mono s s' :
  ks_heap s ⊆ ks_heap s' -> ks_entries s' = ks_entries s -> entries_ok s -> entries_ok s'.
Proof.
  intros Hs He [Hnd Hin]. split; rewrite He; [done|]. intros p Hp. destruct (Hin p Hp) as (e & Hpe & Hr & Hok).
  exists e. split_and!; [by eapply lookup_weaken|done|by eapply entry_ok_mono].
Qed.

Lemma find_process_mono s s' pid :
  ks_heap s ⊆ ks_heap s' -> ks_entries s' = ks_entries s -> entries_ok s -> find_process s' pid = find_process s pid.
Proof.
  intros Hs He Hok. unfold find_process. rewrite He. apply find_ext. intros p Hp.
  destruct (entries_procs _ _ Hok Hp) as [e Hpe]. unfold has_pid. by rewrite Hpe, (lookup_weaken _ _ _ _ Hpe Hs).
Qed.

Lemma lookup_channel_mono s s' pid id :
  ks_heap s ⊆ ks_heap s' -> ks_entries s' = ks_entries s -> entries_ok s ->
  lookup_channel s' pid id = lookup_channel s pid id.
Proof.
  intros Hs He Hok. unfold lookup_channel. rewrite (find_process_mono s s') by done.
  destruct (find_process s pid) as [p|] eqn:Hf; [|done].
  destruct (find_process_Some _ _ _ Hok Hf) as (_ & e & Hpe & _ & _ & Heo).
  rewrite Hpe, (lookup_weaken _ _ _ _ Hpe Hs). by apply entry_channel_mono.
Qed.

(** changes of objects that the process lists do not notice *)
Record heap_keeps h h' : Prop := {
  hk_procs : forall p e, h !! p = Some (OProc e) -> h' !! p = Some (OProc e);
  hk_chans : forall p c, h !! p = Some (OChan c) -> 0 < ch_refcnt c ->
    exists c', h' !! p = Some (OChan c') /\ 0 < ch_refcnt c';
  hk_msgs : forall p m, h !! p = Some (OMsg m) -> exists m', h' !! p = Some (OMsg m') /\ task m' = task m;
  hk_pollfds : forall p f, h !! p = Some (OPollfd f) -> h' !! p = Some (OPollfd f)
}.

Lemma heap_keeps_chan h h' p c c' :
  h !! p = Some (OChan c) -> 0 < ch_refcnt c' -> h' !! p = Some (OChan c') ->
  (forall q o, h !! q = Some o -> q ≠ p -> h' !! q = Some o) -> heap_keeps h h'.
Proof.
  intros Hp Hr Hp' Hh. split.
  - intros q e Hq. apply Hh; congruence.
  - intros q cq Hq Hrq. destruct (decide (q = p)) as [->|]; [eauto|]. exists cq. auto.
  - intros q m Hq. exists m. split; [apply Hh; congruence|done].
  - intros q f Hq. apply Hh; congruence.
Qed.

Lemma entry_ok_keeps h h' e : heap_keeps h h' -> entry_ok h e -> entry_ok h' e.
Proof.
  intros [Hpr Hch Hm Hpf] [Hcn Hc Ht Hpn Hpe Hfn Hf]. split; try done; intros q Hq.
  - destruct (Hc q Hq) as (c & Hqc & Hrc). by eapply Hch.
  - destruct (Hpe q Hq) as (m & Hqm & Htm). destruct (Hm q m Hqm) as (m' & Hm' & Ht'). exists m'. by rewrite Ht'.
  - destruct (Hf q Hq) as (f & Hqf). eauto.
Qed.

Lemma entries_ok_keeps s s' :
  heap_keeps (ks_heap s) (ks_heap s') -> ks_entries s' = ks_entries s -> entries_ok s -> entries_ok s'.
Proof.
  intros Hk Hes [Hnd Hin]. split; rewrite Hes; [done|]. intros p Hp.
  destruct (Hin p Hp) as (e & He & Hr & Hok). exists e. split_and!; [by apply Hk|done|by eapply entry_ok_keeps].
Qed.

(** objects of no interest to the process lists may change *)
Lemma heap_keeps_file h h' p f :
  h !! p = Some (OFile f) -> (forall q o, h !! q = Some o -> q ≠ p -> h' !! q = Some o) -> heap_keeps h h'.
Proof.
  intros Hp Hh. split; intros q o Hq.
  - apply Hh; congruence.
  - intros Hr. exists o. split; [apply Hh; congruence|done].
  - exists o. split; [apply Hh; congruence|done].
  - apply Hh; congruence.
Qed.

(** a new entry at the head of the list *)
Lemma entries_ok_cons s s' p e :
  heap_keeps (ks_heap s) (ks_heap s') -> ks_entries s' = p :: ks_entries s -> entries_ok s ->
  p ∉ ks_entries s -> ks_heap s' !! p = Some (OProc e) -> 0 < pe_refcnt e -> entry_ok (ks_heap s') e ->
  entries_ok s' /\
  forall pid, find_process s' pid = if pe_pid e =? pid then Some p else find_process s pid.
Proof.
  intros Hk Hes Hok Hp He Hr Heo. split.
  - destruct (entries_ok_keeps s (upd_entries (ks_entries s) s') Hk eq_refl Hok) as [Hnd Hin]. ks_simpl.
    split; rewrite Hes; [by constructor|]. intros q [->|Hq]%elem_of_cons; [eauto|by apply Hin].
  - intros pid. unfold find_process. rewrite Hes. cbn [List.find]. unfold has_pid at 1. rewrite He.
    destruct (pe_pid e =? pid); [done|]. apply find_ext. intros q Hq. destruct (entries_procs _ _ Hok Hq) as [eq Heq].
    unfold has_pid. by rewrite Heq, (hk_procs _ _ Hk _ _ Heq).
Qed.

(** an entry is replaced by one of the same process *)
Lemma entries_ok_put s p e e' :
  entries_ok s -> ks_heap s !! p = Some (OProc e) -> 0 < pe_refcnt e' -> entry_ok (ks_heap s) e' ->
  entries_ok (upd_heap <[p := OProc e']> s).
Proof.
  intros [Hnd Hin] He Hr Hok. pose proof (same_objects_insert _ _ _ e' He) as Hs. split; [done|]. intros q Hq.
  destruct (Hin q Hq) as (eq & Heq & Hrq & Hokq). ks_simpl. destruct (decide (q = p)) as [->|].
  - exists e'. rewrite lookup_insert_eq. split_and!; [done|done|]. by eapply entry_ok_same.
  - exists eq. rewrite lookup_insert_ne by done. split_and!; [done|done|]. by eapply entry_ok_same.
Qed.

Lemma find_process_put s p e e' pid :
  ks_heap s !! p = Some (OProc e) -> pe_pid e' = pe_pid e ->
  find_process (upd_heap <[p := OProc e']> s) pid = find_process s pid.
Proof.
  intros He Hp. apply find_ext. intros q _. unfold has_pid. ks_simpl. destruct (decide (q = p)) as [->|].
  - by rewrite lookup_insert_eq, He, Hp.
  - by rewrite lookup_insert_ne.
Qed.

Lemma entry_ok_pending_del h e p : entry_ok h e -> entry_ok h (set_pending (list_del p (pending e)) e).
Proof.
  intros [Hcn Hc Ht Hpn Hp Hfn Hf]. split; try done; cbn.
  - by apply list_del_NoDup.
  - intros q Hq%elem_of_list_del. by apply Hp.
Qed.

Lemma upd_heap_upd_heap f g s : upd_heap f (upd_heap g s) = upd_heap (fun h => f (g h)) s.
Proof. done. Qed.

Lemma upd_heap_ext f g s : f (ks_heap s) = g (ks_heap s) -> upd_heap f s = upd_heap g s.
Proof. unfold upd_heap. by intros ->. Qed.

Lemma upd_heap_id f s : f (ks_heap s) = ks_heap s -> upd_heap f s = s.
Proof. unfold upd_heap. intros ->. by destruct s. Qed.

Lemma driver_find_channel_run s pid id :
  entries_ok s ->
  qnx_driver_data_find_channel pid id s =
    match lookup_channel s pid id with
    | None => Done (None, s)
    | Some chnl =>
        match ks_heap s !! chnl with
        | Some (OChan c) => Done (Some chnl, upd_heap <[chnl := OChan (set_ch_refcnt (ch_refcnt c + 1) c)]> s)
        | _ => Oops (BadAccess chnl)
        end
    end.
Proof.
  intros Hok. unfold qnx_driver_data_find_channel, lookup_channel, kbind at 1. rewrite find_process_run by done.
  destruct (find_process s pid) as [p|] eqn:Hf; [|done].
  destruct (find_process_Some _ _ _ Hok Hf) as (_ & e & He & _ & Hr & Heo). rewrite He.
  set (e1 := set_pe_refcnt (pe_refcnt e + 1) e). set (s1 := upd_heap _ s).
  assert (Hs : same_objects (ks_heap s) (ks_heap s1)) by by eapply same_objects_insert.
  assert (He1 : ks_heap s1 !! p = Some (OProc e1)) by apply lookup_insert_eq.
  assert (Heo1 : entry_ok (ks_heap s1) e1) by (by apply entry_ok_refcnt, (entry_ok_same (ks_heap s))).
  unfold kbind at 1. rewrite (find_channel_run p e1 id s1 He1 Heo1).
  change (entry_channel (ks_heap s1) e1 id) with (entry_channel (ks_heap s1) e id).
  rewrite (entry_channel_same _ _ _ _ Hs Heo).
  assert (Hput : set_pe_refcnt (pe_refcnt e1 - 1) e1 = e).
  { unfold e1. destruct e. cbn. unfold set_pe_refcnt. cbn. f_equal. lia. }
  destruct (entry_channel (ks_heap s) e id) as [chnl|] eqn:Hc.
  - destruct (entry_channel_Some _ _ _ _ Hc) as (_ & c & Hcc & _). rewrite Hcc.
    assert (Hne : chnl ≠ p) by congruence.
    rewrite Hs, Hcc by (intros; congruence). unfold kbind.
    rewrite (entry_release_run p e1) by (ks_simpl; first [by rewrite lookup_insert_ne | cbn; lia]).
    unfold kret. f_equal. f_equal. unfold s1. rewrite !upd_heap_upd_heap. apply upd_heap_ext. rewrite Hput.
    clear -He Hne. heap_eq.
  - unfold kbind. rewrite (entry_release_run p e1) by (done || cbn; lia). unfold kret. do 2 f_equal.
    unfold s1. rewrite upd_heap_upd_heap. apply upd_heap_id. rewrite Hput, insert_insert_eq. by apply insert_id.
Qed.

Lemma lookup_channel_Some s pid id chnl :
  entries_ok s -> lookup_channel s pid id = Some chnl ->
  exists c, ks_heap s !! chnl = Some (OChan c) /\ ch_chid c = id /\ 0 < ch_refcnt c.
Proof.
  intros Hok. unfold lookup_channel. destruct (find_process s pid) as [p|] eqn:Hf; [|done].
  destruct (find_process_Some _ _ _ Hok Hf) as (_ & e & -> & _ & _ & Heo).
  intros (Hin & c & Hc & Hid)%entry_channel_Some. exists c.
  destruct (eo_channels _ _ Heo chnl Hin) as (c' & Hc' & Hr). by simplify_eq.
Qed.

(** the process that a connection is made to, and its channel *)
Lemma lookup_channel_process s pid id :
  entries_ok s ->
  match find_process s pid with
  | None => lookup_channel s pid id = None
  | Some p => exists e, ks_heap s !! p = Some (OProc e) /\ 0 < pe_refcnt e /\ entry_ok (ks_heap s) e /\
      lookup_channel s pid id = entry_channel (ks_heap s) e id
  end.
Proof.
  intros Hok. unfold lookup_channel. destruct (find_process s pid) as [p|] eqn:Hf; [|done].
  destruct (find_process_Some _ _ _ Hok Hf) as (_ & e & He & _ & Hr & Heo). exists e. by rewrite He.
Qed.

Lemma is_channel_available_run p e id s :
  ks_heap s !! p = Some (OProc e) -> entry_ok (ks_heap s) e ->
  qnx_process_entry_is_channel_available p id s =
    Done (match entry_channel (ks_heap s) e id with Some _ => true | None => false end, s).
Proof.
  intros He Hok. unfold qnx_process_entry_is_channel_available, kbind, get_proc. rewrite He.
  by rewrite find_chid_run by (intros; by eapply entry_ok_chans).
Qed.

Lemma set_refcnt_back e : set_pe_refcnt (pe_refcnt e + 1 - 1) (set_pe_refcnt (pe_refcnt e + 1) e) = e.
Proof. destruct e. unfold set_pe_refcnt. cbn. f_equal. lia. Qed.

(** the lookup of the peer, its use, and the release, around an action *)
Lemma attach_missing s entry att :
  entries_ok s -> lookup_channel s (at_pid att) (at_chid att) = None ->
  wp (qnx_process_entry_add_connection entry att) (fun rc s' => rc = - ESRCH /\ s' = s) s.
Proof.
  intros Hok Hl. pose proof (lookup_channel_process s (at_pid att) (at_chid att) Hok) as Hp.
  unfold qnx_process_entry_add_connection. kstep. eapply wp_of_run; [by apply find_process_run|].
  destruct (find_process s (at_pid att)) as [p|]; [|by ksteps]. destruct Hp as (e & He & Hr & Heo & Hec).
  rewrite He. set (e1 := set_pe_refcnt (pe_refcnt e + 1) e). set (s1 := upd_heap _ s).
  assert (Hs : same_objects (ks_heap s) (ks_heap s1)) by by eapply same_objects_insert.
  assert (He1 : ks_heap s1 !! p = Some (OProc e1)) by apply lookup_insert_eq.
  kstep. eapply wp_eq; [apply (is_channel_available_run p e1)|];
    [done|by apply entry_ok_refcnt, (entry_ok_same (ks_heap s))|].
  change (entry_channel (ks_heap s1) e1 _) with (entry_channel (ks_heap s1) e (at_chid att)).
  rewrite (entry_channel_same _ _ _ _ Hs Heo), <- Hec, Hl. ksteps.
  eapply wp_eq; [apply (entry_release_run p e1); [done|cbn; lia]|]. ksteps. split; [done|].
  unfold s1. rewrite upd_heap_upd_heap. apply upd_heap_id. rewrite insert_insert_eq. unfold e1. cbn [pe_refcnt set_pe_refcnt].
  rewrite set_refcnt_back. by apply insert_id.
Qed.

Lemma attach_run s entry e d d' coid att oom' chnl :
  entries_ok s -> ks_heap s !! entry = Some (OProc e) -> pe_connections e = Some d ->
  lookup_channel s (at_pid att) (at_chid att) = Some chnl ->
  kmalloc_answer (ks_oom s) = (true, oom') ->
  qnx_connection_table_add (qnx_max_connections_per_process (ks_params s)) oom' (Some d)
    (QnxConnection (at_pid att) (at_chid att)) = Some (coid, oom', Some d') ->
  wp (qnx_process_entry_add_connection entry att) (fun rc s' =>
    rc = coid /\ ks_heap s' = <[entry := OProc (set_connections (Some d') e)]> (ks_heap s)) s.
Proof.
  intros Hok He Hd Hl Hk Hadd. pose proof (lookup_channel_process s (at_pid att) (at_chid att) Hok) as Hp.
  unfold qnx_process_entry_add_connection. kstep. eapply wp_of_run; [by apply find_process_run|].
  destruct (find_process s (at_pid att)) as [p|]; [|congruence]. destruct Hp as (ep & Hep & Hr & Heo & Hec).
  rewrite Hep. set (e1 := set_pe_refcnt (pe_refcnt ep + 1) ep). set (s1 := upd_heap _ s).
  assert (Hs : same_objects (ks_heap s) (ks_heap s1)) by by eapply same_objects_insert.
  assert (He1 : ks_heap s1 !! p = Some (OProc e1)) by apply lookup_insert_eq.
  kstep. eapply wp_eq; [apply (is_channel_available_run p e1)|];
    [done|by apply entry_ok_refcnt, (entry_ok_same (ks_heap s))|].
  change (entry_channel (ks_heap s1) e1 _) with (entry_channel (ks_heap s1) ep (at_chid att)).
  rewrite (entry_channel_same _ _ _ _ Hs Heo), <- Hec, Hl. ksteps.
  change (ks_oom s1) with (ks_oom s). rewrite Hk. ksteps.
  destruct (decide (entry = p)) as [<-|Hne].
  - assert (ep = e) as -> by congruence. eapply wp_get_proc; [exact He1|]. cbn beta.
    change (pe_connections e1) with (pe_connections e). rewrite Hd. unfold qnx_connection_init.
    change (ks_params (upd_oom oom' s1)) with (ks_params s). rewrite Hadd. ksteps.
    eapply wp_eq; [eapply entry_release_run; [ks_simpl; apply lookup_insert_eq|unfold e1; cbn; lia]|]. ksteps. split; [done|].
    unfold s1, e1. ks_simpl. rewrite !insert_insert_eq. do 2 f_equal. destruct e. unfold set_pe_refcnt, set_connections. cbn. f_equal. lia.
  - eapply wp_get_proc; [unfold s1; ks_simpl; rewrite lookup_insert_ne by congruence; exact He|]. cbn beta.
    rewrite Hd. unfold qnx_connection_init. change (ks_params (upd_oom oom' s1)) with (ks_params s).
    rewrite Hadd. unfold s1. ksteps. eapply wp_eq; [eapply (entry_release_run p e1); [ks_simpl; rewrite lookup_insert_ne by done; exact He1|unfold e1; cbn; lia]|].
    ksteps. split; [done|]. unfold s1, e1. ks_simpl. cbn [pe_refcnt set_pe_refcnt]. rewrite set_refcnt_back.
    clear -Hep Hne. heap_eq.
Qed.

End DriverSpec.

(** ** Properties *)

(** Looking up a channel by process and channel id gives its caller exactly
    one reference to the channel and leaves every other object, the process
    entry included, as it was; an unknown process or channel changes nothing. *)
Theorem find_channel_balanced {M : Type} (s : kstate M) (pid id : Z) :
  entries_ok s ->
  wp (qnx_driver_data_find_channel pid id) (fun r s' =>
    r = lookup_channel s pid id /\
    match r with
    | None => s' = s
    | Some chnl => exists c, ks_heap s !! chnl = Some (OChan c) /\ ch_chid c = id /\
        s' = upd_heap <[chnl := OChan (set_ch_refcnt (ch_refcnt c + 1) c)]> s
    end) s.
Proof.
  intros Hok. eapply wp_of_run; [by apply driver_find_channel_run|].
  destruct (lookup_channel s pid id) as [chnl|] eqn:Hl; [|done].
  destruct (lookup_channel_Some _ _ _ _ Hok Hl) as (c & Hc & Hid & _). rewrite Hc. split; [done|]. eauto.
Qed.

(** ConnectAttach.  When the target process or channel does not exist the
    call returns [-ESRCH] and changes nothing.  Otherwise, while ids are free,
    the result is an unused id below the capacity; the connection [(pid, chid)]
    is stored under it in the caller's table, no other entry of the table and no
    other object changes (also when a process attaches to itself), and all
    references are given back. *)
Theorem add_connection_attaches {M : Type} (s : kstate M) (entry : ptr) (e : qnx_process_entry)
    (d : qnx_connection_table_data) (att : qnx_io_attach) (oom' : list bool) :
  entries_ok s -> entry ∈ ks_entries s -> ks_heap s !! entry = Some (OProc e) ->
  pe_connections e = Some d -> ~ table_full d -> kmalloc_answer (ks_oom s) = (true, oom') ->
  match lookup_channel s (at_pid att) (at_chid att) with
  | None => wp (qnx_process_entry_add_connection entry att) (fun rc s' => rc = - ESRCH /\ s' = s) s
  | Some _ =>
      wp (qnx_process_entry_add_connection entry att) (fun coid s' =>
        0 < coid < capacity d /\ connections (Some d) !! coid = None /\
        exists d', connections (Some d') = <[coid := QnxConnection (at_pid att) (at_chid att)]> (connections (Some d)) /\
          table_wf d' /\ ks_heap s' = <[entry := OProc (set_connections (Some d') e)]> (ks_heap s)) s
  end.
Proof.
  intros Hok Hin He Hd Hnf Hk. destruct (lookup_channel s _ _) as [chnl|] eqn:Hl.
  - destruct (es_entries _ Hok entry Hin) as (e' & He' & _ & Heo). simplify_eq.
    pose proof (eo_connections _ _ Heo) as Hwf. rewrite Hd in Hwf.
    destruct (table_add_step (qnx_max_connections_per_process (ks_params s)) oom' d
      (QnxConnection (at_pid att) (at_chid att)) Hwf Hnf) as (coid & d' & Hadd & Hr & Hfree & _ & Hmap & Hwf').
    eapply wp_mono; [eapply attach_run; eauto; congruence|]. cbn beta. intros rc s' [-> Hh]. eauto 10.
  - by apply attach_missing.
Qed.
