(* ===== verification/Driver.v ===== *)
(** * The system calls (kernel/qnxcomm_driver.c)

    The ioctl handlers, open, close and poll.  A handler that sleeps is cut at
    the point where it sleeps: [handle_msgsend_begin] runs until the sender is
    blocked, [handle_msgsend_finish] from its wake-up to the return.  The other
    handlers are written as the sequence of their critical sections, and the
    sections have names of their own where other threads may run in between.
    What a sleep returns is an argument ([sleep], [wait], [signals]). *)

From Stdlib Require Import ZArith Lia.
From stdpp Require Import base tactics list option gmap fin_maps sets.
From S2P Require Import Prelude Layout UserMem ConnectionTable Kernel Msgsend Channel ProcessEntry DriverData.

Open Scope Z_scope.

(** [QNX_CONN_IS_VALID(conn)] *)
Definition QNX_CONN_IS_VALID (conn : qnx_connection) : bool := chid conn >? 0.

Definition QNX_MAX_IOVEC_LEN : Z := 5.
Definition QNX_FLAG_NOREPLY : Z := 1.
Definition O_RDWR : Z := 2.
Definition POLLIN : Z := 1.
Definition POLLHUP : Z := 16.
Definition POLLRDNORM : Z := 64.

(** how a blocked sender continues: the milliseconds left when
    [msleep_interruptible] returned (only looked at for a positive timeout), and
    [signal_pending(current)] *)
Record sleep_result := Sleep { sl_left : Z; sl_signal : bool }.

(** [sizeof(struct iovec) * n] with the conversion of the int [n] to [size_t] *)
Definition iovec_bytes (n : Z) : Z := u64 (16 * n).

Section Driver.
  Context {M : Type} `{!UserMem M}.

(** ** Sending a message and waiting for the reply *)

Definition handle_msgsend_block (chnl p : ptr) (cur : task_struct) : K M unit :=
  set_current_state_interruptible cur ;;;
  let! _ := qnx_channel_add_new_message chnl p in
  kret tt.

(** [interrupted:] the sender takes its message back *)
Definition handle_msgsend_interrupted (chnl p : ptr) (rc : Z) : K M Z :=
  let! m := get_msg p in
  let! removed := qnx_channel_remove_message chnl (rcvid m) in
  if negb (removed =? 0) then kret rc
  else
    let! m := get_msg p in
    spin_while (state m =? QNX_STATE_RECEIVING) ;;;
    let! entry := qnx_driver_data_find_process (receiver_pid m) in
    match entry with
    | None => kret rc
    | Some entry =>
        let! taken := qnx_process_entry_release_pending entry (rcvid m) in
        let! m := get_msg p in
        let! rc :=
          (match taken with
           | None => kret (status m)
           | Some _ => spin_while (state m =? QNX_STATE_FINISHED) ;;; kret rc
           end) in
        qnx_process_entry_release entry ;;;
        kret rc
    end.

(** handle_msgsend_internal_block from the wake-up on *)
Definition handle_msgsend_resume (chnl p : ptr) (sleep : sleep_result) : K M Z :=
  let! m := get_msg p in
  let! b := body_of m in
  let! rc :=
    (if (mb_timeout_ms b >? 0) && (sl_left sleep =? 0)
     then handle_msgsend_interrupted chnl p (- ETIMEDOUT)
     else if sl_signal sleep
     then handle_msgsend_interrupted chnl p (- ERESTARTSYS)
     else kret (status m)) in
  qnx_channel_release chnl ;;;
  kret rc.

(** the call returned with a code, or it sleeps with its message at [p] in the
    queue of [chnl] *)
Inductive send_progress :=
  | Returned (rc : Z)
  | Blocked (chnl p : ptr).

Definition handle_msgsend_begin (entry : ptr) (cur : task_struct) (addr : Z) : K M send_progress :=
  let! g := kget ks_garbage in
  let! e := get_proc entry in
  let! p := new_obj (OMsg (garbage_msg g)) in
  let! rc := qnx_internal_msgsend_init p cur addr (pe_pid e) in
  if negb (rc =? 0) then end_frame p ;;; kret (Returned rc)
  else
    let! m := get_msg p in
    let! b := body_of m in
    let! conn := qnx_process_entry_find_connection entry (mb_coid b) in
    if negb (QNX_CONN_IS_VALID conn)
    then qnx_internal_msgsend_destroy p ;;; end_frame p ;;; kret (Returned (- EBADF))
    else
      let! chnl := qnx_driver_data_find_channel (pid conn) (chid conn) in
      match chnl with
      | None => qnx_internal_msgsend_destroy p ;;; end_frame p ;;; kret (Returned (- EBADF))
      | Some chnl =>
          let! m := get_msg p in
          put_msg p (set_receiver_pid (pid conn) m) ;;;
          handle_msgsend_block chnl p cur ;;;
          kret (Blocked chnl p)
      end.

(** the bytes of the reply buffer *)
Definition reply_bytes (m : qnx_internal_msgsend) : K M (list Z) :=
  match reply_base m with Some r => get_buf r | None => koops NullAccess end.

Definition handle_msgsend_finish (chnl p : ptr) (cur : task_struct) (sleep : sleep_result) : K M Z :=
  let! rc := handle_msgsend_resume chnl p sleep in
  let! m := get_msg p in
  let! b := body_of m in
  let! rc :=
    (if (rc >=? 0) && (reply_len m >? 0)
     then
       let! bytes := reply_bytes m in
       let! part := slice 0 (Z.min (mb_out_len b) (reply_len m)) bytes in
       match mb_out_base b with
       | OutUser a =>
           let! ok := user_write (tsk_tgid cur) a part in
           kret (if ok then rc else - EFAULT)
       | OutKernel _ => koops (BadAccess p)
       end
     else kret rc) in
  qnx_internal_msgsend_destroy p ;;;
  end_frame p ;;;
  kret rc.

(** the whole call when no other thread runs while the sender sleeps *)
Definition handle_msgsend (entry : ptr) (cur : task_struct) (addr : Z) (sleep : sleep_result) : K M Z :=
  let! r := handle_msgsend_begin entry cur addr in
  match r with
  | Returned rc => kret rc
  | Blocked chnl p => handle_msgsend_finish chnl p cur sleep
  end.

(** ** Receiving *)

(** up to the sleep: the channel (with a reference) and the caller's structure *)
Definition handle_msgreceive_begin (entry : ptr) (cur : task_struct) (addr : Z)
    : K M (Z + ptr * qnx_io_receive) :=
  let! recv := user_read_struct c_io_receive (tsk_tgid cur) addr in
  match recv with
  | None => kret (inl (- EFAULT))
  | Some recv =>
      let! chnl := qnx_process_entry_find_channel entry (rv_chid recv) in
      match chnl with
      | None => kret (inl (- EBADF))
      | Some chnl => kret (inr (chnl, recv))
      end
  end.

(** the critical section that takes the first message of the queue *)
Definition handle_msgreceive_dequeue (chnl : ptr) (wait : Z) : K M (Z + ptr) :=
  if wait <? 0 then kret (inl (- ERESTARTSYS))
  else
    let! c := get_chan chnl in
    match waiting c with
    | [] => kret (inl (- ETIMEDOUT))
    | p :: _ =>
        let! m := get_msg p in
        put_chan chnl
          (set_waiting (list_del p (waiting c))
            (set_num_waiting_noreply
              (if (rcvid m >? 0) && match task m with None => true | Some _ => false end
               then i32 (num_waiting_noreply c - 1) else num_waiting_noreply c)
              (set_num_waiting (i32 (num_waiting c - 1)) c))) ;;;
        put_msg p (set_state QNX_STATE_RECEIVING m) ;;;
        kret (inr p)
    end.

(** [info]: what is set for a message from [sender_pid] on the connection [coid]
    of the channel [id] *)
Definition receive_info (sender id coid inlen outlen flags : Z) : msg_info :=
  MsgInfo 0 sender 0 id coid coid inlen inlen outlen 0 flags 0.

Definition with_info (r : qnx_io_receive) (i : msg_info) : qnx_io_receive :=
  IoReceive (rv_chid r) (rv_timeout_ms r) (rv_out r) i.

(** [put_user] of the three fields of a pulse, stopping at the first failure *)
Definition write_pulse (mm base : Z) (q : qnx_io_msgsendpulse) : K M bool :=
  let! ok := user_write mm (base + pulse_code_offset) (c_enc c_int8 (i8 (mp_code q))) in
  if negb ok then kret false
  else
    let! ok := user_write mm (base + pulse_scoid_offset) (c_enc c_int (mp_coid q)) in
    if negb ok then kret false
    else user_write mm (base + pulse_value_offset) (c_enc c_int (mp_value q)).

(** the delivery of a pulse: the return code so far and the filled-in structure;
    the pulse object is freed *)
Definition deliver_pulse (cur : task_struct) (recv : qnx_io_receive) (id wait : Z) (p : ptr)
    : K M (Z * qnx_io_receive) :=
  let! m := get_msg p in
  let! q := pulse_of m in
  let info := receive_info (sender_pid m) id (mp_coid q) 8 0 0 in
  let! rc :=
    (if iov_len (rv_out recv) >=? sizeof_pulse
     then let! ok := write_pulse (tsk_tgid cur) (iov_base (rv_out recv)) q in
          kret (if ok then 0 else - EFAULT)
     else kret wait) in
  kfree p ;;;
  kret (rc, with_info recv info).

(** the delivery of a message; a no-reply message is freed, else the object is
    part of the result *)
Definition deliver_message (cur : task_struct) (recv : qnx_io_receive) (id : Z) (p : ptr)
    : K M (Z * qnx_io_receive * option ptr) :=
  let! m := get_msg p in
  let! b := body_of m in
  let! bytes := in_bytes m (mb_in_base b) in
  let! part := slice 0 (Z.min (mb_in_len b) (iov_len (rv_out recv))) bytes in
  let! ok := user_write (tsk_tgid cur) (iov_base (rv_out recv)) part in
  let rc := if ok then rcvid m else - EFAULT in
  let info := receive_info (sender_pid m) id (mb_coid b) (i32 (mb_in_len b)) (i32 (mb_out_len b)) in
  match task m with
  | Some _ => kret (rc, with_info recv (info 0), Some p)
  | None =>
      qnx_internal_msgsend_destroy p ;;;
      kfree p ;;;
      kret (rc, with_info recv (info QNX_FLAG_NOREPLY), None)
  end.

(** from the dequeued message to the end; [wait] is still the value of [rc] *)
Definition handle_msgreceive_deliver (entry : ptr) (cur : task_struct) (addr : Z)
    (chnl : ptr) (recv : qnx_io_receive) (wait : Z) (p : ptr) : K M Z :=
  let! c := get_chan chnl in
  let! m := get_msg p in
  let! (rc, recv', keep) :=
    (if rcvid m =? 0
     then let! (rc, recv') := deliver_pulse cur recv (ch_chid c) wait p in kret (rc, recv', None)
     else deliver_message cur recv (ch_chid c) p) in
  let! rc :=
    (if rc >=? 0
     then let! ok := user_write (tsk_tgid cur) addr (c_enc c_io_receive recv') in
          kret (if ok then rc else - EFAULT)
     else kret rc) in
  (match keep with
   | None => kret tt
   | Some p =>
       if rc >? 0 then qnx_process_entry_add_pending entry p
       else
         let! m := get_msg p in
         put_msg p (set_state QNX_STATE_FINISHED (set_status rc (set_reply None 0 m))) ;;;
         match task m with
         | Some t => wake_up_process t
         | None => koops NullAccess
         end
   end) ;;;
  qnx_channel_release chnl ;;;
  kret rc.

(** [wait] is the value of [wait_event_interruptible_timeout] *)
Definition handle_msgreceive (entry : ptr) (cur : task_struct) (addr wait : Z) : K M Z :=
  let! start := handle_msgreceive_begin entry cur addr in
  match start with
  | inl rc => kret rc
  | inr (chnl, recv) =>
      let! taken := handle_msgreceive_dequeue chnl wait in
      match taken with
      | inl rc => qnx_channel_release chnl ;;; kret rc
      | inr p => handle_msgreceive_deliver entry cur addr chnl recv wait p
      end
  end.

(** ** Replying *)

(** the part of handle_msgreply that works on the message taken from [pending] *)
Definition handle_msgreply_complete (cur : task_struct) (io : qnx_io_reply) (p : ptr) : K M Z :=
  let! m := get_msg p in
  let! b := body_of m in
  let! rc :=
    (if negb (out_is_null (mb_out_base b)) && (mb_out_len b >? 0) && (iov_len (rp_in io) >? 0)
     then
       let! buf := kmalloc in
       put_msg p (set_reply buf 0 m) ;;;
       match buf with
       | None => kret (- ENOMEM)
       | Some r =>
           let! bytes := user_read (tsk_tgid cur) (iov_base (rp_in io)) (iov_len (rp_in io)) in
           match bytes with
           | Some bytes =>
               put r (OBuf bytes) ;;;
               put_msg p (set_reply buf (iov_len (rp_in io)) m) ;;; kret 0
           | None => kret (- EFAULT)
           end
       end
     else put_msg p (set_reply None 0 m) ;;; kret 0) in
  let! m := get_msg p in
  put_msg p (set_state QNX_STATE_FINISHED (set_status (if rc <? 0 then rc else rp_status io) m)) ;;;
  (match task m with Some t => wake_up_process t | None => koops NullAccess end) ;;;
  kret rc.

Definition handle_msgreply (entry : ptr) (cur : task_struct) (io : qnx_io_reply) : K M Z :=
  let! taken := qnx_process_entry_release_pending entry (rp_rcvid io) in
  match taken with
  | Some p => handle_msgreply_complete cur io p
  | None => kret (- ESRCH)
  end.

Definition handle_msgerror_complete (io : qnx_io_error_reply) (p : ptr) : K M Z :=
  let! m := get_msg p in
  put_msg p (set_state QNX_STATE_FINISHED
    (set_status (if er_error io <? 0 then er_error io else - er_error io) (set_reply None 0 m))) ;;;
  (match task m with Some t => wake_up_process t | None => koops NullAccess end) ;;;
  kret 0.

Definition handle_msgerror (entry : ptr) (cur : task_struct) (io : qnx_io_error_reply) : K M Z :=
  let! taken := qnx_process_entry_release_pending entry (er_rcvid io) in
  match taken with
  | Some p => handle_msgerror_complete io p
  | None => kret (- ESRCH)
  end.

Definition handle_msgread (entry : ptr) (cur : task_struct) (io : qnx_io_read) : K M Z :=
  let! e := get_proc entry in
  let! found := find_rcvid (pending e) (rd_rcvid io) in
  match found with
  | None => kret (- ESRCH)
  | Some p =>
      let! m := get_msg p in
      let! b := body_of m in
      if (rd_offset io >=? 0) && (u64 (rd_offset io) <=? mb_in_len b)
      then
        let bytes_to_copy := i32 (Z.min (u64 (mb_in_len b - rd_offset io)) (iov_len (rd_out io))) in
        (* a negative int is a size that no copy accepts *)
        if bytes_to_copy <? 0 then kret (- EFAULT)
        else
          let! bytes := in_bytes m (mb_in_base b) in
          let! part := slice (rd_offset io) bytes_to_copy bytes in
          let! ok := user_write (tsk_tgid cur) (iov_base (rd_out io)) part in
          kret (if ok then bytes_to_copy else - EFAULT)
      else kret (- EINVAL)
  end.

(** ** Pulses and no-reply messages *)

Definition handle_msgsendpulse (entry : ptr) (cur : task_struct) (addr : Z) : K M Z :=
  let! snddata := kmalloc in
  match snddata with
  | None => kret (- ENOMEM)
  | Some p =>
      let! e := get_proc entry in
      let! rc := qnx_internal_msgsend_init_pulse p cur addr (pe_pid e) in
      if negb (rc =? 0) then kfree p ;;; kret rc
      else
        let! m := get_msg p in
        let! q := pulse_of m in
        let! conn := qnx_process_entry_find_connection entry (mp_coid q) in
        if negb (QNX_CONN_IS_VALID conn) then kfree p ;;; kret (- EBADF)
        else
          let! chnl := qnx_driver_data_find_channel (pid conn) (chid conn) in
          match chnl with
          | None => kfree p ;;; kret (- EBADF)
          | Some chnl =>
              let! _ := qnx_channel_add_new_message chnl p in
              qnx_channel_release chnl ;;;
              kret 0
          end
  end.

(** [signals]: what [signal_pending(current)] says after each sleep of the loop;
    when they are used up the loop is still running ([Spin]) *)
Fixpoint busy_loop_add_new_message (chnl p : ptr) (signals : list bool) : K M Z :=
  let! rc := qnx_channel_add_new_message chnl p in
  if rc <? 0
  then
    match signals with
    | [] => spin_while true ;;; kret rc
    | true :: _ => kfree p ;;; kret (- ERESTARTSYS)
    | false :: signals' => busy_loop_add_new_message chnl p signals'
    end
  else kret rc.

Definition handle_msgsend_no_reply (entry : ptr) (cur : task_struct) (addr : Z) (signals : list bool) : K M Z :=
  let! e := get_proc entry in
  let! (rc, snddata) := qnx_internal_msgsend_init_noreply cur addr (pe_pid e) in
  if negb (rc =? 0) then kret rc
  else
    match snddata with
    | None => koops NullAccess
    | Some p =>
        let! m := get_msg p in
        let! b := body_of m in
        let! conn := qnx_process_entry_find_connection entry (mb_coid b) in
        if negb (QNX_CONN_IS_VALID conn) then kfree p ;;; kret (- EBADF)
        else
          let! chnl := qnx_driver_data_find_channel (pid conn) (chid conn) in
          match chnl with
          | None => kfree p ;;; kret (- EBADF)
          | Some chnl =>
              let! m := get_msg p in
              put_msg p (set_receiver_pid (pid conn) m) ;;;
              let! _ := busy_loop_add_new_message chnl p signals in
              qnx_channel_release chnl ;;;
              kret 0
          end
    end.

(** ** Vectored sends *)

(** A vector of the caller, with the buffer of the kernel when it does not fit
    into the [QNX_MAX_IOVEC_LEN] entries on the stack ([None] inside: on the
    stack). [None] is a failed allocation. *)
Definition alloc_iovec (n : Z) : K M (option (option ptr)) :=
  if n >? QNX_MAX_IOVEC_LEN
  then let! p := kmalloc in kret (option_map Some p)
  else kret (Some None).

(** [copy_from_user(vec, addr, sizeof(struct iovec) * n)] *)
Definition read_iovec (cur : task_struct) (addr n : Z) : K M (option (list iovec)) :=
  let! bytes := user_read (tsk_tgid cur) addr (iovec_bytes n) in
  kret (option_map (dec_array c_iovec (Z.to_nat n)) bytes).

(** [QNX_FREE_IF_NOT(ptr, stack_buf)] *)
Definition QNX_FREE_IF_NOT (buf : option ptr) : K M unit := kfree_opt buf.

(** what a vectored sender keeps while it is blocked *)
Record sendv_frame := SendvFrame {
  sv_in : option ptr;
  sv_out : option ptr;
  sv_out_iov : list iovec
}.

Definition release_vectors (f : sendv_frame) : K M unit :=
  QNX_FREE_IF_NOT (sv_out f) ;;; QNX_FREE_IF_NOT (sv_in f).

Definition handle_msgsendv_begin (entry : ptr) (cur : task_struct) (addr : Z)
    : K M (send_progress * sendv_frame) :=
  let none := SendvFrame None None [] in
  let! send_data := user_read_struct c_io_msgsendv (tsk_tgid cur) addr in
  match send_data with
  | None => kret (Returned (- EFAULT), none)
  | Some io =>
      let! inp := alloc_iovec (mv_in_len io) in
      match inp with
      | None => kret (Returned (- ENOMEM), none)
      | Some inp =>
          let! outp := alloc_iovec (mv_out_len io) in
          match outp with
          | None => QNX_FREE_IF_NOT inp ;;; kret (Returned (- ENOMEM), none)
          | Some outp =>
              let fail rc := release_vectors (SendvFrame inp outp []) ;;; kret (Returned rc, none) in
              let! iov_in := read_iovec cur (mv_in io) (mv_in_len io) in
              match iov_in with
              | None => fail (- EFAULT)
              | Some iov_in =>
                  let! iov_out := read_iovec cur (mv_out io) (mv_out_len io) in
                  match iov_out with
                  | None => fail (- EFAULT)
                  | Some iov_out =>
                      let! conn := qnx_process_entry_find_connection entry (mv_coid io) in
                      if negb (QNX_CONN_IS_VALID conn) then fail (- EBADF)
                      else
                        let! chnl := qnx_driver_data_find_channel (pid conn) (chid conn) in
                        match chnl with
                        | None => fail (- EBADF)
                        | Some chnl =>
                            let! g := kget ks_garbage in
                            let! e := get_proc entry in
                            let! p := new_obj (OMsg (garbage_msg g)) in
                            let! rc := qnx_internal_msgsend_initv p cur io iov_in iov_out (pe_pid e) in
                            if negb (rc =? 0) then end_frame p ;;; fail rc
                            else
                              let! m := get_msg p in
                              put_msg p (set_receiver_pid (pid conn) m) ;;;
                              handle_msgsend_block chnl p cur ;;;
                              kret (Blocked chnl p, SendvFrame inp outp iov_out)
                        end
                  end
              end
          end
      end
  end.

Definition handle_msgsendv_finish (chnl p : ptr) (cur : task_struct) (f : sendv_frame)
    (sleep : sleep_result) : K M Z :=
  let! rc := handle_msgsend_resume chnl p sleep in
  let! m := get_msg p in
  let! b := body_of m in
  let! rc :=
    (if (rc >=? 0) && (reply_len m >? 0)
     then
       let! bytes := reply_bytes m in
       let! u := kget ks_user in
       match memcpy_toiovec u (tsk_tgid cur) (sv_out_iov f) bytes (i32 (Z.min (mb_out_len b) (reply_len m))) with
       | None => koops OutOfBounds
       | Some (rc', u') => kmod (upd_user u') ;;; kret (if rc' =? 0 then rc else - EFAULT)
       end
     else kret rc) in
  qnx_internal_msgsend_destroyv p ;;;
  end_frame p ;;;
  release_vectors f ;;;
  kret rc.

Definition handle_msgsend_noreplyv (entry : ptr) (cur : task_struct) (addr : Z) (signals : list bool) : K M Z :=
  let! send_data := user_read_struct c_io_msgsendv (tsk_tgid cur) addr in
  match send_data with
  | None => kret (- EFAULT)
  | Some io =>
      let! inp := alloc_iovec (mv_in_len io) in
      match inp with
      | None => kret (- ENOMEM)
      | Some inp =>
          let fail rc := QNX_FREE_IF_NOT inp ;;; kret rc in
          let! iov_in := read_iovec cur (mv_in io) (mv_in_len io) in
          match iov_in with
          | None => fail (- EFAULT)
          | Some iov_in =>
              let! conn := qnx_process_entry_find_connection entry (mv_coid io) in
              if negb (QNX_CONN_IS_VALID conn) then fail (- EBADF)
              else
                let! chnl := qnx_driver_data_find_channel (pid conn) (chid conn) in
                match chnl with
                | None => fail (- EBADF)
                | Some chnl =>
                    let! e := get_proc entry in
                    let! (rc, snddata) := qnx_internal_msgsend_init_noreplyv cur io iov_in (pe_pid e) in
                    if negb (rc =? 0) then fail rc
                    else
                      match snddata with
                      | None => koops NullAccess
                      | Some p =>
                          let! m := get_msg p in
                          put_msg p (set_receiver_pid (pid conn) m) ;;;
                          let! rc := busy_loop_add_new_message chnl p signals in
                          qnx_channel_release chnl ;;;
                          QNX_FREE_IF_NOT inp ;;;
                          kret rc
                      end
                end
          end
      end
  end.

(** ** The file operations *)

Definition qnxcomm_open (f : ptr) (cur : task_struct) : K M Z :=
  let! fl := get_file f in
  if negb (Z.land (f_mode fl) O_RDWR =? 0)
  then
    let! avail := qnx_driver_data_is_process_available (current_get_pid_nr cur) in
    if avail then kret (- ENOSPC)
    else
      let! entry := kmalloc in
      match entry with
      | None => kret (- ENOMEM)
      | Some entry =>
          qnx_process_entry_init entry cur ;;;
          put f (OFile (set_private_data (Some entry) fl)) ;;;
          qnx_driver_data_add_process entry ;;;
          kret 0
      end
  else
    let! entry := qnx_driver_data_find_process (current_get_pid_nr cur) in
    (match entry with
     | Some entry => put f (OFile (set_private_data (Some entry) fl))
     | None => kret tt
     end) ;;;
    kret 0.

Definition qnxcomm_close (f : ptr) : K M Z :=
  let! fl := get_file f in
  if negb (Z.land (f_mode fl) O_RDWR =? 0)
  then
    match private_data fl with
    | Some entry =>
        let! e := get_proc entry in
        qnx_driver_data_remove (pe_pid e) ;;;
        qnx_process_entry_release entry ;;;
        put f (OFile (set_private_data None fl)) ;;;
        kret 0
    | None => kret 0
    end
  else
    match private_data fl with
    | Some entry =>
        let! rc := qnx_process_entry_remove_pollfd entry f in
        qnx_process_entry_release entry ;;;
        kret rc
    | None => kret 0
    end.

(** the mask; [poll_wait] only registers the caller with the wait queue *)
Definition qnxcomm_poll (f : ptr) : K M Z :=
  let! fl := get_file f in
  match private_data fl with
  | None => koops NullAccess
  | Some entry =>
      let! chnl := qnx_process_entry_find_channel_from_file entry f in
      match chnl with
      | Some chnl =>
          let! c := get_chan chnl in
          kret (if num_waiting c >? 0 then Z.lor POLLIN POLLRDNORM else 0)
      | None => kret POLLHUP
      end
  end.

(** What an ioctl does: it returns, or it is a send that now sleeps. *)
Inductive ioctl_progress :=
  | IoctlReturned (rc : Z)
  | IoctlBlocked (chnl p : ptr)
  | IoctlBlockedv (chnl p : ptr) (f : sendv_frame).

(** [wait] and [signals] as in the handlers that sleep *)
Definition qnxcomm_ioctl (f : ptr) (cur : task_struct) (cmd arg wait : Z) (signals : list bool)
    : K M ioctl_progress :=
  if arg =? 0 then kret (IoctlReturned (- EINVAL))
  else
    let! fl := get_file f in
    match private_data fl with
    | None => kret (IoctlReturned (- ENOTTY))
    | Some entry =>
        let! e := get_proc entry in
        let ret (c : K M Z) := let! rc := c in kret (IoctlReturned rc) in
        let with_struct A (c : codec A) (h : A -> K M Z) :=
          let! io := user_read_struct c (tsk_tgid cur) arg in
          match io with Some io => h io | None => kret (- EFAULT) end in
        if negb (current_get_pid_nr cur =? pe_pid e) then kret (IoctlReturned (- ENOSPC))
        else if cmd =? QNX_IO_CHANNELCREATE then ret (qnx_process_entry_add_channel entry)
        else if cmd =? QNX_IO_CHANNELDESTROY then ret (qnx_process_entry_remove_channel entry (i32 arg))
        else if cmd =? QNX_IO_CONNECTDETACH then ret (qnx_process_entry_remove_connection entry (i32 arg))
        else if cmd =? QNX_IO_CONNECTATTACH
        then ret (with_struct _ c_io_attach (qnx_process_entry_add_connection entry))
        else if cmd =? QNX_IO_MSGSEND
        then
          let! r := handle_msgsend_begin entry cur arg in
          match r with
          | Returned rc => kret (IoctlReturned rc)
          | Blocked chnl p => kret (IoctlBlocked chnl p)
          end
        else if cmd =? QNX_IO_MSGSENDNOREPLY then ret (handle_msgsend_no_reply entry cur arg signals)
        else if cmd =? QNX_IO_MSGSENDPULSE then ret (handle_msgsendpulse entry cur arg)
        else if cmd =? QNX_IO_MSGRECEIVE then ret (handle_msgreceive entry cur arg wait)
        else if cmd =? QNX_IO_MSGREPLY then ret (with_struct _ c_io_reply (handle_msgreply entry cur))
        else if cmd =? QNX_IO_MSGERROR then ret (with_struct _ c_io_error_reply (handle_msgerror entry cur))
        else if cmd =? QNX_IO_MSGREAD then ret (with_struct _ c_io_read (handle_msgread entry cur))
        else if cmd =? QNX_IO_MSGSENDV
        then
          let! (r, fr) := handle_msgsendv_begin entry cur arg in
          match r with
          | Returned rc => kret (IoctlReturned rc)
          | Blocked chnl p => kret (IoctlBlockedv chnl p fr)
          end
        else if cmd =? QNX_IO_MSGSENDNOREPLYV then ret (handle_msgsend_noreplyv entry cur arg signals)
        else if cmd =? QNX_IO_REGISTER_POLLFD then ret (qnx_process_entry_add_pollfd entry f (i32 arg))
        else kret (IoctlReturned (- EINVAL))
    end.

End Driver.

(** ** The module parameters *)

(** set_max_connetions: [parsed] is what [kstrtoint] made of the text; the
    result is the return code and the parameter *)
Definition set_max_connetions (parsed : option Z) (arg : Z) : Z * Z :=
  match parsed with
  | Some max => if max >? arg then (0, max) else (- EINVAL, arg)
  | None => (- EINVAL, arg)
  end.

(** ** Specification *)

Section DriverSpec.
  Context {M : Type} `{!UserMem M}.
  Implicit Types (s : kstate M) (h : gmap ptr kobj).

(** where a send on the connection [coid] of the process [e] goes *)
Definition send_target s (e : qnx_process_entry) (coid : Z) : option (qnx_connection * ptr) :=
  let? conn := connections (pe_connections e) !! coid in
  if QNX_CONN_IS_VALID conn
  then let? chnl := lookup_channel s (pid conn) (chid conn) in Some (conn, chnl)
  else None.

(** a call left no trace; it may have used up memory that it freed again, and an id *)
Definition unchanged s s' : Prop :=
  ks_heap s' = ks_heap s /\ rest s' = rest s /\ (ks_next s <= ks_next s')%positive /\
  (ks_next_rcvid s' = ks_next_rcvid s \/ ks_next_rcvid s' = i32 (ks_next_rcvid s + 1)).

(** the channel with one more message and one more reference *)
Definition with_message (p : ptr) (c : qnx_channel) : qnx_channel :=
  Channel (ch_refcnt c + 1) (ch_chid c) (waiting c ++ [p]) (i32 (num_waiting c + 1)) (num_waiting_noreply c).

(** the channel after its first message was taken out *)
Definition without_first (l : list ptr) (m : qnx_internal_msgsend) (c : qnx_channel) : qnx_channel :=
  Channel (ch_refcnt c) (ch_chid c) l (i32 (num_waiting c - 1))
    (if (rcvid m >? 0) && match task m with None => true | Some _ => false end
     then i32 (num_waiting_noreply c - 1) else num_waiting_noreply c).

(** what a reply does, case by case: the return code of MsgReply, and the bytes
    that the sender finds in its reply buffer when there are any *)
Definition reply_outcome s (cur : task_struct) (b : msg_body) (io : qnx_io_reply) : Z * option (list Z) :=
  if negb (out_is_null (mb_out_base b)) && (mb_out_len b >? 0) && (iov_len (rp_in io) >? 0)
  then
    if fst (kmalloc_answer (ks_oom s))
    then match copy_from_user (ks_user s) (tsk_tgid cur) (iov_base (rp_in io)) (iov_len (rp_in io)) with
         | Some bytes => (0, Some bytes)
         | None => (- EFAULT, None)
         end
    else (- ENOMEM, None)
  else (0, None).

(** the message [m] at [p] is finished with the status [st]: its sender finds the
    reply, which is in the buffer [r] *)
Definition finished h (p : ptr) (m : qnx_internal_msgsend) (st : Z) (r : option ptr) (reply : option (list Z)) : Prop :=
  exists m', h !! p = Some (OMsg m') /\ state m' = QNX_STATE_FINISHED /\ status m' = st /\
    rcvid m' = rcvid m /\ data m' = data m /\ task m' = task m /\ reply_base m' = r /\
    (forall x, r = Some x -> is_Some (h !! x)) /\
    match reply with
    | Some bytes => exists x, r = Some x /\ h !! x = Some (OBuf bytes) /\ reply_len m' = Z.of_nat (length bytes)
    | None => reply_len m' = 0
    end.

(** the bytes in the reply buffer, which is there when the reply has a length *)
Definition reply_of h (m : qnx_internal_msgsend) : list Z :=
  match reply_base m with
  | Some r => match h !! r with Some (OBuf bytes) => bytes | _ => [] end
  | None => []
  end.

Definition reply_ok h (m : qnx_internal_msgsend) : Prop :=
  match reply_base m with
  | Some r => is_Some (h !! r) /\
      (0 < reply_len m -> exists bytes, h !! r = Some (OBuf bytes) /\ Z.of_nat (length bytes) = reply_len m)
  | None => reply_len m = 0
  end.

(** why a sender stops waiting for its reply, as an error code; [None] when it
    was woken *)
Definition interruption (b : msg_body) (sleep : sleep_result) : option Z :=
  if (mb_timeout_ms b >? 0) && (sl_left sleep =? 0) then Some (- ETIMEDOUT)
  else if sl_signal sleep then Some (- ERESTARTSYS)
  else None.

(** what the sender's memory and return code are after it was woken *)
Definition send_result s (cur : task_struct) (b : msg_body) (m : qnx_internal_msgsend) : Z * M :=
  match mb_out_base b with
  | OutUser a =>
      if (status m >=? 0) && (reply_len m >? 0)
      then let '(u, ok) := copy_to_user (ks_user s) (tsk_tgid cur) a
                             (take (Z.to_nat (Z.min (mb_out_len b) (reply_len m))) (reply_of (ks_heap s) m)) in
           (if ok then status m else - EFAULT, u)
      else (status m, ks_user s)
  | OutKernel _ => (status m, ks_user s)
  end.

End DriverSpec.

(** ** Lemmas *)

(** the last part of MsgError *)
Lemma error_complete_spec {M : Type} (s : kstate M) io p m t :
  ks_heap s !! p = Some (OMsg m) -> task m = Some t ->
  wp (handle_msgerror_complete io p) (fun rc s' => rc = 0 /\
    finished (ks_heap s') p m (- Z.abs (er_error io)) None None /\ tsk_pid t ∉ ks_sleeping s' /\
    ks_user s' = ks_user s /\ (forall q, q ≠ p -> ks_heap s' !! q = ks_heap s !! q)) s.
Proof.
  intros Hp Ht. unfold handle_msgerror_complete. ksteps. cbn [task set_state set_status set_reply]. rewrite Ht. ksteps.
  ks_simpl. split_and!; [done| |set_solver|done|intros q Hq; by rewrite lookup_insert_ne].
  eexists. split_and!; [apply lookup_insert_eq|done| |done..]. cbn. case_cmp; lia.
Qed.

Section DriverLemmas.
  Context {M : Type} `{!UserMem M} `{!UserMemLaws M}.
  Implicit Types (s : kstate M).

(** the last part of MsgReply: only the message and the new buffer change *)
Lemma reply_complete_spec cur io p m b t s :
  ks_heap s !! p = Some (OMsg m) -> data m = DMsg b -> task m = Some t -> ks_heap s !! ks_next s = None ->
  wp (handle_msgreply_complete cur io p) (fun rc s' =>
    rc = fst (reply_outcome s cur b io) /\
    tsk_pid t ∉ ks_sleeping s' /\ ks_user s' = ks_user s /\ ks_entries s' = ks_entries s /\
    exists r, finished (ks_heap s') p m (if rc <? 0 then rc else rp_status io) r (snd (reply_outcome s cur b io)) /\
      (forall x, r = Some x -> ks_heap s !! x = None) /\
      (forall q, q ≠ p -> r ≠ Some q -> ks_heap s' !! q = ks_heap s !! q)) s.
Proof.
  intros Hp Hd Ht Hfresh. unfold handle_msgreply_complete, reply_outcome, body_of. ksteps. rewrite Hd. ksteps.
  assert (Hne : ks_next s ≠ p) by congruence.
  assert (Hfin : forall m' h r st, state m' = QNX_STATE_FINISHED -> status m' = st -> rcvid m' = rcvid m ->
    data m' = data m -> task m' = task m -> reply_len m' = 0 -> reply_base m' = r ->
    (forall x, r = Some x -> x ≠ p /\ is_Some (h !! x)) ->
    finished (<[p := OMsg m']> h) p m st r None).
  { intros m' h r st ??????? Hr. exists m'. split_and!; try done; [apply lookup_insert_eq|]. intros x Hx.
    destruct (Hr x Hx). by rewrite lookup_insert_ne. }
  destruct (_ && _ && _).
  - kstep. destruct (kmalloc_answer (ks_oom s)) as [[] oom'] eqn:Hk; cbn [fst].
    + eapply wp_kmalloc; [done|]. ksteps.
      destruct (copy_from_user _ _ _ _) as [bytes|] eqn:Hcp; ksteps; cbn [task set_reply]; rewrite Ht; ksteps;
        ks_simpl; (split; [done|]; split; [set_solver|]; split; [done|]; split; [done|]; exists (Some (ks_next s));
          split; [|split; [by intros x [= <-]|intros q Hq Hqn; by rewrite !lookup_insert_ne by congruence]]).
      * eexists; split_and!; [by rewrite lookup_insert_eq|done..| |].
        -- intros x [= <-]. rewrite !(lookup_insert_ne _ p) by done. rewrite lookup_insert_eq. eauto.
        -- exists (ks_next s). split_and!; [done| |by apply copy_from_user_length in Hcp as [-> _]].
           rewrite !(lookup_insert_ne _ p) by done. heap_lookup.
      * apply Hfin; try done. intros x [= <-]. split; [done|]. rewrite !(lookup_insert_ne _ p) by done.
        rewrite lookup_insert_eq. eauto.
    + eapply wp_kmalloc_fail; [done|]. ksteps. cbn [task set_reply]; rewrite Ht; ksteps. ks_simpl.
      split; [done|]; split; [set_solver|]; split; [done|]; split; [done|]; exists None.
      split; [by apply Hfin|]. split; [done|]. intros q Hq _. by rewrite !lookup_insert_ne by done.
  - ksteps. cbn [task set_reply]; rewrite Ht; ksteps. ks_simpl.
    split; [done|]; split; [set_solver|]; split; [done|]; split; [done|]; exists None.
    split; [by apply Hfin|]. split; [done|]. intros q Hq _. by rewrite !lookup_insert_ne by done.
Qed.

(** the sender's message at the end of the queue *)
Lemma msgsend_block_run chnl p cur c m t s :
  ks_heap s !! chnl = Some (OChan c) -> ks_heap s !! p = Some (OMsg m) -> task m = Some t ->
  handle_msgsend_block chnl p cur s = Done (tt,
    upd_trace (EvWakeUp chnl) (upd_sleeping ({[tsk_pid cur]} ∪ ks_sleeping s)
      (upd_heap <[chnl := OChan (set_num_waiting (i32 (num_waiting c + 1)) (set_waiting (waiting c ++ [p]) c))]>
        (upd_heap <[p := OMsg (set_receiver_chid (ch_chid c) m)]> s)))).
Proof.
  intros Hc Hp Ht. unfold handle_msgsend_block, kbind, set_current_state_interruptible, kmod.
  set (s1 := upd_sleeping _ s). pose proof (add_new_message_run chnl p c m s1 Hc Hp) as Hrun.
  rewrite enqueue_normal in Hrun; [|unfold is_noreply; rewrite Ht; by destruct (rcvid m =? 0)]. by rewrite Hrun.
Qed.

Lemma destroy_new_message_run s p id pd cur io buf o :
  ks_heap s !! p = Some (OMsg (new_message id pd cur io buf)) -> ks_heap s !! buf = Some o ->
  wp (qnx_internal_msgsend_destroy p) (fun _ s' => s' = upd_heap (delete buf) s) s.
Proof.
  intros Hp Hb. unfold qnx_internal_msgsend_destroy, body_of. ksteps. cbn [task new_message data]. ksteps.
  cbn [mb_in_base with_in_base kfree_in reply_base new_message kfree_opt]. by ksteps.
Qed.

Lemma msgsend_reject s h p id pd cur io buf bytes rc :
  ks_heap s = <[p := OMsg (new_message id pd cur io buf)]> (<[buf := OBuf bytes]> h) ->
  h !! p = None -> h !! buf = None -> p ≠ buf ->
  wp (qnx_internal_msgsend_destroy p ;;; end_frame p ;;; kret (Returned rc)) (fun r s' =>
    r = Returned rc /\ ks_heap s' = h /\ rest s' = rest s /\ ks_next s' = ks_next s /\ ks_next_rcvid s' = ks_next_rcvid s) s.
Proof.
  intros Hh Hp Hb Hne. kstep. eapply wp_mono.
  { eapply destroy_new_message_run; rewrite Hh; [by rewrite lookup_insert_eq|by rewrite lookup_insert_ne, lookup_insert_eq]. }
  cbn beta. intros _ s' ->. kstep. unfold end_frame.
  eapply wp_kfree; [ks_simpl; by rewrite Hh, lookup_delete_ne, lookup_insert_eq|]. kstep. split_and!; [done| |done..].
  ks_simpl. rewrite Hh. clear -Hp Hb. heap_eq.
Qed.

(** a MsgSend that is not queued leaves no trace; one that is has its message,
    with a copy of its bytes, at the end of the queue *)
Lemma msgsend_begin_spec s entry e cur addr :
  fresh_above s -> entries_ok s -> ks_heap s !! entry = Some (OProc e) -> table_ok (pe_connections e) ->
  let p := ks_next s in
  let buf := Pos.succ p in
  let id := i32 (ks_next_rcvid s + 1) in
  wp (handle_msgsend_begin entry cur addr) (fun r s' =>
    match send_request s cur addr with
    | inl rc => r = Returned rc /\ unchanged s s'
    | inr (io, bytes, oom') =>
        match send_target s e (ms_coid io) with
        | None => r = Returned (- EBADF) /\ unchanged s s'
        | Some (conn, chnl) =>
            r = Blocked chnl p /\ ks_next_rcvid s' = id /\ ks_oom s' = oom' /\
            exists c, ks_heap s !! chnl = Some (OChan c) /\ 0 < ch_refcnt c /\
            ks_heap s' = <[chnl := OChan (with_message p c)]>
              (<[p := OMsg (set_receiver_chid (ch_chid c)
                             (set_receiver_pid (pid conn) (new_message id (pe_pid e) cur io buf)))]>
                (<[buf := OBuf bytes]> (ks_heap s))) /\
            rest s' = (ks_user s, ks_entries s, ks_next_channel_id s, ks_params s,
                       {[tsk_pid cur]} ∪ ks_sleeping s, EvWakeUp chnl :: ks_trace s) /\
            fresh_above s'
        end
    end) s.
Proof.
  intros Hf Hok He Ht p buf id. pose proof (fresh_next s Hf) as Hp. fold p in Hp.
  assert (Hbuf : ks_heap s !! buf = None) by (apply Hf; unfold buf, p; lia).
  assert (Hpb : p ≠ buf) by (unfold buf; lia). assert (entry ≠ p) by congruence. assert (entry ≠ buf) by congruence.
  unfold handle_msgsend_begin. ksteps. fold p. eapply wp_mono; [eapply msgsend_init_spec; [heap_lookup|]|].
  { ks_simpl. rewrite lookup_insert_ne by (fold p buf; done). done. }
  intros rc s2 (Hrest & _ & Hlo & Hcase). ks_simpl. change (send_request (upd_alloc p _ s) cur addr) with (send_request s cur addr) in Hcase.
  destruct (send_request s cur addr) as [rc0|[[io bytes] oom']] eqn:Hreq.
  { destruct Hcase as (-> & Hneg & Hid & m & Hh). assert (rc0 =? 0 = false) as -> by lia. cbn [negb].
    kstep. unfold end_frame. eapply wp_kfree; [by rewrite Hh, lookup_insert_eq|]. ksteps. split; [done|]. split_and!; [|done|ks_simpl; lia|by left].
    ks_simpl. rewrite Hh, insert_insert_eq. by rewrite delete_insert_id. }
  destruct Hcase as (-> & Hoom & Hnext & Hid & Hh). fold p buf in Hh, Hnext. change (ks_next_rcvid (upd_alloc _ _ s)) with (ks_next_rcvid s) in *.
  fold id in Hh, Hid. rewrite (insert_insert_ne _ _ p) in Hh by done. 
  assert (Hh2 : ks_heap s2 = <[p:=OMsg (new_message id (pe_pid e) cur io buf)]> (<[buf:=OBuf bytes]> (ks_heap s))).
  { rewrite Hh. clear -Hpb. heap_eq. }
  clear Hh. assert (Hsub : ks_heap s ⊆ ks_heap s2).
  { rewrite Hh2. repeat (apply insert_subseteq_r; [done|]). done. }
  assert (Hes : ks_entries s2 = ks_entries s) by (by injection Hrest).
  cbn [negb Z.eqb]. kstep. eapply wp_get_msg; [by rewrite Hh2, lookup_insert_eq|]. cbn beta.
  unfold body_of. ksteps. cbn [data new_message]. ksteps.
  eapply wp_eq; [eapply find_connection_run; [by eapply lookup_weaken|done|]|].
  { cbn. by eapply send_request_coid. }
  cbn [mb_coid with_in_base body_from_user]. unfold send_target.
  assert (Hrest2 : rest s2 = rest s) by done. clear Hrest.
  assert (Hno : forall r s', r = Returned (- EBADF) /\ ks_heap s' = ks_heap s /\ rest s' = rest s2 /\ ks_next s' = ks_next s2 /\
    ks_next_rcvid s' = ks_next_rcvid s2 -> r = Returned (- EBADF) /\ unchanged s s').
  { intros r s' (-> & Hh & Hr & Hn & Hi). unfold unchanged. rewrite Hh, Hn, Hi, Hr. split_and!; try done; [lia|by right]. }
  destruct (connections _ !! ms_coid io) as [conn|]; cbn [default Datatypes.id];
    [|eapply wp_mono; [by eapply msgsend_reject|]; exact Hno].
  destruct (QNX_CONN_IS_VALID conn); cbn [negb];
    [|eapply wp_mono; [by eapply msgsend_reject|]; exact Hno].
  kstep. eapply wp_of_run; [apply driver_find_channel_run; by eapply entries_ok_mono|].
  rewrite (lookup_channel_mono s s2) by done. destruct (lookup_channel s _ _) as [chnl|] eqn:Hl;
    [|eapply wp_mono; [by eapply msgsend_reject|]; exact Hno].
  destruct (lookup_channel_Some _ _ _ _ Hok Hl) as (c & Hc & _ & Hr). rewrite (lookup_weaken _ _ _ _ Hc Hsub).
  assert (chnl ≠ p) by congruence. assert (chnl ≠ buf) by congruence.
  kstep. eapply wp_get_msg; [ks_simpl; by rewrite Hh2, lookup_insert_ne, lookup_insert_eq|]. cbn beta. kstep.
  unfold put_msg. eapply wp_put; [ks_simpl; by rewrite Hh2, lookup_insert_ne, lookup_insert_eq|].
  kstep. eapply wp_eq; [eapply msgsend_block_run; [ks_simpl; by rewrite lookup_insert_ne, lookup_insert_eq|ks_simpl; by rewrite lookup_insert_eq|done]|].
  kstep. split; [done|]. split; [done|]. split; [done|]. exists c. split_and!; [done|done| | |].
  - ks_simpl. rewrite Hh2. clear. heap_eq.
  - unfold rest in *. ks_simpl. by injection Hrest2 as -> -> -> -> -> ->.
  - intros q Hq. ks_simpl. rewrite Hnext in Hq. assert (ks_heap s !! q = None) by (apply Hf; unfold buf, p in *; lia).
    rewrite Hh2. repeat (rewrite lookup_insert_ne by (first [congruence | unfold buf, p in *; lia])). done.
Qed.

(** [kfree] of the reply buffer, when there is one *)
Definition without_reply (m : qnx_internal_msgsend) : gmap ptr kobj -> gmap ptr kobj :=
  match reply_base m with Some r => delete r | None => fun h => h end.

(** a message on the stack of its sender goes, with its buffers *)
Lemma message_teardown_spec s p m b buf o t (rc : Z) :
  ks_heap s !! p = Some (OMsg m) -> data m = DMsg b -> task m = Some t -> mb_in_base b = InKernel buf ->
  ks_heap s !! buf = Some o -> buf ≠ p -> reply_ok (ks_heap s) m ->
  (forall r, reply_base m = Some r -> r ≠ buf /\ r ≠ p) ->
  wp (qnx_internal_msgsend_destroy p ;;; end_frame p ;;; kret rc) (fun rc' s' => rc' = rc /\
    s' = upd_heap (fun h => delete p (without_reply m (delete buf h))) s) s.
Proof.
  intros Hp Hd Ht Hin Hbuf Hbp Hrep Hne. unfold qnx_internal_msgsend_destroy, body_of, without_reply.
  ksteps. rewrite Ht, Hd. ksteps. rewrite Hin. cbn [kfree_in]. ksteps.
  unfold reply_ok in Hrep. destruct (reply_base m) as [r|]; cbn [kfree_opt].
  - destruct Hrep as [[o' Hro] _]. destruct (Hne r eq_refl).
    eapply wp_kfree; [ks_simpl; by rewrite lookup_delete_ne|]. kstep. unfold end_frame.
    eapply wp_kfree; [ks_simpl; by rewrite !lookup_delete_ne by done|]. by kstep.
  - by ksteps.
Qed.

(** from the wake-up of a sender to its return: the reply is copied, the message
    and its buffers are gone and the channel reference is given back *)
Lemma msgsend_finish_spec s chnl p cur sleep c m b buf o a t :
  ks_heap s !! chnl = Some (OChan c) -> 1 < ch_refcnt c -> ks_heap s !! p = Some (OMsg m) ->
  data m = DMsg b -> task m = Some t -> mb_in_base b = InKernel buf -> ks_heap s !! buf = Some o ->
  mb_out_base b = OutUser a -> 0 <= mb_out_len b -> buf ≠ p -> buf ≠ chnl ->
  reply_ok (ks_heap s) m -> (forall r, reply_base m = Some r -> r ∉ [buf; p; chnl]) -> interruption b sleep = None ->
  wp (handle_msgsend_finish chnl p cur sleep) (fun rc s' =>
    (rc, ks_user s') = send_result s cur b m /\
    ks_heap s' = delete p (without_reply m
      (delete buf (<[chnl := OChan (set_ch_refcnt (ch_refcnt c - 1) c)]> (ks_heap s)))) /\
    ks_entries s' = ks_entries s /\ ks_sleeping s' = ks_sleeping s) s.
Proof.
  intros Hc Hr Hp Hd Ht Hin Hbuf Hout Holen Hbp Hbc Hrep Hne Hsl. assert (Hpc : p ≠ chnl) by congruence.
  assert (Hne' : forall r, reply_base m = Some r -> r ≠ buf /\ r ≠ p /\ r ≠ chnl).
  { intros r Hrb. specialize (Hne r Hrb). rewrite !not_elem_of_cons in Hne. tauto. }
  assert (Hrep' : reply_ok (<[chnl := OChan (set_ch_refcnt (ch_refcnt c - 1) c)]> (ks_heap s)) m).
  { unfold reply_ok in *. destruct (reply_base m) as [r|]; [|done]. destruct (Hne' r eq_refl) as (_ & _ & ?).
    by rewrite lookup_insert_ne. }
  unfold handle_msgsend_finish, handle_msgsend_resume, body_of. ksteps. rewrite Hd. ksteps.
  unfold interruption in Hsl. destruct (_ && (sl_left sleep =? 0)); [done|]. destruct (sl_signal sleep); [done|]. ksteps.
  eapply wp_eq; [by eapply channel_release_run|]. ksteps. rewrite Hd. ksteps. rewrite Hout. cbn iota.
  unfold send_result. rewrite Hout. destruct (_ && _) eqn:Hcond.
  - assert (Hlen : 0 < reply_len m) by lia. unfold reply_bytes. ksteps. unfold reply_of.
    pose proof Hrep as Hrep2. unfold reply_ok in Hrep2. destruct (reply_base m) as [r|] eqn:Hrb; [|lia].
    destruct Hrep2 as [_ Hb]. destruct (Hb Hlen) as (bytes & Hrbytes & Hbl). destruct (Hne' r eq_refl) as (? & ? & ?).
    ksteps. rewrite Hrbytes. change (Z.to_nat 0) with 0%nat. rewrite drop_0.
    destruct (copy_to_user _ _ _ _) as [u ok] eqn:Hw. do 2 (kstep; cbn beta). rewrite <- Hrb in Hne'.
    eapply wp_mono; [eapply message_teardown_spec; ks_simpl; try done; [heap_lookup|heap_lookup|naive_solver]|].
    cbn beta. intros rc s' (-> & ->). done.
  - kstep. eapply wp_mono; [eapply message_teardown_spec; ks_simpl; try done; [heap_lookup|heap_lookup|naive_solver]|].
    cbn beta. intros rc s' (-> & ->). done.
Qed.

(** a receiver has a reference to its channel and the first message of the queue *)
Definition received s (chnl p : ptr) (l : list ptr) (m : qnx_internal_msgsend) (c : qnx_channel) : kstate M :=
  upd_heap <[p := OMsg (set_state QNX_STATE_RECEIVING m)]>
    (upd_heap <[chnl := OChan (without_first l m (set_ch_refcnt (ch_refcnt c + 1) c))]>
      (upd_heap <[chnl := OChan (set_ch_refcnt (ch_refcnt c + 1) c)]> s)).

Lemma receive_take_run s entry e cur addr wait bs chnl c p l m :
  let recv := c_dec c_io_receive bs in
  copy_from_user (ks_user s) (tsk_tgid cur) addr (Z.of_nat (c_size c_io_receive)) = Some bs ->
  ks_heap s !! entry = Some (OProc e) -> entry_ok (ks_heap s) e ->
  entry_channel (ks_heap s) e (rv_chid recv) = Some chnl -> ks_heap s !! chnl = Some (OChan c) ->
  waiting c = p :: l -> ks_heap s !! p = Some (OMsg m) -> 0 <= wait ->
  handle_msgreceive entry cur addr wait s =
    handle_msgreceive_deliver entry cur addr chnl recv wait p (received s chnl p l m c).
Proof.
  intros recv Hbs He Hok Hch Hc Hw Hp Hwait. assert (chnl ≠ p) by congruence.
  unfold handle_msgreceive, handle_msgreceive_begin, user_read_struct, user_read, kget, kbind at 1 2 3.
  rewrite Hbs. cbn [option_map kret]. unfold kbind at 1. rewrite (find_channel_run entry e) by done.
  fold recv. rewrite Hch, Hc. cbn [kret]. unfold handle_msgreceive_dequeue, kbind at 1. case_cmp; [lia|].
  unfold kbind at 1, get_chan. ks_simpl. rewrite lookup_insert_eq. cbn [waiting set_ch_refcnt]. rewrite Hw.
  unfold kbind at 1, get_msg at 1. ks_simpl. rewrite lookup_insert_ne, Hp by done.
  unfold kbind at 1, put_chan, put. ks_simpl. rewrite lookup_insert_eq.
  unfold kbind at 1, put_msg, put. ks_simpl. rewrite !lookup_insert_ne, Hp by done. unfold kret.
  f_equal. unfold received. do 2 f_equal. cbn [list_del]. by rewrite decide_True.
Qed.

(** [cur] of the process [e] calls MsgReceive with its structure [recv] at [addr];
    the queue of the channel has [p], with the message [m], in front of [l] *)
Record receives s (entry : ptr) (e : qnx_process_entry) (cur : task_struct) (addr : Z) (recv : qnx_io_receive)
    (chnl : ptr) (c : qnx_channel) (p : ptr) (l : list ptr) (m : qnx_internal_msgsend) : Prop := {
  rs_struct : exists bs, copy_from_user (ks_user s) (tsk_tgid cur) addr (Z.of_nat (c_size c_io_receive)) = Some bs /\
                recv = c_dec c_io_receive bs;
  rs_entry : ks_heap s !! entry = Some (OProc e);
  rs_entry_ok : entry_ok (ks_heap s) e;
  rs_find : entry_channel (ks_heap s) e (rv_chid recv) = Some chnl;
  rs_channel : ks_heap s !! chnl = Some (OChan c);
  rs_waiting : waiting c = p :: l;
  rs_message : ks_heap s !! p = Some (OMsg m)
}.

Lemma receives_run s entry e cur addr wait recv chnl c p l m :
  receives s entry e cur addr recv chnl c p l m -> 0 <= wait ->
  handle_msgreceive entry cur addr wait s =
    handle_msgreceive_deliver entry cur addr chnl recv wait p (received s chnl p l m c).
Proof. intros [(bs & Hbs & ->) He Hok Hch Hc Hw Hp] Hwait. by eapply receive_take_run. Qed.

Lemma receives_len s entry e cur addr recv chnl c p l m :
  receives s entry e cur addr recv chnl c p l m -> 0 <= iov_len (rv_out recv).
Proof.
  intros [(bs & Hbs & ->) _ _ _ _ _ _]. apply copy_from_user_length in Hbs as [_ Hb].
  apply (dec_iovec_len (drop 8 bs)). by apply Forall_drop.
Qed.

(** the state at the delivery: the objects that matter *)
Lemma receives_heap s entry e cur addr recv chnl c p l m :
  receives s entry e cur addr recv chnl c p l m ->
  let c1 := without_first l m (set_ch_refcnt (ch_refcnt c + 1) c) in
  let h := ks_heap (received s chnl p l m c) in
  h = <[p := OMsg (set_state QNX_STATE_RECEIVING m)]> (<[chnl := OChan c1]> (ks_heap s)) /\
  h !! chnl = Some (OChan c1) /\ 1 < ch_refcnt c1 /\ h !! p = Some (OMsg (set_state QNX_STATE_RECEIVING m)) /\
  h !! entry = Some (OProc e) /\
  <[chnl := OChan (set_ch_refcnt (ch_refcnt c1 - 1) c1)]> h =
    <[p := OMsg (set_state QNX_STATE_RECEIVING m)]> (<[chnl := OChan (without_first l m c)]> (ks_heap s)).
Proof.
  intros [_ He Hok Hch Hc Hw Hp] c1 h. destruct (entry_channel_Some _ _ _ _ Hch) as (Hin & _).
  destruct (eo_channels _ _ Hok chnl Hin) as (c' & Hc' & Hr). simplify_eq.
  assert (chnl ≠ p) by congruence. assert (entry ≠ p) by congruence. assert (entry ≠ chnl) by congruence.
  assert (Hh : h = <[p := OMsg (set_state QNX_STATE_RECEIVING m)]> (<[chnl := OChan c1]> (ks_heap s))).
  { unfold h, received. ks_simpl. by rewrite insert_insert_eq. }
  rewrite Hh. split_and!; [done|by rewrite lookup_insert_ne, lookup_insert_eq|cbn; lia|by rewrite lookup_insert_eq|
    by rewrite !lookup_insert_ne by done|].
  assert (Hback : set_ch_refcnt (ch_refcnt c1 - 1) c1 = without_first l m c).
  { unfold c1, without_first, set_ch_refcnt. cbn. f_equal. lia. }
  rewrite Hback. clear -H. heap_eq.
Qed.

(** the structure that the receiver of a message finds *)
Definition received_struct (recv : qnx_io_receive) (c : qnx_channel) (m : qnx_internal_msgsend) (b : msg_body)
    (flags : Z) : qnx_io_receive :=
  with_info recv (receive_info (sender_pid m) (ch_chid c) (mb_coid b) (i32 (mb_in_len b)) (i32 (mb_out_len b)) flags).

(** both copies of a MsgReceive to its caller: the memory afterwards and whether
    the first and the second one worked *)
Definition receive_copies s (cur : task_struct) (addr : Z) (recv : qnx_io_receive) (c : qnx_channel)
    (m : qnx_internal_msgsend) (b : msg_body) (bytes : list Z) (flags : Z) : M * bool :=
  let '(u1, ok) := copy_to_user (ks_user s) (tsk_tgid cur) (iov_base (rv_out recv))
                     (take (Z.to_nat (Z.min (mb_in_len b) (iov_len (rv_out recv)))) bytes) in
  if ok
  then copy_to_user u1 (tsk_tgid cur) addr (c_enc c_io_receive (received_struct recv c m b flags))
  else (u1, false).

(** after both copies the caller reads what was sent, and the structure *)
Lemma receive_copies_read s cur addr recv c m b bytes flags u :
  receive_copies s cur addr recv c m b bytes flags = (u, true) ->
  Forall is_byte bytes -> Z.of_nat (length bytes) = mb_in_len b -> 0 <= iov_len (rv_out recv) ->
  let n := Z.min (mb_in_len b) (iov_len (rv_out recv)) in
  copy_from_user u (tsk_tgid cur) addr (Z.of_nat (c_size c_io_receive)) =
    Some (c_enc c_io_receive (received_struct recv c m b flags)) /\
  (disjoint_ranges (iov_base (rv_out recv)) n addr (Z.of_nat (c_size c_io_receive)) ->
   copy_from_user u (tsk_tgid cur) (iov_base (rv_out recv)) n = Some (take (Z.to_nat n) bytes)).
Proof.
  intros Hcp Hb Hlen Holen n. unfold receive_copies in Hcp.
  destruct (copy_to_user (ks_user s) _ _ _) as [u1 []] eqn:H1; [|done].
  pose proof (copy_to_from_user _ _ _ _ _ Hcp (enc_bytes _)) as H2. rewrite enc_length in H2. split; [done|].
  intros Hd. apply copy_to_from_user in H1; [|by apply Forall_take].
  rewrite length_take_le in H1 by lia. rewrite Z2Nat.id in H1 by lia. fold n in H1. rewrite <- H1.
  eapply copy_to_user_frame; [exact Hcp|]. rewrite enc_length. unfold disjoint_ranges in *. lia.
Qed.

(** the end of a MsgReceive that got a message from a blocked sender *)
Lemma deliver_spec s entry e cur addr chnl c recv wait p m b bytes buf t :
  ks_heap s !! entry = Some (OProc e) -> ks_heap s !! chnl = Some (OChan c) -> 1 < ch_refcnt c ->
  ks_heap s !! p = Some (OMsg m) -> 0 < rcvid m -> data m = DMsg b -> task m = Some t ->
  mb_in_base b = InKernel buf -> ks_heap s !! buf = Some (OBuf bytes) -> Z.of_nat (length bytes) = mb_in_len b ->
  0 <= iov_len (rv_out recv) ->
  let h := <[chnl := OChan (set_ch_refcnt (ch_refcnt c - 1) c)]> (ks_heap s) in
  let '(u, ok) := receive_copies s cur addr recv c m b bytes 0 in
  wp (handle_msgreceive_deliver entry cur addr chnl recv wait p) (fun rc s' =>
    ks_user s' = u /\ alloc s' = alloc s /\
    if ok
    then rc = rcvid m /\ ks_sleeping s' = ks_sleeping s /\
         ks_heap s' = <[p := OMsg (set_state QNX_STATE_PENDING m)]> (<[entry := OProc (set_pending (p :: pending e) e)]> h)
    else rc = - EFAULT /\ ks_sleeping s' = ks_sleeping s ∖ {[tsk_pid t]} /\
         ks_heap s' = <[p := OMsg (set_state QNX_STATE_FINISHED (set_status (- EFAULT) (set_reply None 0 m)))]> h) s.
Proof.
  intros He Hc Hr Hp Hid Hd Ht Hin Hbuf Hlen Holen h. unfold receive_copies.
  assert (chnl ≠ p) by congruence. assert (chnl ≠ entry) by congruence. assert (entry ≠ p) by congruence.
  destruct (copy_to_user _ _ _ _) as [u1 ok1] eqn:Hw1.
  destruct (if ok1 then _ else _) as [u2 ok2] eqn:Hw2.
  unfold handle_msgreceive_deliver, deliver_message, body_of, in_bytes. ksteps.
  assert (rcvid m =? 0 = false) as -> by lia. ksteps. rewrite Hd. ksteps. rewrite Hin. ksteps.
  rewrite Ht. ksteps.
  assert (Hfail : forall s1, ks_heap s1 = ks_heap s -> ks_user s1 = u2 -> alloc s1 = alloc s -> ks_sleeping s1 = ks_sleeping s ->
    wp (let! m := get_msg p in
         put_msg p (set_state QNX_STATE_FINISHED (set_status (- EFAULT) (set_reply None 0 m))) ;;;
         match task m with Some t => wake_up_process t | None => koops NullAccess end)
       (fun _ s2 => wp (qnx_channel_release chnl ;;; kret (- EFAULT)) (fun rc s' =>
          ks_user s' = u2 /\ alloc s' = alloc s /\ rc = - EFAULT /\ ks_sleeping s' = ks_sleeping s ∖ {[tsk_pid t]} /\
          ks_heap s' = <[p := OMsg (set_state QNX_STATE_FINISHED (set_status (- EFAULT) (set_reply None 0 m)))]> h) s2) s1).
  { intros s1 Hh Hu Hes Hsl. rewrite <- Hh in *. ksteps. rewrite Ht. ksteps. eapply wp_eq; [eapply channel_release_run; [heap_lookup|done]|].
    ksteps. ks_simpl. split_and!; [done|done|done|by rewrite Hsl|]. unfold h. rewrite <- Hh. clear -H. heap_eq. }
  destruct ok1.
  - assert (rcvid m >=? 0 = true) as -> by lia. ksteps. destruct ok2.
    + assert (rcvid m >? 0 = true) as -> by lia. unfold qnx_process_entry_add_pending. ksteps.
      eapply wp_eq; [eapply channel_release_run; [heap_lookup|done]|]. ksteps. ks_simpl. split_and!; try done.
      unfold h, list_add. clear -H H0 H1. heap_eq.
    + change (- EFAULT >? 0) with false. cbn iota. eapply wp_mono; [by apply Hfail|]. done.
  - injection Hw2 as <- <-. change (- EFAULT >=? 0) with false. ksteps. change (- EFAULT >? 0) with false. cbn iota.
    eapply wp_mono; [by apply Hfail|]. done.
Qed.

(** a no-reply message: the object is freed in every case *)
Lemma deliver_noreply_spec s entry cur addr chnl c recv wait p m b :
  ks_heap s !! chnl = Some (OChan c) -> 1 < ch_refcnt c ->
  ks_heap s !! p = Some (OMsg m) -> 0 < rcvid m -> data m = DMsg b -> task m = None ->
  mb_in_base b = InTail -> Z.of_nat (length (msg_tail m)) = mb_in_len b -> 0 <= iov_len (rv_out recv) ->
  let '(u, ok) := receive_copies s cur addr recv c m b (msg_tail m) QNX_FLAG_NOREPLY in
  wp (handle_msgreceive_deliver entry cur addr chnl recv wait p) (fun rc s' =>
    ks_user s' = u /\ rc = (if ok then rcvid m else - EFAULT) /\ ks_entries s' = ks_entries s /\
    ks_sleeping s' = ks_sleeping s /\
    ks_heap s' = delete p (<[chnl := OChan (set_ch_refcnt (ch_refcnt c - 1) c)]> (ks_heap s))) s.
Proof.
  intros Hc Hr Hp Hid Hd Ht Hin Hlen Holen. unfold receive_copies. assert (chnl ≠ p) by congruence.
  destruct (copy_to_user _ _ _ _) as [u1 ok1] eqn:Hw1.
  destruct (if ok1 then _ else _) as [u2 ok2] eqn:Hw2.
  unfold handle_msgreceive_deliver, deliver_message, body_of, in_bytes. ksteps.
  assert (rcvid m =? 0 = false) as -> by lia. ksteps. rewrite Hd. ksteps. rewrite Hin. ksteps.
  rewrite Ht. unfold qnx_internal_msgsend_destroy. ksteps. rewrite Ht. ksteps.
  destruct ok1.
  - assert (rcvid m >=? 0 = true) as -> by lia. ksteps.
    eapply wp_eq; [eapply channel_release_run; [heap_lookup|done]|]. ksteps. ks_simpl. split_and!; try done.
    clear -H. heap_eq.
  - injection Hw2 as <- <-. change (- EFAULT >=? 0) with false. ksteps.
    eapply wp_eq; [eapply channel_release_run; [heap_lookup|done]|]. ksteps. ks_simpl. split_and!; try done.
    clear -H. heap_eq.
Qed.

(** the bytes of the three fields of a pulse, and where they go *)
Definition pulse_fields (base : Z) (q : qnx_io_msgsendpulse) : list (Z * list Z) :=
  [(base + pulse_code_offset, c_enc c_int8 (i8 (mp_code q)));
   (base + pulse_scoid_offset, c_enc c_int (mp_coid q));
   (base + pulse_value_offset, c_enc c_int (mp_value q))].

(** writing a list of fields, up to the first failure *)
Fixpoint write_fields (u : M) (mm : Z) (l : list (Z * list Z)) : M * bool :=
  match l with
  | [] => (u, true)
  | (a, bs) :: l' => let '(u', ok) := copy_to_user u mm a bs in if ok then write_fields u' mm l' else (u', false)
  end.

Lemma write_pulse_run s mm base q :
  let '(u, ok) := write_fields (ks_user s) mm (pulse_fields base q) in
  write_pulse mm base q s = Done (ok, upd_user u s).
Proof.
  cbn [write_fields pulse_fields]. unfold write_pulse, kbind, user_write.
  destruct (copy_to_user _ _ (base + pulse_code_offset) _) as [u1 []] eqn:H1; [|done]. cbn [negb]. ks_simpl.
  destruct (copy_to_user _ _ (base + pulse_scoid_offset) _) as [u2 []] eqn:H2; [|done]. cbn [negb]. ks_simpl.
  by destruct (copy_to_user _ _ (base + pulse_value_offset) _) as [u3 []] eqn:H3.
Qed.

(** the structure that the receiver of a pulse finds *)
Definition pulse_struct (recv : qnx_io_receive) (c : qnx_channel) (m : qnx_internal_msgsend)
    (q : qnx_io_msgsendpulse) : qnx_io_receive :=
  with_info recv (receive_info (sender_pid m) (ch_chid c) (mp_coid q) 8 0 0).

(** the copy of a pulse into the receiver's buffer: the memory afterwards and the
    return code so far.  When the buffer is too small for a pulse, nothing is
    copied and the return code is the one of the wait. *)
Definition pulse_copy (u : M) (mm : Z) (recv : qnx_io_receive) (wait : Z) (q : qnx_io_msgsendpulse) : M * Z :=
  if iov_len (rv_out recv) >=? sizeof_pulse
  then let '(u', ok) := write_fields u mm (pulse_fields (iov_base (rv_out recv)) q) in (u', if ok then 0 else - EFAULT)
  else (u, wait).

(** the whole effect of receiving a pulse on its caller *)
Definition pulse_outcome s (cur : task_struct) (addr : Z) (recv : qnx_io_receive) (wait : Z) (c : qnx_channel)
    (m : qnx_internal_msgsend) (q : qnx_io_msgsendpulse) : M * Z :=
  let '(u, rc) := pulse_copy (ks_user s) (tsk_tgid cur) recv wait q in
  if rc >=? 0
  then let '(u', ok) := copy_to_user u (tsk_tgid cur) addr (c_enc c_io_receive (pulse_struct recv c m q)) in
       (u', if ok then rc else - EFAULT)
  else (u, rc).

Lemma upd_user_id s : upd_user (ks_user s) s = s.
Proof. by destruct s. Qed.

Lemma deliver_pulse_run s cur recv c wait p m q o :
  ks_heap s !! p = Some o -> o = OMsg m -> data m = DPulse q ->
  let '(u, rc) := pulse_copy (ks_user s) (tsk_tgid cur) recv wait q in
  deliver_pulse cur recv (ch_chid c) wait p s =
    Done (rc, pulse_struct recv c m q, upd_heap (delete p) (upd_user u s)).
Proof.
  intros Hp -> Hd. unfold pulse_copy, deliver_pulse, pulse_of, kfree, get_msg, kbind at 1. rewrite Hp, Hd.
  unfold kbind at 1, kret at 1. destruct (_ >=? _).
  - pose proof (write_pulse_run s (tsk_tgid cur) (iov_base (rv_out recv)) q) as Hw.
    destruct (write_fields _ _ _) as [u ok]. unfold kbind. rewrite Hw. unfold kret. ks_simpl. by rewrite Hp.
  - unfold kbind, kret. rewrite Hp. by rewrite upd_user_id.
Qed.

(** a pulse is freed in every case *)
Lemma deliver_pulse_spec s entry cur addr chnl c recv wait p m q :
  ks_heap s !! chnl = Some (OChan c) -> 1 < ch_refcnt c ->
  ks_heap s !! p = Some (OMsg m) -> rcvid m = 0 -> data m = DPulse q ->
  wp (handle_msgreceive_deliver entry cur addr chnl recv wait p) (fun rc s' =>
    (ks_user s', rc) = pulse_outcome s cur addr recv wait c m q /\
    ks_entries s' = ks_entries s /\ ks_sleeping s' = ks_sleeping s /\
    ks_heap s' = delete p (<[chnl := OChan (set_ch_refcnt (ch_refcnt c - 1) c)]> (ks_heap s))) s.
Proof.
  intros Hc Hr Hp Hid Hd. assert (chnl ≠ p) by congruence. unfold pulse_outcome.
  pose proof (deliver_pulse_run s cur recv c wait p m q _ Hp eq_refl Hd) as Hrun.
  destruct (pulse_copy _ _ _ _ _) as [u rc1].
  unfold handle_msgreceive_deliver. ksteps. rewrite Hid. change (0 =? 0) with true. ksteps.
  eapply wp_eq; [exact Hrun|]. ksteps. destruct (rc1 >=? 0).
  - destruct (copy_to_user _ _ _ _) as [u2 ok2] eqn:Hw. ksteps.
    eapply wp_eq; [eapply channel_release_run; [heap_lookup|done]|]. ksteps. ks_simpl. split_and!; try done.
    clear -H. heap_eq.
  - ksteps. eapply wp_eq; [eapply channel_release_run; [heap_lookup|done]|]. ksteps. ks_simpl. split_and!; try done.
    clear -H. heap_eq.
Qed.

(** what an interrupted sender does with its message, by where the message is:
    its return code and the heap afterwards *)
Definition interrupted_outcome s (chnl : ptr) (c : qnx_channel) (m : qnx_internal_msgsend) (rc : Z)
    : Z * gmap ptr kobj :=
  match List.find (has_rcvid (ks_heap s) (rcvid m)) (waiting c) with
  | Some q =>
      (rc, <[chnl := OChan (set_num_waiting (i32 (num_waiting c - 1)) (set_waiting (list_del q (waiting c)) c))]> (ks_heap s))
  | None =>
      match find_process s (receiver_pid m) with
      | None => (rc, ks_heap s)
      | Some entry =>
          match ks_heap s !! entry with
          | Some (OProc e) =>
              match List.find (has_rcvid (ks_heap s) (rcvid m)) (pending e) with
              | Some q => (rc, <[entry := OProc (set_pending (list_del q (pending e)) e)]> (ks_heap s))
              | None => (status m, ks_heap s)
              end
          | _ => (rc, ks_heap s)
          end
      end
  end.

(** (while the receiver is copying the message, the sender spins) *)
Lemma interrupted_spec s chnl p c m rc :
  entries_ok s -> ks_heap s !! chnl = Some (OChan c) -> ks_heap s !! p = Some (OMsg m) ->
  (forall q, q ∈ waiting c -> exists mq, ks_heap s !! q = Some (OMsg mq)) ->
  state m ≠ QNX_STATE_RECEIVING ->
  (forall q e q', ks_heap s !! q = Some (OProc e) -> q' ∈ pending e -> has_rcvid (ks_heap s) (rcvid m) q' = true ->
     state m ≠ QNX_STATE_FINISHED) ->
  let o := interrupted_outcome s chnl c m rc in
  wp (handle_msgsend_interrupted chnl p rc) (fun rc' s' => rc' = fst o /\ s' = upd_heap (fun _ => snd o) s) s.
Proof.
  intros Hok Hc Hp Hw Hst Hfin. cbv zeta. unfold handle_msgsend_interrupted, interrupted_outcome. ksteps.
  unfold qnx_channel_remove_message. ksteps. eapply wp_eq; [by apply find_rcvid_run|].
  destruct (List.find _ (waiting c)) as [q|] eqn:Hfw; ksteps; [done|].
  change (0 =? 0) with true. cbn [negb]. ksteps.
  eapply wp_spin_while; [by apply Z.eqb_neq|]. kstep.
  eapply wp_of_run; [by apply find_process_run|].
  assert (Hid : upd_heap (fun _ => ks_heap s) s = s) by by apply upd_heap_id.
  destruct (find_process s (receiver_pid m)) as [entry|] eqn:Hfp; [|by ksteps].
  destruct (find_process_Some _ _ _ Hok Hfp) as (_ & e & He & _ & Hr & Heo). rewrite He.
  assert (entry ≠ p) by congruence. set (e1 := set_pe_refcnt (pe_refcnt e + 1) e).
  assert (Hbits : forall q, has_rcvid (<[entry := OProc e1]> (ks_heap s)) (rcvid m) q = has_rcvid (ks_heap s) (rcvid m) q).
  { intros q. unfold has_rcvid, msg_test. destruct (decide (q = entry)) as [->|]; [by rewrite lookup_insert_eq, He|].
    by rewrite lookup_insert_ne. }
  kstep. eapply wp_of_run; [eapply release_pending_run; [heap_lookup|]|].
  { intros q Hq. destruct (entry_ok_msgs _ _ q Heo Hq) as [mq Hmq]. exists mq. ks_simpl.
    by rewrite lookup_insert_ne by congruence. }
  ks_simpl. change (pending e1) with (pending e).
  rewrite (find_ext (has_rcvid (<[entry := OProc e1]> (ks_heap s)) (rcvid m)) (has_rcvid (ks_heap s) (rcvid m))) by done.
  destruct (List.find _ (pending e)) as [q|] eqn:Hfq.
  - apply find_elem in Hfq as [Hq Hqid]. ksteps. eapply wp_spin_while; [apply Z.eqb_neq; by eapply Hfin|]. ksteps.
    eapply wp_eq; [eapply entry_release_run; [heap_lookup|cbn; lia]|]. ksteps. split; [done|].
    rewrite !upd_heap_upd_heap. apply upd_heap_ext. ks_simpl.
    cbn [snd]. rewrite !insert_insert_eq. unfold e1. repeat f_equal. destruct e. cbn. unfold set_pe_refcnt, set_pending. cbn. f_equal. lia.
  - ksteps. eapply wp_eq; [eapply entry_release_run; [heap_lookup|cbn; lia]|]. ksteps. split; [done|].
    rewrite !upd_heap_upd_heap. apply upd_heap_ext. ks_simpl. cbn [snd]. rewrite insert_insert_eq. apply insert_id. rewrite He. unfold e1. cbn [pe_refcnt set_pe_refcnt].
    by rewrite set_refcnt_back.
Qed.

Lemma receive_message_spec s entry chnl p buf e cur t addr wait recv c l m b bytes :
  receives s entry e cur addr recv chnl c p l m -> 0 <= wait ->
  0 < rcvid m -> data m = DMsg b -> task m = Some t -> mb_in_base b = InKernel buf ->
  ks_heap s !! buf = Some (OBuf bytes) -> Z.of_nat (length bytes) = mb_in_len b ->
  let h := <[chnl := OChan (without_first l m c)]> (ks_heap s) in
  wp (handle_msgreceive entry cur addr wait) (fun rc s' =>
    let '(u, ok) := receive_copies s cur addr recv c m b bytes 0 in
    ks_user s' = u /\ alloc s' = alloc s /\
    if ok
    then rc = rcvid m /\ ks_sleeping s' = ks_sleeping s /\
         ks_heap s' = <[p := OMsg (set_state QNX_STATE_PENDING m)]> (<[entry := OProc (set_pending (p :: pending e) e)]> h)
    else rc = - EFAULT /\ tsk_pid t ∉ ks_sleeping s' /\
         ks_heap s' = <[p := OMsg (set_state QNX_STATE_FINISHED (set_status (- EFAULT) (set_reply None 0 m)))]> h) s.
Proof.
  intros Hrs Hwait Hid Hd Ht Hin Hbuf Hlen h. pose proof (receives_len _ _ _ _ _ _ _ _ _ _ _ Hrs) as Holen.
  destruct (receives_heap _ _ _ _ _ _ _ _ _ _ _ Hrs) as (Hh & Hc & Hr & Hp & He & Hback).
  assert (Hb1 : ks_heap (received s chnl p l m c) !! buf = Some (OBuf bytes)).
  { rewrite Hh. destruct Hrs. rewrite !lookup_insert_ne by congruence. done. }
  pose proof (deliver_spec _ _ _ cur addr _ _ recv wait _ _ b bytes buf t He Hc Hr Hp Hid Hd Ht Hin Hb1 Hlen Holen) as Hspec.
  change (receive_copies (received s chnl p l m c) cur addr recv _ _ b bytes 0)
    with (receive_copies s cur addr recv c m b bytes 0) in Hspec.
  destruct (receive_copies _ _ _ _ _ _ _ _ _) as [u ok]. unfold wp. rewrite (receives_run _ _ _ _ _ _ _ _ _ _ _ _ Hrs Hwait).
  eapply wp_mono; [exact Hspec|]. cbn beta. intros rc s' (Hu & Hes & Hcase). split; [done|]. split; [done|].
  rewrite Hback in Hcase. assert (entry ≠ p) by (destruct Hrs; congruence).
  destruct ok; destruct Hcase as (-> & Hs & ->); (split_and!; [done|by rewrite ?Hs; try set_solver|]); unfold h; clear -H; heap_eq.
Qed.

Lemma interrupted_outcome_heap s chnl c m rc :
  entries_ok s -> ks_heap s !! chnl = Some (OChan c) ->
  exists c1, snd (interrupted_outcome s chnl c m rc) !! chnl = Some (OChan c1) /\ ch_refcnt c1 = ch_refcnt c /\
    forall q, q ≠ chnl -> (forall e, ks_heap s !! q ≠ Some (OProc e)) ->
      snd (interrupted_outcome s chnl c m rc) !! q = ks_heap s !! q.
Proof.
  intros Hok Hc. unfold interrupted_outcome. destruct (List.find _ (waiting c)) as [q|]; cbn [snd].
  { eexists. split; [apply lookup_insert_eq|]. split; [done|]. intros. by rewrite lookup_insert_ne. }
  destruct (find_process s _) as [entry|]; cbn [snd]; [|eauto].
  destruct (ks_heap s !! entry) as [[| | | |e| |]|] eqn:He; cbn [snd]; eauto.
  destruct (List.find _ (pending e)) as [q|]; cbn [snd]; [|eauto]. exists c.
  split; [by rewrite lookup_insert_ne by congruence|]. split; [done|]. intros q' _ Hq.
  apply lookup_insert_ne. intros ->. by eapply Hq.
Qed.

Lemma interruption_code b sleep code {A} (f : Z -> A) (x : A) :
  interruption b sleep = Some code ->
  (if (mb_timeout_ms b >? 0) && (sl_left sleep =? 0) then f (- ETIMEDOUT)
   else if sl_signal sleep then f (- ERESTARTSYS) else x) = f code.
Proof. unfold interruption. destruct (_ && _); [by intros [= <-]|]. by destruct (sl_signal sleep); [intros [= <-]|]. Qed.

(** an interrupted sender that has no reply: its message, its buffer and its
    reference to the channel are gone *)
Lemma msgsend_interrupted_spec s chnl p cur sleep c m b buf bytes t code :
  entries_ok s -> ks_heap s !! chnl = Some (OChan c) -> 1 < ch_refcnt c -> ks_heap s !! p = Some (OMsg m) ->
  (forall q, q ∈ waiting c -> exists mq, ks_heap s !! q = Some (OMsg mq)) ->
  data m = DMsg b -> task m = Some t -> mb_in_base b = InKernel buf -> ks_heap s !! buf = Some (OBuf bytes) ->
  reply_base m = None -> reply_len m = 0 -> state m = QNX_STATE_INITIAL \/ state m = QNX_STATE_PENDING ->
  interruption b sleep = Some code ->
  exists c1, snd (interrupted_outcome s chnl c m code) !! chnl = Some (OChan c1) /\ ch_refcnt c1 = ch_refcnt c /\
  wp (handle_msgsend_finish chnl p cur sleep) (fun rc s' =>
    rc = fst (interrupted_outcome s chnl c m code) /\ rest s' = rest s /\
    ks_heap s' = delete p (delete buf (<[chnl := OChan (set_ch_refcnt (ch_refcnt c1 - 1) c1)]>
                   (snd (interrupted_outcome s chnl c m code))))) s.
Proof.
  intros Hok Hc Hr Hp Hw Hd Ht Hin Hbuf Hrb Hrl Hst Hsl.
  destruct (interrupted_outcome_heap s chnl c m code Hok Hc) as (c1 & Hc1 & Hr1 & Hrest1).
  assert (Hnr : state m ≠ QNX_STATE_RECEIVING) by (by destruct Hst as [-> | ->]).
  assert (Hnf : state m ≠ QNX_STATE_FINISHED) by (by destruct Hst as [-> | ->]).
  pose proof (interrupted_spec s chnl p c m code Hok Hc Hp Hw Hnr (fun _ _ _ _ _ _ => Hnf)) as Hint. cbv zeta in Hint.
  destruct (interrupted_outcome s chnl c m code) as [rc0 h1]. cbn [fst snd] in *. exists c1. split; [done|]. split; [done|].
  unfold handle_msgsend_finish, handle_msgsend_resume, body_of. ksteps. rewrite Hd. ksteps.
  rewrite (interruption_code _ _ _ (handle_msgsend_interrupted chnl p) _ Hsl).
  eapply wp_mono; [exact Hint|]. cbn beta. intros rc s1 [-> Hs1]. assert (Hh1 : ks_heap s1 = h1) by (by rewrite Hs1). kstep.
  eapply wp_eq; [eapply channel_release_run; [by rewrite Hh1|lia]|].
  assert (p ≠ chnl) by congruence. assert (buf ≠ chnl) by congruence. assert (buf ≠ p) by congruence.
  assert (Hp1 : ks_heap s1 !! p = Some (OMsg m)) by (rewrite Hh1, Hrest1; [done|done|congruence]).
  assert (Hb1 : ks_heap s1 !! buf = Some (OBuf bytes)) by (rewrite Hh1, Hrest1; [done|done|congruence]).
  ksteps. rewrite Hd. ksteps. rewrite Hrl. change (0 >? 0) with false. rewrite andb_false_r. kstep.
  eapply wp_mono; [eapply (message_teardown_spec _ p m b buf)|].
  all: ks_simpl; try done; try (by rewrite lookup_insert_ne by done).
  { unfold reply_ok. by rewrite Hrb. } { congruence. }
  cbn beta. intros rc s' (-> & ->). subst s1. unfold without_reply. by rewrite Hrb.
Qed.

(** taking a message out of [pending] *)
Lemma pending_find s e id p :
  entry_ok (ks_heap s) e -> List.find (has_rcvid (ks_heap s) id) (pending e) = Some p ->
  exists m t, ks_heap s !! p = Some (OMsg m) /\ task m = Some t /\ rcvid m = id /\ p ∈ pending e.
Proof.
  intros Hok [Hin Ht]%find_elem. destruct (eo_pending _ _ Hok p Hin) as (m & Hm & t & Htask).
  unfold has_rcvid, msg_test in Ht. rewrite Hm in Ht. apply Z.eqb_eq in Ht. eauto 6.
Qed.

(** a no-reply message that is refused [k + 1] times before a signal comes *)
Lemma busy_loop_refused chnl p c m k signals s :
  let max := qnx_max_noreply_msg_num (ks_params s) in
  ks_heap s !! chnl = Some (OChan c) -> ks_heap s !! p = Some (OMsg m) -> is_noreply m = true ->
  num_waiting_noreply c = max -> 0 <= max <= INT_MAX ->
  0 <= num_waiting c -> num_waiting c + Z.of_nat k < INT_MAX ->
  wp (busy_loop_add_new_message chnl p (replicate k false ++ true :: signals)) (fun rc s' =>
    rc = - ERESTARTSYS /\ ks_entries s' = ks_entries s /\ ks_user s' = ks_user s /\
    ks_heap s' = delete p (<[chnl := OChan (set_num_waiting (num_waiting c + Z.of_nat k + 1) c)]> (ks_heap s))) s.
Proof.
  intros max. revert c m s max. induction k as [|k IH]; intros c m s max Hc Hp Hno Hfull Hmax Hnw Hnk;
    pose proof (add_new_message_run chnl p c m s Hc Hp) as Hrun; fold max in Hrun; assert (chnl ≠ p) by congruence;
    rewrite enqueue_noreply in Hrun by (done || lia); rewrite Hfull, Z.ltb_irrefl in Hrun;
    rewrite i32_id in Hrun by (unfold_int; lia); cbn [busy_loop_add_new_message replicate app].
  - kstep. eapply wp_eq; [exact Hrun|]. change (-1 <? 0) with true. cbn iota. ksteps. ks_simpl. split_and!; try done.
    replace (num_waiting c + Z.of_nat 0 + 1) with (num_waiting c + 1) by lia. clear -H. heap_eq.
  - kstep. eapply wp_eq; [exact Hrun|]. change (-1 <? 0) with true. cbn iota.
    eapply wp_mono; [eapply (IH _ (set_receiver_chid (ch_chid c) m)); ks_simpl|].
    + apply lookup_insert_eq.
    + heap_lookup.
    + done.
    + done.
    + done.
    + cbn. lia.
    + cbn. lia.
    + cbn beta. intros rc s' (-> & He & Hu & ->). ks_simpl. split_and!; try done. cbn [num_waiting set_num_waiting].
      replace (num_waiting c + 1 + Z.of_nat k + 1) with (num_waiting c + Z.of_nat (S k) + 1) by lia. clear -H. heap_eq.
Qed.

(** one that is accepted at once *)
Lemma busy_loop_accepted chnl p c m signals s :
  let max := qnx_max_noreply_msg_num (ks_params s) in
  ks_heap s !! chnl = Some (OChan c) -> ks_heap s !! p = Some (OMsg m) -> is_noreply m = true ->
  0 <= num_waiting_noreply c < max -> max <= INT_MAX -> 0 <= num_waiting c < INT_MAX ->
  wp (busy_loop_add_new_message chnl p signals) (fun rc s' =>
    rc = 0 /\ ks_entries s' = ks_entries s /\ ks_user s' = ks_user s /\
    ks_heap s' = <[chnl := OChan (Channel (ch_refcnt c) (ch_chid c) (waiting c ++ [p]) (num_waiting c + 1)
                     (num_waiting_noreply c + 1))]> (<[p := OMsg (set_receiver_chid (ch_chid c) m)]> (ks_heap s))) s.
Proof.
  intros max Hc Hp Hno Hroom Hmax Hnw. pose proof (add_new_message_run chnl p c m s Hc Hp) as Hrun. fold max in Hrun.
  rewrite enqueue_noreply in Hrun by (done || lia). assert (num_waiting_noreply c <? max = true) as Hlt by lia.
  rewrite Hlt, i32_id in Hrun by (unfold_int; lia).
  destruct signals; cbn [busy_loop_add_new_message]; kstep; (eapply wp_eq; [exact Hrun|]); by ksteps.
Qed.

(** a MsgSendNoReply up to the loop that queues the message *)
Lemma noreply_spec s entry e cur addr signals io bytes oom' conn chnl c (Q : Z -> kstate M -> Prop) :
  fresh_above s -> entries_ok s -> ks_heap s !! entry = Some (OProc e) -> table_ok (pe_connections e) ->
  send_request s cur addr = inr (io, bytes, oom') -> send_target s e (ms_coid io) = Some (conn, chnl) ->
  ks_heap s !! chnl = Some (OChan c) ->
  let p := ks_next s in
  let m := set_receiver_pid (pid conn) (new_noreply (i32 (ks_next_rcvid s + 1)) (pe_pid e) io bytes) in
  let c1 := set_ch_refcnt (ch_refcnt c + 1) c in
  (forall s1, ks_params s1 = ks_params s ->
    ks_heap s1 = <[chnl := OChan c1]> (<[p := OMsg m]> (ks_heap s)) ->
    wp (busy_loop_add_new_message chnl p signals) (fun _ s2 =>
      exists c2, ks_heap s2 !! chnl = Some (OChan c2) /\ 1 < ch_refcnt c2 /\
        Q 0 (upd_heap <[chnl := OChan (set_ch_refcnt (ch_refcnt c2 - 1) c2)]> s2)) s1) ->
  wp (handle_msgsend_no_reply entry cur addr signals) Q s.
Proof.
  intros Hf Hok He Ht Hreq Htgt Hc p m c1 Hloop. pose proof (fresh_next s Hf) as Hp. fold p in Hp.
  unfold handle_msgsend_no_reply. ksteps. eapply wp_mono; [by eapply msgsend_init_noreply_spec|].
  cbn beta. intros [rc r] s1 (Hrest & Hcase). rewrite Hreq in Hcase. destruct Hcase as (-> & -> & Hh). fold p in Hh.
  assert (Hsub : ks_heap s ⊆ ks_heap s1) by (rewrite Hh; by apply insert_subseteq_r).
  assert (Hes : ks_entries s1 = ks_entries s) by (by injection Hrest).
  assert (Hpar : ks_params s1 = ks_params s) by (by injection Hrest).
  change (negb (0 =? 0)) with false. cbn iota. kstep. eapply wp_get_msg; [by rewrite Hh, lookup_insert_eq|]. cbn beta.
  unfold body_of. ksteps. cbn [data new_noreply]. ksteps. cbn [mb_coid with_in_base body_from_user].
  eapply wp_eq; [eapply find_connection_run; [by eapply lookup_weaken|done|by eapply send_request_coid]|].
  unfold send_target in Htgt. destruct (connections _ !! ms_coid io) as [conn'|]; [|done]. cbn [default Datatypes.id].
  destruct (QNX_CONN_IS_VALID conn') eqn:Hv; [|done]. cbn [negb].
  destruct (lookup_channel s _ _) as [chnl'|] eqn:Hl; [|done]. injection Htgt as -> ->.
  destruct (lookup_channel_Some _ _ _ _ Hok Hl) as (c' & Hc' & _ & Hr). simplify_eq.
  assert (Hcp : chnl ≠ p) by congruence.
  kstep. eapply wp_of_run; [apply driver_find_channel_run; by eapply entries_ok_mono|].
  rewrite (lookup_channel_mono s s1), Hl, (lookup_weaken _ _ _ _ Hc Hsub) by done. cbn beta iota.
  kstep. eapply wp_get_msg; [ks_simpl; by rewrite Hh, lookup_insert_ne, lookup_insert_eq|]. cbn beta. kstep.
  unfold put_msg. eapply wp_put; [ks_simpl; by rewrite Hh, lookup_insert_ne, lookup_insert_eq|]. cbn beta. kstep.
  eapply wp_mono; [apply Hloop|].
  - done.
  - ks_simpl. rewrite Hh. unfold p in *. clear -Hcp. heap_eq.
  - cbn beta. intros rc s2 (c2 & Hc2 & Hr2 & HQ). kstep. eapply wp_eq; [by eapply channel_release_run|]. by ksteps.
Qed.

End DriverLemmas.

(** open by a process that does not have the device open *)
Lemma open_run {M : Type} (s : kstate M) f fl cur oom' :
  entries_ok s -> ks_heap s !! f = Some (OFile fl) -> f ≠ ks_next s -> Z.land (f_mode fl) O_RDWR ≠ 0 ->
  kmalloc_answer (ks_oom s) = (true, oom') -> find_process s (tsk_tgid cur) = None ->
  let p := ks_next s in
  exists table oom2, table_ok table /\
    let h := <[f := OFile (set_private_data (Some p) fl)]>
               (<[p := OProc (ProcessEntry 1 (tsk_tgid cur) [] table [] [])]> (ks_heap s)) in
    qnxcomm_open f cur s =
      Done (0, upd_entries (p :: ks_entries s) (upd_heap (fun _ => h) (upd_oom oom2 (upd_alloc p ORaw s)))).
Proof.
  intros Hok Hfl Hfn Hmode Hk Hnone p. assert (Hm : Z.land (f_mode fl) O_RDWR =? 0 = false) by (by apply Z.eqb_neq).
  assert (Hfind : find_pid (ks_entries s) (tsk_tgid cur) s = Done (find_process s (tsk_tgid cur), s)).
  { apply find_pid_run. intros. by eapply entries_procs. }
  rewrite Hnone in Hfind. pose proof (init_ok (qnx_max_connections_per_process (ks_params s)) oom') as Htab.
  destruct (qnx_connection_table_init (qnx_max_connections_per_process (ks_params s)) oom') as [[rc oom2] table] eqn:Hinit.
  exists table, oom2. split; [done|]. cbv zeta.
  match goal with |- _ = Done (0, ?x) => set (s' := x) end.
  enough (Hwp : wp (qnxcomm_open f cur) (fun rc s2 => rc = 0 /\ s2 = s') s) by (by apply wp_run in Hwp as (rc' & ? & -> & -> & ->)).
  unfold qnxcomm_open. ksteps. rewrite Hm. cbn [negb]. unfold qnx_driver_data_is_process_available, current_get_pid_nr.
  ksteps. eapply wp_eq; [exact Hfind|]. ksteps. eapply wp_kmalloc; [done|]. unfold qnx_process_entry_init, current_get_pid_nr.
  ksteps. ks_simpl. rewrite Hinit. ksteps. unfold qnx_driver_data_add_process, list_add. ksteps. split; [done|].
  unfold s'. state_eq.
Qed.

Lemma open_spec {M : Type} (s : kstate M) f fl cur oom' :
  entries_ok s -> fresh_above s -> ks_heap s !! f = Some (OFile fl) -> Z.land (f_mode fl) O_RDWR ≠ 0 ->
  kmalloc_answer (ks_oom s) = (true, oom') -> find_process s (tsk_tgid cur) = None ->
  let p := ks_next s in
  wp (qnxcomm_open f cur) (fun rc s' => rc = 0 /\ entries_ok s' /\
    ks_entries s' = p :: ks_entries s /\ find_process s' (tsk_tgid cur) = Some p /\
    (forall pid, pid ≠ tsk_tgid cur -> find_process s' pid = find_process s pid) /\
    exists table, table_ok table /\
      ks_heap s' = <[f := OFile (set_private_data (Some p) fl)]>
                     (<[p := OProc (ProcessEntry 1 (tsk_tgid cur) [] table [] [])]> (ks_heap s))) s.
Proof.
  intros Hok Hf Hfl Hmode Hk Hnone p. pose proof (fresh_next s Hf) as Hp. fold p in Hp. assert (Hfp : f ≠ p) by congruence.
  assert (Hes : forall q, q ∈ ks_entries s -> q ≠ p /\ q ≠ f).
  { intros q Hq. destruct (entries_procs _ _ Hok Hq) as [e He]. split; congruence. }
  destruct (open_run s f fl cur oom' Hok Hfl Hfp Hmode Hk Hnone) as (table & oom2 & Htab & Hrun).
  eapply wp_eq; [exact Hrun|]. set (s' := upd_entries _ _). fold p in s'. set (e := ProcessEntry _ _ _ _ _ _) in *.
  assert (Hpn : p ∉ ks_entries s) by (intros Hq; by destruct (Hes p Hq)).
  destruct (entries_ok_cons s s' p e) as [Hok' Hfind'].
  - eapply heap_keeps_file; [exact Hfl|]. intros q o Hq Hqf. unfold s'. ks_simpl.
    rewrite !lookup_insert_ne by congruence. done.
  - done.
  - done.
  - done.
  - unfold s'. ks_simpl. by rewrite lookup_insert_ne, lookup_insert_eq.
  - done.
  - split; cbn; try apply NoDup_nil_2; try (intros q ?%elem_of_nil; done). exact Htab.
  - split_and!; [done|done|done|rewrite Hfind'; cbn; by rewrite Z.eqb_refl| |].
    + intros pid Hpid. rewrite Hfind'. cbn. destruct (Z.eqb_spec (tsk_tgid cur) pid); [congruence|done].
    + by exists table.
Qed.

(** ** Properties *)

(** C17: MsgReceive of a message from a blocked sender.  When both copies to the
    caller work, the call returns the message's id, the caller finds the filled-in
    structure and, unless its buffer overlaps the structure, the bytes of the
    message up to the length of the buffer; the message is moved from the queue
    to the caller's pending list, and nothing else changes.  When one of the
    copies fails the call returns [-EFAULT] and the sender is woken with it. *)
Theorem msgreceive_message {M : Type} `{!UserMem M} `{!UserMemLaws M} (s : kstate M) (entry chnl p buf : ptr)
    (e : qnx_process_entry) (cur t : task_struct) (addr wait : Z) (recv : qnx_io_receive) (c : qnx_channel)
    (l : list ptr) (m : qnx_internal_msgsend) (b : msg_body) (bytes : list Z) :
  receives s entry e cur addr recv chnl c p l m -> 0 <= wait ->
  0 < rcvid m -> data m = DMsg b -> task m = Some t -> mb_in_base b = InKernel buf ->
  ks_heap s !! buf = Some (OBuf bytes) -> Z.of_nat (length bytes) = mb_in_len b -> Forall is_byte bytes ->
  let h := <[chnl := OChan (without_first l m c)]> (ks_heap s) in
  let n := Z.min (mb_in_len b) (iov_len (rv_out recv)) in
  wp (handle_msgreceive entry cur addr wait) (fun rc s' =>
    rc = rcvid m /\ ks_sleeping s' = ks_sleeping s /\
    ks_heap s' = <[p := OMsg (set_state QNX_STATE_PENDING m)]> (<[entry := OProc (set_pending (p :: pending e) e)]> h) /\
    copy_from_user (ks_user s') (tsk_tgid cur) addr (Z.of_nat (c_size c_io_receive)) =
      Some (c_enc c_io_receive (received_struct recv c m b 0)) /\
    (disjoint_ranges (iov_base (rv_out recv)) n addr (Z.of_nat (c_size c_io_receive)) ->
     copy_from_user (ks_user s') (tsk_tgid cur) (iov_base (rv_out recv)) n = Some (take (Z.to_nat n) bytes))
    \/ snd (receive_copies s cur addr recv c m b bytes 0) = false /\ rc = - EFAULT /\ tsk_pid t ∉ ks_sleeping s' /\
        ks_heap s' = <[p := OMsg (set_state QNX_STATE_FINISHED (set_status (- EFAULT) (set_reply None 0 m)))]> h) s.
Proof.
  intros Hrs Hwait Hid Hd Ht Hin Hbuf Hlen Hbytes h n. pose proof (receives_len _ _ _ _ _ _ _ _ _ _ _ Hrs) as Holen.
  eapply wp_mono; [by eapply receive_message_spec|]. cbn beta.
  destruct (receive_copies _ _ _ _ _ _ _ _ _) as [u []] eqn:Hcp; intros rc s' (Hu & _ & Hcase).
  - left. destruct Hcase as (-> & Hs & Hh). split; [done|]. split; [done|]. split; [done|]. rewrite Hu.
    by eapply receive_copies_read.
  - by right.
Qed.

(** MsgReceive of a message that was sent without waiting for a reply: the
    call returns its id, which nobody can reply to, with the no-reply flag in the
    structure; the message is freed also when a copy fails. *)
Theorem msgreceive_noreply {M : Type} `{!UserMem M} `{!UserMemLaws M} (s : kstate M) (entry chnl p : ptr)
    (e : qnx_process_entry) (cur : task_struct) (addr wait : Z) (recv : qnx_io_receive) (c : qnx_channel)
    (l : list ptr) (m : qnx_internal_msgsend) (b : msg_body) :
  receives s entry e cur addr recv chnl c p l m -> 0 <= wait ->
  0 < rcvid m -> data m = DMsg b -> task m = None -> mb_in_base b = InTail ->
  Z.of_nat (length (msg_tail m)) = mb_in_len b ->
  let '(u, ok) := receive_copies s cur addr recv c m b (msg_tail m) QNX_FLAG_NOREPLY in
  wp (handle_msgreceive entry cur addr wait) (fun rc s' =>
    ks_user s' = u /\ rc = (if ok then rcvid m else - EFAULT) /\ ks_sleeping s' = ks_sleeping s /\
    ks_heap s' = delete p (<[chnl := OChan (without_first l m c)]> (ks_heap s))) s.
Proof.
  intros Hrs Hwait Hid Hd Ht Hin Hlen. pose proof (receives_len _ _ _ _ _ _ _ _ _ _ _ Hrs) as Holen.
  destruct (receives_heap _ _ _ _ _ _ _ _ _ _ _ Hrs) as (Hh & Hc & Hr & Hp & He & Hback).
  pose proof (deliver_noreply_spec _ entry cur addr _ _ recv wait _ _ b Hc Hr Hp Hid Hd Ht Hin Hlen Holen) as Hspec.
  change (receive_copies (received s chnl p l m c) cur addr recv _ _ b _ _)
    with (receive_copies s cur addr recv c m b (msg_tail m) QNX_FLAG_NOREPLY) in Hspec.
  destruct (receive_copies _ _ _ _ _ _ _ _ _) as [u ok]. unfold wp. rewrite (receives_run _ _ _ _ _ _ _ _ _ _ _ _ Hrs Hwait).
  eapply wp_mono; [exact Hspec|]. cbn beta. intros rc s' (Hu & -> & _ & Hs & ->). split_and!; [done..|].
  rewrite Hback. by rewrite delete_insert_eq.
Qed.

(** MsgReceive of a pulse: the return code is 0 when the pulse and the
    structure could be copied, and the pulse is freed in every case.  But when
    the caller's buffer is shorter than a pulse, the call returns [wait], the
    time that was left of the timeout: a positive number that looks like the id
    of a message. *)
Theorem msgreceive_pulse {M : Type} `{!UserMem M} `{!UserMemLaws M} (s : kstate M) (entry chnl p : ptr)
    (e : qnx_process_entry) (cur : task_struct) (addr wait : Z) (recv : qnx_io_receive) (c : qnx_channel)
    (l : list ptr) (m : qnx_internal_msgsend) (q : qnx_io_msgsendpulse) :
  receives s entry e cur addr recv chnl c p l m -> 0 <= wait -> rcvid m = 0 -> data m = DPulse q ->
  wp (handle_msgreceive entry cur addr wait) (fun rc s' =>
    (ks_user s', rc) = pulse_outcome s cur addr recv wait c m q /\ ks_sleeping s' = ks_sleeping s /\
    ks_heap s' = delete p (<[chnl := OChan (without_first l m c)]> (ks_heap s)) /\
    (iov_len (rv_out recv) < sizeof_pulse -> rc = wait \/ rc = - EFAULT) /\
    (sizeof_pulse <= iov_len (rv_out recv) -> rc = 0 \/ rc = - EFAULT)) s.
Proof.
  intros Hrs Hwait Hid Hd. destruct (receives_heap _ _ _ _ _ _ _ _ _ _ _ Hrs) as (Hh & Hc & Hr & Hp & He & Hback).
  unfold wp. rewrite (receives_run _ _ _ _ _ _ _ _ _ _ _ _ Hrs Hwait).
  eapply wp_mono; [by eapply deliver_pulse_spec|]. cbn beta. intros rc s' (Hout & _ & Hs & ->).
  change (pulse_outcome (received s chnl p l m c) cur addr recv wait _ _ q)
    with (pulse_outcome s cur addr recv wait c m q) in Hout.
  split_and!; [done..|by rewrite Hback, delete_insert_eq| |]; unfold pulse_outcome, pulse_copy in Hout.
  - intros Hlt. assert (iov_len (rv_out recv) >=? sizeof_pulse = false) as Hf by lia. rewrite Hf in Hout.
    destruct (wait >=? 0); [|by injection Hout as _ <-; left].
    destruct (copy_to_user _ _ _ _) as [u []]; injection Hout as _ ->; auto.
  - intros Hge. assert (iov_len (rv_out recv) >=? sizeof_pulse = true) as Hf by lia. rewrite Hf in Hout.
    destruct (write_fields _ _ _) as [u []]; [|injection Hout as _ ->; auto].
    change (0 >=? 0) with true in Hout. destruct (copy_to_user _ _ _ _) as [u' []]; injection Hout as _ ->; auto.
Qed.

(** C16: MsgSend up to the sleep.  A structure or buffer that cannot be read is
    [-EFAULT], no memory is [-ENOMEM], and a connection that does not exist, or
    whose channel is gone, is [-EBADF]; then the heap is exactly as before.
    Otherwise the message, with the next id and its own copy of the bytes, is at
    the end of the queue of the channel that the connection names, one reference
    to the channel is taken, a receiver is notified and the sender sleeps. *)
Theorem msgsend_queues {M : Type} `{!UserMem M} (s : kstate M) (entry : ptr) (e : qnx_process_entry)
    (cur : task_struct) (addr : Z) :
  fresh_above s -> entries_ok s -> ks_heap s !! entry = Some (OProc e) -> table_ok (pe_connections e) ->
  let p := ks_next s in
  let buf := Pos.succ p in
  let id := i32 (ks_next_rcvid s + 1) in
  wp (handle_msgsend_begin entry cur addr) (fun r s' =>
    match send_request s cur addr with
    | inl rc => r = Returned rc /\ unchanged s s'
    | inr (io, bytes, oom') =>
        match send_target s e (ms_coid io) with
        | None => r = Returned (- EBADF) /\ unchanged s s'
        | Some (conn, chnl) =>
            r = Blocked chnl p /\ ks_next_rcvid s' = id /\ ks_oom s' = oom' /\
            exists c, ks_heap s !! chnl = Some (OChan c) /\ 0 < ch_refcnt c /\
            ks_heap s' = <[chnl := OChan (with_message p c)]>
              (<[p := OMsg (set_receiver_chid (ch_chid c)
                             (set_receiver_pid (pid conn) (new_message id (pe_pid e) cur io buf)))]>
                (<[buf := OBuf bytes]> (ks_heap s))) /\
            rest s' = (ks_user s, ks_entries s, ks_next_channel_id s, ks_params s,
                       {[tsk_pid cur]} ∪ ks_sleeping s, EvWakeUp chnl :: ks_trace s) /\
            fresh_above s'
        end
    end) s.
Proof. exact (msgsend_begin_spec s entry e cur addr). Qed.

(** C30: a MsgSend whose timeout runs out, or that gets a signal, while its
    message is still queued takes the message back: it returns [-ETIMEDOUT] or
    [-ERESTARTSYS], and no object is left behind or changed. *)
Theorem msgsend_withdrawn {M : Type} `{!UserMem M} (s : kstate M) (entry chnl : ptr) (e : qnx_process_entry)
    (cur : task_struct) (addr : Z) (io : qnx_io_msgsend) (bytes : list Z) (oom' : list bool)
    (conn : qnx_connection) (c : qnx_channel) (sleep : sleep_result) (code : Z) :
  fresh_above s -> entries_ok s -> ks_heap s !! entry = Some (OProc e) -> table_ok (pe_connections e) ->
  send_request s cur addr = inr (io, bytes, oom') -> send_target s e (ms_coid io) = Some (conn, chnl) ->
  ks_heap s !! chnl = Some (OChan c) -> is_int (num_waiting c) -> num_waiting c < INT_MAX ->
  (forall q, q ∈ waiting c -> exists mq, ks_heap s !! q = Some (OMsg mq) /\ rcvid mq ≠ i32 (ks_next_rcvid s + 1)) ->
  interruption (body_from_user io) sleep = Some code ->
  wp (handle_msgsend entry cur addr sleep) (fun rc s' => rc = code /\ ks_heap s' = ks_heap s) s.
Proof.
  intros Hf Hok He Ht Hreq Htgt Hc Hnw Hnwm Hw Hsl. pose proof (fresh_next s Hf) as Hp.
  assert (Hbuf : ks_heap s !! Pos.succ (ks_next s) = None) by (apply Hf; lia).
  unfold handle_msgsend. kstep. eapply wp_mono; [by eapply msgsend_begin_spec|]. cbn beta.
  rewrite Hreq, Htgt. intros r s1 (-> & _ & _ & c' & Hc' & Hr & Hh & Hre & Hf1). simplify_eq.
  set (p := ks_next s) in *. set (buf := Pos.succ p) in *. set (m := set_receiver_chid _ _) in *.
  assert (Hes : ks_entries s1 = ks_entries s) by (by injection Hre).
  assert (Hpb : p ≠ buf) by (unfold buf; lia).
  assert (chnl ≠ p) by congruence. assert (chnl ≠ buf) by congruence.
  assert (Hsub : forall q o, ks_heap s !! q = Some o -> q ≠ chnl -> ks_heap s1 !! q = Some o).
  { intros q o Hq Hqc. rewrite Hh, !lookup_insert_ne by congruence. done. }
  assert (Hc1 : ks_heap s1 !! chnl = Some (OChan (with_message p c))) by (by rewrite Hh, lookup_insert_eq).
  assert (Hp1 : ks_heap s1 !! p = Some (OMsg m)) by (by rewrite Hh, lookup_insert_ne, lookup_insert_eq).
  assert (Hb1 : ks_heap s1 !! buf = Some (OBuf bytes)) by (rewrite Hh; heap_lookup).
  assert (Hok1 : entries_ok s1).
  { eapply (entries_ok_keeps s); [|done..]. eapply heap_keeps_chan; [exact Hc| |exact Hc1|exact Hsub]. cbn. lia. }
  assert (Hfind : List.find (has_rcvid (ks_heap s1) (rcvid m)) (waiting (with_message p c)) = Some p).
  { apply find_first; [|unfold has_rcvid, msg_test; rewrite Hp1; apply Z.eqb_refl]. apply Forall_forall. intros q Hq.
    destruct (Hw q Hq) as (mq & Hmq & Hne). unfold has_rcvid, msg_test. rewrite (Hsub q _ Hmq) by congruence. by apply Z.eqb_neq. }
  destruct (msgsend_interrupted_spec s1 chnl p cur sleep (with_message p c) m (with_in_base (InKernel buf) (body_from_user io))
    buf bytes cur code) as (c1 & Hcc & Hr1 & Hspec); try done; [cbn; lia| |by left|].
  { intros q [Hq| ->%list_elem_of_singleton]%elem_of_app; [|eauto]. destruct (Hw q Hq) as (mq & Hmq & _). exists mq.
    apply Hsub; congruence. }
  eapply wp_mono; [exact Hspec|]. cbn beta. unfold interrupted_outcome in *. rewrite Hfind in *. cbn [fst snd] in *.
  intros rc s2 (-> & _ & ->). split; [done|]. rewrite lookup_insert_eq in Hcc. injection Hcc as <-.
  rewrite Hh. cbn [waiting with_message]. rewrite list_del_app; [|intros Hin; destruct (Hw p Hin) as (? & ? & _); congruence].
  set (c1 := set_num_waiting _ _). assert (Hback : set_ch_refcnt (ch_refcnt c1 - 1) c1 = c).
  { unfold c1. destruct c as [r1 i1 w1 n1 nr1]. unfold with_message, set_ch_refcnt, set_num_waiting, set_waiting. cbn in *. rewrite app_nil_r.
    rewrite (i32_id (n1 + 1)) by (unfold_int; lia). rewrite i32_id by (unfold_int; lia). f_equal; lia. }
  rewrite Hback. clear -Hp Hbuf Hc. heap_eq.
Qed.

(** C31: a sender whose wait ends while the receiver is between taking the
    message for its reply and filling the reply in.  The sender does not find its
    message any more and returns the status, which is still the initial one (0,
    success without a reply); its stack frame ends with the message in it, and
    the receiver then writes into the dead frame. *)
Theorem msgsend_interrupted_during_reply {M : Type} `{!UserMem M} (s : kstate M) (entry chnl p buf : ptr)
    (e : qnx_process_entry) (cur cur' t : task_struct) (c : qnx_channel) (m : qnx_internal_msgsend)
    (b : msg_body) (bytes : list Z) (sleep : sleep_result) (code : Z) (io : qnx_io_reply) :
  entries_ok s -> find_process s (receiver_pid m) = Some entry -> ks_heap s !! entry = Some (OProc e) ->
  ks_heap s !! chnl = Some (OChan c) -> 1 < ch_refcnt c ->
  (forall q, q ∈ waiting c -> exists mq, ks_heap s !! q = Some (OMsg mq) /\ rcvid mq ≠ rcvid m) ->
  ks_heap s !! p = Some (OMsg m) -> data m = DMsg b -> task m = Some t -> mb_in_base b = InKernel buf ->
  ks_heap s !! buf = Some (OBuf bytes) -> reply_base m = None -> reply_len m = 0 -> state m = QNX_STATE_PENDING ->
  p ∈ pending e -> (forall q mq, q ∈ pending e -> q ≠ p -> ks_heap s !! q = Some (OMsg mq) -> rcvid mq ≠ rcvid m) ->
  interruption b sleep = Some code ->
  wp (let! taken := qnx_process_entry_release_pending entry (rcvid m) in
      let! rc := handle_msgsend_finish chnl p cur sleep in
      kret (taken, rc)) (fun '(taken, rc) s' =>
    taken = Some p /\ rc = status m /\ handle_msgreply_complete cur' io p s' = Oops (BadAccess p)) s.
Proof.
  intros Hok Hfp He Hc Hr Hw Hp Hd Ht Hin Hbuf Hrb Hrl Hst Hpe Huniq Hsl.
  destruct (find_process_Some _ _ _ Hok Hfp) as (_ & e' & He' & _ & Hre & Heo). simplify_eq.
  assert (Hmsg : forall q, q ∈ pending e -> exists mq, ks_heap s !! q = Some (OMsg mq)) by (intros; by eapply entry_ok_msgs).
  assert (Hother : forall q, q ∈ pending e -> q ≠ p -> has_rcvid (ks_heap s) (rcvid m) q = false).
  { intros q Hq Hqp. destruct (Hmsg q Hq) as [mq Hmq]. unfold has_rcvid, msg_test. rewrite Hmq. apply Z.eqb_neq. eauto. }
  assert (Hfirst : List.find (has_rcvid (ks_heap s) (rcvid m)) (pending e) = Some p).
  { destruct (List.find _ _) as [q|] eqn:Hf.
    - apply find_elem in Hf as [Hq Ht']. f_equal. destruct (decide (q = p)) as [->|Hne]; [done|]. by rewrite Hother in Ht'.
    - apply find_None_Forall in Hf. rewrite Forall_forall in Hf. specialize (Hf p Hpe).
      unfold has_rcvid, msg_test in Hf. by rewrite Hp, Z.eqb_refl in Hf. }
  kstep. eapply wp_of_run; [by apply release_pending_run|]. rewrite Hfirst. cbn beta iota.
  set (e1 := set_pending _ e). set (s1 := upd_heap _ s). assert (entry ≠ p) by congruence.
  assert (Hok1 : entries_ok s1) by (eapply entries_ok_put; [done..|by apply entry_ok_pending_del]).
  assert (Hkeep : forall q o, ks_heap s !! q = Some o -> q ≠ entry -> ks_heap s1 !! q = Some o).
  { intros q o Hq Hqe. unfold s1. ks_simpl. by rewrite lookup_insert_ne. }
  assert (Hout : interrupted_outcome s1 chnl c m code = (status m, ks_heap s1)).
  { unfold interrupted_outcome. rewrite (proj2 (find_None_Forall _ (waiting c))).
    - unfold s1 at 1. rewrite (find_process_put s entry e e1), Hfp by done. unfold s1 at 1. ks_simpl.
      rewrite lookup_insert_eq. rewrite (proj2 (find_None_Forall _ (pending e1))); [done|].
      apply Forall_forall. intros q Hq. assert (Hqp : q ≠ p) by (intros ->; by eapply (not_elem_of_list_del p (pending e)), Hq; apply Heo).
      apply elem_of_list_del in Hq. rewrite <- (Hother q Hq Hqp). destruct (Hmsg q Hq) as [mq Hmq].
      unfold has_rcvid, msg_test. by rewrite Hmq, (Hkeep q _ Hmq) by congruence.
    - apply Forall_forall. intros q Hq. destruct (Hw q Hq) as (mq & Hmq & Hne). unfold has_rcvid, msg_test.
      rewrite (Hkeep q _ Hmq) by congruence. by apply Z.eqb_neq. }
  destruct (msgsend_interrupted_spec s1 chnl p cur sleep c m b buf bytes t code) as (c1 & Hc1 & _ & Hspec); try done;
    [apply Hkeep; congruence|apply Hkeep; congruence| |apply Hkeep; congruence|by right|].
  { intros q Hq. destruct (Hw q Hq) as (mq & Hmq & _). exists mq. apply Hkeep; congruence. }
  kstep. eapply wp_mono; [exact Hspec|]. rewrite Hout. cbn [fst snd]. intros rc s2 (-> & _ & Hh2). kstep.
  split_and!; [done|done|]. unfold handle_msgreply_complete. ohere. unfold get_msg. by rewrite Hh2, lookup_delete_eq.
Qed.

(** C18: MsgReply.  An id that is not in the caller's pending list is [-ESRCH]
    and changes nothing.  Otherwise exactly that message leaves the list; its
    sender is woken and finds the reply in a buffer of its own and the replier's
    status, or, when the reply could not be allocated or copied, no reply and
    the error that the replier gets as well. *)
Theorem msgreply_completes {M : Type} `{!UserMem M} `{!UserMemLaws M} (s : kstate M) (entry : ptr)
    (e : qnx_process_entry) (cur : task_struct) (io : qnx_io_reply) :
  ks_heap s !! entry = Some (OProc e) -> entry_ok (ks_heap s) e -> fresh_above s ->
  match List.find (has_rcvid (ks_heap s) (rp_rcvid io)) (pending e) with
  | None => handle_msgreply entry cur io s = Done (- ESRCH, s)
  | Some p =>
      exists m t, ks_heap s !! p = Some (OMsg m) /\ task m = Some t /\ rcvid m = rp_rcvid io /\
      forall b, data m = DMsg b ->
      wp (handle_msgreply entry cur io) (fun rc s' =>
        rc = fst (reply_outcome s cur b io) /\ tsk_pid t ∉ ks_sleeping s' /\ ks_user s' = ks_user s /\
        ks_heap s' !! entry = Some (OProc (set_pending (list_del p (pending e)) e)) /\
        exists r, finished (ks_heap s') p m (if rc <? 0 then rc else rp_status io) r (snd (reply_outcome s cur b io)) /\
          (forall x, r = Some x -> ks_heap s !! x = None) /\
          (forall q, q ≠ p -> q ≠ entry -> r ≠ Some q -> ks_heap s' !! q = ks_heap s !! q)) s
  end.
Proof.
  intros He Hok Hf. pose proof (release_pending_run entry e (rp_rcvid io) s He) as Hrun.
  specialize (Hrun (fun p => entry_ok_msgs _ _ p Hok)).
  destruct (List.find _ _) as [p|] eqn:Hfind; [|unfold handle_msgreply, kbind; by rewrite Hrun].
  destruct (pending_find _ _ _ _ Hok Hfind) as (m & t & Hp & Ht & Hid & _). exists m, t. split_and!; try done.
  intros b Hd. assert (entry ≠ p) by congruence. unfold handle_msgreply. kstep. eapply wp_eq; [exact Hrun|].
  set (s1 := upd_heap _ s). assert (Hnext : entry ≠ ks_next s) by (pose proof (fresh_lt _ _ _ Hf He); lia).
  eapply wp_mono; [eapply (reply_complete_spec _ _ _ m b t); [unfold s1; ks_simpl; by rewrite lookup_insert_ne|done..|]|].
  { unfold s1. ks_simpl. rewrite lookup_insert_ne by done. by apply fresh_next. }
  cbn beta. intros rc s' (-> & Hs & Hu & _ & r & Hfin & Hr & Hrest). change (reply_outcome s1 cur b io) with (reply_outcome s cur b io) in *.
  assert (Hre : r ≠ Some entry) by (intros Hx; specialize (Hr _ Hx); unfold s1 in Hr; ks_simpl; by rewrite lookup_insert_eq in Hr).
  split_and!; try done; [rewrite Hrest by done; unfold s1; ks_simpl; by rewrite lookup_insert_eq|].
  exists r. split_and!; [done| |].
  - intros x Hx. specialize (Hr x Hx). unfold s1 in Hr. ks_simpl. by rewrite lookup_insert_ne in Hr by congruence.
  - intros q Hq Hqe Hqr. rewrite Hrest by done. unfold s1. ks_simpl. by rewrite lookup_insert_ne.
Qed.

(** MsgError.  The sender is woken without a reply; its status is minus the
    absolute value of the given error, so a positive error number never looks
    like a successful call (but the error 0 does). *)
Theorem msgerror_completes {M : Type} `{!UserMem M} (s : kstate M) (entry : ptr)
    (e : qnx_process_entry) (cur : task_struct) (io : qnx_io_error_reply) :
  ks_heap s !! entry = Some (OProc e) -> entry_ok (ks_heap s) e ->
  match List.find (has_rcvid (ks_heap s) (er_rcvid io)) (pending e) with
  | None => handle_msgerror entry cur io s = Done (- ESRCH, s)
  | Some p =>
      exists m t, ks_heap s !! p = Some (OMsg m) /\ task m = Some t /\ rcvid m = er_rcvid io /\
      wp (handle_msgerror entry cur io) (fun rc s' => rc = 0 /\
        finished (ks_heap s') p m (- Z.abs (er_error io)) None None /\ tsk_pid t ∉ ks_sleeping s' /\
        ks_heap s' !! entry = Some (OProc (set_pending (list_del p (pending e)) e)) /\
        (forall q, q ≠ p -> q ≠ entry -> ks_heap s' !! q = ks_heap s !! q)) s
  end.
Proof.
  intros He Hok. pose proof (release_pending_run entry e (er_rcvid io) s He) as Hrun.
  specialize (Hrun (fun p => entry_ok_msgs _ _ p Hok)).
  destruct (List.find _ _) as [p|] eqn:Hfind; [|unfold handle_msgerror, kbind; by rewrite Hrun].
  destruct (pending_find _ _ _ _ Hok Hfind) as (m & t & Hp & Ht & Hid & _). exists m, t. split_and!; try done.
  assert (entry ≠ p) by congruence. unfold handle_msgerror. kstep. eapply wp_eq; [exact Hrun|].
  eapply wp_mono; [eapply (error_complete_spec _ _ _ m t); [ks_simpl; by rewrite lookup_insert_ne|done]|].
  cbn beta. intros rc s' (-> & Hfin & Hs & Hu & Hrest). ks_simpl. split_and!; [done|exact Hfin|done| |].
  - rewrite Hrest by done. apply lookup_insert_eq.
  - intros q Hq Hqe. rewrite Hrest by done. by rewrite lookup_insert_ne.
Qed.

(** C36: MsgRead never reads outside of the message.  An offset between 0 and
    the length of the message, end included, copies the bytes from there, as
    many as there are and as fit into the caller's buffer, and returns their
    number; any other offset, negative ones included, is [-EINVAL], an id that is
    not pending [-ESRCH]. *)
Theorem msgread_bounds {M : Type} `{!UserMem M} (s : kstate M) (entry : ptr) (e : qnx_process_entry)
    (cur : task_struct) (io : qnx_io_read) :
  ks_heap s !! entry = Some (OProc e) -> entry_ok (ks_heap s) e -> is_int (rd_offset io) -> 0 <= iov_len (rd_out io) ->
  match List.find (has_rcvid (ks_heap s) (rd_rcvid io)) (pending e) with
  | None => handle_msgread entry cur io s = Done (- ESRCH, s)
  | Some p => forall m b buf bytes,
      ks_heap s !! p = Some (OMsg m) -> data m = DMsg b -> mb_in_base b = InKernel buf ->
      ks_heap s !! buf = Some (OBuf bytes) -> Z.of_nat (length bytes) = mb_in_len b -> mb_in_len b <= INT_MAX ->
      let n := Z.min (mb_in_len b - rd_offset io) (iov_len (rd_out io)) in
      handle_msgread entry cur io s =
        if bool_decide (0 <= rd_offset io <= mb_in_len b)
        then let '(u, ok) := copy_to_user (ks_user s) (tsk_tgid cur) (iov_base (rd_out io))
                               (take (Z.to_nat n) (drop (Z.to_nat (rd_offset io)) bytes)) in
             Done (if ok then n else - EFAULT, upd_user u s)
        else Done (- EINVAL, s)
  end.
Proof.
  intros He Hok Hoff Hout. pose proof (find_rcvid_run (pending e) (rd_rcvid io) s (fun p => entry_ok_msgs _ _ p Hok)) as Hrun.
  destruct (List.find _ _) as [p|] eqn:Hfind.
  - intros m b buf bytes Hp Hd Hin Hbuf Hlen Hmax n. unfold handle_msgread, kbind, get_proc. rewrite He, Hrun.
    unfold get_msg. rewrite Hp. unfold body_of. rewrite Hd. unfold kret at 1.
    assert (HM : INT_MAX = 2 ^ 31 - 1) by done. unfold is_int, INT_MIN in Hoff.
    destruct (Z.leb_spec 0 (rd_offset io)) as [H0|H0].
    + assert (rd_offset io >=? 0 = true) as -> by lia. rewrite u64_id by lia. cbn [andb].
      destruct (Z.leb_spec (rd_offset io) (mb_in_len b)) as [H1|H1].
      * rewrite bool_decide_eq_true_2 by done. rewrite u64_id by lia. fold n. rewrite i32_id by (unfold is_int, INT_MIN; lia).
        assert (n <? 0 = false) as -> by lia. unfold in_bytes. rewrite Hin. unfold get_buf. rewrite Hbuf.
        unfold slice. rewrite bool_decide_eq_true_2 by lia. unfold kret at 1, user_write.
        by destruct (copy_to_user _ _ _ _) as [u []].
      * rewrite bool_decide_eq_false_2 by lia. done.
    + assert (rd_offset io >=? 0 = false) as -> by lia. rewrite bool_decide_eq_false_2 by lia. done.
  - unfold handle_msgread, kbind, get_proc. by rewrite He, Hrun.
Qed.

(** A no-reply message that is below the limits is queued at the end of the
    channel as an object of its own that carries a copy of the bytes; the call
    returns 0 at once and keeps no reference to the channel. *)
Theorem noreply_queues {M : Type} `{!UserMem M} (s : kstate M) (entry chnl : ptr) (e : qnx_process_entry)
    (cur : task_struct) (addr : Z) (io : qnx_io_msgsend) (bytes : list Z) (oom' : list bool)
    (conn : qnx_connection) (c : qnx_channel) (signals : list bool) :
  let max := qnx_max_noreply_msg_num (ks_params s) in
  let id := ks_next_rcvid s + 1 in
  fresh_above s -> entries_ok s -> ks_heap s !! entry = Some (OProc e) -> table_ok (pe_connections e) ->
  send_request s cur addr = inr (io, bytes, oom') -> send_target s e (ms_coid io) = Some (conn, chnl) ->
  ks_heap s !! chnl = Some (OChan c) -> 0 < ch_refcnt c -> 0 < id <= INT_MAX ->
  0 <= num_waiting_noreply c < max -> max <= INT_MAX -> 0 <= num_waiting c < INT_MAX ->
  wp (handle_msgsend_no_reply entry cur addr signals) (fun rc s' => rc = 0 /\
    ks_heap s' =
      <[chnl := OChan (Channel (ch_refcnt c) (ch_chid c) (waiting c ++ [ks_next s]) (num_waiting c + 1) (num_waiting_noreply c + 1))]>
        (<[ks_next s := OMsg (set_receiver_chid (ch_chid c) (set_receiver_pid (pid conn) (new_noreply id (pe_pid e) io bytes)))]>
          (ks_heap s))) s.
Proof.
  intros max id Hf Hok He Ht Hreq Htgt Hc Hr Hid Hroom Hmax Hnw. pose proof (fresh_next s Hf) as Hp.
  assert (chnl ≠ ks_next s) by congruence. assert (Hi : i32 (ks_next_rcvid s + 1) = id) by (apply i32_id; unfold_int; lia).
  eapply noreply_spec; try done. rewrite Hi. intros s1 Hpar Hh. eapply wp_mono; [eapply busy_loop_accepted|].
  - by rewrite Hh, lookup_insert_eq.
  - by rewrite Hh, lookup_insert_ne, lookup_insert_eq.
  - unfold is_noreply. cbn. by assert (id =? 0 = false) as -> by lia.
  - by rewrite Hpar.
  - by rewrite Hpar.
  - done.
  - cbn beta. intros rc s2 (-> & _ & _ & Hh2). eexists. split; [by rewrite Hh2, lookup_insert_eq|]. split; [cbn; lia|].
    split; [done|]. ks_simpl. rewrite Hh2, Hh. cbn. replace (ch_refcnt c + 1 - 1) with (ch_refcnt c) by lia. clear -H. heap_eq.
Qed.

(** C35: a no-reply message that meets a full channel is tried again until a
    signal comes.  Then the message is freed and not in the queue, but the call
    returns 0 as if it had been sent; and each of the [k + 1] attempts has left
    the channel's [num_waiting] one higher. *)
Theorem noreply_interrupted_lost {M : Type} `{!UserMem M} (s : kstate M) (entry chnl : ptr) (e : qnx_process_entry)
    (cur : task_struct) (addr : Z) (io : qnx_io_msgsend) (bytes : list Z) (oom' : list bool)
    (conn : qnx_connection) (c : qnx_channel) (k : nat) (signals : list bool) :
  let max := qnx_max_noreply_msg_num (ks_params s) in
  fresh_above s -> entries_ok s -> ks_heap s !! entry = Some (OProc e) -> table_ok (pe_connections e) ->
  send_request s cur addr = inr (io, bytes, oom') -> send_target s e (ms_coid io) = Some (conn, chnl) ->
  ks_heap s !! chnl = Some (OChan c) -> 0 < ch_refcnt c -> 0 <= ks_next_rcvid s < INT_MAX ->
  num_waiting_noreply c = max -> 0 <= max <= INT_MAX -> 0 <= num_waiting c -> num_waiting c + Z.of_nat k < INT_MAX ->
  wp (handle_msgsend_no_reply entry cur addr (replicate k false ++ true :: signals)) (fun rc s' => rc = 0 /\
    ks_heap s' = <[chnl := OChan (set_num_waiting (num_waiting c + Z.of_nat k + 1) c)]> (ks_heap s)) s.
Proof.
  intros max Hf Hok He Ht Hreq Htgt Hc Hr Hid Hfull Hmax Hnw Hnk. pose proof (fresh_next s Hf) as Hp.
  assert (chnl ≠ ks_next s) by congruence.
  assert (Hi : i32 (ks_next_rcvid s + 1) = ks_next_rcvid s + 1) by (apply i32_id; unfold_int; lia).
  eapply noreply_spec; try done. rewrite Hi. intros s1 Hpar Hh. eapply wp_mono; [eapply busy_loop_refused|].
  - by rewrite Hh, lookup_insert_eq.
  - by rewrite Hh, lookup_insert_ne, lookup_insert_eq.
  - unfold is_noreply. cbn. by assert (ks_next_rcvid s + 1 =? 0 = false) as -> by lia.
  - by rewrite Hpar.
  - by rewrite Hpar.
  - done.
  - done.
  - cbn beta. intros rc s2 (-> & _ & _ & Hh2). eexists.
    split; [rewrite Hh2, lookup_delete_ne by done; by rewrite lookup_insert_eq|]. split; [cbn; lia|].
    split; [done|]. ks_simpl. rewrite Hh2, Hh. cbn [num_waiting set_ch_refcnt ch_refcnt set_num_waiting].
    replace (ch_refcnt c + 1 - 1) with (ch_refcnt c) by lia. clear -H Hp. heap_eq.
Qed.

(** What [qnxcomm_ioctl] does before and around the commands: a null
    argument is [-EINVAL], a descriptor without a process entry [-ENOTTY], one
    that was inherited from a parent process [-ENOSPC], an unknown command
    [-EINVAL], all without any effect; every known command is carried out by its
    own handler, on the entry of the descriptor. *)
Theorem ioctl_dispatch {M : Type} `{!UserMem M} (s : kstate M) (f entry : ptr) (fl : file) (e : qnx_process_entry)
    (cur : task_struct) (arg wait : Z) (signals : list bool) :
  ks_heap s !! f = Some (OFile fl) -> ks_heap s !! entry = Some (OProc e) ->
  let ioctl cmd arg := qnxcomm_ioctl f cur cmd arg wait signals s in
  let ret (c : K M Z) := (let! rc := c in kret (IoctlReturned rc)) s in
  let with_struct {A} (c : codec A) (h : A -> K M Z) :=
    ret (let! io := user_read_struct c (tsk_tgid cur) arg in match io with Some io => h io | None => kret (- EFAULT) end) in
  (forall cmd, ioctl cmd 0 = Done (IoctlReturned (- EINVAL), s)) /\
  (arg ≠ 0 -> private_data fl = None -> forall cmd, ioctl cmd arg = Done (IoctlReturned (- ENOTTY), s)) /\
  (arg ≠ 0 -> private_data fl = Some entry -> pe_pid e ≠ tsk_tgid cur ->
     forall cmd, ioctl cmd arg = Done (IoctlReturned (- ENOSPC), s)) /\
  (arg ≠ 0 -> private_data fl = Some entry -> pe_pid e = tsk_tgid cur ->
     (forall cmd, cmd ∉ qnx_ioctls -> ioctl cmd arg = Done (IoctlReturned (- EINVAL), s)) /\
     ioctl QNX_IO_CHANNELCREATE arg = ret (qnx_process_entry_add_channel entry) /\
     ioctl QNX_IO_CHANNELDESTROY arg = ret (qnx_process_entry_remove_channel entry (i32 arg)) /\
     ioctl QNX_IO_CONNECTDETACH arg = ret (qnx_process_entry_remove_connection entry (i32 arg)) /\
     ioctl QNX_IO_CONNECTATTACH arg = with_struct c_io_attach (qnx_process_entry_add_connection entry) /\
     ioctl QNX_IO_MSGSEND arg =
       (let! r := handle_msgsend_begin entry cur arg in
        kret (match r with Returned rc => IoctlReturned rc | Blocked chnl p => IoctlBlocked chnl p end)) s /\
     ioctl QNX_IO_MSGSENDV arg =
       (let! (r, fr) := handle_msgsendv_begin entry cur arg in
        kret (match r with Returned rc => IoctlReturned rc | Blocked chnl p => IoctlBlockedv chnl p fr end)) s /\
     ioctl QNX_IO_MSGSENDNOREPLY arg = ret (handle_msgsend_no_reply entry cur arg signals) /\
     ioctl QNX_IO_MSGSENDNOREPLYV arg = ret (handle_msgsend_noreplyv entry cur arg signals) /\
     ioctl QNX_IO_MSGSENDPULSE arg = ret (handle_msgsendpulse entry cur arg) /\
     ioctl QNX_IO_MSGRECEIVE arg = ret (handle_msgreceive entry cur arg wait) /\
     ioctl QNX_IO_MSGREPLY arg = with_struct c_io_reply (handle_msgreply entry cur) /\
     ioctl QNX_IO_MSGERROR arg = with_struct c_io_error_reply (handle_msgerror entry cur) /\
     ioctl QNX_IO_MSGREAD arg = with_struct c_io_read (handle_msgread entry cur) /\
     ioctl QNX_IO_REGISTER_POLLFD arg = ret (qnx_process_entry_add_pollfd entry f (i32 arg))).
Proof.
  intros Hf He ioctl ret with_struct. split; [done|].
  assert (Hfile : forall A (k : file -> K M A), kbind (get_file f) k s = k fl s) by (intros; unfold kbind, get_file; by rewrite Hf).
  assert (Hproc : forall A (k : qnx_process_entry -> K M A), kbind (get_proc entry) k s = k e s)
    by (intros; unfold kbind, get_proc; by rewrite He).
  unfold ioctl, qnxcomm_ioctl. split_and!; intros Ha Hn; apply Z.eqb_neq in Ha; rewrite Ha.
  - intros cmd. rewrite Hfile. cbn beta. by rewrite Hn.
  - intros Hpid cmd. rewrite Hfile. cbn beta. rewrite Hn, Hproc. cbn beta. unfold current_get_pid_nr.
    by destruct (Z.eqb_spec (tsk_tgid cur) (pe_pid e)).
  - intros Hpid. split.
    + intros cmd Hcmd. rewrite Hfile. cbn beta. rewrite Hn, Hproc. cbn beta. unfold current_get_pid_nr.
      rewrite Hpid, Z.eqb_refl. cbn [negb]. unfold qnx_ioctls in Hcmd. rewrite !not_elem_of_cons in Hcmd. destruct_and! Hcmd.
      repeat match goal with H : cmd ≠ ?k |- _ => rewrite (proj2 (Z.eqb_neq cmd k) H); clear H end. done.
    + rewrite !Hfile. cbn beta. rewrite Hn, !Hproc. cbn beta. unfold current_get_pid_nr. rewrite Hpid, Z.eqb_refl.
      cbn [negb]. split_and!; try reflexivity.
      * transitivity ((let! r := handle_msgsend_begin entry cur arg in
          match r with Returned rc => kret (IoctlReturned rc) | Blocked chnl p => kret (IoctlBlocked chnl p) end) s); [done|].
        unfold kbind. by destruct (handle_msgsend_begin entry cur arg s) as [[[|] ?]| |].
      * transitivity ((let! (r, fr) := handle_msgsendv_begin entry cur arg in
          match r with Returned rc => kret (IoctlReturned rc) | Blocked chnl p => kret (IoctlBlockedv chnl p fr) end) s); [done|].
        unfold kbind. by destruct (handle_msgsendv_begin entry cur arg s) as [[[[|] ?] ?]| |].
Qed.

(** Opening the device for communication.  A process that has it open
    already gets [-ENOSPC]; else it gets an entry of its own, with one reference,
    no channels and a well-formed connection table, and is found by its process
    id from then on; the other processes' entries are as before. *)
Theorem open_exclusive {M : Type} (s : kstate M) (f : ptr) (fl : file) (cur : task_struct) (oom' : list bool) :
  entries_ok s -> fresh_above s -> ks_heap s !! f = Some (OFile fl) -> Z.land (f_mode fl) O_RDWR ≠ 0 ->
  kmalloc_answer (ks_oom s) = (true, oom') ->
  let p := ks_next s in
  match find_process s (tsk_tgid cur) with
  | Some _ => qnxcomm_open f cur s = Done (- ENOSPC, s)
  | None =>
      wp (qnxcomm_open f cur) (fun rc s' => rc = 0 /\ entries_ok s' /\
        ks_entries s' = p :: ks_entries s /\ find_process s' (tsk_tgid cur) = Some p /\
        (forall pid, pid ≠ tsk_tgid cur -> find_process s' pid = find_process s pid) /\
        exists table, table_ok table /\
          ks_heap s' = <[f := OFile (set_private_data (Some p) fl)]>
                         (<[p := OProc (ProcessEntry 1 (tsk_tgid cur) [] table [] [])]> (ks_heap s))) s
  end.
Proof.
  intros Hok Hf Hfl Hmode Hk p. destruct (find_process s (tsk_tgid cur)) as [q|] eqn:Hfp; [|by eapply open_spec].
  assert (Hm : Z.land (f_mode fl) O_RDWR =? 0 = false) by (by apply Z.eqb_neq).
  unfold qnxcomm_open, qnx_driver_data_is_process_available, current_get_pid_nr, kbind, get_file, kget.
  rewrite Hfl, Hm. cbn [negb]. rewrite find_pid_run by (intros; by eapply entries_procs).
  unfold find_process in Hfp. by rewrite Hfp.
Qed.


(** Poll on a descriptor that was registered for a channel: readable exactly
    when the channel's [num_waiting] is positive, and hung up when the channel
    does not exist (any more).  Each call on an existing channel takes a
    reference to it that is never given back. *)
Theorem poll_takes_reference {M : Type} (s : kstate M) (f entry : ptr) (fl : file) (e : qnx_process_entry) :
  ks_heap s !! f = Some (OFile fl) -> private_data fl = Some entry -> ks_heap s !! entry = Some (OProc e) ->
  entry_ok (ks_heap s) e ->
  match List.find (polls_file (ks_heap s) f) (pollfds e) with
  | None => qnxcomm_poll f s = Done (POLLHUP, s)
  | Some q => exists pf, ks_heap s !! q = Some (OPollfd pf) /\ pf_file pf = f /\
      match entry_channel (ks_heap s) e (pf_chid pf) with
      | None => qnxcomm_poll f s = Done (POLLHUP, s)
      | Some chnl => exists c, ks_heap s !! chnl = Some (OChan c) /\
          qnxcomm_poll f s = Done (if num_waiting c >? 0 then Z.lor POLLIN POLLRDNORM else 0,
                                   upd_heap <[chnl := OChan (set_ch_refcnt (ch_refcnt c + 1) c)]> s)
      end
  end.
Proof.
  intros Hfl Hpd He Hok.
  pose proof (find_pollfd_run (pollfds e) f s (fun p Hp => eo_pollfds _ _ Hok p Hp)) as Hrun.
  unfold qnxcomm_poll, qnx_process_entry_find_channel_from_file, kbind, get_file, get_proc. rewrite Hfl, Hpd, He, Hrun.
  destruct (List.find _ _) as [q|] eqn:Hq; [|done]. apply find_elem in Hq as [Hin Ht].
  destruct (eo_pollfds _ _ Hok q Hin) as [pf Hpf]. exists pf. split; [done|].
  unfold polls_file in Ht. rewrite Hpf in Ht. apply bool_decide_eq_true in Ht. split; [done|].
  unfold get_pollfd. rewrite Hpf. rewrite (find_channel_run entry e) by done.
  destruct (entry_channel _ _ _) as [chnl|] eqn:Hc; [|done].
  destruct (entry_channel_Some _ _ _ _ Hc) as (_ & c & Hcc & _). exists c. split; [done|]. rewrite Hcc.
  unfold get_chan. ks_simpl. by rewrite lookup_insert_eq.
Qed.
