(* ===== verification/Rendezvous.v ===== *)
(** * A whole message exchange

    The handlers of the sender and of the receiver, composed in the order of a
    rendezvous: the sender blocks, the receiver takes the message, works on it,
    replies, and the sender returns. *)

From Stdlib Require Import ZArith Lia.
From stdpp Require Import base tactics list option gmap fin_maps sets.
From S2P Require Import Prelude Layout UserMem ConnectionTable Kernel Msgsend Channel ProcessEntry DriverData Driver.

Open Scope Z_scope.

Section Rendezvous.
  Context {M : Type} `{!UserMem M}.

(** MsgSend of the thread [tS], MsgReceive and MsgReply of the thread [tR];
    [serve] is what the receiving process does to its memory in between *)
Definition rendezvous (entryS entryR : ptr) (tS tR : task_struct) (addrS addrR wait : Z) (serve : M -> M)
    (io : qnx_io_reply) (sleep : sleep_result) : K M (option (Z * Z * Z)) :=
  let! r := handle_msgsend_begin entryS tS addrS in
  match r with
  | Returned _ => kret None
  | Blocked chnl p =>
      let! rc1 := handle_msgreceive entryR tR addrR wait in
      kmod (fun s => upd_user (serve (ks_user s)) s) ;;;
      let! rc2 := handle_msgreply entryR tR io in
      let! rc3 := handle_msgsend_finish chnl p tS sleep in
      kret (Some (rc1, rc2, rc3))
  end.

(** the kernel's copy of the sender's structure *)
Definition sent_body (s : kstate M) (ms : qnx_io_msgsend) : msg_body :=
  with_in_base (InKernel (Pos.succ (ks_next s))) (body_from_user ms).

(** the sender's message in the queue *)
Definition sent_message (s : kstate M) (e : qnx_process_entry) (tS : task_struct) (ms : qnx_io_msgsend)
    (conn : qnx_connection) (c : qnx_channel) : qnx_internal_msgsend :=
  set_receiver_chid (ch_chid c) (set_receiver_pid (pid conn)
    (new_message (i32 (ks_next_rcvid s + 1)) (pe_pid e) tS ms (Pos.succ (ks_next s)))).

End Rendezvous.

(** ** Lemmas *)

Section RendezvousLemmas.
  Context {M : Type} `{!UserMem M} `{!UserMemLaws M}.
  Implicit Types (s : kstate M).

(** the state with the sender blocked is one in which the receiver can receive;
    [h] is the heap with what else the sender has allocated *)
Lemma blocked_receives s s1 h entryR eR tR addrR bs chnl c p buf m bytes :
  ks_heap s ⊆ h -> h !! p = None -> h !! buf = None -> p ≠ buf ->
  ks_heap s !! entryR = Some (OProc eR) -> entry_ok (ks_heap s) eR ->
  copy_from_user (ks_user s) (tsk_tgid tR) addrR (Z.of_nat (c_size c_io_receive)) = Some bs ->
  entry_channel (ks_heap s) eR (rv_chid (c_dec c_io_receive bs)) = Some chnl ->
  ks_heap s !! chnl = Some (OChan c) -> 0 < ch_refcnt c -> waiting c = [] ->
  ks_heap s1 = <[chnl := OChan (with_message p c)]> (<[p := OMsg m]> (<[buf := OBuf bytes]> h)) ->
  ks_user s1 = ks_user s ->
  receives s1 entryR eR tR addrR (c_dec c_io_receive bs) chnl (with_message p c) p [] m /\
  ks_heap s1 !! buf = Some (OBuf bytes).
Proof.
  intros Hsh Hp Hbuf Hpb HeR HokR Hbs Hch Hc Hr Hw Hh Hu.
  pose proof (lookup_weaken _ _ _ _ Hc Hsh) as Hch'. assert (chnl ≠ p) by congruence.
  assert (chnl ≠ buf) by congruence. assert (entryR ≠ chnl) by congruence.
  assert (Hsub : forall q o, ks_heap s !! q = Some o -> q ≠ chnl -> ks_heap s1 !! q = Some o).
  { intros q o Hq Hqc. pose proof (lookup_weaken _ _ _ _ Hq Hsh). rewrite Hh, !lookup_insert_ne by congruence. done. }
  assert (Hc1 : ks_heap s1 !! chnl = Some (OChan (with_message p c))) by (by rewrite Hh, lookup_insert_eq).
  split; [split|rewrite Hh; heap_lookup].
  - exists bs. by rewrite Hu.
  - by apply Hsub.
  - eapply entry_ok_keeps; [|done]. eapply heap_keeps_chan; [exact Hc| |exact Hc1|exact Hsub]. cbn. lia.
  - rewrite <- Hch. apply find_ext. intros q Hq. destruct (eo_channels _ _ HokR q Hq) as (cq & Hcq & _).
    unfold has_chid. rewrite Hcq. destruct (decide (q = chnl)) as [->|Hne]; [|by rewrite (Hsub _ _ Hcq Hne)].
    simplify_eq. by rewrite Hc1.
  - done.
  - cbn. by rewrite Hw.
  - rewrite Hh. heap_lookup.
Qed.

Lemma wp_regroup {A B C} (f : K M A) (g : K M B) (r : A -> B -> C) (Q : C -> kstate M -> Prop) s :
  wp (let! a := f in let! b := g in kret (a, b)) (fun '(a, b) s' => Q (r a b) s') s ->
  wp (let! a := f in let! b := g in kret (r a b)) Q s.
Proof. unfold wp, kbind, kret. destruct (f s) as [[a s1]| |]; [|done..]. by destruct (g s1) as [[b s2]| |]. Qed.

(** MsgReply to the newest pending message, when the reply is copied: the message
    is finished, with the reply in a new buffer [x], and not pending any more *)
Lemma reply_pending_spec s entryR eR p m b reply tS tR io oom2 :
  ks_heap s !! p = Some (OMsg m) -> ks_heap s !! entryR = Some (OProc (set_pending (p :: pending eR) eR)) ->
  (forall q, q ∈ pending eR -> q ≠ p /\ exists mq, ks_heap s !! q = Some (OMsg mq)) -> ks_heap s !! ks_next s = None ->
  data m = DMsg b -> task m = Some tS -> rcvid m = rp_rcvid io -> out_is_null (mb_out_base b) = false ->
  0 < mb_out_len b -> 0 < iov_len (rp_in io) -> kmalloc_answer (ks_oom s) = (true, oom2) ->
  copy_from_user (ks_user s) (tsk_tgid tR) (iov_base (rp_in io)) (iov_len (rp_in io)) = Some reply ->
  wp (handle_msgreply entryR tR io) (fun rc s' =>
    rc = 0 /\ tsk_pid tS ∉ ks_sleeping s' /\ ks_user s' = ks_user s /\ ks_entries s' = ks_entries s /\
    exists x m', ks_heap s !! x = None /\
      data m' = data m /\ task m' = task m /\ status m' = rp_status io /\
      reply_base m' = Some x /\ reply_len m' = iov_len (rp_in io) /\
      ks_heap s' = <[p := OMsg m']> (<[x := OBuf reply]> (<[entryR := OProc eR]> (ks_heap s)))) s.
Proof.
  intros Hp1 He1 Hmsgs Hfresh Hd Ht Hid Hout Hol Hrl Hk Hrep. assert (p ≠ entryR) by congruence.
  unfold handle_msgreply. kstep. eapply wp_of_run; [apply (release_pending_run _ _ _ _ He1)|].
  { cbn. intros q [->|Hq]%elem_of_cons; [eauto|by apply Hmsgs]. }
  cbn [pending set_pending List.find]. unfold has_rcvid at 1, msg_test. rewrite Hp1, Hid, Z.eqb_refl. cbn beta iota.
  cbn [list_del]. rewrite decide_True by done. set (s2 := upd_heap _ s).
  assert (He2 : forall q, ks_heap s2 !! q = <[entryR := OProc eR]> (ks_heap s) !! q).
  { intros q. unfold s2. ks_simpl. by destruct eR. }
  assert (Hnp : ks_next s ≠ entryR) by congruence.
  eapply wp_mono; [eapply (reply_complete_spec _ _ _ m b tS); [rewrite He2; by rewrite lookup_insert_ne|done|done|]|].
  { rewrite He2. by rewrite lookup_insert_ne. }
  cbn beta. unfold reply_outcome. rewrite Hout.
  assert (mb_out_len b >? 0 = true) as -> by lia.
  assert (iov_len (rp_in io) >? 0 = true) as -> by lia. cbn [negb andb]. change (ks_oom s2) with (ks_oom s).
  change (ks_user s2) with (ks_user s). rewrite Hk, Hrep. cbn [fst snd].
  intros rc2 s3 (-> & Hsl3 & Hu3 & Hes3 & r & (m' & Hm' & _ & Hst' & _ & Hd' & Ht' & Hrb & _ & x & -> & Hx & Hxl) & Hxn & Hrest).
  specialize (Hxn x eq_refl). change (0 <? 0) with false in Hst'. cbn iota in Hst'.
  pose proof (copy_from_user_length _ _ _ _ _ Hrep) as [Hreplen _]. rewrite He2 in Hxn.
  assert (Hxe : x ≠ entryR) by (intros ->; by rewrite lookup_insert_eq in Hxn). rewrite lookup_insert_ne in Hxn by done.
  assert (Hxp : x ≠ p) by congruence. split_and!; try done. exists x, m'. split_and!; try done; [by rewrite Hxl|].
  apply map_eq. intros q. destruct (decide (q = p)) as [->|Hqp]; [by rewrite lookup_insert_eq|].
  rewrite lookup_insert_ne by done. destruct (decide (q = x)) as [->|Hqx]; [by rewrite lookup_insert_eq|].
  rewrite lookup_insert_ne by done. by rewrite Hrest, He2 by congruence.
Qed.

(** from the pending message to the return of the sender: the heap is [h] again *)
Lemma reply_return_spec s h entryR eR chnl c p m b buf a bytes reply tS tR io sleep oom2 u3 :
  ks_heap s = <[p := OMsg m]> (<[entryR := OProc (set_pending (p :: pending eR) eR)]>
                (<[chnl := OChan (set_ch_refcnt (ch_refcnt c + 1) c)]> (<[buf := OBuf bytes]> h))) ->
  h !! p = None -> h !! buf = None -> p ≠ buf -> h !! entryR = Some (OProc eR) -> entry_ok h eR ->
  h !! chnl = Some (OChan c) -> 0 < ch_refcnt c -> ks_heap s !! ks_next s = None ->
  data m = DMsg b -> task m = Some tS -> mb_in_base b = InKernel buf -> mb_out_base b = OutUser a ->
  rcvid m = rp_rcvid io -> a ≠ 0 -> 0 < mb_out_len b -> 0 < iov_len (rp_in io) ->
  kmalloc_answer (ks_oom s) = (true, oom2) ->
  copy_from_user (ks_user s) (tsk_tgid tR) (iov_base (rp_in io)) (iov_len (rp_in io)) = Some reply ->
  0 <= rp_status io -> interruption b sleep = None ->
  copy_to_user (ks_user s) (tsk_tgid tS) a (take (Z.to_nat (Z.min (mb_out_len b) (iov_len (rp_in io)))) reply) = (u3, true) ->
  wp (let! rc2 := handle_msgreply entryR tR io in
      let! rc3 := handle_msgsend_finish chnl p tS sleep in kret (rc2, rc3)) (fun '(rc2, rc3) s' =>
    rc2 = 0 /\ rc3 = rp_status io /\ ks_user s' = u3 /\ tsk_pid tS ∉ ks_sleeping s' /\
    ks_entries s' = ks_entries s /\ ks_heap s' = h) s.
Proof.
  intros Hh Hp Hbuf Hpb He Hok Hc Hr Hfresh Hd Ht Hin Hout Hid Ha Hol Hrl Hk Hrep Hst Hsl Hw.
  assert (p ≠ entryR) by congruence. assert (p ≠ chnl) by congruence. assert (entryR ≠ chnl) by congruence.
  assert (entryR ≠ buf) by congruence. assert (chnl ≠ buf) by congruence.
  assert (Hp1 : ks_heap s !! p = Some (OMsg m)) by (by rewrite Hh, lookup_insert_eq).
  kstep. eapply wp_mono; [eapply (reply_pending_spec _ _ _ p m b); try done|].
  { rewrite Hh. heap_lookup. }
  { intros q Hq. destruct (entry_ok_msgs _ _ q Hok Hq) as [mq Hmq]. split; [congruence|]. exists mq.
    rewrite Hh, !lookup_insert_ne by congruence. done. }
  { rewrite Hout. cbn. by assert (a =? 0 = false) as -> by lia. }
  cbn beta. intros rc2 s3 (-> & Hsl3 & Hu3 & Hes3 & x & m' & Hxs & Hd' & Ht' & Hst' & Hrb & Hrl' & Hh3).
  assert (Hxne : forall q, is_Some (ks_heap s !! q) -> x ≠ q) by (intros q [o Ho] ->; congruence).
  assert (Hxp : x ≠ p) by (apply Hxne; eauto).
  assert (Hxc : x ≠ chnl) by (apply Hxne; rewrite Hh; eexists; heap_lookup).
  assert (Hxb : x ≠ buf) by (apply Hxne; rewrite Hh; eexists; heap_lookup).
  assert (Hxe : x ≠ entryR) by (apply Hxne; rewrite Hh; eexists; heap_lookup).
  pose proof (copy_from_user_length _ _ _ _ _ Hrep) as [Hreplen _].
  assert (Hrof : reply_of (ks_heap s3) m' = reply).
  { unfold reply_of. rewrite Hrb, Hh3, lookup_insert_ne, lookup_insert_eq by done. done. }
  assert (Hsub : forall q o, q ≠ p -> q ≠ x -> q ≠ entryR -> ks_heap s !! q = Some o -> ks_heap s3 !! q = Some o).
  { intros q o ????. by rewrite Hh3, !lookup_insert_ne by done. }
  kstep. eapply wp_mono; [eapply (msgsend_finish_spec _ _ _ _ _ (set_ch_refcnt (ch_refcnt c + 1) c) m' b buf _ a tS)|].
  all: try congruence; try lia.
  { apply Hsub; [done..|]. rewrite Hh. heap_lookup. }
  { cbn. lia. }
  { rewrite Hh3. apply lookup_insert_eq. }
  { apply Hsub; [done..|]. rewrite Hh. heap_lookup. }
  { unfold reply_ok. rewrite Hrb, Hh3, lookup_insert_ne, lookup_insert_eq by done. rewrite Hrl'. eauto. }
  { intros r Hr'. rewrite Hrb in Hr'. injection Hr' as <-. rewrite !not_elem_of_cons. split_and!; try done. apply not_elem_of_nil. }
  cbn beta. intros rc3 s4 (Hres & Hh4 & Hes4 & Hsl4). kstep. unfold send_result in Hres.
  rewrite Hout, Hst', Hrof, Hrl', Hu3, Hw in Hres.
  assert (rp_status io >=? 0 = true) as Hs0 by lia. assert (iov_len (rp_in io) >? 0 = true) as Hl0 by lia.
  rewrite Hs0, Hl0 in Hres. cbn [andb] in Hres. injection Hres as -> ->.
  split_and!; try done; [by rewrite Hsl4|by rewrite Hes4, Hes3|].
  rewrite Hh4, Hh3, Hh. unfold without_reply. rewrite Hrb.
  assert (Hx0 : h !! x = None) by (rewrite Hh, !lookup_insert_ne in Hxs by done; done).
  assert (Hback : OChan (set_ch_refcnt (ch_refcnt (set_ch_refcnt (ch_refcnt c + 1) c) - 1) (set_ch_refcnt (ch_refcnt c + 1) c)) = OChan c).
  { f_equal. destruct c. unfold set_ch_refcnt. cbn. f_equal. lia. }
  rewrite Hback. clear - Hp Hbuf He Hc Hx0. heap_eq.
Qed.

End RendezvousLemmas.

(** ** Properties *)

(** C2: a whole rendezvous.  A thread sends on a connection to an idle channel of
    a process that receives and replies.  When the copies to and from user memory
    work, MsgReceive returns the message's id and the receiver reads exactly the
    bytes that were sent, up to its buffer; MsgReply returns 0; MsgSend returns
    the status of the reply and the sender reads exactly the bytes of the reply,
    up to its buffer; the sender is awake; and every object of the kernel is as it
    was before: nothing leaks and no reference is lost. *)
Theorem rendezvous_delivers {M : Type} `{!UserMem M} `{!UserMemLaws M} (s : kstate M)
    (entryS entryR chnl : ptr) (eS eR : qnx_process_entry) (tS tR : task_struct) (addrS addrR wait : Z)
    (serve : M -> M) (io : qnx_io_reply) (sleep : sleep_result) (ms : qnx_io_msgsend) (bytes bs reply : list Z)
    (oom1 oom2 : list bool) (conn : qnx_connection) (c : qnx_channel) (u1 u3 : M) :
  fresh_above s -> entries_ok s ->
  ks_heap s !! entryS = Some (OProc eS) -> table_ok (pe_connections eS) ->
  ks_heap s !! entryR = Some (OProc eR) -> entry_ok (ks_heap s) eR ->
  (* the send *)
  send_request s tS addrS = inr (ms, bytes, oom1) -> send_target s eS (ms_coid ms) = Some (conn, chnl) ->
  ks_heap s !! chnl = Some (OChan c) -> waiting c = [] -> 0 <= num_waiting c < INT_MAX ->
  let id := i32 (ks_next_rcvid s + 1) in
  0 < id ->
  (* the receive *)
  copy_from_user (ks_user s) (tsk_tgid tR) addrR (Z.of_nat (c_size c_io_receive)) = Some bs ->
  let recv := c_dec c_io_receive bs in
  entry_channel (ks_heap s) eR (rv_chid recv) = Some chnl -> 0 <= wait ->
  receive_copies s tR addrR recv c (sent_message s eS tS ms conn c) (sent_body s ms) bytes 0 = (u1, true) ->
  (* the reply *)
  rp_rcvid io = id -> 0 <= rp_status io -> 0 < iov_len (rp_in io) ->
  iov_base (ms_out ms) ≠ 0 -> 0 < iov_len (ms_out ms) -> kmalloc_answer oom1 = (true, oom2) ->
  copy_from_user (serve u1) (tsk_tgid tR) (iov_base (rp_in io)) (iov_len (rp_in io)) = Some reply ->
  (* the return of the sender *)
  interruption (sent_body s ms) sleep = None ->
  let n := Z.min (iov_len (ms_in ms)) (iov_len (rv_out recv)) in
  let k := Z.min (iov_len (ms_out ms)) (iov_len (rp_in io)) in
  copy_to_user (serve u1) (tsk_tgid tS) (iov_base (ms_out ms)) (take (Z.to_nat k) reply) = (u3, true) ->
  wp (rendezvous entryS entryR tS tR addrS addrR wait serve io sleep) (fun r s' =>
    r = Some (id, 0, rp_status io) /\
    (disjoint_ranges (iov_base (rv_out recv)) n addrR (Z.of_nat (c_size c_io_receive)) ->
     copy_from_user u1 (tsk_tgid tR) (iov_base (rv_out recv)) n = Some (take (Z.to_nat n) bytes)) /\
    ks_user s' = u3 /\
    copy_from_user u3 (tsk_tgid tS) (iov_base (ms_out ms)) k = Some (take (Z.to_nat k) reply) /\
    tsk_pid tS ∉ ks_sleeping s' /\ ks_entries s' = ks_entries s /\ ks_heap s' = ks_heap s) s.
Proof.
  intros Hf Hok HeS HtS HeR HokR Hreq Htgt Hc Hw Hnw id Hid Hbs recv Hch Hwait Hrcv Hrid Hst Hrlen Hob Hol Hk2 Hrep Hsl n k Hcp3.
  destruct (send_request_length _ _ _ _ _ _ Hreq) as (Hblen & Hbb & _).
  unfold rendezvous. kstep. eapply wp_mono; [by eapply msgsend_begin_spec|]. cbn beta.
  rewrite Hreq, Htgt. intros r s1 (-> & _ & Hoom1 & c' & Hc' & Hr & Hh1 & Hre1 & Hf1). simplify_eq.
  set (p := ks_next s) in *. set (buf := Pos.succ p) in *. set (m := set_receiver_chid _ _) in *.
  set (b := with_in_base (InKernel buf) (body_from_user ms)).
  assert (Hu1 : ks_user s1 = ks_user s) by (by injection Hre1).
  assert (Hes1 : ks_entries s1 = ks_entries s) by (by injection Hre1).
  pose proof (fresh_next s Hf) as Hp. assert (Hb0 : ks_heap s !! buf = None) by (apply Hf; unfold buf, p; lia).
  assert (Hpb : p ≠ buf) by (unfold buf; lia).
  destruct (blocked_receives s s1 (ks_heap s) entryR eR tR addrR bs chnl c p buf m bytes) as [Hrs Hbuf1]; try done.
  kstep. eapply wp_mono; [eapply (receive_message_spec _ _ _ _ buf _ _ tS _ _ _ _ _ _ b bytes Hrs); done|]. cbn beta.
  change (receive_copies s1 tR addrR (c_dec c_io_receive bs) (with_message p c) m b bytes 0)
    with (receive_copies s1 tR addrR recv c m b bytes 0).
  replace (receive_copies s1 tR addrR recv c m b bytes 0) with (u1, true)
    by (rewrite <- Hrcv; unfold receive_copies; by rewrite Hu1).
  intros rc1 s2 (Hu2 & Hal & -> & Hsl2 & Hh2). kstep. kstep. injection Hal as Hes2 Hn2 Ho2.
  assert (Hcp : chnl ≠ p) by (unfold p; congruence).
  assert (Hcb : chnl ≠ buf) by congruence. assert (Hec : entryR ≠ chnl) by congruence.
  assert (Hep : entryR ≠ p) by (unfold p; congruence). assert (Heb : entryR ≠ buf) by congruence.
  assert (Hback : without_first [] m (with_message p c) = set_ch_refcnt (ch_refcnt c + 1) c).
  { unfold without_first, with_message, set_ch_refcnt. cbn. rewrite andb_false_r, Hw, (i32_id (num_waiting c + 1)), i32_id
      by (unfold_int; lia). f_equal. lia. }
  rewrite Hback, Hh1 in Hh2.
  eapply (wp_regroup _ _ (fun rc2 rc3 => Some (rcvid m, rc2, rc3))). eapply wp_mono.
  { eapply (reply_return_spec _ (ks_heap s) entryR eR chnl c p (set_state QNX_STATE_PENDING m) b buf (iov_base (ms_out ms)) bytes
      reply tS tR io sleep oom2 u3); ks_simpl; rewrite ?Hu2, ?Ho2; try done.
    - rewrite Hh2. clear -Hpb Hcp Hcb Hec Hep Heb. heap_eq.
    - rewrite Hh2, Hn2. assert (Hn1 : ks_heap s1 !! ks_next s1 = None) by (by apply fresh_next).
      rewrite Hh1 in Hn1.
      assert (Hne : forall q, is_Some ((<[chnl:=OChan (with_message p c)]> (<[p:=OMsg m]> (<[buf:=OBuf bytes]> (ks_heap s)))) !! q) ->
        ks_next s1 ≠ q) by (intros q [o Ho] Hq; rewrite <- Hq in Ho; congruence).
      assert (ks_next s1 ≠ p) by (apply Hne; rewrite lookup_insert_ne, lookup_insert_eq by done; eauto).
      assert (ks_next s1 ≠ chnl) by (apply Hne; rewrite lookup_insert_eq; eauto).
      assert (ks_next s1 ≠ entryR) by (apply Hne; rewrite !lookup_insert_ne by done; eauto).
      by rewrite !(lookup_insert_ne _ p), !(lookup_insert_ne _ entryR), !(lookup_insert_ne _ chnl) in * by done. }
  cbn beta. intros [rc2 rc3] s5 (-> & -> & Hu5 & Hsl5 & Hes5 & Hh5). ks_simpl. split_and!; try done.
  - apply (receive_copies_read _ _ _ _ _ _ _ _ _ _ Hrcv Hbb Hblen). by eapply receives_len.
  - apply copy_from_user_length in Hrep as [Hl Hrb]. apply copy_to_from_user in Hcp3; [|by apply Forall_take].
    rewrite length_take_le, Z2Nat.id in Hcp3 by lia. exact Hcp3.
  - congruence.
Qed.
