(* ===== verification/VectorMem.v ===== *)
(** * Vectors and the buffers of a vectored message

    What a vectored send asks for, the memory that it needs on the way, and how the
    message object is built: specification and lemmas for VectorSend. *)

From Stdlib Require Import ZArith Lia.
From stdpp Require Import base tactics list option gmap fin_maps sets.
From S2P Require Import Prelude Layout UserMem ConnectionTable Kernel Msgsend Channel ProcessEntry DriverData Driver.

Open Scope Z_scope.

(** ** Specification *)

Section VectorSpec.
  Context {M : Type} `{!UserMem M}.
  Implicit Types (s : kstate M) (h : gmap ptr kobj).

(** the lengths as the loops see them, 32 bit each *)
Definition u32_total (iov : list iovec) : Z := foldr (fun v n => u32 (iov_len v) + n) 0 iov.

(** kmalloc for a vector with [n] entries, if it needs memory *)
Definition vector_answer (n : Z) (oom : list bool) : bool * list bool :=
  if n >? QNX_MAX_IOVEC_LEN then kmalloc_answer oom else (true, oom).

(** what a vectored send with its structure at [addr] asks for: an error, or the
    structure, the vectors and the coming answers of kmalloc *)
Definition vectors_request s (cur : task_struct) (addr : Z)
    : Z + qnx_io_msgsendv * list iovec * list iovec * list bool :=
  match copy_from_user (ks_user s) (tsk_tgid cur) addr (Z.of_nat (c_size c_io_msgsendv)) with
  | None => inl (- EFAULT)
  | Some bs =>
      let io := c_dec c_io_msgsendv bs in
      let '(ok1, oom1) := vector_answer (mv_in_len io) (ks_oom s) in
      let '(ok2, oom2) := vector_answer (mv_out_len io) oom1 in
      let vector addr n := copy_from_user (ks_user s) (tsk_tgid cur) addr (iovec_bytes n) in
      if negb ok1 || negb ok2 then inl (- ENOMEM)
      else match vector (mv_in io) (mv_in_len io), vector (mv_out io) (mv_out_len io) with
           | Some bi, Some bo =>
               inr (io, dec_array c_iovec (Z.to_nat (mv_in_len io)) bi,
                    dec_array c_iovec (Z.to_nat (mv_out_len io)) bo, oom2)
           | _, _ => inl (- EFAULT)
           end
  end.

(** the buffers of the message: an error, or the gathered bytes *)
Definition vectors_message s (cur : task_struct) (iov_in iov_out : list iovec) (oom : list bool)
    : Z + list Z * list bool :=
  let '(ok1, oom1) := kmalloc_answer oom in
  let '(ok2, oom2) := if iov_length iov_out >? 0 then kmalloc_answer oom1 else (true, oom1) in
  if negb ok1 || negb ok2 then inl (- ENOMEM)
  else match memcpy_fromiovec (ks_user s) (tsk_tgid cur) iov_in (i32 (iov_length iov_in)) with
       | Some (rc, bytes) => if rc =? 0 then inr (bytes, oom2) else inl (- EFAULT)
       | None => inl (- EFAULT)
       end.

(** objects that may not be there *)
Definition opt_insert (p : option ptr) (o : kobj) h : gmap ptr kobj :=
  match p with Some p => <[p := o]> h | None => h end.
Definition opt_delete (p : option ptr) h : gmap ptr kobj :=
  match p with Some p => delete p h | None => h end.
Definition opt_fresh (p : option ptr) h : Prop := forall q, p = Some q -> h !! q = None.

Definition out_ptr (b : out_buffer) : option ptr :=
  match b with OutKernel p => Some p | OutUser _ => None end.

(** the heap with the arrays of the vectors *)
Definition with_vectors (f : sendv_frame) h : gmap ptr kobj := opt_insert (sv_out f) ORaw (opt_insert (sv_in f) ORaw h).
Definition fresh_vectors (f : sendv_frame) h : Prop :=
  opt_fresh (sv_in f) h /\ opt_fresh (sv_out f) (opt_insert (sv_in f) ORaw h).

(** the message object before it is queued *)
Definition vector_message (id pid chid : Z) (cur : task_struct) (io : qnx_io_msgsendv) (iov_in iov_out : list iovec)
    (buf : ptr) (out : out_buffer) : qnx_internal_msgsend :=
  Msgsend id 0 pid 0 chid
    (DMsg (MsgBody (mv_coid io) (mv_timeout_ms io) (InKernel buf) (iov_length iov_in) out (iov_length iov_out)))
    None 0 (Some cur) QNX_STATE_INITIAL [].

(** the buffer for the reply is in the kernel, if there is one *)
Definition out_ok (iov_out : list iovec) (out : out_buffer) : Prop :=
  if iov_length iov_out >? 0 then is_Some (out_ptr out) else out = OutUser 0.

(** what the sender's memory and return code are after it was woken; [None] when
    the copy leaves the vector or the reply *)
Definition sendv_result s (cur : task_struct) (b : msg_body) (iov_out : list iovec) (m : qnx_internal_msgsend) : option (Z * M) :=
  if (status m >=? 0) && (reply_len m >? 0)
  then let? (rc, u) := memcpy_toiovec (ks_user s) (tsk_tgid cur) iov_out (reply_of (ks_heap s) m)
                         (i32 (Z.min (mb_out_len b) (reply_len m))) in
       Some (if rc =? 0 then status m else - EFAULT, u)
  else Some (status m, ks_user s).

(** the heap with a vectored message that waits in the queue of its channel *)
Definition queued_vectors s' s (f : sendv_frame) (chnl p buf : ptr) (out : out_buffer) (c : qnx_channel)
    (m : qnx_internal_msgsend) (bytes : list Z) : Prop :=
  let h := opt_insert (out_ptr out) ORaw (with_vectors f (ks_heap s)) in
  fresh_vectors f (ks_heap s) /\ opt_fresh (out_ptr out) (with_vectors f (ks_heap s)) /\
  h !! buf = None /\ h !! p = None /\ p ≠ buf /\
  ks_heap s' = <[chnl := OChan (with_message p c)]> (<[p := OMsg (set_receiver_chid (ch_chid c) m)]> (<[buf := OBuf bytes]> h)).

(** memory and ids may have been used up *)
Definition only_allocates s s' : Prop :=
  rest s' = rest s /\ (ks_next s <= ks_next s')%positive /\ fresh_above s'.

(** the objects of a vectored send in the heap [h]: the message [m] at [p], with
    its buffers and its reply *)
Definition holds_vectors (f : sendv_frame) (p buf : ptr) (out : out_buffer) (m : qnx_internal_msgsend)
    (bytes reply : list Z) h h' : Prop :=
  let hv := opt_insert (out_ptr out) ORaw (with_vectors f h) in
  fresh_vectors f h /\ opt_fresh (out_ptr out) (with_vectors f h) /\ hv !! buf = None /\ hv !! p = None /\ p ≠ buf /\
  (forall x, reply_base m = Some x -> hv !! x = None /\ x ≠ buf /\ x ≠ p) /\
  h' = <[p := OMsg m]> (opt_insert (reply_base m) (OBuf reply) (<[buf := OBuf bytes]> hv)).

(** what MsgSendNoReplyv asks for *)
Definition noreplyv_request s (cur : task_struct) (addr : Z) : Z + qnx_io_msgsendv * list iovec * list bool :=
  match copy_from_user (ks_user s) (tsk_tgid cur) addr (Z.of_nat (c_size c_io_msgsendv)) with
  | None => inl (- EFAULT)
  | Some bs =>
      let io := c_dec c_io_msgsendv bs in
      let '(ok, oom) := vector_answer (mv_in_len io) (ks_oom s) in
      if negb ok then inl (- ENOMEM)
      else match copy_from_user (ks_user s) (tsk_tgid cur) (mv_in io) (iovec_bytes (mv_in_len io)) with
           | Some bi => inr (io, dec_array c_iovec (Z.to_nat (mv_in_len io)) bi, oom)
           | None => inl (- EFAULT)
           end
  end.

(** its message object, as it is queued *)
Definition queued_noreplyv (id pd rpid chid : Z) (io : qnx_io_msgsendv) (iov_in : list iovec) (bytes : list Z) : qnx_internal_msgsend :=
  Msgsend id 0 pd rpid chid
    (DMsg (MsgBody (mv_coid io) (mv_timeout_ms io) InTail (iov_length iov_in) (OutUser 0) 0))
    None 0 None QNX_STATE_INITIAL bytes.

(** a channel that takes one more no-reply message *)
Definition has_room s (c : qnx_channel) : Prop :=
  0 < ch_refcnt c /\ 0 <= num_waiting_noreply c < qnx_max_noreply_msg_num (ks_params s) /\
  0 <= num_waiting c < INT_MAX.

End VectorSpec.

(** ** Lemmas on vectors *)

Lemma u32_total_nonneg iov : 0 <= u32_total iov.
Proof. induction iov as [|v iov IH]; cbn; [lia|]. unfold u32 at 1. pose proof (Z.mod_pos_bound (iov_len v) (2 ^ 32)). unfold u32_total in IH. lia. Qed.

Lemma u32_total_cong iov : iov_length iov mod 2 ^ 32 = u32_total iov mod 2 ^ 32.
Proof.
  induction iov as [|v iov IH]; [done|]. cbn [iov_length u32_total foldr]. fold (iov_length iov) (u32_total iov).
  unfold u64, u32 at 1. rewrite Zplus_mod_idemp_l, <- (Zplus_mod_idemp_r (u32_total iov)), <- IH, Zplus_mod_idemp_r.
  apply Z.mod_mod_divide. by exists (2 ^ 32).
Qed.

(** the length that the driver computes is never more than what the loops find *)
Lemma length_le_u32_total iov : i32 (iov_length iov) <= u32_total iov.
Proof.
  pose proof (u32_total_nonneg iov) as H0. pose proof (Z.mod_le (u32_total iov) (2 ^ 32) H0 ltac:(lia)) as Hle.
  rewrite <- u32_total_cong in Hle. unfold_int.
  pose proof (Z.mod_pos_bound (iov_length iov) (2 ^ 32) ltac:(lia)).
  rewrite <- (Zplus_mod_idemp_l (iov_length iov)).
  destruct (Z.lt_ge_cases (iov_length iov mod 2 ^ 32) (2 ^ 31)).
  - rewrite Z.mod_small; lia.
  - pose proof (Z.mod_add (iov_length iov mod 2 ^ 32 + 2 ^ 31 - 2 ^ 32) 1 (2 ^ 32) ltac:(lia)) as Hm.
    replace (iov_length iov mod 2 ^ 32 + 2 ^ 31 - 2 ^ 32 + 1 * 2 ^ 32) with (iov_length iov mod 2 ^ 32 + 2 ^ 31) in Hm by lia.
    rewrite Hm, Z.mod_small; lia.
Qed.

Lemma copy_size a n : 0 < a <= INT_MAX -> i32 (min_unsigned a n) = Z.min a (u32 n) /\ 0 <= u32 n.
Proof.
  unfold min_unsigned. intros Ha. pose proof (Z.mod_pos_bound n (2 ^ 32)) as Hn. unfold INT_MAX in Ha.
  rewrite (u32_id a) by lia. unfold u32 in *. split; [|lia]. apply i32_id. unfold_int. lia.
Qed.

Section VectorLemmas.
  Context {M : Type} `{!UserMem M} `{!UserMemLaws M}.
  Implicit Types (s : kstate M) (h : gmap ptr kobj).

(** any lengths in the vector: the copy stays within it and fills its buffer *)
Lemma fromiovec_total (u : M) mm iov len :
  len <= u32_total iov -> len <= INT_MAX ->
  exists rc bytes, memcpy_fromiovec u mm iov len = Some (rc, bytes) /\
    (rc = - EFAULT \/ rc = 0 /\ Z.of_nat (length bytes) = Z.max 0 len /\ Forall is_byte bytes).
Proof.
  revert len. induction iov as [|v iov IH]; intros len Hle Hmax; cbn [memcpy_fromiovec]; rewrite Z.gtb_ltb;
    (destruct (Z.ltb_spec 0 len) as [Hpos|]; [|do 2 eexists; split; [done|]; right; split_and!; [done|cbn; lia|done]]).
  { cbn in Hle. lia. }
  cbn [u32_total foldr] in Hle. fold (u32_total iov) in Hle. destruct (Z.eqb_spec (iov_len v) 0) as [H0|H0].
  { rewrite H0 in Hle. change (u32 0) with 0 in Hle. apply IH; lia. }
  pose proof (u32_total_nonneg iov). destruct (copy_size len (iov_len v)) as [Hcs Hu]; [lia|]. rewrite Hcs.
  destruct (copy_from_user _ _ _ _) as [bs|] eqn:Hcp; [|by do 2 eexists; split; [done|]; left].
  apply copy_from_user_length in Hcp as [Hbl Hbb].
  destruct (IH (len - Z.min len (u32 (iov_len v)))) as (rc & rest & -> & Hres); [lia..|].
  exists rc, (bs ++ rest). split; [done|]. destruct Hres as [?|(-> & Hl & Hb)]; [by left|right].
  rewrite length_app, Nat2Z.inj_add. split_and!; [done|lia|by apply Forall_app].
Qed.

Lemma toiovec_total (u : M) mm iov kdata len :
  len <= u32_total iov -> len <= INT_MAX -> len <= Z.of_nat (length kdata) ->
  exists rc u', memcpy_toiovec u mm iov kdata len = Some (rc, u') /\ (rc = - EFAULT \/ rc = 0).
Proof.
  revert u kdata len. induction iov as [|v iov IH]; intros u kdata len Hle Hmax Hk; cbn [memcpy_toiovec]; rewrite Z.gtb_ltb;
    (destruct (Z.ltb_spec 0 len) as [Hpos|]; [|do 2 eexists; split; [done|]; by right]).
  { cbn in Hle. lia. }
  cbn [u32_total foldr] in Hle. fold (u32_total iov) in Hle. destruct (Z.eqb_spec (iov_len v) 0) as [H0|H0].
  { rewrite H0 in Hle. change (u32 0) with 0 in Hle. apply IH; lia. }
  unfold min_unsigned. rewrite Z.min_comm. fold (min_unsigned len (iov_len v)).
  pose proof (u32_total_nonneg iov). destruct (copy_size len (iov_len v)) as [Hcs Hu]; [lia|]. rewrite Hcs. case_cmp; [lia|].
  destruct (copy_to_user _ _ _ _) as [u' []]; [|by do 2 eexists; split; [done|]; left].
  apply IH; [lia|lia|]. rewrite length_drop. lia.
Qed.

(** ** Lemmas on objects that may not be there *)

Lemma opt_delete_insert p o h : opt_fresh p h -> opt_delete p (opt_insert p o h) = h.
Proof. destruct p as [p|]; cbn; [|done]. intros Hf. by rewrite delete_insert_id by (apply Hf; done). Qed.

Lemma opt_insert_subseteq p o h : opt_fresh p h -> h ⊆ opt_insert p o h.
Proof. destruct p as [p|]; cbn; [|done]. intros Hf. apply insert_subseteq. by apply Hf. Qed.

Lemma opt_insert_ne p o h q : p ≠ Some q -> opt_insert p o h !! q = h !! q.
Proof. destruct p as [p|]; cbn; [|done]. intros Hne. apply lookup_insert_ne. congruence. Qed.

Lemma opt_insert_comm p o q o' h : p ≠ Some q -> <[q := o']> (opt_insert p o h) = opt_insert p o (<[q := o']> h).
Proof. destruct p as [p|]; cbn; [|done]. intros Hne. apply insert_insert_ne. congruence. Qed.

Lemma opt_insert_delete_comm p o q h : p ≠ Some q -> delete q (opt_insert p o h) = opt_insert p o (delete q h).
Proof. destruct p as [p|]; cbn; [|done]. intros Hne. apply delete_insert_ne. congruence. Qed.

Lemma opt_delete_insert_ne p o q h : p ≠ Some q -> opt_delete p (<[q := o]> h) = <[q := o]> (opt_delete p h).
Proof. destruct p as [p|]; cbn; [|done]. intros Hne. apply delete_insert_ne. congruence. Qed.

Lemma opt_delete_opt_insert_ne p p' o h :
  (forall q, p = Some q -> p' ≠ Some q) -> opt_delete p (opt_insert p' o h) = opt_insert p' o (opt_delete p h).
Proof. destruct p as [p|]; cbn; [|done]. intros Hne. apply opt_insert_delete_comm. by apply Hne. Qed.

Lemma fresh_ne p h q o : opt_fresh p h -> h !! q = Some o -> p ≠ Some q.
Proof. intros Hf Hq ->. rewrite Hf in Hq by done. done. Qed.

Lemma with_vectors_subseteq f h : fresh_vectors f h -> h ⊆ with_vectors f h.
Proof. intros [Hi Ho]. unfold with_vectors. etrans; by apply opt_insert_subseteq. Qed.

(** an object of the old heap changes below the vectors *)
Lemma with_vectors_insert f h q o o' :
  fresh_vectors f h -> h !! q = Some o ->
  <[q := o']> (with_vectors f h) = with_vectors f (<[q := o']> h) /\ fresh_vectors f (<[q := o']> h).
Proof.
  intros [Hi Ho] Hq. pose proof (fresh_ne _ _ _ _ Hi Hq) as Hiq.
  assert (Hoq : sv_out f ≠ Some q) by (eapply fresh_ne; [done|]; by rewrite opt_insert_ne).
  unfold with_vectors. rewrite !opt_insert_comm by done. split; [done|]. split; intros r Hr.
  - rewrite lookup_insert_ne by congruence. by apply Hi.
  - rewrite <- opt_insert_comm, lookup_insert_ne by congruence. by apply Ho.
Qed.

Lemma wp_kfree_opt p Q s :
  (forall q, p = Some q -> is_Some (ks_heap s !! q)) -> Q tt (upd_heap (opt_delete p) s) -> wp (kfree_opt p) Q s.
Proof.
  destruct p as [p|]; cbn [kfree_opt opt_delete]; intros Hp HQ.
  - destruct (Hp p eq_refl) as [o Ho]. by eapply wp_kfree.
  - apply wp_ret. by rewrite upd_heap_id in HQ.
Qed.

Lemma release_vectors_spec s f h :
  ks_heap s = with_vectors f h -> fresh_vectors f h ->
  wp (release_vectors f) (fun _ s' => s' = upd_heap (fun _ => h) s) s.
Proof.
  intros Hh [Hi Ho]. unfold release_vectors, QNX_FREE_IF_NOT. kstep. apply wp_kfree_opt.
  { intros q Hq. rewrite Hh. unfold with_vectors. rewrite Hq. cbn. rewrite lookup_insert_eq. eauto. }
  assert (Hh1 : opt_delete (sv_out f) (ks_heap s) = opt_insert (sv_in f) ORaw h).
  { rewrite Hh. unfold with_vectors. by rewrite opt_delete_insert. }
  apply wp_kfree_opt.
  - intros q Hq. ks_simpl. rewrite Hh1, Hq. cbn. rewrite lookup_insert_eq. eauto.
  - unfold upd_heap. ks_simpl. f_equal. by rewrite Hh1, opt_delete_insert.
Qed.

(** ** The construction of a vectored message *)

Lemma only_allocates_trans s1 s2 s3 : only_allocates s1 s2 -> only_allocates s2 s3 -> only_allocates s1 s3.
Proof. intros (R1 & N1 & _) (R2 & N2 & F2). split_and!; [congruence|lia|done]. Qed.

Lemma fresh_above_alloc s oom' o : fresh_above s -> fresh_above (upd_oom oom' (upd_alloc (ks_next s) o s)).
Proof. intros Hf q Hq. ks_simpl. rewrite lookup_insert_ne by lia. apply Hf. lia. Qed.

Lemma alloc_iovec_spec s n :
  fresh_above s ->
  wp (alloc_iovec n) (fun r s' =>
    only_allocates s s' /\ (ks_next_rcvid s' = ks_next_rcvid s /\ ks_garbage s' = ks_garbage s) /\
    let '(ok, oom') := vector_answer n (ks_oom s) in
    ks_oom s' = oom' /\
    if ok then exists b, r = Some b /\ opt_fresh b (ks_heap s) /\ ks_heap s' = opt_insert b ORaw (ks_heap s)
    else r = None /\ ks_heap s' = ks_heap s) s.
Proof.
  intros Hf. unfold alloc_iovec, vector_answer, only_allocates. destruct (n >? QNX_MAX_IOVEC_LEN).
  - kstep. destruct (kmalloc_answer (ks_oom s)) as [[] oom'] eqn:Hk.
    + eapply wp_kmalloc; [done|]. ksteps. cbn [option_map]. ks_simpl. split_and!; try done; [lia|by apply fresh_above_alloc|].
      exists (Some (ks_next s)). split_and!; [done| |done]. intros q [= <-]. by apply fresh_next.
    + eapply wp_kmalloc_fail; [done|]. ksteps. ks_simpl. split_and!; try done; lia.
  - kstep. split_and!; try done. by exists None.
Qed.

(** the message when its buffers are there: gathered, or given up *)
Lemma msgsend_gather_spec s p m0 cur io iov_in iov_out pd buf out h :
  ks_heap s = <[p := OMsg m0]> (<[buf := ORaw]> (opt_insert (out_ptr out) ORaw h)) -> msg_tail m0 = [] ->
  p ≠ buf -> h !! p = Some (OMsg m0) -> h !! buf = None -> opt_fresh (out_ptr out) (<[buf := ORaw]> h) ->
  out_ok iov_out out -> fresh_above s ->
  wp (msgsend_gather p cur io iov_in iov_out pd buf out) (fun rc s' =>
    only_allocates s s' /\ ks_oom s' = ks_oom s /\
    match memcpy_fromiovec (ks_user s) (tsk_tgid cur) iov_in (i32 (iov_length iov_in)) with
    | Some (rc', bytes) =>
        if rc' =? 0
        then rc = 0 /\ ks_next_rcvid s' = i32 (ks_next_rcvid s + 1) /\
          ks_heap s' = <[p := OMsg (vector_message (i32 (ks_next_rcvid s + 1)) pd (receiver_chid m0) cur io iov_in iov_out buf out)]>
            (<[buf := OBuf bytes]> (opt_insert (out_ptr out) ORaw h))
        else rc = - EFAULT /\ ks_next_rcvid s' = ks_next_rcvid s /\ exists m, ks_heap s' = <[p := OMsg m]> h
    | None => False
    end) s.
Proof.
  intros Hh Ht Hpb Hp Hb Ho Hok Hf. unfold msgsend_gather. assert (Hop : out_ptr out ≠ Some p).
  { intros E. rewrite <- (lookup_insert_ne h buf p ORaw) in Hp by done. by rewrite (Ho p E) in Hp. }
  assert (Hob : out_ptr out ≠ Some buf) by (eapply fresh_ne; [done|]; apply lookup_insert_eq).
  assert (Hoh : opt_fresh (out_ptr out) h).
  { intros q E. specialize (Ho q E). by apply lookup_insert_None in Ho as [? _]. }
  destruct (fromiovec_total (ks_user s) (tsk_tgid cur) iov_in (i32 (iov_length iov_in))) as (rc & bytes & Hg & Hrc).
  { apply length_le_u32_total. } { apply i32_range. }
  kstep. eapply wp_get_msg; [by rewrite Hh, lookup_insert_eq|]. cbn beta. kstep. unfold put_msg at 1.
  eapply wp_put; [by rewrite Hh, lookup_insert_eq|]. cbn beta. kstep. kstep. ks_simpl. rewrite Hg.
  destruct Hrc as [->|(-> & _)]; cbn [negb Z.eqb].
  - change (negb (- EFAULT =? 0)) with true. cbn iota. kstep.
    assert (Hout : wp (kfree_out out) (fun _ s' => s' = upd_heap (opt_delete (out_ptr out)) (upd_heap <[p := OMsg (set_task (Some cur) m0)]> s))
      (upd_heap <[p := OMsg (set_task (Some cur) m0)]> s)).
    { unfold out_ok in Hok. destruct out as [a|o].
      - destruct (iov_length iov_out >? 0); [by destruct Hok|]. injection Hok as ->. apply wp_ret. cbn. by rewrite (upd_heap_id (fun h => h)).
      - cbn. eapply wp_kfree; [|done]. ks_simpl. rewrite Hh. cbn in *.
        rewrite !lookup_insert_ne by congruence. apply lookup_insert_eq. }
    eapply wp_mono; [exact Hout|]. cbn beta. intros _ s' ->. ks_simpl.
    assert (Hdel : opt_delete (out_ptr out) (<[p := OMsg (set_task (Some cur) m0)]> (ks_heap s)) =
      <[p := OMsg (set_task (Some cur) m0)]> (<[buf := ORaw]> h)).
    { rewrite Hh, insert_insert_eq, opt_insert_comm, opt_insert_comm, opt_delete_insert; try done.
      intros q E. rewrite lookup_insert_ne by congruence. by apply Ho. }
    kstep. eapply wp_kfree; [ks_simpl; rewrite Hdel, lookup_insert_ne by done; apply lookup_insert_eq|]. kstep. ks_simpl.
    rewrite Hdel. change (- EFAULT =? 0) with false. cbn iota. unfold only_allocates. split_and!; try done.
    + intros q Hq. ks_simpl. rewrite Hdel. specialize (Hf q Hq). rewrite Hh in Hf.
      apply lookup_insert_None in Hf as [Hf Hqp]. apply lookup_insert_None in Hf as [Hf Hqb].
      rewrite lookup_delete_ne, !lookup_insert_ne by done. destruct (decide (out_ptr out = Some q)) as [E|E]; [by apply Hoh|].
      by rewrite opt_insert_ne in Hf.
    + eexists. rewrite delete_insert_ne, delete_insert_id by done. done.
  - change (negb (0 =? 0)) with false. change (0 =? 0) with true. cbn iota. kstep.
    eapply wp_put; [ks_simpl; rewrite lookup_insert_ne, Hh, lookup_insert_ne by done; apply lookup_insert_eq|].
    unfold get_new_rcvid. ksteps. ks_simpl. rewrite Hh, Ht. unfold only_allocates. split_and!; try done.
    + intros q Hq. ks_simpl. specialize (Hf q Hq). assert (q ≠ p) by (intros ->; rewrite Hh, lookup_insert_eq in Hf; done).
      assert (q ≠ buf) by (intros ->; rewrite Hh, lookup_insert_ne, lookup_insert_eq in Hf by done; done).
      by rewrite !lookup_insert_ne by done.
    + unfold vector_message. clear -Hpb. heap_eq.
Qed.

Lemma initv_spec s p m0 cur io iov_in iov_out pd :
  fresh_above s -> ks_heap s !! p = Some (OMsg m0) -> msg_tail m0 = [] ->
  wp (qnx_internal_msgsend_initv p cur io iov_in iov_out pd) (fun rc s' =>
    only_allocates s s' /\
    match vectors_message s cur iov_in iov_out (ks_oom s) with
    | inl rc0 => rc = rc0 /\ rc0 < 0 /\ ks_next_rcvid s' = ks_next_rcvid s /\ exists m, ks_heap s' = <[p := OMsg m]> (ks_heap s)
    | inr (bytes, oom') =>
        rc = 0 /\ ks_oom s' = oom' /\ ks_next_rcvid s' = i32 (ks_next_rcvid s + 1) /\
        exists buf out, ks_heap s !! buf = None /\ opt_fresh (out_ptr out) (ks_heap s) /\ out_ptr out ≠ Some buf /\
          out_ok iov_out out /\
          ks_heap s' = <[p := OMsg (vector_message (i32 (ks_next_rcvid s + 1)) pd (receiver_chid m0) cur io iov_in iov_out buf out)]>
            (<[buf := OBuf bytes]> (opt_insert (out_ptr out) ORaw (ks_heap s)))
    end) s.
Proof.
  intros Hf Hp Ht. pose proof (fresh_next s Hf) as Hb. assert (Hpb : p ≠ ks_next s) by congruence.
  assert (Hself : ks_heap s = <[p := OMsg m0]> (ks_heap s)) by (symmetry; by apply insert_id).
  unfold qnx_internal_msgsend_initv, vectors_message. kstep.
  destruct (kmalloc_answer (ks_oom s)) as [[] oom1] eqn:Hk1; cbn [negb orb].
  2: { eapply wp_kmalloc_fail; [done|]. kstep. destruct (if iov_length iov_out >? 0 then _ else _).
       unfold only_allocates. ks_simpl. split_and!; try done; try lia. by exists m0. }
  eapply wp_kmalloc; [done|]. cbn beta iota. set (buf := ks_next s) in *. set (s1 := upd_oom oom1 _).
  assert (Hf1 : fresh_above s1) by (by apply fresh_above_alloc).
  (* what both branches come to *)
  assert (Hgo : forall s2 out, only_allocates s1 s2 -> ks_next_rcvid s2 = ks_next_rcvid s ->
    ks_heap s2 = <[buf := ORaw]> (opt_insert (out_ptr out) ORaw (ks_heap s)) ->
    opt_fresh (out_ptr out) (<[buf := ORaw]> (ks_heap s)) -> out_ok iov_out out -> forall Q : Z -> kstate M -> Prop,
    (forall rc s', only_allocates s s' -> ks_oom s' = ks_oom s2 ->
       match memcpy_fromiovec (ks_user s) (tsk_tgid cur) iov_in (i32 (iov_length iov_in)) with
       | Some (rc', bytes) =>
           if rc' =? 0
           then rc = 0 /\ ks_next_rcvid s' = i32 (ks_next_rcvid s + 1) /\
             ks_heap s' = <[p := OMsg (vector_message (i32 (ks_next_rcvid s + 1)) pd (receiver_chid m0) cur io iov_in iov_out buf out)]>
               (<[buf := OBuf bytes]> (opt_insert (out_ptr out) ORaw (ks_heap s)))
           else rc = - EFAULT /\ ks_next_rcvid s' = ks_next_rcvid s /\ exists m, ks_heap s' = <[p := OMsg m]> (ks_heap s)
       | None => False
       end -> Q rc s') -> wp (msgsend_gather p cur io iov_in iov_out pd buf out) Q s2).
  { intros s2 out Ha Hid Hh2 Ho Hok Q HQ. eapply wp_mono.
    - apply (msgsend_gather_spec s2 p m0 cur io iov_in iov_out pd buf out (ks_heap s)); try done; [|by destruct Ha as (_ & _ & ?)].
      rewrite Hh2. rewrite insert_insert_ne, (opt_insert_comm _ _ p) by (first [done | eapply fresh_ne; [exact Ho|by rewrite lookup_insert_ne]]).
      by rewrite <- Hself.
    - cbn beta. intros rc s' (Ha' & Hoom & Hm). pose proof Ha as (Hr & _ & _). apply HQ; [|done|].
      + eapply only_allocates_trans; [|exact Ha']. eapply only_allocates_trans; [|exact Ha]. unfold only_allocates. split_and!; try done. unfold s1. ks_simpl. lia.
      + assert (Hu : ks_user s2 = ks_user s) by (by injection Hr). by rewrite Hu, Hid in Hm. }
  kstep. destruct (iov_length iov_out >? 0) eqn:Hlen.
  - kstep. destruct (kmalloc_answer oom1) as [[] oom2] eqn:Hk2.
    + eapply wp_kmalloc; [done|]. kstep. cbn [option_map]. set (o := ks_next s1). set (s2 := upd_oom oom2 _).
      pose proof (fresh_next s1 Hf1) as Ho1. fold o in Ho1.
      assert (o ≠ buf) by (unfold o, buf, s1; ks_simpl; lia).
      apply (Hgo s2 (OutKernel o)); try done.
      * split_and!; try done; [unfold s2; ks_simpl; lia|by apply fresh_above_alloc].
      * unfold s2, s1. ks_simpl. cbn. by rewrite insert_insert_ne.
      * intros q [= <-]. done.
      * unfold out_ok. rewrite Hlen. cbn. eauto.
      * intros rc s' Ha Hoom Hm. split; [done|]. cbn [negb orb].
        destruct (memcpy_fromiovec _ _ _ _) as [[rc' bytes]|]; [|done]. destruct (rc' =? 0).
        -- destruct Hm as (-> & Hid & Hh). split_and!; try done. exists buf, (OutKernel o). split_and!; try done; [|by intros [= ?]|unfold out_ok; rewrite Hlen; cbn; eauto].
           intros q [= <-]. cbn. unfold s1 in Ho1. ks_simpl. by apply lookup_insert_None in Ho1 as [? _].
        -- destruct Hm as (-> & Hid & Hh). done.
    + eapply wp_kmalloc_fail; [done|]. apply wp_ret. cbn [option_map]. kstep. eapply wp_kfree; [unfold s1; ks_simpl; apply lookup_insert_eq|]. kstep.
      cbn [negb orb]. unfold only_allocates, s1. ks_simpl. rewrite delete_insert_id by done. split_and!; try done; [lia| |by exists m0].
      intros q Hq. ks_simpl. apply (Hf1 q) in Hq as Hq'. unfold s1 in Hq'. ks_simpl. rewrite delete_insert_id by done.
      by apply lookup_insert_None in Hq' as [? _].
  - kstep. apply (Hgo s1 (OutUser 0)); try done.
    * unfold out_ok. by rewrite Hlen.
    * intros rc s' Ha Hoom Hm. split; [done|]. cbn [negb orb].
      destruct (memcpy_fromiovec _ _ _ _) as [[rc' bytes]|]; [|done]. destruct (rc' =? 0).
      -- destruct Hm as (-> & Hid & Hh). split_and!; try done. exists buf, (OutUser 0). split_and!; try done. unfold out_ok. by rewrite Hlen.
      -- destruct Hm as (-> & Hid & Hh). done.
Qed.

End VectorLemmas.
