(* ===== verification/VectorSend.v ===== *)
(** * Vectored sends (handle_msgsendv, handle_msgsend_noreplyv) and pulses

    MsgSendv gathers a vector of buffers into one message and scatters the reply
    over another vector; short vectors are kept on the stack and long ones, like
    the two kernel buffers, are allocated.  Here is what these calls do on every
    path, with any lengths in the vectors, and that a receiver sees no difference
    to a MsgSend of the concatenated bytes. *)

From Stdlib Require Import ZArith Lia.
From stdpp Require Import base tactics list option gmap fin_maps sets.
From S2P Require Import Prelude Layout UserMem ConnectionTable Kernel Msgsend Channel ProcessEntry DriverData Driver Rendezvous VectorMem.

Open Scope Z_scope.

(** ** A rendezvous with vectors *)

Section VectorRendezvous.
  Context {M : Type} `{!UserMem M}.

(** [rendezvous] of Rendezvous.v with MsgSendv in the place of MsgSend *)
Definition vectored_rendezvous (entryS entryR : ptr) (tS tR : task_struct) (addrS addrR wait : Z) (serve : M -> M)
    (io : qnx_io_reply) (sleep : sleep_result) : K M (option (Z * Z * Z)) :=
  let! (r, f) := handle_msgsendv_begin entryS tS addrS in
  match r with
  | Returned _ => kret None
  | Blocked chnl p =>
      let! rc1 := handle_msgreceive entryR tR addrR wait in
      kmod (fun s => upd_user (serve (ks_user s)) s) ;;;
      let! rc2 := handle_msgreply entryR tR io in
      let! rc3 := handle_msgsendv_finish chnl p tS f sleep in
      kret (Some (rc1, rc2, rc3))
  end.

(** the MsgSend that sends the same bytes from one buffer *)
Definition plain_send (io : qnx_io_msgsendv) (iov_in iov_out : list iovec) : qnx_io_msgsend :=
  IoMsgsend (mv_coid io) (mv_timeout_ms io) (Iovec 0 (iov_length iov_in)) (Iovec 0 (iov_length iov_out)).

End VectorRendezvous.

Section VectorSendLemmas.
  Context {M : Type} `{!UserMem M} `{!UserMemLaws M}.
  Implicit Types (s : kstate M) (h : gmap ptr kobj).

Lemma only_allocates_unchanged s s' : only_allocates s s' -> ks_next_rcvid s' = ks_next_rcvid s -> ks_heap s' = ks_heap s -> unchanged s s'.
Proof. intros (Hr & Hn & _) Hi Hh. split_and!; [done..|by left]. Qed.

(** a call that is given up returns its vectors *)
Lemma sendv_reject s1 f h rc (none : sendv_frame) :
  ks_heap s1 = with_vectors f h -> fresh_vectors f h ->
  wp (release_vectors f ;;; kret (Returned rc, none)) (fun '(r, _) s' =>
    r = Returned rc /\ s' = upd_heap (fun _ => h) s1) s1.
Proof. intros Hh Hf. kstep. eapply wp_mono; [by apply release_vectors_spec|]. cbn beta. intros _ s' ->. by kstep. Qed.

(** from the vectors to the queue *)
Lemma sendv_queue_spec s s2 f entry e cur io iov_in iov_out oom conn chnl c (none : sendv_frame) :
  fresh_above s -> entries_ok s -> ks_heap s !! entry = Some (OProc e) -> only_allocates s s2 ->
  ks_next_rcvid s2 = ks_next_rcvid s -> ks_oom s2 = oom ->
  fresh_vectors f (ks_heap s) -> ks_heap s2 = with_vectors f (ks_heap s) ->
  ks_heap s !! chnl = Some (OChan c) -> 0 < ch_refcnt c ->
  let id := i32 (ks_next_rcvid s + 1) in
  wp (let! g := kget ks_garbage in
      let! e := get_proc entry in
      let! p := new_obj (OMsg (garbage_msg g)) in
      let! rc := qnx_internal_msgsend_initv p cur io iov_in iov_out (pe_pid e) in
      if negb (rc =? 0) then end_frame p ;;; (release_vectors f ;;; kret (Returned rc, none))
      else
        let! m := get_msg p in
        put_msg p (set_receiver_pid (pid conn) m) ;;;
        handle_msgsend_block chnl p cur ;;;
        kret (Blocked chnl p, SendvFrame (sv_in f) (sv_out f) iov_out)) (fun '(r, f') s' =>
    match vectors_message s cur iov_in iov_out oom with
    | inl rc => r = Returned rc /\ rest s' = rest s /\ ks_heap s' = <[chnl := OChan (set_ch_refcnt (ch_refcnt c + 1) c)]> (ks_heap s)
    | inr (bytes, oom') =>
        exists p buf out chid, r = Blocked chnl p /\ f' = SendvFrame (sv_in f) (sv_out f) iov_out /\ out_ok iov_out out /\
          queued_vectors s' s f chnl p buf out c
            (set_receiver_pid (pid conn) (vector_message id (pe_pid e) chid cur io iov_in iov_out buf out)) bytes /\
          ks_next_rcvid s' = id /\ ks_oom s' = oom' /\
          rest s' = (ks_user s, ks_entries s, ks_next_channel_id s, ks_params s,
                     {[tsk_pid cur]} ∪ ks_sleeping s, EvWakeUp chnl :: ks_trace s) /\ fresh_above s'
    end) (upd_heap <[chnl := OChan (set_ch_refcnt (ch_refcnt c + 1) c)]> s2).
Proof.
  intros Hf Hok He Ha Hid2 Hoom Hfv Hh2 Hc Hr id. set (c1 := set_ch_refcnt (ch_refcnt c + 1) c).
  destruct (with_vectors_insert f (ks_heap s) chnl _ (OChan c1) Hfv Hc) as [Hvc Hfv1].
  set (h1 := <[chnl := OChan c1]> (ks_heap s)) in *.
  assert (Hsub : h1 ⊆ with_vectors f h1) by (by apply with_vectors_subseteq).
  assert (Hec : entry ≠ chnl) by congruence.
  assert (He1 : h1 !! entry = Some (OProc e)) by (unfold h1; by rewrite lookup_insert_ne).
  assert (Hc1 : h1 !! chnl = Some (OChan c1)) by (unfold h1; by rewrite lookup_insert_eq).
  assert (Hchv : with_vectors f (ks_heap s) !! chnl = Some (OChan c)) by (eapply lookup_weaken; [done|by apply with_vectors_subseteq]).
  destruct Ha as (Hrest & Hnext & Hfr2).
  set (s3 := upd_heap _ s2). assert (Hh3 : ks_heap s3 = with_vectors f h1) by (unfold s3; ks_simpl; by rewrite Hh2, Hvc).
  assert (Hf3 : fresh_above s3).
  { intros q Hq. specialize (Hfr2 q Hq). rewrite Hh3, <- Hvc, <- Hh2, lookup_insert_ne by congruence. done. }
  pose proof (fresh_next s3 Hf3) as Hp. set (p := ks_next s3) in *.
  do 2 (kstep; cbn beta). kstep. eapply wp_get_proc; [rewrite Hh3; by eapply lookup_weaken|]. cbn beta. ksteps. fold p.
  eapply wp_mono; [apply initv_spec with (m0 := garbage_msg (ks_garbage s3)); [|ks_simpl; by rewrite lookup_insert_eq|done]|].
  { intros q Hq. ks_simpl. unfold p in *. rewrite lookup_insert_ne by lia. apply Hf3. lia. }
  cbn beta. intros rc s4 ((Hrest4 & Hnext4 & Hf4) & Hcase). ks_simpl.
  assert (Hu : ks_user s3 = ks_user s) by (by injection Hrest).
  replace (vectors_message (upd_alloc p _ s3) cur iov_in iov_out (ks_oom s3)) with (vectors_message s cur iov_in iov_out oom) in Hcase
    by (unfold vectors_message; ks_simpl; by rewrite <- Hu, <- Hoom).
  destruct (vectors_message s cur iov_in iov_out oom) as [rc0|[bytes oom']].
  - destruct Hcase as (-> & Hneg & Hid & m & Hh4). assert (rc0 =? 0 = false) as -> by lia. cbn [negb]. rewrite insert_insert_eq in Hh4.
    kstep. unfold end_frame. eapply wp_kfree; [by rewrite Hh4, lookup_insert_eq|].
    eapply wp_mono; [eapply sendv_reject; [ks_simpl; rewrite Hh4, delete_insert_id by done; exact Hh3|done]|].
    cbn beta. intros [r f'] s' [-> ->]. split_and!; [done| |done]. change (rest s4 = rest s). rewrite Hrest4. exact Hrest.
  - destruct Hcase as (-> & Hoom4 & Hid & buf & out & Hbuf & Hof & Hob & Hoko & Hh4). change (negb (0 =? 0)) with false. cbn iota.
    set (m0 := vector_message _ _ _ _ _ _ _ _ _) in *.
    assert (Hpb : p ≠ buf) by (intros ->; by rewrite lookup_insert_eq in Hbuf). rewrite lookup_insert_ne in Hbuf by done.
    assert (Hop : out_ptr out ≠ Some p) by (eapply fresh_ne; [exact Hof|apply lookup_insert_eq]).
    assert (Hofv : opt_fresh (out_ptr out) (with_vectors f h1)).
    { intros q E. specialize (Hof q E). rewrite lookup_insert_ne in Hof by congruence. by rewrite <- Hh3. }
    assert (Hcv : with_vectors f h1 !! chnl = Some (OChan c1)) by (by eapply lookup_weaken).
    assert (Hcb : chnl ≠ buf) by congruence. assert (Hcp : chnl ≠ p) by congruence.
    assert (Hoc : out_ptr out ≠ Some chnl) by (by eapply fresh_ne).
    kstep. eapply wp_get_msg; [by rewrite Hh4, lookup_insert_eq|]. cbn beta. kstep. unfold put_msg.
    eapply wp_put; [by rewrite Hh4, lookup_insert_eq|]. kstep.
    eapply wp_eq; [eapply msgsend_block_run; [ks_simpl; rewrite lookup_insert_ne, Hh4, !lookup_insert_ne, opt_insert_ne, lookup_insert_ne, Hh3 by done; exact Hcv|ks_simpl; by rewrite lookup_insert_eq|done]|].
    kstep. exists p, buf, out, (receiver_chid (garbage_msg (ks_garbage s3))). split; [done|]. split; [done|]. split; [done|].
    assert (Hlow : forall q, q ≠ chnl -> with_vectors f h1 !! q = with_vectors f (ks_heap s) !! q).
    { intros q Hq. by rewrite <- Hvc, lookup_insert_ne. }
    assert (Hbufne : forall q, q ∈ [p; buf] -> out_ptr out ≠ Some q).
    { intros q [->|[->|[]%elem_of_nil]%elem_of_cons]%elem_of_cons; done. }
    split; [|split; [ks_simpl; rewrite Hid; exact (f_equal (fun n => i32 (n + 1)) Hid2)|split; [exact Hoom4|split]]].
    + unfold queued_vectors. cbn zeta. split_and!; [done| | | |done|].
      * intros q E. specialize (Hofv q E). by rewrite <- Hlow by congruence.
      * rewrite opt_insert_ne by (apply Hbufne; set_solver). by rewrite <- Hlow, <- Hh3 by congruence.
      * rewrite opt_insert_ne by (apply Hbufne; set_solver). by rewrite <- Hlow, <- Hh3 by congruence.
      * ks_simpl. rewrite Hh4, Hh3. unfold m0. change (ks_next_rcvid s3) with (ks_next_rcvid s2). rewrite Hid2. fold id.
        rewrite !(opt_insert_comm (out_ptr out)), <- Hvc by done.
        f_equal. clear -Hcp Hcb Hpb. heap_eq.
    + unfold rest in *. ks_simpl. injection Hrest4 as -> -> -> -> -> ->. by injection Hrest as -> -> -> -> -> ->.
    + intros q Hq. ks_simpl. specialize (Hf4 q Hq). assert (q ≠ p) by (intros ->; by rewrite Hh4, lookup_insert_eq in Hf4).
      assert (q ≠ chnl). { intros ->. rewrite Hh4, !lookup_insert_ne, opt_insert_ne, lookup_insert_ne, Hh3 in Hf4 by done. congruence. }
      by rewrite !lookup_insert_ne by done.
Qed.

(** allocating and reading the vectors *)
Lemma sendv_begin_spec s entry e cur addr :
  fresh_above s -> entries_ok s -> ks_heap s !! entry = Some (OProc e) -> table_ok (pe_connections e) ->
  let id := i32 (ks_next_rcvid s + 1) in
  wp (handle_msgsendv_begin entry cur addr) (fun '(r, f) s' =>
    match vectors_request s cur addr with
    | inl rc => r = Returned rc /\ unchanged s s'
    | inr (io, iov_in, iov_out, oom) =>
        match send_target s e (mv_coid io) with
        | None => r = Returned (- EBADF) /\ unchanged s s'
        | Some (conn, chnl) =>
            exists c, ks_heap s !! chnl = Some (OChan c) /\ 0 < ch_refcnt c /\
            match vectors_message s cur iov_in iov_out oom with
            | inl rc => r = Returned rc /\ rest s' = rest s /\
                ks_heap s' = <[chnl := OChan (set_ch_refcnt (ch_refcnt c + 1) c)]> (ks_heap s)
            | inr (bytes, oom') =>
                exists p buf out chid, r = Blocked chnl p /\ sv_out_iov f = iov_out /\ out_ok iov_out out /\
                  queued_vectors s' s f chnl p buf out c
                    (set_receiver_pid (pid conn) (vector_message id (pe_pid e) chid cur io iov_in iov_out buf out)) bytes /\
                  ks_next_rcvid s' = id /\ ks_oom s' = oom' /\
                  rest s' = (ks_user s, ks_entries s, ks_next_channel_id s, ks_params s,
                             {[tsk_pid cur]} ∪ ks_sleeping s, EvWakeUp chnl :: ks_trace s) /\ fresh_above s'
            end
        end
    end) s.
Proof.
  intros Hf Hok He Ht id. unfold handle_msgsendv_begin, vectors_request. ksteps.
  destruct (copy_from_user _ _ addr _) as [bs|]; cbn [option_map]; [|ksteps; split; [done|]; split_and!; try done; by left].
  set (io := c_dec c_io_msgsendv bs). kstep. eapply wp_mono; [by apply alloc_iovec_spec|].
  cbn beta. intros r1 s1 (Ha1 & [Hid1 _] & Hr1). destruct (vector_answer (mv_in_len io) (ks_oom s)) as [ok1 oom1].
  destruct Hr1 as [Hoom1 Hr1]. destruct ok1; cbn [negb orb].
  2: { destruct Hr1 as [-> Hh1]. kstep. destruct (vector_answer _ oom1). split; [done|]. by apply only_allocates_unchanged. }
  destruct Hr1 as (inp & -> & Hfi & Hh1). pose proof Ha1 as (Hrest1 & _ & Hf1).
  kstep. eapply wp_mono; [by apply alloc_iovec_spec|]. cbn beta. intros r2 s2 (Ha2 & [Hid2 _] & Hr2). rewrite Hoom1 in Hr2.
  destruct (vector_answer (mv_out_len io) oom1) as [ok2 oom2]. destruct Hr2 as [Hoom2 Hr2]. rewrite Hid1 in Hid2.
  pose proof (only_allocates_trans _ _ _ Ha1 Ha2) as Ha. destruct ok2; cbn [negb orb].
  2: { destruct Hr2 as [-> Hh2]. unfold QNX_FREE_IF_NOT. kstep. apply wp_kfree_opt.
       { intros q ->. rewrite Hh2, Hh1. cbn. rewrite lookup_insert_eq. eauto. }
       kstep. split; [done|]. destruct Ha as (Hr & Hn & _). split_and!; [|done|done|by left].
       ks_simpl. by rewrite Hh2, Hh1, opt_delete_insert. }
  destruct Hr2 as (outp & -> & Hfo & Hh2). rewrite Hh1 in Hfo, Hh2. set (f := SendvFrame inp outp []).
  assert (Hfv : fresh_vectors f (ks_heap s)) by done. assert (Hhv : ks_heap s2 = with_vectors f (ks_heap s)) by done.
  pose proof Ha as (Hrest & Hnext & Hf2). assert (Hu : ks_user s2 = ks_user s) by (by injection Hrest).
  assert (Hes : ks_entries s2 = ks_entries s) by (by injection Hrest).
  assert (Hsub : ks_heap s ⊆ ks_heap s2) by (rewrite Hhv; by apply with_vectors_subseteq).
  (* the errors after the allocations *)
  assert (Hfail : forall rc, wp (release_vectors f ;;; kret (Returned rc, SendvFrame None None []))
    (fun '(r, _) s' => r = Returned rc /\ unchanged s s') s2).
  { intros rc. eapply wp_mono; [by apply sendv_reject|]. cbn beta. intros [r f'] s' [-> ->]. split; [done|].
    split_and!; [done..|by left]. }
  unfold read_iovec. do 3 (kstep; cbn beta). rewrite Hu. kstep.
  destruct (copy_from_user _ _ (mv_in io) _) as [bi|]; cbn [option_map]; [|apply Hfail].
  do 3 (kstep; cbn beta). rewrite Hu. kstep.
  destruct (copy_from_user _ _ (mv_out io) _) as [bo|]; cbn [option_map]; [|apply Hfail].
  kstep. eapply wp_eq; [eapply find_connection_run; [by eapply lookup_weaken|done|by apply i32_range]|].
  unfold send_target. destruct (connections _ !! mv_coid io) as [conn|]; cbn [default Datatypes.id]; [|apply Hfail].
  destruct (QNX_CONN_IS_VALID conn); cbn [negb]; [|apply Hfail].
  kstep. eapply wp_of_run; [apply driver_find_channel_run; by eapply entries_ok_mono|].
  rewrite (lookup_channel_mono s s2) by done. destruct (lookup_channel s _ _) as [chnl|] eqn:Hl; [|apply Hfail].
  destruct (lookup_channel_Some _ _ _ _ Hok Hl) as (c & Hc & _ & Hr). rewrite (lookup_weaken _ _ _ _ Hc Hsub).
  eapply wp_mono; [by apply (sendv_queue_spec s s2 f entry e cur io _ _ oom2 conn chnl c)|]. cbn beta. intros [r f'] s' Hcase.
  exists c. split; [done|]. split; [done|]. destruct (vectors_message _ _ _ _ _) as [rc|[bytes oom']]; [done|].
  destruct Hcase as (p & buf & out & chid & -> & -> & Hoko & Hq & Hrestc). exists p, buf, out, chid. done.
Qed.

(** the gathered bytes are in the buffer of a queued message *)
Lemma queued_vectors_buffer s' s f chnl p buf out c m bytes :
  queued_vectors s' s f chnl p buf out c m bytes -> ks_heap s !! chnl = Some (OChan c) ->
  ks_heap s' !! buf = Some (OBuf bytes).
Proof.
  intros (Hfv & Hof & Hb & Hp & Hpb & ->) Hc.
  assert (Hcv : with_vectors f (ks_heap s) !! chnl = Some (OChan c)) by (eapply lookup_weaken; [done|by apply with_vectors_subseteq]).
  rewrite opt_insert_ne in Hb by (intros E; rewrite E in Hb; cbn in Hb; by rewrite lookup_insert_eq in Hb).
  assert (chnl ≠ buf) by congruence. rewrite !lookup_insert_ne, lookup_insert_eq by done. done.
Qed.

(** ** The return of a vectored send *)

Lemma sendv_teardown_spec s h p m b buf bytes reply out f t (rc : Z) :
  holds_vectors f p buf out m bytes reply h (ks_heap s) -> data m = DMsg b -> task m = Some t ->
  mb_in_base b = InKernel buf -> mb_out_base b = out -> (out_ptr out = None -> out = OutUser 0) ->
  wp (qnx_internal_msgsend_destroyv p ;;; end_frame p ;;; release_vectors f ;;; kret rc) (fun rc' s' =>
    rc' = rc /\ s' = upd_heap (fun _ => h) s) s.
Proof.
  intros (Hfv & Hof & Hb & Hp & Hpb & Hx & Hh) Hd Ht Hin Hout Hnull. set (hv := opt_insert (out_ptr out) _ _) in *.
  assert (Hxb : reply_base m ≠ Some buf) by (intros E; by destruct (Hx _ E) as (_ & ? & _)).
  assert (Hxp : reply_base m ≠ Some p) by (intros E; by destruct (Hx _ E) as (_ & _ & ?)).
  assert (Hop : out_ptr out ≠ Some p).
  { intros E. unfold hv in Hp. rewrite E in Hp. cbn in Hp. by rewrite lookup_insert_eq in Hp. }
  assert (Hox : forall q, out_ptr out = Some q -> reply_base m ≠ Some q).
  { intros q E E'. destruct (Hx _ E') as (Hq & _). unfold hv in Hq. rewrite E in Hq. cbn in Hq. by rewrite lookup_insert_eq in Hq. }
  unfold qnx_internal_msgsend_destroyv, body_of. kstep. kstep.
  eapply wp_get_msg; [by rewrite Hh, lookup_insert_eq|]. rewrite Ht, Hd. kstep. kstep. rewrite Hin, Hout. cbn [kfree_in]. kstep.
  eapply wp_kfree; [rewrite Hh, lookup_insert_ne, opt_insert_ne by done; apply lookup_insert_eq|].
  assert (H1 : delete buf (ks_heap s) = <[p := OMsg m]> (opt_insert (reply_base m) (OBuf reply) hv)).
  { rewrite Hh, delete_insert_ne, opt_insert_delete_comm, delete_insert_id by done. done. }
  kstep. assert (Hko : forall s1 Q, ks_heap s1 = <[p := OMsg m]> (opt_insert (reply_base m) (OBuf reply) hv) ->
    Q tt (upd_heap (opt_delete (out_ptr out)) s1) -> wp (kfree_out out) Q s1).
  { intros s1 Q Hs1 HQ. destruct out as [a|o]; cbn.
    - injection (Hnull eq_refl) as ->. apply wp_ret. by rewrite (upd_heap_id (fun h => h)) in HQ.
    - eapply wp_kfree; [|exact HQ]. rewrite Hs1, lookup_insert_ne, opt_insert_ne by (first [by apply Hox|cbn in *; congruence]).
      unfold hv. cbn. apply lookup_insert_eq. }
  apply Hko; [ks_simpl; exact H1|].
  assert (H2 : opt_delete (out_ptr out) (<[p := OMsg m]> (opt_insert (reply_base m) (OBuf reply) hv)) =
    <[p := OMsg m]> (opt_insert (reply_base m) (OBuf reply) (with_vectors f h))).
  { rewrite opt_delete_insert_ne, opt_delete_opt_insert_ne by done. unfold hv. by rewrite opt_delete_insert. }
  assert (Hwv : forall q, hv !! q = None -> with_vectors f h !! q = None).
  { intros q Hq. unfold hv in Hq. destruct (decide (out_ptr out = Some q)) as [E|E]; [by apply Hof|by rewrite opt_insert_ne in Hq]. }
  apply wp_kfree_opt.
  { intros q E. ks_simpl. rewrite H1, H2. rewrite lookup_insert_ne by congruence. rewrite E. cbn. rewrite lookup_insert_eq. eauto. }
  kstep. unfold end_frame. eapply wp_kfree; [ks_simpl; rewrite H1, H2, opt_delete_insert_ne by done; apply lookup_insert_eq|].
  assert (H3 : delete p (opt_delete (reply_base m) (<[p := OMsg m]> (opt_insert (reply_base m) (OBuf reply) (with_vectors f h)))) = with_vectors f h).
  { rewrite opt_delete_insert_ne, opt_delete_insert by (first [done|intros q E; apply Hwv; by apply Hx]). rewrite delete_insert_id; [done|by apply Hwv]. }
  kstep. eapply wp_mono; [apply (release_vectors_spec _ f h); [ks_simpl; by rewrite H1, H2, H3|done]|].
  cbn beta. intros _ s' ->. by kstep.
Qed.

(** an object of the old heap changes below those of the send *)
Lemma holds_vectors_insert f p buf out m bytes reply h h' q o o' :
  holds_vectors f p buf out m bytes reply h h' -> h !! q = Some o ->
  holds_vectors f p buf out m bytes reply (<[q := o']> h) (<[q := o']> h') /\ h' !! q = Some o.
Proof.
  intros (Hfv & Hof & Hb & Hp & Hpb & Hx & Hh) Hq. set (hv := opt_insert (out_ptr out) _ _) in *.
  destruct (with_vectors_insert f h q o o' Hfv Hq) as [Hw Hfv'].
  assert (Hqv : with_vectors f h !! q = Some o) by (eapply lookup_weaken; [done|by apply with_vectors_subseteq]).
  assert (Hoq : out_ptr out ≠ Some q) by (by eapply fresh_ne).
  assert (Hqh : hv !! q = Some o) by (unfold hv; by rewrite opt_insert_ne).
  assert (Hv' : opt_insert (out_ptr out) ORaw (with_vectors f (<[q := o']> h)) = <[q := o']> hv).
  { unfold hv. by rewrite <- Hw, opt_insert_comm. }
  assert (q ≠ p) by congruence. assert (q ≠ buf) by congruence.
  assert (Hxq : reply_base m ≠ Some q) by (intros E; destruct (Hx _ E) as (? & _); congruence).
  split; [|by rewrite Hh, lookup_insert_ne, opt_insert_ne, lookup_insert_ne].
  unfold holds_vectors. rewrite Hv'. cbn zeta. split_and!; try done.
  - intros r E. rewrite <- Hw, lookup_insert_ne by congruence. by apply Hof.
  - by rewrite lookup_insert_ne.
  - by rewrite lookup_insert_ne.
  - intros x E. destruct (Hx x E) as (? & ? & ?). rewrite lookup_insert_ne by congruence. done.
  - rewrite Hh, insert_insert_ne, opt_insert_comm, (insert_insert_ne _ q buf) by done. done.
Qed.

(** from the wake-up of a vectored sender to its return *)
Lemma sendv_finish_spec s h chnl p cur f sleep c m b buf bytes reply out t rc u :
  holds_vectors f p buf out m bytes reply h (ks_heap s) ->
  h !! chnl = Some (OChan c) -> 1 < ch_refcnt c -> data m = DMsg b -> task m = Some t ->
  mb_in_base b = InKernel buf -> mb_out_base b = out -> (out_ptr out = None -> out = OutUser 0) ->
  (reply_base m = None -> reply_len m = 0) -> interruption b sleep = None ->
  sendv_result s cur b (sv_out_iov f) m = Some (rc, u) ->
  wp (handle_msgsendv_finish chnl p cur f sleep) (fun rc' s' =>
    rc' = rc /\ ks_user s' = u /\ ks_heap s' = <[chnl := OChan (set_ch_refcnt (ch_refcnt c - 1) c)]> h /\
    ks_entries s' = ks_entries s /\ ks_sleeping s' = ks_sleeping s) s.
Proof.
  intros Hv Hc Hr Hd Ht Hin Hout Hnull Hrl Hsl Hres. set (c' := set_ch_refcnt (ch_refcnt c - 1) c).
  destruct (holds_vectors_insert _ _ _ _ _ _ _ _ _ _ _ (OChan c') Hv Hc) as [Hv' Hc1].
  assert (Hpm : ks_heap s !! p = Some (OMsg m)) by (destruct Hv as (_ & _ & _ & _ & _ & _ & ->); apply lookup_insert_eq).
  assert (Hpc : p ≠ chnl) by congruence.
  unfold handle_msgsendv_finish, handle_msgsend_resume, body_of. ksteps. rewrite Hd. ksteps.
  unfold interruption in Hsl. destruct (_ && (sl_left sleep =? 0)); [done|]. destruct (sl_signal sleep); [done|]. ksteps.
  eapply wp_eq; [by eapply channel_release_run|]. fold c'. set (s1 := upd_heap _ s). ksteps.
  eapply wp_get_msg; [unfold s1; ks_simpl; by rewrite lookup_insert_ne|]. rewrite Hd. ksteps.
  unfold sendv_result in Hres. destruct (_ && _) eqn:Hcond.
  - assert (Hlen : 0 < reply_len m) by lia. destruct (reply_base m) as [x|] eqn:Hrb; [|specialize (Hrl eq_refl); lia].
    assert (Hx : ks_heap s !! x = Some (OBuf reply) /\ x ≠ chnl).
    { destruct Hv as (_ & _ & Hb & Hp & Hpb & Hx & Hh). destruct (Hx x Hrb) as (Hxv & ? & ?). rewrite Hrb in Hh. cbn in Hh.
      assert (Hxs : ks_heap s !! x = Some (OBuf reply)) by (rewrite Hh, lookup_insert_ne by done; apply lookup_insert_eq).
      split; [done|congruence]. }
    destruct Hx as [Hx Hxc]. unfold reply_of in Hres. rewrite Hrb, Hx in Hres.
    unfold reply_bytes. rewrite Hrb. kstep. eapply wp_get_buf; [unfold s1; ks_simpl; by rewrite lookup_insert_ne|]. cbn beta. ksteps.
    change (ks_user s1) with (ks_user s). destruct (memcpy_toiovec _ _ _ _ _) as [[rc' u']|]; [|done]. injection Hres as <- <-.
    do 2 (kstep; cbn beta). kstep. eapply wp_mono; [eapply (sendv_teardown_spec _ _ p m b buf bytes reply out f t); try done; exact Hv'|].
    cbn beta. intros rc2 s' [-> ->]. done.
  - injection Hres as <- <-. kstep. eapply wp_mono; [eapply (sendv_teardown_spec _ _ p m b buf bytes reply out f t); try done; exact Hv'|].
    cbn beta. intros rc2 s' [-> ->]. done.
Qed.

(** from the pending message to the return of the vectored sender *)
Lemma reply_returnv_spec s h entryR eR chnl c f p m b buf out bytes reply tS tR io sleep oom2 u3 :
  let h1 := <[chnl := OChan (set_ch_refcnt (ch_refcnt c + 1) c)]> h in
  let hv := opt_insert (out_ptr out) ORaw (with_vectors f h1) in
  ks_heap s = <[p := OMsg m]> (<[buf := OBuf bytes]> (<[entryR := OProc (set_pending (p :: pending eR) eR)]> hv)) ->
  fresh_vectors f h1 -> opt_fresh (out_ptr out) (with_vectors f h1) -> hv !! buf = None -> hv !! p = None -> p ≠ buf ->
  h !! entryR = Some (OProc eR) -> entry_ok h eR -> h !! chnl = Some (OChan c) -> 0 < ch_refcnt c -> fresh_above s ->
  data m = DMsg b -> task m = Some tS -> mb_in_base b = InKernel buf -> mb_out_base b = out -> is_Some (out_ptr out) ->
  rcvid m = rp_rcvid io -> 0 < mb_out_len b -> 0 < iov_len (rp_in io) ->
  kmalloc_answer (ks_oom s) = (true, oom2) ->
  copy_from_user (ks_user s) (tsk_tgid tR) (iov_base (rp_in io)) (iov_len (rp_in io)) = Some reply ->
  0 <= rp_status io -> interruption b sleep = None ->
  memcpy_toiovec (ks_user s) (tsk_tgid tS) (sv_out_iov f) reply (i32 (Z.min (mb_out_len b) (iov_len (rp_in io)))) = Some (0, u3) ->
  wp (let! rc2 := handle_msgreply entryR tR io in
      let! rc3 := handle_msgsendv_finish chnl p tS f sleep in kret (rc2, rc3)) (fun '(rc2, rc3) s' =>
    rc2 = 0 /\ rc3 = rp_status io /\ ks_user s' = u3 /\ tsk_pid tS ∉ ks_sleeping s' /\
    ks_entries s' = ks_entries s /\ ks_heap s' = h) s.
Proof.
  intros h1 hv Hh Hfv Hof Hbuf Hp Hpb He Hok Hc Hr Hfr Hd Ht Hin Hout Hos Hid Hol Hrl Hk Hrep Hst Hsl Hw.
  assert (Hec : entryR ≠ chnl) by congruence.
  assert (Hup : forall q o, h1 !! q = Some o -> hv !! q = Some o).
  { intros q o Hq. eapply lookup_weaken; [exact Hq|]. etrans; [by apply with_vectors_subseteq|by apply opt_insert_subseteq]. }
  assert (Hh1e : h1 !! entryR = Some (OProc eR)) by (unfold h1; by rewrite lookup_insert_ne).
  assert (Hh1c : h1 !! chnl = Some (OChan (set_ch_refcnt (ch_refcnt c + 1) c))) by apply lookup_insert_eq.
  pose proof (Hup _ _ Hh1e) as Hve. assert (p ≠ entryR) by congruence. assert (buf ≠ entryR) by congruence.
  kstep. eapply wp_mono; [eapply (reply_pending_spec _ _ _ p m b); try done|].
  { rewrite Hh. apply lookup_insert_eq. }
  { rewrite Hh, !lookup_insert_ne by done. apply lookup_insert_eq. }
  { intros q Hq. destruct (entry_ok_msgs _ _ q Hok Hq) as [mq Hmq].
    assert (Hq1 : h1 !! q = Some (OMsg mq)) by (unfold h1; rewrite lookup_insert_ne by congruence; done).
    pose proof (Hup _ _ Hq1). split; [congruence|]. exists mq. rewrite Hh, !lookup_insert_ne by congruence. done. }
  { by apply fresh_next. }
  { rewrite Hout. destruct out as [a|o]; [by destruct Hos|done]. }
  cbn beta. intros rc2 s3 (-> & Hsl3 & Hu3 & Hes3 & x & m' & Hxs & Hd' & Ht' & Hst' & Hrb & Hrl' & Hh3).
  pose proof (copy_from_user_length _ _ _ _ _ Hrep) as [Hreplen _].
  rewrite Hh in Hxs. apply lookup_insert_None in Hxs as [Hxs Hxp]. apply lookup_insert_None in Hxs as [Hxs Hxb].
  apply lookup_insert_None in Hxs as [Hxs Hxe].
  assert (Hholds : holds_vectors f p buf out m' bytes reply h1 (ks_heap s3)).
  { unfold holds_vectors. fold hv. split_and!; try done.
    - intros y Hy. rewrite Hrb in Hy. injection Hy as <-. done.
    - rewrite Hh3, Hh, Hrb. cbn. rewrite <- (insert_id hv entryR _ Hve) at 2. clear - Hpb Hxp Hxb Hxe H H0. heap_eq. }
  assert (Hrof : reply_of (ks_heap s3) m' = reply).
  { unfold reply_of. rewrite Hrb, Hh3, lookup_insert_ne, lookup_insert_eq by done. done. }
  kstep. eapply wp_mono; [eapply (sendv_finish_spec _ h1 _ _ _ _ _ (set_ch_refcnt (ch_refcnt c + 1) c) m' b buf bytes reply out tS (rp_status io) u3)|].
  all: try congruence; try done.
  - cbn. lia.
  - intros E. rewrite E in Hos. by destruct Hos.
  - unfold sendv_result. rewrite Hst', Hrl', Hrof, Hu3, Hw.
    assert (rp_status io >=? 0 = true) as -> by lia. assert (iov_len (rp_in io) >? 0 = true) as -> by lia. done.
  - cbn beta. intros rc3 s4 (-> & Hu4 & Hh4 & Hes4 & Hsl4). kstep. split_and!; try done; [by rewrite Hsl4|by rewrite Hes4|].
    rewrite Hh4. unfold h1. rewrite insert_insert_eq. apply insert_id. rewrite Hc. do 2 f_equal. destruct c. unfold set_ch_refcnt. cbn. f_equal. lia.
Qed.

(** what a vector holds when nothing overflows *)
Lemma iov_length_total iov : iov_ok iov -> iov_total iov <= INT_MAX -> iov_length iov = iov_total iov.
Proof.
  induction iov as [|v iov IH]; [done|]. intros [Hv Hok]%Forall_cons Hmax. rewrite iov_total_cons in *.
  pose proof (iov_total_nonneg _ Hok). cbn [iov_length foldr]. fold (iov_length iov). rewrite IH by (done || lia).
  apply u64_id. unfold INT_MAX in *. lia.
Qed.

Lemma vectors_message_bytes s cur iov_in iov_out oom bytes oom' :
  vectors_message s cur iov_in iov_out oom = inr (bytes, oom') -> iov_ok iov_in -> iov_total iov_in <= INT_MAX ->
  gather (ks_user s) (tsk_tgid cur) (iov_ranges iov_in (iov_total iov_in)) = Some bytes /\
  Z.of_nat (length bytes) = iov_total iov_in /\ Forall is_byte bytes.
Proof.
  intros Hmsg Hin Hint. pose proof (iov_length_total _ Hin Hint) as Hinl. pose proof (iov_total_nonneg _ Hin) as Hin0.
  unfold vectors_message in Hmsg. rewrite Hinl, i32_id in Hmsg by (unfold_int; lia).
  destruct (kmalloc_answer oom) as [ok1 o1]. destruct (if iov_length iov_out >? 0 then _ else _) as [ok2 o2].
  destruct (negb ok1 || negb ok2); [done|].
  destruct (fromiovec_total (ks_user s) (tsk_tgid cur) iov_in (iov_total iov_in)) as (rc & bs & Hg & Hres).
  { pose proof (length_le_u32_total iov_in) as H. rewrite Hinl, i32_id in H by (unfold_int; lia). done. } { done. }
  destruct (fromiovec_gather (ks_user s) (tsk_tgid cur) iov_in (iov_total iov_in)) as [part Hg']; [done|lia|lia|].
  rewrite Hg in Hmsg, Hg'. destruct (Z.eqb_spec rc 0) as [->|]; [|done]. injection Hmsg as -> ->.
  destruct Hres as [?|(_ & Hl & Hb)]; [done|]. destruct (gather _ _ _); [|done]. injection Hg' as <-.
  split_and!; [done|lia|done].
Qed.

(** ** Vectored sends without reply *)

(** from the channel to the end, for a call that is queued or given up *)
Lemma noreplyv_queue_spec s s2 inp cur io iov_in oom pd rpid chnl c signals :
  let id := ks_next_rcvid s + 1 in
  let gathered := memcpy_fromiovec (ks_user s) (tsk_tgid cur) iov_in (i32 (iov_length iov_in)) in
  let c1 := set_ch_refcnt (ch_refcnt c + 1) c in
  only_allocates s s2 -> ks_next_rcvid s2 = ks_next_rcvid s -> ks_oom s2 = oom ->
  opt_fresh inp (ks_heap s) -> ks_heap s2 = opt_insert inp ORaw (ks_heap s) ->
  ks_heap s !! chnl = Some (OChan c) -> has_room s c -> qnx_max_noreply_msg_num (ks_params s) <= INT_MAX ->
  0 < id <= INT_MAX -> i32 (ks_garbage s2) ≠ 0 ->
  wp (let! (rc, snddata) := qnx_internal_msgsend_init_noreplyv cur io iov_in pd in
      if negb (rc =? 0) then QNX_FREE_IF_NOT inp ;;; kret rc
      else
        match snddata with
        | None => koops NullAccess
        | Some p =>
            let! m := get_msg p in
            put_msg p (set_receiver_pid rpid m) ;;;
            let! rc := busy_loop_add_new_message chnl p signals in
            qnx_channel_release chnl ;;;
            QNX_FREE_IF_NOT inp ;;;
            kret rc
        end) (fun rc s' =>
    if iov_length iov_in >? qnx_max_noreply_msg_size (ks_params s)
    then rc = - EINVAL /\ ks_heap s' = <[chnl := OChan c1]> (ks_heap s)
    else let '(ok, _) := kmalloc_answer oom in
         if negb ok then rc = - ENOMEM /\ ks_heap s' = <[chnl := OChan c1]> (ks_heap s)
         else match gathered with
              | Some (0, bytes) =>
                  rc = 0 /\ exists p, ks_heap s !! p = None /\
                  ks_heap s' = <[chnl := OChan (Channel (ch_refcnt c) (ch_chid c) (waiting c ++ [p]) (num_waiting c + 1) (num_waiting_noreply c + 1))]>
                    (<[p := OMsg (queued_noreplyv id pd rpid (ch_chid c) io iov_in bytes)]> (ks_heap s))
              | _ => rc = i32 (ks_garbage s2) /\ ks_heap s' = <[chnl := OChan c1]> (ks_heap s)
              end) (upd_heap <[chnl := OChan c1]> s2).
Proof.
  intros id gathered c1 (Hrest & _ & Hf2) Hid Hoom Hfi Hh2 Hc (Hr & Hnr & Hnw) Hmax Hidr Hg. set (s3 := upd_heap _ s2).
  assert (Hic : inp ≠ Some chnl) by (by eapply fresh_ne).
  assert (Hh3 : ks_heap s3 = opt_insert inp ORaw (<[chnl := OChan c1]> (ks_heap s))).
  { unfold s3. ks_simpl. by rewrite Hh2, opt_insert_comm. }
  assert (Hfi1 : forall o, opt_fresh inp (<[chnl := o]> (ks_heap s))).
  { intros o q E. rewrite lookup_insert_ne by congruence. by apply Hfi. }
  assert (Hu : ks_user s2 = ks_user s) by (by injection Hrest). assert (Hpar : ks_params s2 = ks_params s) by (by injection Hrest).
  (* giving up *)
  assert (Hfail : forall s4 rc (Q : Z -> kstate M -> Prop), ks_heap s4 = ks_heap s3 ->
    (forall s', ks_heap s' = <[chnl := OChan c1]> (ks_heap s) -> Q rc s') -> wp (QNX_FREE_IF_NOT inp ;;; kret rc) Q s4).
  { intros s4 rc Q Hs4 HQ. unfold QNX_FREE_IF_NOT. kstep. apply wp_kfree_opt.
    { intros q ->. rewrite Hs4, Hh3. cbn. rewrite lookup_insert_eq. eauto. }
    kstep. apply HQ. ks_simpl. by rewrite Hs4, Hh3, opt_delete_insert. }
  unfold qnx_internal_msgsend_init_noreplyv. do 3 (kstep; cbn beta). change (ks_params s3) with (ks_params s2). rewrite Hpar.
  destruct (iov_length iov_in >? _) eqn:Hsz; [kstep; apply Hfail; [done|]; intros s' ->; done|].
  kstep. change (ks_oom s2) with (ks_oom s3) in Hoom. rewrite <- Hoom. destruct (kmalloc_answer (ks_oom s3)) as [[] oom'] eqn:Hk; cbn [negb].
  2: { eapply wp_kmalloc_fail; [done|]. kstep. apply Hfail; [done|]. intros s' ->. done. }
  eapply wp_kmalloc; [done|]. cbn beta iota. do 4 (kstep; cbn beta). change (ks_user _) with (ks_user s2). rewrite Hu. fold gathered.
  set (p := ks_next s3). change (ks_garbage (upd_oom _ _)) with (ks_garbage s2).
  assert (Hp2 : ks_heap s2 !! p = None) by (apply Hf2; unfold p, s3; ks_simpl; lia).
  assert (Hp : ks_heap s !! p = None /\ inp ≠ Some p).
  { rewrite Hh2 in Hp2. destruct (decide (inp = Some p)) as [E|E]; [rewrite E in Hp2; cbn in Hp2; by rewrite lookup_insert_eq in Hp2|].
    by rewrite opt_insert_ne in Hp2. }
  destruct Hp as [Hp Hip]. assert (Hcp : chnl ≠ p) by congruence.
  assert (Hp3 : ks_heap s3 !! p = None) by (unfold s3; ks_simpl; by rewrite lookup_insert_ne).
  destruct (fromiovec_total (ks_user s) (tsk_tgid cur) iov_in (i32 (iov_length iov_in))) as (rc & bytes & Hgt & Hrc).
  { apply length_le_u32_total. } { apply i32_range. } fold gathered in Hgt. rewrite Hgt. destruct Hrc as [->|(-> & _)].
  - change (negb (- EFAULT =? 0)) with true. cbn iota. kstep. eapply wp_kfree; [ks_simpl; by rewrite lookup_insert_eq|]. kstep.
    destruct (Z.eqb_spec (i32 (ks_garbage s2)) 0); [done|]. cbn [negb]. apply Hfail; [ks_simpl; by rewrite delete_insert_id|].
    intros s' ->. done.
  - change (negb (0 =? 0)) with false. cbn iota. unfold get_new_rcvid. ksteps. change (negb (0 =? 0)) with false. cbn iota. ksteps.
    change (ks_next_rcvid _) with (ks_next_rcvid s2). rewrite Hid, i32_id by (unfold_int; lia). fold id.
    eapply wp_mono; [eapply busy_loop_accepted with (c := c1); ks_simpl|].
    + rewrite !lookup_insert_ne by done. unfold s3. ks_simpl. apply lookup_insert_eq.
    + apply lookup_insert_eq.
    + unfold is_noreply. cbn. by assert (id =? 0 = false) as -> by lia.
    + cbn. change (ks_params s3) with (ks_params s2). by rewrite Hpar.
    + change (ks_params s3) with (ks_params s2). by rewrite Hpar.
    + done.
    + cbn beta. ks_simpl. intros rc s4 (-> & _ & _ & Hh4). kstep.
      eapply wp_eq; [eapply channel_release_run; [by rewrite Hh4, lookup_insert_eq|cbn; lia]|].
      set (cq := Channel _ _ _ _ _) in *. set (mq := set_receiver_chid _ _) in *.
      assert (Hh5 : ks_heap (upd_heap <[chnl := OChan (set_ch_refcnt (ch_refcnt cq - 1) cq)]> s4) =
        opt_insert inp ORaw (<[chnl := OChan (set_ch_refcnt (ch_refcnt cq - 1) cq)]> (<[p := OMsg mq]> (ks_heap s)))).
      { ks_simpl. rewrite Hh4, Hh3. rewrite !(opt_insert_comm inp) by done. f_equal. clear -Hcp. heap_eq. }
      unfold QNX_FREE_IF_NOT. kstep. apply wp_kfree_opt.
      { intros q ->. rewrite Hh5. cbn. rewrite lookup_insert_eq. eauto. }
      kstep. split; [done|]. exists p. split; [done|]. change (ks_heap (upd_heap (opt_delete inp) ?x)) with (opt_delete inp (ks_heap x)).
      rewrite Hh5, opt_delete_insert.
      * unfold cq, set_ch_refcnt. cbn. do 2 f_equal. f_equal. lia.
      * intros q E. rewrite !lookup_insert_ne by congruence. by apply Hfi.
Qed.

End VectorSendLemmas.

(** ** Properties *)


(** C20: MsgSendv up to the sleep, on every path.  A structure or vector that
    cannot be read is [-EFAULT], no memory for a vector [-ENOMEM], a connection
    that does not exist [-EBADF], and then everything that was allocated is free
    again.  When the buffers of the message cannot be had, or the gather fails, the
    call returns the error too, but the channel keeps the reference that was taken
    for the call.  Otherwise the message, with the gathered bytes, is at the end of
    the queue and the sender sleeps. *)
Theorem msgsendv_queues {M : Type} `{!UserMem M} `{!UserMemLaws M} (s : kstate M) (entry : ptr) (e : qnx_process_entry)
    (cur : task_struct) (addr : Z) :
  fresh_above s -> entries_ok s -> ks_heap s !! entry = Some (OProc e) -> table_ok (pe_connections e) ->
  let id := i32 (ks_next_rcvid s + 1) in
  wp (handle_msgsendv_begin entry cur addr) (fun '(r, f) s' =>
    match vectors_request s cur addr with
    | inl rc => r = Returned rc /\ unchanged s s'
    | inr (io, iov_in, iov_out, oom) =>
        match send_target s e (mv_coid io) with
        | None => r = Returned (- EBADF) /\ unchanged s s'
        | Some (conn, chnl) =>
            exists c, ks_heap s !! chnl = Some (OChan c) /\ 0 < ch_refcnt c /\
            match vectors_message s cur iov_in iov_out oom with
            | inl rc => r = Returned rc /\ rest s' = rest s /\
                ks_heap s' = <[chnl := OChan (set_ch_refcnt (ch_refcnt c + 1) c)]> (ks_heap s)
            | inr (bytes, oom') =>
                exists p buf out chid, r = Blocked chnl p /\ sv_out_iov f = iov_out /\ out_ok iov_out out /\
                  queued_vectors s' s f chnl p buf out c
                    (set_receiver_pid (pid conn) (vector_message id (pe_pid e) chid cur io iov_in iov_out buf out)) bytes /\
                  ks_next_rcvid s' = id /\ ks_oom s' = oom' /\
                  rest s' = (ks_user s, ks_entries s, ks_next_channel_id s, ks_params s,
                             {[tsk_pid cur]} ∪ ks_sleeping s, EvWakeUp chnl :: ks_trace s) /\ fresh_above s'
            end
        end
    end) s.
Proof. exact (sendv_begin_spec s entry e cur addr). Qed.

(** C3: a whole rendezvous with vectors is one with the MsgSend of the same bytes.
    When the copies work, the receiver finds the concatenation of the sender's
    buffers, up to its own, in a structure that is the same as for [plain_send];
    the sender finds the reply scattered over its vector, byte for byte; the three
    calls return as in a rendezvous without vectors; and every kernel object is as
    before, with all arrays and buffers freed. *)
Theorem vectored_rendezvous_delivers {M : Type} `{!UserMem M} `{!UserMemLaws M} (s : kstate M)
    (entryS entryR chnl : ptr) (eS eR : qnx_process_entry) (tS tR : task_struct) (addrS addrR wait : Z)
    (serve : M -> M) (io : qnx_io_reply) (sleep : sleep_result) (ms : qnx_io_msgsendv) (iov_in iov_out : list iovec)
    (bytes bs reply : list Z) (oom1 oom2 oom3 : list bool) (conn : qnx_connection) (c : qnx_channel) (u1 u3 : M) :
  fresh_above s -> entries_ok s ->
  ks_heap s !! entryS = Some (OProc eS) -> table_ok (pe_connections eS) ->
  ks_heap s !! entryR = Some (OProc eR) -> entry_ok (ks_heap s) eR ->
  (* the send *)
  vectors_request s tS addrS = inr (ms, iov_in, iov_out, oom1) ->
  vectors_message s tS iov_in iov_out oom1 = inr (bytes, oom2) ->
  iov_ok iov_in -> iov_total iov_in <= INT_MAX -> iov_ok iov_out -> 0 < iov_total iov_out <= INT_MAX ->
  send_target s eS (mv_coid ms) = Some (conn, chnl) ->
  ks_heap s !! chnl = Some (OChan c) -> waiting c = [] -> 0 <= num_waiting c < INT_MAX ->
  let id := i32 (ks_next_rcvid s + 1) in
  let plain := plain_send ms iov_in iov_out in
  0 < id ->
  (* the receive *)
  copy_from_user (ks_user s) (tsk_tgid tR) addrR (Z.of_nat (c_size c_io_receive)) = Some bs ->
  let recv := c_dec c_io_receive bs in
  entry_channel (ks_heap s) eR (rv_chid recv) = Some chnl -> 0 <= wait ->
  receive_copies s tR addrR recv c (sent_message s eS tS plain conn c) (sent_body s plain) bytes 0 = (u1, true) ->
  (* the reply *)
  rp_rcvid io = id -> 0 <= rp_status io -> 0 < iov_len (rp_in io) -> kmalloc_answer oom2 = (true, oom3) ->
  copy_from_user (serve u1) (tsk_tgid tR) (iov_base (rp_in io)) (iov_len (rp_in io)) = Some reply ->
  (* the return of the sender *)
  interruption (sent_body s plain) sleep = None ->
  let n := Z.min (iov_total iov_in) (iov_len (rv_out recv)) in
  let k := Z.min (iov_total iov_out) (iov_len (rp_in io)) in
  ranges_disjoint (iov_ranges iov_out k) ->
  memcpy_toiovec (serve u1) (tsk_tgid tS) iov_out reply k = Some (0, u3) ->
  wp (vectored_rendezvous entryS entryR tS tR addrS addrR wait serve io sleep) (fun r s' =>
    r = Some (id, 0, rp_status io) /\
    gather (ks_user s) (tsk_tgid tS) (iov_ranges iov_in (iov_total iov_in)) = Some bytes /\
    (disjoint_ranges (iov_base (rv_out recv)) n addrR (Z.of_nat (c_size c_io_receive)) ->
     copy_from_user u1 (tsk_tgid tR) (iov_base (rv_out recv)) n = Some (take (Z.to_nat n) bytes)) /\
    ks_user s' = u3 /\
    gather u3 (tsk_tgid tS) (iov_ranges iov_out k) = Some (take (Z.to_nat k) reply) /\
    tsk_pid tS ∉ ks_sleeping s' /\ ks_entries s' = ks_entries s /\ ks_heap s' = ks_heap s) s.
Proof.
  intros Hf Hok HeS HtS HeR HokR Hreq Hmsg Hin Hint Hout Houtt Htgt Hc Hw Hnw id plain Hid Hbs recv Hch Hwait Hrcv Hrid Hst Hrlen Hk3 Hrep Hsl n k Hdis Hcp3.
  pose proof (iov_length_total _ Hin Hint) as Hinl. pose proof (iov_length_total _ Hout ltac:(lia)) as Houtl.
  pose proof (iov_total_nonneg _ Hin) as Hin0. pose proof (copy_from_user_length _ _ _ _ _ Hrep) as [Hreplen Hrepb].
  destruct (vectors_message_bytes _ _ _ _ _ _ _ Hmsg Hin Hint) as (Hgather & Hblen & Hbb).
  unfold vectored_rendezvous. kstep. eapply wp_mono; [by eapply sendv_begin_spec|]. cbn beta. rewrite Hreq, Htgt.
  intros [r f] s1 (c' & Hc' & Hr & Hcase). rewrite Hc in Hc'. injection Hc' as <-. rewrite Hmsg in Hcase.
  destruct Hcase as (p & buf & out & chid & -> & Hfo & Hoko & (Hfv & Hof & Hbuf & Hp & Hpb & Hh1) & Hn1 & Hoom1 & Hre1 & Hf1).
  set (m := set_receiver_chid _ _) in *. set (b := MsgBody (mv_coid ms) (mv_timeout_ms ms) (InKernel buf) (iov_length iov_in) out (iov_length iov_out)).
  set (hv := opt_insert (out_ptr out) ORaw (with_vectors f (ks_heap s))) in *.
  assert (Hu1 : ks_user s1 = ks_user s) by (by injection Hre1). assert (Hes1 : ks_entries s1 = ks_entries s) by (by injection Hre1).
  assert (Hsub : ks_heap s ⊆ hv) by (etrans; [by apply with_vectors_subseteq|by apply opt_insert_subseteq]).
  destruct (blocked_receives s s1 hv entryR eR tR addrR bs chnl c p buf m bytes) as [Hrs Hbuf1]; try done.
  kstep. eapply wp_mono; [eapply (receive_message_spec _ _ _ _ buf _ _ tS _ _ _ _ _ _ b bytes Hrs); try done|].
  { cbn. by rewrite Hinl. }
  cbn beta. replace (receive_copies s1 tR addrR (c_dec c_io_receive bs) (with_message p c) m b bytes 0) with (u1, true)
    by (rewrite <- Hrcv; unfold receive_copies; by rewrite Hu1).
  intros rc1 s2 (Hu2 & Hal & -> & Hsl2 & Hh2). kstep. kstep. injection Hal as Hes2 Hn2 Ho2.
  pose proof (lookup_weaken _ _ _ _ Hc Hsub) as Hcv. pose proof (lookup_weaken _ _ _ _ HeR Hsub) as Hev.
  assert (Hcp : chnl ≠ p) by congruence. assert (Hcb : chnl ≠ buf) by congruence. assert (Hec : entryR ≠ chnl) by congruence.
  assert (Hep : entryR ≠ p) by congruence. assert (Heb : entryR ≠ buf) by congruence.
  assert (Hoc : out_ptr out ≠ Some chnl) by (eapply fresh_ne; [exact Hof|]; eapply lookup_weaken; [exact Hc|by apply with_vectors_subseteq]).
  set (c1 := set_ch_refcnt (ch_refcnt c + 1) c).
  assert (Hback : without_first [] m (with_message p c) = c1).
  { unfold without_first, with_message, c1, set_ch_refcnt. cbn. rewrite andb_false_r, Hw, (i32_id (num_waiting c + 1)), i32_id
      by (unfold_int; lia). f_equal. lia. }
  rewrite Hback, Hh1 in Hh2.
  destruct (with_vectors_insert f (ks_heap s) chnl _ (OChan c1) Hfv Hc) as [Hvc Hfv1].
  assert (Hhv1 : opt_insert (out_ptr out) ORaw (with_vectors f (<[chnl := OChan c1]> (ks_heap s))) = <[chnl := OChan c1]> hv).
  { unfold hv. by rewrite <- Hvc, opt_insert_comm. }
  eapply (wp_regroup _ _ (fun rc2 rc3 => Some (rcvid m, rc2, rc3))). eapply wp_mono.
  { eapply (reply_returnv_spec _ (ks_heap s) entryR eR chnl c f p (set_state QNX_STATE_PENDING m) b buf out bytes
      reply tS tR io sleep oom3 u3); ks_simpl; fold c1; rewrite ?Hu2, ?Ho2, ?Hhv1, ?Hoom1; try done.
    - rewrite Hh2. clear -Hpb Hcp Hcb Hec Hep Heb. heap_eq.
    - intros q E. rewrite <- Hvc, lookup_insert_ne by congruence. by apply Hof.
    - by rewrite lookup_insert_ne.
    - by rewrite lookup_insert_ne.
    - intros q Hq. ks_simpl. rewrite Hn2 in Hq. specialize (Hf1 q Hq). rewrite Hh1 in Hf1.
      apply lookup_insert_None in Hf1 as [Hf1 ?]. apply lookup_insert_None in Hf1 as [Hf1 ?]. apply lookup_insert_None in Hf1 as [Hf1 ?].
      rewrite Hh2, !lookup_insert_ne by congruence. done.
    - unfold out_ok in Hoko. rewrite Houtl in Hoko. assert (Hgt : iov_total iov_out >? 0 = true) by lia. by rewrite Hgt in Hoko.
    - cbn. rewrite Houtl. lia.
    - rewrite Hfo. cbn [mb_out_len b]. rewrite Houtl. fold k. rewrite i32_id by (unfold_int; lia). done. }
  cbn beta. intros [rc2 rc3] s5 (-> & -> & Hu5 & Hsl5 & Hes5 & Hh5). ks_simpl. split_and!; try done.
  - intros Hd. assert (Hnn : n = Z.min (mb_in_len (sent_body s plain)) (iov_len (rv_out recv))) by (cbn; by rewrite Hinl).
    rewrite Hnn in Hd |- *. apply (receive_copies_read _ _ _ _ _ _ _ _ _ _ Hrcv Hbb); [cbn; by rewrite Hinl|by eapply receives_len|done].
  - destruct (toiovec_gather (serve u1) (tsk_tgid tS) iov_out reply k) as (rc & u' & Hg & Hres); try done; try lia.
    rewrite Hcp3 in Hg. injection Hg as <- <-. by destruct Hres as [?|[_ ?]].
  - congruence.
Qed.

