(* ===== verification/PulseSend.v ===== *)
(** * Pulses (handle_msgsendpulse)

    A pulse is a code and a value that are sent without blocking.  Its object is
    freed by the receiver. *)

From Stdlib Require Import ZArith Lia.
From stdpp Require Import base tactics list option gmap fin_maps sets.
From S2P Require Import Prelude Layout UserMem ConnectionTable Kernel Msgsend Channel ProcessEntry DriverData Driver Rendezvous VectorMem.

Open Scope Z_scope.

Section PulseSpec.
  Context {M : Type} `{!UserMem M}.
  Implicit Types (s : kstate M) (h : gmap ptr kobj).

(** what a MsgSendPulse with its structure at [addr] asks for: an error, or the
    pulse and the coming answers of kmalloc *)
Definition pulse_request s (cur : task_struct) (addr : Z) : Z + qnx_io_msgsendpulse * list bool :=
  let '(ok, oom') := kmalloc_answer (ks_oom s) in
  if negb ok then inl (- ENOMEM)
  else match copy_from_user (ks_user s) (tsk_tgid cur) addr (Z.of_nat (c_size c_io_msgsendpulse)) with
       | None => inl (- EFAULT)
       | Some bs => inr (c_dec c_io_msgsendpulse bs, oom')
       end.

(** the object of a pulse in a queue *)
Definition pulse_message (pd chid : Z) (q : qnx_io_msgsendpulse) : qnx_internal_msgsend :=
  Msgsend 0 0 pd 0 chid (DPulse q) None 0 None QNX_STATE_INITIAL [].

(** the channel with one more pulse; the sender has given back its reference *)
Definition with_pulse (p : ptr) (c : qnx_channel) : qnx_channel :=
  set_num_waiting (i32 (num_waiting c + 1)) (set_waiting (waiting c ++ [p]) c).

(** MsgSendPulse of the thread [tS], then MsgReceive of the thread [tR] *)
Definition pulse_exchange (entryS entryR : ptr) (tS tR : task_struct) (addrS addrR wait : Z) : K M (Z * Z) :=
  let! rc1 := handle_msgsendpulse entryS tS addrS in
  let! rc2 := handle_msgreceive entryR tR addrR wait in
  kret (rc1, rc2).

(** what the receiver of a pulse reads in its buffer *)
Definition reads_pulse (u : M) (mm base : Z) (q : qnx_io_msgsendpulse) : Prop :=
  option_map (c_dec c_int8) (copy_from_user u mm (base + pulse_code_offset) 1) = Some (i8 (mp_code q)) /\
  option_map (c_dec c_int) (copy_from_user u mm (base + pulse_scoid_offset) 4) = Some (mp_coid q) /\
  option_map (c_dec c_int) (copy_from_user u mm (base + pulse_value_offset) 4) = Some (mp_value q).

End PulseSpec.

(** ** Lemmas *)

Section PulseLemmas.
  Context {M : Type} `{!UserMem M} `{!UserMemLaws M}.
  Implicit Types (s : kstate M) (h : gmap ptr kobj).

Lemma msgsendpulse_spec s entry e cur addr :
  fresh_above s -> entries_ok s -> ks_heap s !! entry = Some (OProc e) -> table_ok (pe_connections e) ->
  let p := ks_next s in
  wp (handle_msgsendpulse entry cur addr) (fun rc s' =>
    match pulse_request s cur addr with
    | inl rc0 => rc = rc0 /\ unchanged s s'
    | inr (q, oom') =>
        match send_target s e (mp_coid q) with
        | None => rc = - EBADF /\ unchanged s s'
        | Some (conn, chnl) =>
            rc = 0 /\ exists c, ks_heap s !! chnl = Some (OChan c) /\ 0 < ch_refcnt c /\
            ks_heap s' = <[chnl := OChan (with_pulse p c)]> (<[p := OMsg (pulse_message (pe_pid e) (ch_chid c) q)]> (ks_heap s)) /\
            rest s' = (ks_user s, ks_entries s, ks_next_channel_id s, ks_params s, ks_sleeping s, EvWakeUp chnl :: ks_trace s) /\
            ks_next_rcvid s' = ks_next_rcvid s /\ ks_oom s' = oom' /\ fresh_above s'
        end
    end) s.
Proof.
  intros Hf Hok He Ht p. pose proof (fresh_next s Hf) as Hp. fold p in Hp. assert (Hep : entry ≠ p) by congruence.
  unfold handle_msgsendpulse, pulse_request. kstep. destruct (kmalloc_answer (ks_oom s)) as [[] oom'] eqn:Hk; cbn [negb].
  2: { eapply wp_kmalloc_fail; [done|]. kstep. split; [done|]. split_and!; try done. by left. }
  eapply wp_kmalloc; [done|]. fold p. cbn beta iota. kstep. eapply wp_get_proc; [ks_simpl; by rewrite lookup_insert_ne|]. cbn beta.
  unfold qnx_internal_msgsend_init_pulse. ksteps.
  assert (Hno : forall (rc0 : Z) s', rest s' = rest s -> ks_next s' = Pos.succ p -> ks_next_rcvid s' = ks_next_rcvid s ->
    (exists o, ks_heap s' = <[p := o]> (ks_heap s)) -> wp (kfree p ;;; kret rc0) (fun rc s'' => rc = rc0 /\ unchanged s s'') s').
  { intros rc0 s' Hr Hn Hi [o Hh]. kstep. eapply wp_kfree; [by rewrite Hh, lookup_insert_eq|]. kstep. split; [done|].
    split_and!; [ks_simpl; by rewrite Hh, delete_insert_id|done|ks_simpl; unfold p in *; lia|by left]. }
  destruct (copy_from_user _ _ addr _) as [bs|]; cbn [option_map]; ksteps.
  2: { change (negb (- EFAULT =? 0)) with true. cbn iota. apply Hno; try done. by eexists. }
  set (q := c_dec c_io_msgsendpulse bs). change (negb (0 =? 0)) with false. cbn iota. kstep.
  eapply wp_get_msg; [ks_simpl; by rewrite lookup_insert_eq|]. cbn beta. unfold pulse_of. kstep. cbn [data]. kstep.
  set (s1 := upd_heap _ (upd_oom _ _)).
  assert (Hh1 : exists m0, ks_heap s1 = <[p := OMsg m0]> (ks_heap s) /\ forall chid, set_receiver_chid chid m0 = pulse_message (pe_pid e) chid q).
  { unfold s1. ks_simpl. eexists. split; [by rewrite insert_insert_eq|done]. }
  destruct Hh1 as (m0 & Hh1 & Hm0).
  assert (Hsub : ks_heap s ⊆ ks_heap s1) by (rewrite Hh1; by apply insert_subseteq).
  kstep. eapply wp_eq; [eapply find_connection_run; [by eapply lookup_weaken|done|by apply i32_range]|].
  unfold send_target. destruct (connections _ !! mp_coid q) as [conn|]; cbn [default Datatypes.id]; [|apply Hno; try done; eauto].
  destruct (QNX_CONN_IS_VALID conn); cbn [negb]; [|apply Hno; try done; eauto].
  kstep. eapply wp_of_run; [apply driver_find_channel_run; by eapply entries_ok_mono|].
  rewrite (lookup_channel_mono s s1) by done. destruct (lookup_channel s _ _) as [chnl|] eqn:Hl; [|apply Hno; try done; eauto].
  destruct (lookup_channel_Some _ _ _ _ Hok Hl) as (c & Hc & _ & Hr). rewrite (lookup_weaken _ _ _ _ Hc Hsub).
  assert (Hcp : chnl ≠ p) by congruence. set (c1 := set_ch_refcnt (ch_refcnt c + 1) c).
  pose proof (add_new_message_run chnl p c1 m0 (upd_heap <[chnl := OChan c1]> s1)) as Hrun.
  rewrite enqueue_normal in Hrun by (specialize (Hm0 0); unfold is_noreply; assert (rcvid m0 = 0) as -> by (change (rcvid m0) with (rcvid (set_receiver_chid 0 m0)); by rewrite Hm0); done).
  kstep. eapply wp_eq; [apply Hrun; ks_simpl; [apply lookup_insert_eq|by rewrite lookup_insert_ne, Hh1, lookup_insert_eq]|].
  kstep. eapply wp_eq; [eapply channel_release_run; [ks_simpl; apply lookup_insert_eq|]|].
  { change (1 < ch_refcnt c + 1). lia. }
 kstep. ks_simpl.
  split; [done|]. exists c. split; [done|]. split; [done|]. split; [|split_and!; try done].
  - rewrite Hh1, Hm0. unfold with_pulse, c1, set_num_waiting, set_waiting, set_ch_refcnt. cbn.
    replace (ch_refcnt c + 1 - 1) with (ch_refcnt c) by lia. clear -Hcp. heap_eq.
  - intros r Hq. ks_simpl. unfold s1 in Hq. ks_simpl. assert (ks_heap s !! r = None) by (apply Hf; unfold p in *; lia). assert (r ≠ p) by (unfold p in *; lia).
    rewrite Hh1, !lookup_insert_ne by congruence. done.
Qed.

(** every field that was written is read back, when the fields do not overlap *)
Lemma write_fields_read (u : M) mm l u' :
  write_fields u mm l = (u', true) -> Forall (fun '(_, bs) => Forall is_byte bs) l ->
  ranges_disjoint (map (fun '(a, bs) => (a, Z.of_nat (length bs))) l) ->
  Forall (fun '(a, bs) => copy_from_user u' mm a (Z.of_nat (length bs)) = Some bs) l /\
  (forall a n, Forall (fun '(b, bs) => disjoint_ranges b (Z.of_nat (length bs)) a n) l ->
     copy_from_user u' mm a n = copy_from_user u mm a n).
Proof.
  revert u. induction l as [|[a bs] l IH]; intros u; cbn [write_fields map ranges_disjoint]; [by intros [= <-]|].
  destruct (copy_to_user u mm a bs) as [u1 []] eqn:Hw; [|done]. intros Hl [Hb Hbs]%Forall_cons [Hd Hds].
  destruct (IH u1 Hl Hbs Hds) as [Hr Hfr]. split; [constructor; [|done]|].
  - rewrite Hfr; [by eapply copy_to_from_user|]. apply Forall_map in Hd. eapply Forall_impl; [exact Hd|].
    intros [b bs']. cbn. unfold disjoint_ranges. lia.
  - intros a' n [Ha Hrest]%Forall_cons. rewrite (Hfr a' n Hrest). eapply copy_to_user_frame; [done|by right].
Qed.

Lemma pulse_outcome_read s cur addr recv wait c m q u :
  pulse_outcome s cur addr recv wait c m q = (u, 0) -> sizeof_pulse <= iov_len (rv_out recv) ->
  is_int (mp_coid q) -> is_int (mp_value q) ->
  copy_from_user u (tsk_tgid cur) addr (Z.of_nat (c_size c_io_receive)) = Some (c_enc c_io_receive (pulse_struct recv c m q)) /\
  (disjoint_ranges (iov_base (rv_out recv)) sizeof_pulse addr (Z.of_nat (c_size c_io_receive)) ->
   reads_pulse u (tsk_tgid cur) (iov_base (rv_out recv)) q).
Proof.
  intros Hout Hlen Hcoid Hval. unfold pulse_outcome, pulse_copy in Hout. set (base := iov_base (rv_out recv)) in *.
  assert (iov_len (rv_out recv) >=? sizeof_pulse = true) as Hge by lia. rewrite Hge in Hout.
  destruct (write_fields _ _ _) as [u1 []] eqn:Hw; [|done]. change (0 >=? 0) with true in Hout.
  destruct (copy_to_user u1 _ _ _) as [u2 []] eqn:Hc; [|done]. injection Hout as ->.
  pose proof (copy_to_from_user _ _ _ _ _ Hc (enc_bytes _)) as Hs. rewrite enc_length in Hs. split; [done|].
  intros Hd. assert (Hfields : Forall (fun '(_, bs) => Forall is_byte bs) (pulse_fields base q)).
  { repeat (apply Forall_cons; split; [apply enc_bytes|]). apply Forall_nil_2. }
  destruct (write_fields_read _ _ _ _ Hw Hfields) as [Hr _].
  { cbn [map pulse_fields ranges_disjoint]. rewrite !enc_length. cbn [c_size c_int8 c_int]. unfold disjoint_ranges, pulse_code_offset, pulse_scoid_offset, pulse_value_offset.
    repeat split; repeat (apply Forall_cons; split); try apply Forall_nil_2; lia. }
  unfold pulse_fields in Hr. apply Forall_cons in Hr as [H1 Hr]. apply Forall_cons in Hr as [H2 Hr]. apply Forall_cons in Hr as [H3 _].
  rewrite enc_length in H1. rewrite enc_length in H2. rewrite enc_length in H3. cbn [c_size c_int8 c_int] in H1, H2, H3.
  assert (Hback : forall off n, 0 <= off -> off + n <= sizeof_pulse -> 0 <= n ->
    copy_from_user u (tsk_tgid cur) (base + off) n = copy_from_user u1 (tsk_tgid cur) (base + off) n).
  { intros off n ???. eapply copy_to_user_frame; [exact Hc|]. right. rewrite enc_length. unfold disjoint_ranges in *. lia. }
  unfold reads_pulse. rewrite !Hback by (unfold pulse_code_offset, pulse_scoid_offset, pulse_value_offset, sizeof_pulse; lia).
  change (Z.of_nat 1) with 1 in H1. change (Z.of_nat 4) with 4 in H2, H3. rewrite H1, H2, H3. cbn [option_map].
  split_and!; f_equal; rewrite <- (app_nil_r (c_enc _ _)); apply dec_enc; try done.
  cbn. unfold i8. pose proof (Z.mod_pos_bound (mp_code q + 2 ^ 7) (2 ^ 8)). lia.
Qed.

End PulseLemmas.

(** ** Properties *)

(** C23: MsgSendPulse, on every path: without memory it is [-ENOMEM], with an
    unreadable structure [-EFAULT], on a connection that does not exist [-EBADF],
    and then the heap is as before.  Otherwise the pulse, with the id 0, is at the
    end of the queue, a receiver is notified, and the call keeps no reference. *)
Theorem msgsendpulse_queues {M : Type} `{!UserMem M} `{!UserMemLaws M} (s : kstate M) (entry : ptr) (e : qnx_process_entry)
    (cur : task_struct) (addr : Z) :
  fresh_above s -> entries_ok s -> ks_heap s !! entry = Some (OProc e) -> table_ok (pe_connections e) ->
  let p := ks_next s in
  wp (handle_msgsendpulse entry cur addr) (fun rc s' =>
    match pulse_request s cur addr with
    | inl rc0 => rc = rc0 /\ unchanged s s'
    | inr (q, oom') =>
        match send_target s e (mp_coid q) with
        | None => rc = - EBADF /\ unchanged s s'
        | Some (conn, chnl) =>
            rc = 0 /\ exists c, ks_heap s !! chnl = Some (OChan c) /\ 0 < ch_refcnt c /\
            ks_heap s' = <[chnl := OChan (with_pulse p c)]> (<[p := OMsg (pulse_message (pe_pid e) (ch_chid c) q)]> (ks_heap s)) /\
            rest s' = (ks_user s, ks_entries s, ks_next_channel_id s, ks_params s, ks_sleeping s, EvWakeUp chnl :: ks_trace s) /\
            ks_next_rcvid s' = ks_next_rcvid s /\ ks_oom s' = oom' /\ fresh_above s'
        end
    end) s.
Proof. exact (msgsendpulse_spec s entry e cur addr). Qed.

