(* ===== verification/Examples.v ===== *)
(** * Concrete runs

    The theorems of the components, applied to concrete tables, memories and
    kernel states: their hypotheses can hold together, and what they say can be
    computed.  User memory is [flatmem] of UserMem.v. *)

From Stdlib Require Import ZArith Lia.
From stdpp Require Import base tactics list option gmap fin_maps sets.
From S2P Require Import Prelude ConnectionTable Layout UserMem Kernel Msgsend Channel ProcessEntry DriverData Driver Rendezvous.

Open Scope Z_scope.

(** ** Connection tables *)

Definition conn_a : qnx_connection := QnxConnection 10 1.
Definition conn_b : qnx_connection := QnxConnection 20 2.

(** a table with one free id, and one without any *)
Definition table_free : qnx_connection_table_data := TableData 3 1 [Null; Conn conn_a; Null; Uninit].
Definition table_taken : qnx_connection_table_data := TableData 2 1 [Null; Conn conn_a; Uninit].

(** case analysis on an index into a table with at most four slots *)
Ltac small_index i :=
  assert (i = 0 \/ i = 1 \/ i = 2 \/ i = 3) as Hsmall by lia;
  destruct Hsmall as [->|[->|[->| ->]]].

Lemma table_free_wf : table_wf table_free.
Proof.
  split; cbn [capacity max conn table_free]; try (vm_compute; done); try (unfold INT_MAX; lia).
  - intros i Hi. small_index i; first [lia | vm_compute; congruence].
  - intros i c Hc. pose proof (conn_at_range _ _ _ Hc) as Hr. cbn in Hr. small_index i; vm_compute in Hc; congruence || lia.
  - intros _. by exists conn_a.
Qed.

Lemma table_taken_wf : table_wf table_taken.
Proof.
  split; cbn [capacity max conn table_taken]; try (vm_compute; done); try (unfold INT_MAX; lia).
  - intros i Hi. small_index i; first [lia | vm_compute; congruence].
  - intros i c Hc. pose proof (conn_at_range _ _ _ Hc) as Hr. cbn in Hr. small_index i; vm_compute in Hc; congruence || lia.
  - intros _. by exists conn_a.
Qed.

Lemma table_free_not_full : ~ table_full table_free.
Proof. intros Hf. by apply (Hf 2); [cbn; lia|]. Qed.

Lemma table_taken_full : table_full table_taken.
Proof. intros i Hi. cbn in Hi. small_index i; first [lia | vm_compute; congruence]. Qed.

Lemma add_refines_witness :
  exists d', qnx_connection_table_add 256 [] (Some table_free) conn_b = Some (2, [], Some d') /\
    connections (Some d') = <[2 := conn_b]> (connections (Some table_free)).
Proof.
  destruct (add_refines 256 [] table_free conn_b table_free_wf table_free_not_full)
    as (coid & d' & Hadd & _ & _ & _ & Hmap & _).
  assert (coid = 2) as -> by (vm_compute in Hadd; congruence). exists d'. split; [exact Hadd|exact Hmap].
Defined.

Lemma add_growth_handle_lost_witness :
  exists d', qnx_connection_table_add 256 [] (Some table_taken) conn_b = Some (4, [], Some d') /\
    qnx_connection_table_retrieve (Some d') 4 = Some (QnxConnection 0 0).
Proof.
  destruct (add_growth_handle_lost 256 [] [] table_taken conn_b table_taken_wf table_taken_full)
    as (d' & Hadd & _ & _ & _ & Hret & _); [cbn; lia|unfold INT_MAX; lia|done|].
  exists d'. split; [exact Hadd|exact Hret].
Defined.

Lemma add_refuses_witness :
  qnx_connection_table_add 3 [] (Some table_taken) conn_b = Some (- EMFILE, [], Some table_taken) /\
  qnx_connection_table_add 256 [true] (Some table_taken) conn_b = Some (- ENOMEM, [], Some table_taken).
Proof.
  split.
  - apply (add_refuses 3 [] table_taken conn_b table_taken_wf table_taken_full); [unfold INT_MAX; cbn; lia|cbn; lia].
  - apply (add_refuses 256 [true] table_taken conn_b table_taken_wf table_taken_full);
      [unfold INT_MAX; cbn; lia|cbn; lia|done].
Defined.

Lemma remove_refines_witness :
  exists rc d', qnx_connection_table_remove (Some table_free) 1 = Some (rc, Some d') /\
    connections (Some d') = delete 1 (connections (Some table_free)).
Proof.
  destruct (remove_refines table_free 1 table_free_wf) as (rc & d' & Hrm & _ & Hmap & _); [unfold_int; lia|].
  exists rc, d'. split; [exact Hrm|exact Hmap].
Defined.

Lemma table_invariant_witness :
  exists rc table', qnx_connection_table_remove (Some table_taken) 1 = Some (rc, table') /\ table_ok table'.
Proof.
  apply (table_invariant 256 [] (Some table_taken) conn_b 1); [lia|unfold_int; lia|exact table_taken_wf].
Defined.

Lemma retrieve_refines_witness :
  qnx_connection_table_retrieve (Some table_free) (-1) = Some (QnxConnection 0 0) /\
  qnx_connection_table_retrieve (Some table_free) 1 = Some conn_a.
Proof.
  split.
  - etransitivity; [apply (retrieve_refines (Some table_free) (-1)); [exact table_free_wf|unfold_int; lia]|by vm_compute].
  - etransitivity; [apply (retrieve_refines (Some table_free) 1); [exact table_free_wf|unfold_int; lia]|by vm_compute].
Defined.

Lemma for_each_complete_witness : qnx_connection_table_for_each (Some table_free) = Some [(1, conn_a)].
Proof. etransitivity; [apply (for_each_complete (Some table_free)); exact table_free_wf|by vm_compute]. Defined.

Lemma destroy_leaks_max_witness :
  exists freed c, [(1, conn_a)] = freed ++ [(1, c)] /\
    qnx_connection_table_destroy (Some table_free) = map snd freed.
Proof. apply (destroy_leaks_max table_free); [exact table_free_wf|cbn; lia]. Defined.

Lemma add_without_table_witness :
  snd (qnx_connection_table_init 256 [true]) = None /\
  qnx_connection_table_add 256 [] None conn_b = Some (0, [], None).
Proof.
  destruct (add_without_table 256 [true] [] conn_b) as [Hinit Hadd]; [lia|by right|]. split; [exact Hinit|apply Hadd].
Defined.


(** ** User memory *)

(** [n] mapped bytes of the address space [mm] *)
Definition mapped (mm a : Z) (n : nat) : gmap (Z * Z) Z :=
  list_to_map ((fun i => ((mm, a + Z.of_nat i), 0)) <$> List.seq 0 n).

(** two processes, 10 and 20, each with 200 bytes at 1000 *)
Definition mem0 : flatmem := FlatMem (mapped 10 1000 200 ∪ mapped 20 1000 200).

Lemma memcpy_fromiovec_gathers_witness :
  iov_ok [Iovec 1000 2; Iovec 1010 3] /\
  match memcpy_fromiovec mem0 10 [Iovec 1000 2; Iovec 1010 3] 4, gather mem0 10 [(1000, 2); (1010, 2)] with
  | Some (rc, bs), Some bs' => rc = 0 /\ bs = bs' /\ Z.of_nat (length bs) = 4
  | Some (rc, _), None => rc = - EFAULT
  | None, _ => False
  end.
Proof.
  assert (Hok : iov_ok [Iovec 1000 2; Iovec 1010 3]) by (repeat (apply Forall_cons; split; [unfold INT_MAX; cbn; lia|]); apply Forall_nil_2).
  split; [exact Hok|].
  apply (memcpy_fromiovec_gathers mem0 10 [Iovec 1000 2; Iovec 1010 3] 4); [exact Hok|unfold INT_MAX; lia|cbn; lia].
Defined.


(** ** Kernel states *)

Definition thread_a : task_struct := Task 10 10.
Definition thread_b : task_struct := Task 20 20.

(** a message of thread b in the queue, one that process 10 has received, a pulse *)
Definition msg_queued : qnx_internal_msgsend :=
  Msgsend 5 0 20 10 1 (DMsg (MsgBody 1 0 (InKernel 7) 3 (OutUser 1110) 8)) None 0 (Some thread_b)
    QNX_STATE_INITIAL [].
Definition msg_pending : qnx_internal_msgsend :=
  Msgsend 4 0 20 10 1 (DMsg (MsgBody 1 0 (InKernel 8) 3 (OutUser 1110) 8)) None 0 (Some thread_b)
    QNX_STATE_PENDING [].
Definition msg_pulse : qnx_internal_msgsend :=
  Msgsend 0 0 20 0 1 (DPulse (IoMsgsendpulse 1 5 77)) None 0 None QNX_STATE_INITIAL [].
Definition msg_noreply : qnx_internal_msgsend :=
  Msgsend 6 0 20 10 1 (DMsg (MsgBody 1 0 InTail 2 (OutUser 0) 0)) None 0 None QNX_STATE_INITIAL [65; 66].

Definition state_of (h : gmap ptr kobj) : kstate flatmem :=
  KState h 100 [] 7 mem0 [3%positive] 1 6 default_params ∅ [].

(** the process 10 at 3 with the channel 1 at 1; [c] is the channel *)
Definition entry_a : qnx_process_entry := ProcessEntry 1 10 [1%positive] (Some table_free) [4%positive] [].
Definition demo (c : qnx_channel) : kstate flatmem :=
  state_of (list_to_map [(1%positive, OChan c); (2%positive, OMsg msg_queued); (3%positive, OProc entry_a);
    (4%positive, OMsg msg_pending); (5%positive, OMsg msg_pulse); (6%positive, OMsg msg_noreply);
    (7%positive, OBuf [65; 66; 67]); (8%positive, OBuf [68; 69; 70]); (9%positive, OFile (File 3 (Some 3%positive)))]).

Definition chan_empty : qnx_channel := Channel 1 1 [] 0 0.
(** held by its process and by the sender of the queued message *)
Definition chan_busy : qnx_channel := Channel 2 1 [2%positive] 1 0.
(** the same when the process has given its reference back *)
Definition chan_last : qnx_channel := Channel 1 1 [2%positive] 1 0.

Lemma demo_entry_ok c : 0 < ch_refcnt c -> entry_ok (ks_heap (demo c)) entry_a.
Proof.
  intros Hc. split; cbn [channels pe_connections pending pollfds entry_a].
  - apply NoDup_singleton.
  - intros p ->%list_elem_of_singleton. by exists c.
  - exact table_free_wf.
  - apply NoDup_singleton.
  - intros p ->%list_elem_of_singleton. by exists msg_pending.
  - apply NoDup_nil_2.
  - intros p ?%elem_of_nil. done.
Qed.

Lemma demo_empty_ok : channel_ok (ks_heap (demo chan_empty)) 128 chan_empty.
Proof. split; cbn; try done; [apply NoDup_nil_2|intros p ?%elem_of_nil; done]. Qed.

Lemma demo_busy_ok : channel_ok (ks_heap (demo chan_busy)) 128 chan_busy.
Proof.
  split; [apply NoDup_singleton| |by vm_compute|by vm_compute|by vm_compute].
  intros p ->%list_elem_of_singleton. exists msg_queued. split; [done|cbn; lia].
Qed.

Lemma add_new_message_queue_witness :
  wp (qnx_channel_add_new_message 1 6) (fun rc s' => rc = 0 /\
    exists c', ks_heap s' !! 1%positive = Some (OChan c') /\ waiting c' = [2%positive; 6%positive]) (demo chan_busy).
Proof.
  eapply wp_mono.
  - apply (add_new_message_queue (demo chan_busy) 1 6 chan_busy msg_noreply); try done.
    + exact demo_busy_ok.
    + cbn. intros ?%list_elem_of_singleton. done.
  - cbn beta. intros rc s' (c' & Hc' & _ & _ & Hcase). vm_compute in Hcase. destruct Hcase as (-> & Hw & _). eauto.
Defined.

Lemma remove_message_queue_witness :
  wp (qnx_channel_remove_message 1 5) (fun rc s' => rc = 1) (demo chan_busy).
Proof.
  eapply wp_mono.
  - apply (remove_message_queue (demo chan_busy) 1 chan_busy 128 5); [done|exact demo_busy_ok|vm_compute; done].
  - cbn beta. intros rc s'.
    replace (List.find (has_rcvid (ks_heap (demo chan_busy)) 5) (waiting chan_busy)) with (Some 2%positive) by done.
    intros [Hrc _]. exact Hrc.
Defined.


Lemma release_last_queued_pulse_witness :
  qnx_channel_release 1 (demo (Channel 1 1 [5%positive] 1 0)) = Oops (BadAccess 5).
Proof.
  by apply (release_last_queued_pulse (demo (Channel 1 1 [5%positive] 1 0)) 1 5 [] (Channel 1 1 [5%positive] 1 0) msg_pulse).
Defined.

Lemma add_channel_creates_witness :
  wp (qnx_process_entry_add_channel 3) (fun rc s' => rc = 2 /\
    ks_heap s' !! 100%positive = Some (OChan (Channel 1 2 [] 0 0))) (demo chan_empty).
Proof.
  eapply wp_mono.
  - apply (add_channel_creates (demo chan_empty) 3 entry_a []); done.
  - cbn beta. intros rc s' (_ & Hcase). cbn in Hcase. destruct Hcase as [-> ->]. done.
Defined.

Lemma remove_channel_idle_witness :
  wp (qnx_process_entry_remove_channel 3 1) (fun rc s' => rc = 0 /\ ks_heap s' !! 1%positive = None) (demo chan_empty) /\
  qnx_process_entry_remove_channel 3 2 (demo chan_empty) = Done (- EINVAL, demo chan_empty).
Proof.
  split.
  - eapply wp_mono.
    + by apply (remove_channel_idle (demo chan_empty) 3 entry_a 1 eq_refl (demo_entry_ok chan_empty eq_refl) chan_empty).
    + cbn beta. intros rc s' (Hrc & Hc & _). split; [exact Hrc|exact Hc].
  - exact (remove_channel_idle (demo chan_empty) 3 entry_a 2 eq_refl (demo_entry_ok chan_empty eq_refl)).
Defined.

Lemma remove_channel_busy_witness :
  wp (qnx_process_entry_remove_channel 3 1) (fun rc s' => rc = 0 /\ ks_trace s' = []) (demo chan_busy).
Proof.
  eapply wp_mono.
  - apply (remove_channel_busy (demo chan_busy) 3 1 entry_a chan_busy 1); try done. by apply demo_entry_ok.
  - cbn beta. intros rc s' (Hrc & _ & _ & _ & Htr & _). split; [exact Hrc|exact Htr].
Defined.

Lemma pending_roundtrip_witness :
  wp (let! _ := qnx_process_entry_add_pending 3 2 in qnx_process_entry_release_pending 3 5)
    (fun r s' => r = Some 2%positive) (demo chan_empty).
Proof.
  eapply wp_mono.
  - apply (pending_roundtrip (demo chan_empty) 3 2 entry_a msg_queued); try done. by apply demo_entry_ok.
  - cbn beta. intros r s' [Hr _]. exact Hr.
Defined.

Lemma process_exit_releases_witness :
  wp (qnx_process_entry_release 3) (fun _ s' => ks_heap s' !! 3%positive = None /\ ks_heap s' !! 1%positive = None /\
    ks_heap s' !! 4%positive = Some (OMsg (set_status (- ESRCH) msg_pending))) (demo chan_empty).
Proof.
  eapply wp_mono.
  - apply (process_exit_releases (demo chan_empty) 3 entry_a); try done.
    + by apply demo_entry_ok.
    + intros p c ->%list_elem_of_singleton. intros [= <-]. by right.
  - cbn beta. intros _ s' (He & Hc & Hm & _). split; [exact He|]. split.
    + apply (Hc 1%positive chan_empty); [by apply list_elem_of_singleton|done].
    + apply (Hm 4%positive msg_pending thread_b); [by apply list_elem_of_singleton|done|done].
Defined.

Lemma demo_entries_ok c : 0 < ch_refcnt c -> entries_ok (demo c).
Proof.
  intros Hc. split; [apply NoDup_singleton|]. intros p ->%list_elem_of_singleton. exists entry_a.
  split_and!; [done|done|by apply demo_entry_ok].
Qed.

Lemma find_channel_balanced_witness :
  wp (qnx_driver_data_find_channel 10 1) (fun r s' => r = Some 1%positive) (demo chan_empty).
Proof.
  eapply wp_mono.
  - apply (find_channel_balanced (demo chan_empty) 10 1). by apply demo_entries_ok.
  - cbn beta. intros r s' [Hr _]. exact Hr.
Defined.

Lemma add_connection_attaches_witness :
  wp (qnx_process_entry_add_connection 3 (IoAttach 10 1 0)) (fun coid s' => 0 < coid < 3) (demo chan_empty).
Proof.
  eapply wp_mono.
  - apply (add_connection_attaches (demo chan_empty) 3 entry_a table_free (IoAttach 10 1 0) []); try done.
    + by apply demo_entries_ok.
    + by apply list_elem_of_singleton.
    + exact table_free_not_full.
  - cbn beta. intros coid s' [Hc _]. exact Hc.
Defined.

(** ** System calls *)

Lemma heap_fresh (s : kstate flatmem) c :
  ks_heap s = ks_heap (demo c) -> ks_next s = 100%positive -> fresh_above s.
Proof.
  intros Hh Hn q Hq. rewrite Hn in Hq. rewrite Hh.  apply not_elem_of_list_to_map_1. cbn. rewrite !elem_of_cons, elem_of_nil. lia.
Qed.

Lemma demo_fresh c u : fresh_above (upd_user u (demo c)).
Proof. by apply (heap_fresh _ c). Qed.

(** user memory with a structure of the process 10 at the address 1000 *)
Definition mem_with (bytes : list Z) : flatmem := fst (copy_to_user mem0 10 1000 bytes).

#[local] Opaque mem_with.

Definition info_zero : msg_info := MsgInfo 0 0 0 0 0 0 0 0 0 0 0 0.
Definition recv_a : qnx_io_receive := IoReceive 1 0 (Iovec 1100 10) info_zero.
Definition recv_state (c : qnx_channel) : kstate flatmem := upd_user (mem_with (c_enc c_io_receive recv_a)) (demo c).

(** the process 10 receives from its channel 1, whose queue is [p] *)
Lemma demo_receives c p m :
  0 < ch_refcnt c -> ch_chid c = 1 -> waiting c = [p] -> ks_heap (demo c) !! p = Some (OMsg m) ->
  receives (recv_state c) 3 entry_a thread_a 1000 recv_a 1 c p [] m.
Proof.
  intros Hr Hid Hw Hp. split; try done.
  - exists (c_enc c_io_receive recv_a). by vm_compute.
  - by apply demo_entry_ok.
  - unfold entry_channel. cbn [channels entry_a List.find]. unfold has_chid.
    change (ks_heap (recv_state c) !! 1%positive) with (Some (OChan c)). cbn iota. by rewrite Hid.
Qed.

Lemma msgreceive_message_witness :
  wp (handle_msgreceive 3 thread_a 1000 0) (fun rc s' => rc = 5 \/ rc = - EFAULT) (recv_state chan_busy).
Proof.
  eapply wp_mono.
  - apply (msgreceive_message (recv_state chan_busy) 3 1 2 7 entry_a thread_a thread_b 1000 0 recv_a chan_busy []
      msg_queued (MsgBody 1 0 (InKernel 7) 3 (OutUser 1110) 8) [65; 66; 67]); try done.
    + by apply demo_receives.
    + repeat (apply Forall_cons; split; [unfold is_byte; lia|]); apply Forall_nil_2.
  - cbn beta. intros rc s' [(-> & _)|(_ & -> & _)]; [left; reflexivity|right; reflexivity].
Defined.

Lemma msgreceive_noreply_witness :
  wp (handle_msgreceive 3 thread_a 1000 0) (fun rc s' => rc = 6 /\ ks_heap s' !! 6%positive = None)
    (recv_state (Channel 1 1 [6%positive] 1 1)).
Proof.
  pose proof (msgreceive_noreply (recv_state (Channel 1 1 [6%positive] 1 1)) 3 1 6 entry_a thread_a 1000 0 recv_a
    (Channel 1 1 [6%positive] 1 1) [] msg_noreply (MsgBody 1 0 InTail 2 (OutUser 0) 0)) as Hspec.
  specialize (Hspec ltac:(by apply demo_receives) ltac:(done) ltac:(done) ltac:(done) ltac:(done) ltac:(done) ltac:(done)).
  assert (Hcp : snd (receive_copies (recv_state (Channel 1 1 [6%positive] 1 1)) thread_a 1000 recv_a
    (Channel 1 1 [6%positive] 1 1) msg_noreply (MsgBody 1 0 InTail 2 (OutUser 0) 0) [65; 66] QNX_FLAG_NOREPLY) = true)
    by (vm_compute; reflexivity).
  change (msg_tail msg_noreply) with [65; 66] in Hspec.
  destruct (receive_copies _ _ _ _ _ _ _ _ _) as [u ok]. cbn [snd] in Hcp. subst ok. eapply wp_mono; [exact Hspec|]. cbn beta.
  intros rc s' (_ & -> & _ & ->). split; [reflexivity|apply lookup_delete_eq].
Defined.

Lemma msgreceive_pulse_witness :
  wp (handle_msgreceive 3 thread_a 1000 250) (fun rc s' => rc = 250 \/ rc = - EFAULT)
    (recv_state (Channel 1 1 [5%positive] 1 0)).
Proof.
  eapply wp_mono.
  - apply (msgreceive_pulse (recv_state (Channel 1 1 [5%positive] 1 0)) 3 1 5 entry_a thread_a 1000 250 recv_a
      (Channel 1 1 [5%positive] 1 0) [] msg_pulse (IoMsgsendpulse 1 5 77)); try done.
    by apply demo_receives.
  - cbn beta. intros rc s' (_ & _ & _ & Hsmall & _). apply Hsmall. by vm_compute.
Defined.

(** the process 10 sends on its connection 1, to itself *)
Definition send_a : qnx_io_msgsend := IoMsgsend 1 5 (Iovec 1100 3) (Iovec 1110 8).
Definition send_state (c : qnx_channel) : kstate flatmem := upd_user (mem_with (c_enc c_io_msgsend send_a)) (demo c).

Lemma send_state_ok c : 0 < ch_refcnt c -> entries_ok (send_state c).
Proof. intros Hc. destruct (demo_entries_ok c Hc) as [Hnd Hin]. by split. Qed.

Lemma msgsend_queues_witness :
  wp (handle_msgsend_begin 3 thread_a 1000) (fun r s' => r = Blocked 1 100 /\
    ks_heap s' !! 101%positive = Some (OBuf [0; 0; 0])) (send_state chan_empty).
Proof.
  eapply wp_mono.
  - apply (msgsend_queues (send_state chan_empty) 3 entry_a thread_a 1000).
    + apply demo_fresh.
    + by apply send_state_ok.
    + done.
    + exact table_free_wf.
  - cbn beta. intros r s'.
    replace (send_request (send_state chan_empty) thread_a 1000) with (inr (A := Z) (send_a, [0; 0; 0], @nil bool)) by (by vm_compute).
    replace (send_target (send_state chan_empty) entry_a (ms_coid send_a)) with (Some (conn_a, 1%positive)) by (by vm_compute).
    intros (-> & _ & _ & c & Hc & _ & -> & _). split; reflexivity.
Defined.

Lemma msgsend_withdrawn_witness :
  wp (handle_msgsend 3 thread_a 1000 (Sleep 0 false)) (fun rc s' => rc = - ETIMEDOUT /\
    ks_heap s' = ks_heap (send_state chan_busy)) (send_state chan_busy).
Proof.
  apply (msgsend_withdrawn (send_state chan_busy) 3 1 entry_a thread_a 1000 send_a [0; 0; 0] [] conn_a chan_busy
    (Sleep 0 false) (- ETIMEDOUT)); try done.
  - apply demo_fresh.
  - by apply send_state_ok.
  - exact table_free_wf.
  - intros q ->%list_elem_of_singleton. exists msg_queued. split; [reflexivity|vm_compute; congruence].
Defined.

Lemma msgsend_interrupted_during_reply_witness :
  wp (let! taken := qnx_process_entry_release_pending 3 4 in
      let! rc := handle_msgsend_finish 1 4 thread_b (Sleep 0 true) in
      kret (taken, rc)) (fun '(taken, rc) s' =>
    taken = Some 4%positive /\ rc = 0 /\
    handle_msgreply_complete thread_a (IoReply 4 42 (Iovec 1100 2)) 4 s' = Oops (BadAccess 4))
    (demo (Channel 2 1 [] 0 0)).
Proof.
  apply (msgsend_interrupted_during_reply (demo (Channel 2 1 [] 0 0)) 3 1 4 8 entry_a thread_b thread_a thread_b
    (Channel 2 1 [] 0 0) msg_pending (MsgBody 1 0 (InKernel 8) 3 (OutUser 1110) 8) [68; 69; 70] (Sleep 0 true)
    (- ERESTARTSYS) (IoReply 4 42 (Iovec 1100 2))); try done.
  - by apply demo_entries_ok.
  - intros q Hq. by apply elem_of_nil in Hq.
  - by apply list_elem_of_singleton.
  - intros q mq ->%list_elem_of_singleton Hne. done.
Defined.

Lemma msgreply_completes_witness :
  wp (handle_msgreply 3 thread_a (IoReply 4 42 (Iovec 1100 2))) (fun rc s' => rc = 0 /\
    ks_heap s' !! 3%positive = Some (OProc (set_pending [] entry_a))) (demo chan_empty).
Proof.
  pose proof (msgreply_completes (demo chan_empty) 3 entry_a thread_a (IoReply 4 42 (Iovec 1100 2)) eq_refl
    (demo_entry_ok chan_empty eq_refl) (demo_fresh chan_empty mem0)) as Hspec.
  destruct Hspec as (m & t & Hm & Ht & _ & Hb). injection Hm as <-. eapply wp_mono; [apply Hb; reflexivity|].
  cbn beta. intros rc s' (-> & _ & _ & He & _). split; [by vm_compute|exact He].
Defined.

Lemma msgerror_completes_witness :
  wp (handle_msgerror 3 thread_a (IoErrorReply 4 22)) (fun rc s' => rc = 0) (demo chan_empty).
Proof.
  pose proof (msgerror_completes (demo chan_empty) 3 entry_a thread_a (IoErrorReply 4 22) eq_refl
    (demo_entry_ok chan_empty eq_refl)) as Hspec.
  destruct Hspec as (m & t & _ & _ & _ & Hwp). eapply wp_mono; [exact Hwp|]. cbn beta. intros rc s' [Hrc _]. exact Hrc.
Defined.

Lemma msgread_bounds_witness :
  handle_msgread 3 thread_a (IoRead 4 (-1) (Iovec 1100 2)) (demo chan_empty) = Done (- EINVAL, demo chan_empty) /\
  exists u, handle_msgread 3 thread_a (IoRead 4 1 (Iovec 1100 10)) (demo chan_empty) = Done (2, upd_user u (demo chan_empty)).
Proof.
  split.
  - assert (Hint : is_int (-1)) by (unfold_int; lia).
    etransitivity; [apply (msgread_bounds (demo chan_empty) 3 entry_a thread_a (IoRead 4 (-1) (Iovec 1100 2)) eq_refl
      (demo_entry_ok chan_empty eq_refl) Hint ltac:(done) msg_pending (MsgBody 1 0 (InKernel 8) 3 (OutUser 1110) 8) 8%positive
      [68; 69; 70]); done|]. reflexivity.
  - assert (Hint : is_int 1) by (unfold_int; lia). eexists.
    etransitivity; [apply (msgread_bounds (demo chan_empty) 3 entry_a thread_a (IoRead 4 1 (Iovec 1100 10)) eq_refl
      (demo_entry_ok chan_empty eq_refl) Hint ltac:(done) msg_pending (MsgBody 1 0 (InKernel 8) 3 (OutUser 1110) 8) 8%positive
      [68; 69; 70]); done|]. reflexivity.
Defined.

Lemma noreply_queues_witness :
  wp (handle_msgsend_no_reply 3 thread_a 1000 []) (fun rc s' => rc = 0 /\
    exists c, ks_heap s' !! 1%positive = Some (OChan c) /\ waiting c = [2%positive; 100%positive] /\ num_waiting_noreply c = 1)
    (send_state chan_busy).
Proof.
  eapply wp_mono.
  - apply (noreply_queues (send_state chan_busy) 3 1 entry_a thread_a 1000 send_a [0; 0; 0] [] conn_a chan_busy []);
      try done.
    + apply demo_fresh.
    + by apply send_state_ok.
    + exact table_free_wf.
  - cbn beta. intros rc s' [-> ->]. split; [reflexivity|]. eexists. split; [apply lookup_insert_eq|]. split; reflexivity.
Defined.

(** the administrator allows no queued no-reply messages at all *)
Definition no_room_state : kstate flatmem := upd_params (Params 256 64 4096 0) (send_state chan_empty).

Lemma noreply_interrupted_lost_witness :
  wp (handle_msgsend_no_reply 3 thread_a 1000 [false; true]) (fun rc s' => rc = 0 /\
    ks_heap s' !! 1%positive = Some (OChan (Channel 1 1 [] 2 0)) /\ ks_heap s' !! 100%positive = None) no_room_state.
Proof.
  eapply wp_mono.
  - apply (noreply_interrupted_lost no_room_state 3 1 entry_a thread_a 1000 send_a [0; 0; 0] [] conn_a chan_empty 1 []);
      try done.
    + by apply (heap_fresh _ chan_empty).
    + destruct (send_state_ok chan_empty eq_refl) as [Hnd Hin]. by split.
    + exact table_free_wf.
  - cbn beta. intros rc s' [-> ->]. split; [reflexivity|]. split; reflexivity.
Defined.

Lemma ioctl_dispatch_witness :
  qnxcomm_ioctl 9 thread_b QNX_IO_MSGRECEIVE 1000 0 [] (demo chan_empty) = Done (IoctlReturned (- ENOSPC), demo chan_empty) /\
  qnxcomm_ioctl 9 thread_a 0 1000 0 [] (demo chan_empty) = Done (IoctlReturned (- EINVAL), demo chan_empty).
Proof.
  destruct (ioctl_dispatch (demo chan_empty) 9 3 (File 3 (Some 3%positive)) entry_a thread_b 1000 0 [] eq_refl eq_refl)
    as (_ & _ & Hpid & _).
  destruct (ioctl_dispatch (demo chan_empty) 9 3 (File 3 (Some 3%positive)) entry_a thread_a 1000 0 [] eq_refl eq_refl)
    as (_ & _ & _ & Hcmd).
  split; [by apply Hpid|]. destruct Hcmd as [Hcmd _]; [done..|]. apply Hcmd. apply (bool_decide_unpack _). by vm_compute.
Defined.

(** the process 20 opens the device with the file 10 *)
Definition open_state : kstate flatmem := upd_heap <[10%positive := OFile (File 3 None)]> (demo chan_empty).

Lemma open_state_ok : entries_ok open_state /\ fresh_above open_state.
Proof.
  split.
  - eapply (entries_ok_keeps (demo chan_empty)); [|done|by apply demo_entries_ok].
    split; cbn; intros p o Hp; [|intros Hr; exists o|exists o|];
      (destruct (decide (p = 10%positive)) as [->|]; [done|]); try (split; [|done]); by rewrite lookup_insert_ne.
  - intros q Hq. cbn in Hq. unfold open_state. ks_simpl. rewrite lookup_insert_ne by lia.
    by apply (demo_fresh chan_empty mem0).
Qed.

Lemma open_exclusive_witness :
  wp (qnxcomm_open 10 thread_b) (fun rc s' => rc = 0 /\ ks_entries s' = [100%positive; 3%positive]) open_state /\
  qnxcomm_open 10 thread_a open_state = Done (- ENOSPC, open_state).
Proof.
  destruct open_state_ok as [Hok Hf]. split.
  - eapply wp_mono.
    + apply (open_exclusive open_state 10 (File 3 None) thread_b [] Hok Hf eq_refl); done.
    + cbn beta. intros rc s' (-> & _ & Hes & _). split; [reflexivity|exact Hes].
  - apply (open_exclusive open_state 10 (File 3 None) thread_a [] Hok Hf eq_refl); done.
Defined.


(** the file 10 is registered for the channel 1 *)
Definition entry_polling : qnx_process_entry := ProcessEntry 1 10 [1%positive] None [] [11%positive].
Definition poll_state : kstate flatmem :=
  state_of (list_to_map [(1%positive, OChan chan_busy); (3%positive, OProc entry_polling);
    (10%positive, OFile (File 1 (Some 3%positive))); (11%positive, OPollfd (Pollfd 10 1))]).

Lemma entry_polling_ok : entry_ok (ks_heap poll_state) entry_polling.
Proof.
  split; cbn [channels pe_connections pending pollfds entry_polling].
  - apply NoDup_singleton.
  - intros p ->%list_elem_of_singleton. by exists chan_busy.
  - done.
  - apply NoDup_nil_2.
  - intros p ?%elem_of_nil. done.
  - apply NoDup_singleton.
  - intros p ->%list_elem_of_singleton. by exists (Pollfd 10 1).
Qed.

Lemma poll_takes_reference_witness :
  exists s', qnxcomm_poll 10 poll_state = Done (Z.lor POLLIN POLLRDNORM, s') /\
    ks_heap s' !! 1%positive = Some (OChan (set_ch_refcnt 3 chan_busy)).
Proof.
  pose proof (poll_takes_reference poll_state 10 3 (File 1 (Some 3%positive)) entry_polling eq_refl eq_refl eq_refl
    entry_polling_ok) as Hspec.
  replace (List.find (polls_file (ks_heap poll_state) 10) (pollfds entry_polling)) with (Some 11%positive) in Hspec by done.
  destruct Hspec as (pf & Hpf & _ & Hspec).
  assert (pf = Pollfd 10 1) as -> by (change (Some (OPollfd (Pollfd 10 1)) = Some (OPollfd pf)) in Hpf; congruence).
  replace (entry_channel (ks_heap poll_state) entry_polling (pf_chid (Pollfd 10 1))) with (Some 1%positive) in Hspec by done.
  destruct Hspec as (c & Hc & Hrun).
  assert (c = chan_busy) as -> by (change (Some (OChan chan_busy) = Some (OChan c)) in Hc; congruence).
  eexists. split; [exact Hrun|reflexivity].
Defined.

(** two processes: 20 at 12 has a connection to the channel of 10 at 3 *)
Definition entry_b : qnx_process_entry := ProcessEntry 1 20 [] (Some table_free) [] [].
Definition send_b : qnx_io_msgsend := IoMsgsend 1 0 (Iovec 1100 3) (Iovec 1110 8).
Definition mem_duo : flatmem := fst (copy_to_user (mem_with (c_enc c_io_receive recv_a)) 20 1000 (c_enc c_io_msgsend send_b)).
Definition duo : kstate flatmem :=
  upd_user mem_duo (upd_entries [12%positive; 3%positive] (upd_heap <[12%positive := OProc entry_b]> (demo chan_empty))).

#[local] Opaque mem_duo.

Lemma duo_ok : entries_ok duo /\ fresh_above duo.
Proof.
  split.
  - destruct (entries_ok_cons (demo chan_empty) duo 12 entry_b) as [Hok _]; try done.
    + split; cbn; intros p o Hp; [|intros Hr; exists o|exists o|];
        (destruct (decide (p = 12%positive)) as [->|]; [done|]); try (split; [|done]); by rewrite lookup_insert_ne.
    + by apply demo_entries_ok.
    + cbn. intros ?%list_elem_of_singleton. done.
    + split; cbn; try apply NoDup_nil_2; try (intros q ?%elem_of_nil; done). exact table_free_wf.
  - intros q Hq. cbn in Hq. unfold duo. ks_simpl. rewrite lookup_insert_ne by lia.
    by apply (demo_fresh chan_empty mem0).
Qed.

Definition duo_copies : flatmem * bool :=
  receive_copies duo thread_a 1000 recv_a chan_empty (sent_message duo entry_b thread_b send_b conn_a chan_empty)
    (sent_body duo send_b) [0; 0; 0] 0.
Definition duo_return : flatmem * bool := copy_to_user (fst duo_copies) 20 1110 [0; 0].

Lemma rendezvous_delivers_witness :
  wp (rendezvous 12 3 thread_b thread_a 1000 1000 0 (fun u => u) (IoReply 7 42 (Iovec 1100 2)) (Sleep 0 false))
    (fun r s' => r = Some (7, 0, 42) /\ ks_heap s' = ks_heap duo) duo.
Proof.
  destruct duo_ok as [Hok Hf]. eapply wp_mono.
  - apply (rendezvous_delivers duo 12 3 1 entry_b entry_a thread_b thread_a 1000 1000 0 (fun u => u)
      (IoReply 7 42 (Iovec 1100 2)) (Sleep 0 false) send_b [0; 0; 0] (c_enc c_io_receive recv_a) [0; 0] [] [] conn_a
      chan_empty (fst duo_copies) (fst duo_return) Hf Hok); try done.
    + exact table_free_wf.
    + destruct (es_entries _ Hok 3%positive) as (e & He & _ & Heo); [right; by left|]. injection He as <-. exact Heo.
  - cbn beta. intros r s' (Hr & _ & _ & _ & _ & _ & Hh). split; [exact Hr|exact Hh].
Defined.
