(* ===== verification/VectorExamples.v ===== *)
(** * Examples of vectored sends and pulses

    The properties of VectorSend and PulseSend at the two processes of Examples: one
    sends six buffers, three of them empty, and takes the reply in two. *)

From Stdlib Require Import ZArith Lia.
From stdpp Require Import base tactics list option gmap fin_maps sets.
From S2P Require Import Prelude ConnectionTable Layout UserMem Kernel Msgsend Channel ProcessEntry DriverData Driver Rendezvous VectorMem VectorSend PulseSend Examples.

Open Scope Z_scope.

(** ** Definitions *)

Definition vec_in : list iovec := [Iovec 1180 1; Iovec 0 0; Iovec 1181 1; Iovec 0 0; Iovec 1182 1; Iovec 0 0].
Definition vec_out : list iovec := [Iovec 1184 1; Iovec 1190 4].
Definition sendv_b : qnx_io_msgsendv := IoMsgsendv 1 0 1050 6 1146 2.

Definition write_all (u : flatmem) (l : list (Z * Z * list Z)) : flatmem :=
  foldl (fun u '(mm, a, bs) => fst (copy_to_user u mm a bs)) u l.

(** the process 20 has its structure, its vectors and three bytes in memory *)
Definition mem_vec : flatmem :=
  write_all mem0 [(10, 1000, c_enc c_io_receive recv_a); (20, 1000, c_enc c_io_msgsendv sendv_b);
                  (20, 1050, mjoin (map (c_enc c_iovec) vec_in)); (20, 1146, mjoin (map (c_enc c_iovec) vec_out));
                  (20, 1180, [65; 66; 67])].
Definition duo_vec : kstate flatmem := upd_user mem_vec duo.

(** a pulse, and a receiver with a buffer for it *)
Definition recv_pulse : qnx_io_receive := IoReceive 1 0 (Iovec 1100 24) info_zero.
Definition pulse_b : qnx_io_msgsendpulse := IoMsgsendpulse 1 5 77.
Definition mem_pulse : flatmem :=
  write_all mem0 [(10, 1000, c_enc c_io_receive recv_pulse); (20, 1000, c_enc c_io_msgsendpulse pulse_b)].
Definition duo_pulse : kstate flatmem := upd_user mem_pulse duo.

#[local] Opaque mem_vec mem_pulse.

(** ** Lemmas *)

Lemma duo_user_ok u : entries_ok (upd_user u duo) /\ fresh_above (upd_user u duo).
Proof. destruct duo_ok as [[Hnd Hin] Hf]. by split. Qed.

Lemma duo_entry_a_ok : entry_ok (ks_heap duo) entry_a.
Proof. destruct duo_ok as [Hok _]. destruct (es_entries _ Hok 3%positive) as (e & He & _ & Heo); [right; by left|]. injection He as <-. exact Heo. Qed.

Lemma duo_vec_request : vectors_request duo_vec thread_b 1000 = inr (sendv_b, vec_in, vec_out, []).
Proof. by vm_compute. Qed.

Lemma duo_vec_message : vectors_message duo_vec thread_b vec_in vec_out [] = inr ([65; 66; 67], []).
Proof. by vm_compute. Qed.

(** ** Witnesses *)


Lemma msgsendv_queues_witness :
  wp (handle_msgsendv_begin 12 thread_b 1000) (fun '(r, f) s' =>
    exists p buf, r = Blocked 1 p /\ ks_heap s' !! buf = Some (OBuf [65; 66; 67])) duo_vec.
Proof.
  destruct (duo_user_ok mem_vec) as [Hok Hf]. eapply wp_mono.
  - apply (msgsendv_queues duo_vec 12 entry_b thread_b 1000 Hf Hok); [done|exact table_free_wf].
  - cbn beta. intros [r f] s'. rewrite duo_vec_request. change (send_target duo_vec entry_b (mv_coid sendv_b)) with (Some (conn_a, 1%positive)).
    cbn beta iota. rewrite duo_vec_message. intros (c & Hc & _ & p & buf & out & chid & -> & _ & _ & Hq & _).
    exists p, buf. split; [done|]. by eapply queued_vectors_buffer.
Defined.

Definition vec_copies : flatmem * bool :=
  receive_copies duo_vec thread_a 1000 recv_a chan_empty
    (sent_message duo_vec entry_b thread_b (plain_send sendv_b vec_in vec_out) conn_a chan_empty)
    (sent_body duo_vec (plain_send sendv_b vec_in vec_out)) [65; 66; 67] 0.
Definition vec_return : flatmem :=
  match memcpy_toiovec (fst vec_copies) 20 vec_out [65; 66] 2 with Some (_, u) => u | None => mem0 end.

Lemma vectored_rendezvous_delivers_witness :
  wp (vectored_rendezvous 12 3 thread_b thread_a 1000 1000 0 (fun u => u) (IoReply 7 42 (Iovec 1100 2)) (Sleep 0 false))
    (fun r s' => r = Some (7, 0, 42) /\ gather (ks_user s') 20 [(1184, 1); (1190, 1)] = Some [65; 66] /\
      ks_heap s' = ks_heap duo_vec) duo_vec.
Proof.
  destruct (duo_user_ok mem_vec) as [Hok Hf]. eapply wp_mono.
  - apply (vectored_rendezvous_delivers duo_vec 12 3 1 entry_b entry_a thread_b thread_a 1000 1000 0 (fun u => u)
      (IoReply 7 42 (Iovec 1100 2)) (Sleep 0 false) sendv_b vec_in vec_out [65; 66; 67] (c_enc c_io_receive recv_a) [65; 66]
      [] [] [] conn_a chan_empty (fst vec_copies) vec_return Hf Hok); try exact duo_vec_request; try exact duo_vec_message; try done.
    + exact table_free_wf.
    + exact duo_entry_a_ok.
    + repeat (apply Forall_cons; split; [by vm_compute|]). apply Forall_nil_2.
    + repeat (apply Forall_cons; split; [by vm_compute|]). apply Forall_nil_2.
    + cbn. split; [|split; [constructor|done]]. apply Forall_singleton. unfold disjoint_ranges. lia.
  - cbn beta. intros r s' (Hr & _ & _ & <- & Hg & _ & _ & Hh). split; [exact Hr|]. split; [exact Hg|exact Hh].
Defined.

Lemma duo_vec_noreplyv : noreplyv_request duo_vec thread_b 1000 = inr (sendv_b, vec_in, []).
Proof. by vm_compute. Qed.

Lemma duo_vec_target : send_target duo_vec entry_b (mv_coid sendv_b) = Some (conn_a, 1%positive).
Proof. by vm_compute. Qed.


Lemma msgsendpulse_queues_witness :
  wp (handle_msgsendpulse 12 thread_b 1000) (fun rc s' => rc = 0 /\
    ks_heap s' !! 100%positive = Some (OMsg (pulse_message 20 1 pulse_b))) duo_pulse.
Proof.
  destruct (duo_user_ok mem_pulse) as [Hok Hf]. eapply wp_mono.
  - apply (msgsendpulse_queues duo_pulse 12 entry_b thread_b 1000 Hf Hok); [done|exact table_free_wf].
  - cbn beta. intros rc s'. replace (pulse_request duo_pulse thread_b 1000) with (inr (A := Z) (pulse_b, @nil bool)) by (by vm_compute).
    replace (send_target duo_pulse entry_b (mp_coid pulse_b)) with (Some (conn_a, 1%positive)) by (by vm_compute).
    cbn beta iota. intros (-> & c & Hc & _ & -> & _). split; [done|]. change (Some (OChan chan_empty) = Some (OChan c)) in Hc.
    injection Hc as <-. rewrite lookup_insert_ne by done. apply lookup_insert_eq.
Defined.


(** when the variable happens to be 0, a failed gather goes on with a freed object *)
Example failed_gather_uses_freed_message :
  let s := upd_user (write_all mem0 [(20, 1000, c_enc c_io_msgsendv (IoMsgsendv 1 0 1050 1 0 0)); (20, 1050, c_enc c_iovec (Iovec 5000 1))])
             (upd_params (ks_params duo) (KState (ks_heap duo) (ks_next duo) [] 0 (ks_user duo) (ks_entries duo)
               (ks_next_channel_id duo) (ks_next_rcvid duo) (ks_params duo) (ks_sleeping duo) (ks_trace duo))) in
  exists p, handle_msgsend_noreplyv 12 thread_b 1000 [] s = Oops (BadAccess p).
Proof. eexists. by vm_compute. Qed.
