(* ===== verification/Protocol.v ===== *)
(** * Interleaved calls

    The pieces of the system calls of several threads, run in any order.  A
    [config] is a kernel state with the calls that are in progress; an [action]
    is the next piece of one of them, and [step] runs it.  The invariant [inv]
    says who holds which reference, and where the message of each blocked sender
    is; it is what makes every enabled action safe. *)

From Stdlib Require Import ZArith Lia.
From stdpp Require Import base tactics list option gmap fin_maps sets.
From S2P Require Import Prelude Layout UserMem ConnectionTable Kernel Msgsend Channel ProcessEntry DriverData Driver.

Open Scope Z_scope.

(** ** Calls in progress *)

Inductive call :=
  (* asleep in MsgSend, with the message at [p] *)
  | CSend (chnl p : ptr) (cur : task_struct)
  (* in MsgReceive, waiting for a message *)
  | CWait (entry chnl : ptr) (cur : task_struct) (addr : Z) (recv : qnx_io_receive)
  (* in MsgReceive, with the message at [p] taken from the queue *)
  | CCopy (entry chnl p : ptr) (cur : task_struct) (addr wait : Z) (recv : qnx_io_receive)
  (* in MsgReply or MsgError, with the message at [p] taken from [pending] *)
  | CReply (p : ptr) (cur : task_struct) (io : qnx_io_reply)
  | CError (p : ptr) (io : qnx_io_error_reply).

(** the references to channels that a call holds *)
Definition call_channels (x : call) : list ptr :=
  match x with
  | CSend c _ _ | CWait _ c _ _ _ | CCopy _ c _ _ _ _ _ => [c]
  | CReply _ _ _ | CError _ _ => []
  end.

Definition sent (x : call) : option ptr :=
  match x with CSend _ p _ => Some p | _ => None end.
Definition sender_tid (x : call) : option Z :=
  match x with CSend _ _ cur => Some (tsk_pid cur) | _ => None end.
Definition copied (x : call) : option ptr :=
  match x with CCopy _ _ p _ _ _ _ => Some p | _ => None end.
Definition replied (x : call) : option ptr :=
  match x with CReply p _ _ | CError p _ => Some p | _ => None end.
Definition receiver (x : call) : option (ptr * ptr * qnx_io_receive) :=
  match x with CWait e c _ _ r | CCopy e c _ _ _ _ r => Some (e, c, r) | _ => None end.

(** ** Actions *)

Inductive action :=
  | AOpen (f : ptr) (cur : task_struct)
  | AClose (f : ptr)
  | AChannelCreate (entry : ptr)
  | AChannelDestroy (entry : ptr) (id : Z)
  | AConnectAttach (entry : ptr) (att : qnx_io_attach)
  | AConnectDetach (entry : ptr) (coid : Z)
  | AMsgSend (entry : ptr) (cur : task_struct) (addr : Z)
  (* a timeout or a signal wakes a thread *)
  | AInterrupt (cur : task_struct)
  | AMsgSendReturn (i : nat) (sleep : sleep_result)
  | AMsgReceive (entry : ptr) (cur : task_struct) (addr : Z)
  | AMsgReceiveTake (i : nat) (wait : Z)
  | AMsgReceiveReturn (i : nat)
  | AMsgReply (entry : ptr) (cur : task_struct) (io : qnx_io_reply)
  | AMsgError (entry : ptr) (io : qnx_io_error_reply)
  | AReplyReturn (i : nat)
  | AMsgRead (entry : ptr) (cur : task_struct) (io : qnx_io_read).

Section Protocol.
  Context {M : Type} `{!UserMem M}.
  Implicit Types (s : kstate M) (h : gmap ptr kobj) (calls : list call) (held : list ptr) (own : ptr -> Z).

(** the piece of code that an action runs, and the calls in progress after it *)
Definition exec (a : action) (calls : list call) : K M (list call) :=
  match a with
  | AOpen f cur => let! _ := qnxcomm_open f cur in kret calls
  | AClose f => let! _ := qnxcomm_close f in kret calls
  | AChannelCreate entry => let! _ := qnx_process_entry_add_channel entry in kret calls
  | AChannelDestroy entry id => let! _ := qnx_process_entry_remove_channel entry id in kret calls
  | AConnectAttach entry att => let! _ := qnx_process_entry_add_connection entry att in kret calls
  | AConnectDetach entry coid => let! _ := qnx_process_entry_remove_connection entry coid in kret calls
  | AMsgSend entry cur addr =>
      let! r := handle_msgsend_begin entry cur addr in
      kret (match r with Returned _ => calls | Blocked chnl p => CSend chnl p cur :: calls end)
  | AInterrupt cur => kmod (fun s => upd_sleeping (ks_sleeping s ∖ {[tsk_pid cur]}) s) ;;; kret calls
  | AMsgSendReturn i sleep =>
      match calls !! i with
      | Some (CSend chnl p cur) => let! _ := handle_msgsend_finish chnl p cur sleep in kret (delete i calls)
      | _ => kret calls
      end
  | AMsgReceive entry cur addr =>
      let! r := handle_msgreceive_begin entry cur addr in
      kret (match r with inl _ => calls | inr (chnl, recv) => CWait entry chnl cur addr recv :: calls end)
  | AMsgReceiveTake i wait =>
      match calls !! i with
      | Some (CWait entry chnl cur addr recv) =>
          let! taken := handle_msgreceive_dequeue chnl wait in
          match taken with
          | inl _ => qnx_channel_release chnl ;;; kret (delete i calls)
          | inr p => kret (CCopy entry chnl p cur addr wait recv :: delete i calls)
          end
      | _ => kret calls
      end
  | AMsgReceiveReturn i =>
      match calls !! i with
      | Some (CCopy entry chnl p cur addr wait recv) =>
          let! _ := handle_msgreceive_deliver entry cur addr chnl recv wait p in kret (delete i calls)
      | _ => kret calls
      end
  | AMsgReply entry cur io =>
      let! taken := qnx_process_entry_release_pending entry (rp_rcvid io) in
      kret (match taken with None => calls | Some p => CReply p cur io :: calls end)
  | AMsgError entry io =>
      let! taken := qnx_process_entry_release_pending entry (er_rcvid io) in
      kret (match taken with None => calls | Some p => CError p io :: calls end)
  | AReplyReturn i =>
      match calls !! i with
      | Some (CReply p cur io) => let! _ := handle_msgreply_complete cur io p in kret (delete i calls)
      | Some (CError p io) => let! _ := handle_msgerror_complete io p in kret (delete i calls)
      | _ => kret calls
      end
  | AMsgRead entry cur io => let! _ := handle_msgread entry cur io in kret calls
  end.

(** [p] is a message in the hands of a MsgReply or MsgError *)
Definition in_reply calls (p : ptr) : Prop := exists x, x ∈ calls /\ replied x = Some p.

(** When an action can happen.  A call is made on the entry of an open device; a
    thread is in one call at a time; the device stays open while its process
    receives; the counters for ids have not wrapped around.  A sender goes on
    when it is awake; when it was interrupted it waits while its message is
    being copied.  The case of an interruption during a reply is left out: there
    the code goes wrong ([msgsend_interrupted_during_reply]). *)
Definition enabled (a : action) s calls : Prop :=
  match a with
  | AOpen f cur => exists fl, ks_heap s !! f = Some (OFile fl) /\ private_data fl = None /\ Z.land (f_mode fl) O_RDWR ≠ 0
  | AClose f => exists fl, ks_heap s !! f = Some (OFile fl) /\ Z.land (f_mode fl) O_RDWR ≠ 0 /\
      forall x entry c r, x ∈ calls -> receiver x = Some (entry, c, r) -> private_data fl ≠ Some entry
  | AChannelCreate entry => entry ∈ ks_entries s /\ 0 <= ks_next_channel_id s < INT_MAX
  | AConnectAttach entry _ => entry ∈ ks_entries s /\ 0 <= qnx_max_connections_per_process (ks_params s)
  | AConnectDetach entry coid => entry ∈ ks_entries s /\ is_int coid
  | AChannelDestroy entry _ | AMsgReceive entry _ _ | AMsgReply entry _ _ | AMsgError entry _ => entry ∈ ks_entries s
  | AMsgRead entry _ io => entry ∈ ks_entries s /\ is_int (rd_offset io) /\ 0 <= iov_len (rd_out io)
  | AMsgSend entry cur _ => entry ∈ ks_entries s /\ 0 <= ks_next_rcvid s < INT_MAX /\
      forall x, x ∈ calls -> sender_tid x ≠ Some (tsk_pid cur)
  | AInterrupt _ => True
  | AMsgSendReturn i sleep => forall chnl p cur m b, calls !! i = Some (CSend chnl p cur) ->
      ks_heap s !! p = Some (OMsg m) -> data m = DMsg b ->
      tsk_pid cur ∉ ks_sleeping s /\
      match interruption b sleep with
      | None => state m = QNX_STATE_FINISHED \/ status m = - ESRCH
      | Some _ => state m ≠ QNX_STATE_RECEIVING /\ ~ in_reply calls p
      end
  | AMsgReceiveTake _ _ | AMsgReceiveReturn _ | AReplyReturn _ => True
  end.

Inductive step : kstate M * list call -> kstate M * list call -> Prop :=
  | step_exec a s calls s' calls' :
      enabled a s calls -> exec a calls s = Done (calls', s') -> step (s, calls) (s', calls').

(** the module was just loaded: no process has the device open *)
Definition initial (x : kstate M * list call) : Prop :=
  let '(s, calls) := x in
  calls = [] /\ ks_entries s = [] /\ fresh_above s /\ 0 <= ks_next_rcvid s /\
  forall q o, ks_heap s !! q = Some o -> exists fl, o = OFile fl /\ private_data fl = None.

Definition reachable (x : kstate M * list call) : Prop :=
  exists x0, initial x0 /\ rtc step x0 x.

(** ** The invariant *)

(** the message at [p] of a blocked sender on [c], in the state [st] *)
Definition sends h calls (c p : ptr) (st : Z) : Prop :=
  exists cur m, CSend c p cur ∈ calls /\ h !! p = Some (OMsg m) /\ state m = st /\ status m = 0.

Definition queued h (c p : ptr) : Prop := exists ch, h !! c = Some (OChan ch) /\ p ∈ waiting ch.
Definition is_pending h (p : ptr) : Prop := exists q e, h !! q = Some (OProc e) /\ p ∈ pending e.
Definition is_copied calls (p : ptr) : Prop := exists x, x ∈ calls /\ copied x = Some p.

(** where the message of a sender that waits is *)
Definition placed h calls (c p : ptr) (m : qnx_internal_msgsend) : Prop :=
  (state m = QNX_STATE_INITIAL /\ queued h c p) \/
  (state m = QNX_STATE_RECEIVING /\ is_copied calls p) \/
  (state m = QNX_STATE_PENDING /\ (is_pending h p \/ in_reply calls p)).

(** a sender that was woken for good: it has a reply, or its receiver is gone *)
Definition settled (asleep : gset Z) (cur : task_struct) (m : qnx_internal_msgsend) : Prop :=
  tsk_pid cur ∉ asleep /\ (state m = QNX_STATE_FINISHED \/ state m = QNX_STATE_PENDING /\ status m = - ESRCH).

(** the buffers of a message *)
Definition msg_buffers (m : qnx_internal_msgsend) : list ptr :=
  match data m with
  | DMsg b => match mb_in_base b with InKernel q => [q] | _ => [] end
  | DPulse _ => []
  end ++ option_list (reply_base m).

(** a message of a thread that is in MsgSend *)
Record sender_ok h (own : ptr -> Z) (rid : Z) (c p : ptr) (cur : task_struct) (m : qnx_internal_msgsend)
    (b : msg_body) (buf : ptr) : Prop := {
  sn_msg : h !! p = Some (OMsg m);
  sn_task : task m = Some cur;
  sn_data : data m = DMsg b;
  sn_in : mb_in_base b = InKernel buf;
  sn_bytes : exists bytes, h !! buf = Some (OBuf bytes) /\ Z.of_nat (length bytes) = mb_in_len b;
  sn_out : exists a, mb_out_base b = OutUser a;
  sn_out_len : 0 <= mb_out_len b;
  sn_id : 0 < rcvid m <= rid;
  sn_receiver : receiver_pid m = own c;
  sn_reply : reply_ok h m;
  sn_reply_buf : forall r, reply_base m = Some r -> r ≠ buf /\
                   (exists o, h !! r = Some o /\ (o = ORaw \/ exists bytes, o = OBuf bytes));
  sn_fresh : state m ≠ QNX_STATE_FINISHED -> reply_base m = None /\ reply_len m = 0
}.

(** the channels that belong to a process *)
Definition proc_channels h (q : ptr) : list ptr :=
  match h !! q with Some (OProc e) => channels e | _ => [] end.

(** all references to channels: of the processes, of the calls, and others *)
Definition holders h (es : list ptr) calls held : list ptr :=
  (es ≫= proc_channels h) ++ (calls ≫= call_channels) ++ held.

Definition occ (c : ptr) (l : list ptr) : Z := Z.of_nat (count_occ Pos.eq_dec l c).

Record proc_ok (es : list ptr) (own : ptr -> Z) (q : ptr) (e : qnx_process_entry) : Prop := {
  po_listed : q ∈ es;
  po_refcnt : pe_refcnt e = 1;
  po_table : table_ok (pe_connections e);
  po_pending : NoDup (pending e);
  po_pollfds : pollfds e = [];
  po_own : forall c, c ∈ channels e -> own c = pe_pid e
}.

(** no queue, pending list or call has the message at [p] *)
Record nowhere h calls (p : ptr) : Prop := {
  nw_queued : forall c, ~ queued h c p;
  nw_pending : ~ is_pending h p;
  nw_copied : ~ is_copied calls p;
  nw_replied : ~ in_reply calls p
}.

(** a message belongs to a sender, a buffer to a message *)
Definition tracked h calls (q : ptr) (o : kobj) : Prop :=
  match o with
  | OProc _ | OChan _ | OFile _ => True
  | OPollfd _ => False
  | OMsg _ => exists c cur, CSend c q cur ∈ calls
  | ORaw | OBuf _ => exists c p cur m, CSend c p cur ∈ calls /\ h !! p = Some (OMsg m) /\ q ∈ msg_buffers m
  end.

(** [own c] is the process that created the channel [c]; [held] are references
    to channels and [hand] is a message that are in the middle of being passed on *)
Record inv own s calls held (hand : option ptr) : Prop := {
  i_fresh : fresh_above s;
  i_nodup : NoDup (ks_entries s);
  i_listed : forall q, q ∈ ks_entries s -> exists e, ks_heap s !! q = Some (OProc e);
  i_proc : forall q e, ks_heap s !! q = Some (OProc e) -> proc_ok (ks_entries s) own q e;
  i_pids : forall q q' e e', ks_heap s !! q = Some (OProc e) -> ks_heap s !! q' = Some (OProc e') ->
    pe_pid e = pe_pid e' -> q = q';
  i_owned : NoDup (ks_entries s ≫= proc_channels (ks_heap s));
  i_alive : forall c, c ∈ holders (ks_heap s) (ks_entries s) calls held -> exists ch, ks_heap s !! c = Some (OChan ch);
  i_chan : forall c ch, ks_heap s !! c = Some (OChan ch) -> 0 < ch_refcnt ch /\
    ch_refcnt ch = occ c (holders (ks_heap s) (ks_entries s) calls held) /\ NoDup (waiting ch);
  i_queued : forall c ch p, ks_heap s !! c = Some (OChan ch) -> p ∈ waiting ch ->
    sends (ks_heap s) calls c p QNX_STATE_INITIAL;
  i_pending : forall q e p, ks_heap s !! q = Some (OProc e) -> p ∈ pending e ->
    exists c, sends (ks_heap s) calls c p QNX_STATE_PENDING /\ own c = pe_pid e;
  i_copied : forall entry c p cur addr wait recv, CCopy entry c p cur addr wait recv ∈ calls ->
    sends (ks_heap s) calls c p QNX_STATE_RECEIVING;
  i_replied : forall p, in_reply calls p ->
    (exists c, sends (ks_heap s) calls c p QNX_STATE_PENDING) /\ ~ is_pending (ks_heap s) p;
  i_receiver : forall x entry c recv, x ∈ calls -> receiver x = Some (entry, c, recv) ->
    0 <= iov_len (rv_out recv) /\ exists e, ks_heap s !! entry = Some (OProc e) /\ own c = pe_pid e;
  i_sender : forall c p cur, CSend c p cur ∈ calls ->
    exists m b buf, sender_ok (ks_heap s) own (ks_next_rcvid s) c p cur m b buf /\
      (~ settled (ks_sleeping s) cur m -> hand = Some p \/ placed (ks_heap s) calls c p m);
  i_hand : forall p, hand = Some p -> (exists c cur, CSend c p cur ∈ calls) /\ nowhere (ks_heap s) calls p;
  i_sent : NoDup (omap sent calls);
  i_threads : NoDup (omap sender_tid calls);
  i_copies : NoDup (omap copied calls);
  i_replies : NoDup (omap replied calls);
  i_rid : 0 <= ks_next_rcvid s;
  i_ids : forall x x' p p' m m', x ∈ calls -> sent x = Some p -> x' ∈ calls -> sent x' = Some p' ->
    ks_heap s !! p = Some (OMsg m) -> ks_heap s !! p' = Some (OMsg m') -> rcvid m = rcvid m' -> p = p';
  i_buffers : forall x x' p p' m m' r, x ∈ calls -> sent x = Some p -> x' ∈ calls -> sent x' = Some p' ->
    ks_heap s !! p = Some (OMsg m) -> ks_heap s !! p' = Some (OMsg m') ->
    r ∈ msg_buffers m -> r ∈ msg_buffers m' -> p = p';
  i_file : forall f fl q, ks_heap s !! f = Some (OFile fl) -> private_data fl = Some q ->
    q ∈ ks_entries s /\ forall f' fl', ks_heap s !! f' = Some (OFile fl') -> private_data fl' = Some q -> f' = f;
  i_objects : forall q o, ks_heap s !! q = Some o -> tracked (ks_heap s) calls q o;
  i_opened : forall q, q ∈ ks_entries s -> exists f fl, ks_heap s !! f = Some (OFile fl) /\ private_data fl = Some q
}.

End Protocol.
