(* ===== verification/ProtocolInv.v ===== *)
(** * The invariant of interleaved calls, rule by rule

    How the invariant [inv] of Protocol.v moves along when references are taken
    and dropped, messages change hands, and processes come and go. *)

From Stdlib Require Import ZArith Lia.
From stdpp Require Import base tactics list option gmap fin_maps sets.
From S2P Require Import Prelude Layout UserMem ConnectionTable Kernel Msgsend Channel ProcessEntry DriverData Driver Protocol.

Open Scope Z_scope.

(** ** Counting and uniqueness in lists *)

Lemma omap_unique {A B} (f : A -> option B) l x y b :
  NoDup (omap f l) -> x ∈ l -> y ∈ l -> f x = Some b -> f y = Some b -> x = y.
Proof.
  induction l as [|z l IH]; cbn; [by intros _ ?%elem_of_nil|]. intros Hnd Hx Hy Hfx Hfy.
  assert (Hin : forall w, w ∈ l -> f w = Some b -> b ∈ omap f l) by (intros w ??; apply list_elem_of_omap; eauto).
  apply elem_of_cons in Hx, Hy. destruct (f z) as [b'|] eqn:Hz.
  - apply NoDup_cons in Hnd as [Hb Hnd]. destruct Hx as [->|Hx], Hy as [->|Hy]; simplify_eq; [done|..].
    + destruct Hb. by eapply Hin.
    + destruct Hb. by eapply Hin.
    + by apply IH.
  - destruct Hx as [->|Hx], Hy as [->|Hy]; simplify_eq. by apply IH.
Qed.

Lemma occ_app c l1 l2 : occ c (l1 ++ l2) = occ c l1 + occ c l2.
Proof. unfold occ. rewrite count_occ_app. lia. Qed.

Lemma occ_cons c d l : occ c (d :: l) = (if decide (d = c) then 1 else 0) + occ c l.
Proof.
  unfold occ. case_decide; [subst; rewrite count_occ_cons_eq by done|rewrite count_occ_cons_neq by done]; lia.
Qed.

Lemma occ_perm c l1 l2 : l1 ≡ₚ l2 -> occ c l1 = occ c l2.
Proof. intros Hp. unfold occ. f_equal. by apply (Permutation_count_occ Pos.eq_dec). Qed.

Lemma occ_pos c l : 0 < occ c l <-> c ∈ l.
Proof. unfold occ. rewrite list_elem_of_In, (count_occ_In Pos.eq_dec). lia. Qed.

Lemma occ_nonneg c l : 0 <= occ c l.
Proof. unfold occ. lia. Qed.

#[export] Hint Rewrite occ_app occ_cons : qnx.

(** the parts of the invariant under fixed names *)
Ltac destruct_inv H :=
  destruct H as [Hfresh Hnodup Hlisted Hproc Hpids Howned Halive Hchan Hqueued Hpending Hcopied Hreplied
    Hreceiver Hsender Hhand Hsent Hthreads Hcopies Hreplies Hrid Hids Hbuffers Hfile Hobjects Hopened].

Section Rules.
  Context {M : Type} `{!UserMem M}.
  Implicit Types (s : kstate M) (h : gmap ptr kobj) (calls : list call) (held : list ptr) (own : ptr -> Z).

(** ** The invariant does not depend on the order of the calls *)

Lemma holders_perm h es calls calls' held held' :
  calls ≡ₚ calls' -> held ≡ₚ held' -> holders h es calls held ≡ₚ holders h es calls' held'.
Proof. intros Hc Hh. unfold holders. by rewrite Hc, Hh. Qed.

Lemma sends_incl h calls calls' c p st :
  (forall cur, CSend c p cur ∈ calls -> CSend c p cur ∈ calls') -> sends h calls c p st -> sends h calls' c p st.
Proof. intros Hi (cur & m & Hin & ?). exists cur, m. split; [by apply Hi|done]. Qed.

Lemma placed_incl h calls calls' c p m :
  (forall x, x ∈ calls -> x ∈ calls') -> placed h calls c p m -> placed h calls' c p m.
Proof.
  intros Hi [?|[(? & x & ? & ?)|(? & [?|(x & ? & ?)])]]; [by left| | |].
  - right; left. split; [done|]. exists x. auto.
  - right; right. auto.
  - right; right. split; [done|]. right. exists x. auto.
Qed.

Lemma nowhere_incl h calls calls' p : (forall x, x ∈ calls' -> x ∈ calls) -> nowhere h calls p -> nowhere h calls' p.
Proof.
  intros Hi [? ? Hc Hr]. split; try done.
  - intros (x & ? & ?). destruct Hc. exists x. auto.
  - intros (x & ? & ?). destruct Hr. exists x. auto.
Qed.

(** the kind of an object is decidable *)
Lemma chan_or_not (o : kobj) : (exists ch, o = OChan ch) \/ forall ch, o ≠ OChan ch.
Proof. destruct o; eauto. Qed.

Lemma proc_or_not (o : kobj) : (exists e, o = OProc e) \/ forall e, o ≠ OProc e.
Proof. destruct o; eauto. Qed.

Lemma tracked_ext h h' calls calls' q o :
  (forall c p cur, CSend c p cur ∈ calls -> CSend c p cur ∈ calls') ->
  (forall p m, h !! p = Some (OMsg m) -> h' !! p = Some (OMsg m)) ->
  tracked h calls q o -> tracked h' calls' q o.
Proof.
  intros Hc Hm. assert (Hbuf : (exists c p cur m, CSend c p cur ∈ calls /\ h !! p = Some (OMsg m) /\ q ∈ msg_buffers m) ->
    exists c p cur m, CSend c p cur ∈ calls' /\ h' !! p = Some (OMsg m) /\ q ∈ msg_buffers m).
  { intros (c & p & cur & m & ? & ? & ?). exists c, p, cur, m. auto. }
  destruct o; cbn; auto. intros (c & cur & ?). eauto.
Qed.

Lemma settled_mono sl sl' cur m : sl' ⊆ sl -> settled sl cur m -> settled sl' cur m.
Proof. intros Hs [? ?]. split; [set_solver|done]. Qed.

Lemma inv_perm own s calls calls' held held' hand :
  calls ≡ₚ calls' -> held ≡ₚ held' -> inv own s calls held hand -> inv own s calls' held' hand.
Proof.
  intros Hc Hh Hinv. destruct_inv Hinv. pose proof (holders_perm (ks_heap s) (ks_entries s) _ _ _ _ Hc Hh) as Hho.
  assert (Hin : forall x, x ∈ calls' <-> x ∈ calls) by (intros x; by rewrite Hc).
  assert (Hse : forall c p st, sends (ks_heap s) calls c p st -> sends (ks_heap s) calls' c p st).
  { intros c p st. apply sends_incl. intros. by apply Hin. }
  split; try done.
  - intros c. rewrite <- Hho. auto.
  - intros c ch Hcc. rewrite <- (occ_perm c _ _ Hho). auto.
  - eauto.
  - intros q e p Hq Hp. destruct (Hpending q e p Hq Hp) as (c & ? & ?). eauto.
  - intros *. rewrite Hin. eauto.
  - intros p (x & Hx & Hr). destruct (Hreplied p) as [(c & ?) ?]; [exists x; by rewrite <- Hin|]. eauto.
  - intros *. rewrite Hin. eauto.
  - intros c p cur. rewrite Hin. intros Hx. destruct (Hsender c p cur Hx) as (m & b & buf & Hs & Hpl).
    exists m, b, buf. split; [done|]. intros Ht. destruct (Hpl Ht) as [?|?]; [by left|right].
    eapply placed_incl; [|done]. intros. by apply Hin.
  - intros p Hp. destruct (Hhand p Hp) as [(c & cur & ?) ?]. split; [exists c, cur; by apply Hin|].
    eapply nowhere_incl; [|done]. intros. by apply Hin.
  - by rewrite <- Hc.
  - by rewrite <- Hc.
  - by rewrite <- Hc.
  - by rewrite <- Hc.
  - intros *. rewrite !Hin. eauto.
  - intros *. rewrite !Hin. eauto.
  - intros q o Hq. eapply tracked_ext; [intros; by apply Hin|done|eauto].
Qed.

(** only the heap, the process list and who sleeps matter *)
Lemma inv_frame own s s' calls held hand :
  ks_heap s' = ks_heap s -> ks_entries s' = ks_entries s -> (ks_next s <= ks_next s')%positive ->
  ks_next_rcvid s' = ks_next_rcvid s -> ks_sleeping s' ⊆ ks_sleeping s ->
  inv own s calls held hand -> inv own s' calls held hand.
Proof.
  intros Hh He Hn Hr Hs Hinv. destruct_inv Hinv. split; rewrite ?Hh, ?He, ?Hr; try done.
  - intros q Hq. rewrite Hh. apply Hfresh. lia.
  - intros c p cur Hx. destruct (Hsender c p cur Hx) as (m & b & buf & ? & Hpl). exists m, b, buf.
    split; [done|]. intros Ht. apply Hpl. contradict Ht. by eapply settled_mono.
Qed.

(** ** Channels and references *)

(** the two heaps have the same objects, channels apart *)
Definition same_but_chans h h' : Prop :=
  forall q o, (forall ch, o ≠ OChan ch) -> h !! q = Some o <-> h' !! q = Some o.

Lemma same_but_chans_insert h c ch ch' : h !! c = Some (OChan ch) -> same_but_chans h (<[c := OChan ch']> h).
Proof.
  intros Hc q o Ho. destruct (decide (q = c)) as [->|Hne]; [|by rewrite lookup_insert_ne].
  rewrite lookup_insert_eq. split; intros ?; simplify_eq; by edestruct Ho.
Qed.

Lemma same_but_chans_delete h c ch : h !! c = Some (OChan ch) -> same_but_chans h (delete c h).
Proof.
  intros Hc q o Ho. destruct (decide (q = c)) as [->|Hne]; [|by rewrite lookup_delete_ne].
  rewrite lookup_delete_eq. split; intros ?; simplify_eq; by edestruct Ho.
Qed.

Lemma proc_channels_ext h h' q :
  (forall e, h !! q = Some (OProc e) <-> h' !! q = Some (OProc e)) -> proc_channels h' q = proc_channels h q.
Proof.
  intros Hx.
  assert (Hcase : forall h0 : gmap ptr kobj, (exists e, h0 !! q = Some (OProc e) /\ proc_channels h0 q = channels e) \/
    ((forall e, h0 !! q ≠ Some (OProc e)) /\ proc_channels h0 q = [])).
  { intros h0. unfold proc_channels. destruct (h0 !! q) as [[]|]; eauto. }
  destruct (Hcase h) as [(e & He & ->)|[Hn ->]], (Hcase h') as [(e' & He' & ->)|[Hn' ->]]; [|..|done].
  - apply Hx in He. congruence.
  - apply Hx in He. by destruct (Hn' e).
  - apply Hx in He'. by destruct (Hn e').
Qed.

Lemma holders_ext h h' es calls held :
  (forall q e, h !! q = Some (OProc e) <-> h' !! q = Some (OProc e)) ->
  holders h' es calls held = holders h es calls held.
Proof.
  intros Hx. unfold holders. f_equal. induction es as [|q es IH]; [done|]. cbn. rewrite IH. f_equal. by apply proc_channels_ext.
Qed.

Lemma sends_ext h h' calls c p st :
  (forall m, h !! p = Some (OMsg m) -> h' !! p = Some (OMsg m)) -> sends h calls c p st -> sends h' calls c p st.
Proof. intros Hm (cur & m & Hin & Hp & ?). exists cur, m. eauto. Qed.

Lemma placed_ext h h' calls c p m :
  (queued h c p -> queued h' c p) -> (is_pending h p -> is_pending h' p) -> placed h calls c p m -> placed h' calls c p m.
Proof. intros Hq Hp [[? ?]|[[? ?]|[? [?|?]]]]; unfold placed; auto 6. Qed.

Lemma nowhere_ext h h' calls p :
  (forall c, queued h' c p -> queued h c p) -> (is_pending h' p -> is_pending h p) -> nowhere h calls p -> nowhere h' calls p.
Proof.
  intros Hq Hp [H1 H2 ? ?]. split; [intros c ?%Hq; by apply (H1 c)|intros ?%Hp; by apply H2|done|done].
Qed.

Lemma sender_ok_ext h h' own rid c p cur m b buf :
  (forall q o, (forall e, o ≠ OProc e) -> (forall ch, o ≠ OChan ch) -> h !! q = Some o -> h' !! q = Some o) ->
  sender_ok h own rid c p cur m b buf -> sender_ok h' own rid c p cur m b buf.
Proof.
  intros Hx []. split; try done; [by apply Hx| | |].
  - destruct sn_bytes as (bytes & ? & ?). exists bytes. split; [by apply Hx|done].
  - unfold reply_ok in *. destruct (reply_base m) as [r|] eqn:Hr; [|done]. destruct sn_reply as [_ Hlen].
    destruct (sn_reply_buf r eq_refl) as (_ & o & Ho & Hk). split.
    + exists o. apply Hx; [| |done]; by destruct Hk as [->|[? ->]].
    + intros Hl. destruct (Hlen Hl) as (bytes & ? & ?). exists bytes. split; [by apply Hx|done].
  - intros r Hr. destruct (sn_reply_buf r Hr) as (? & o & Ho & Hk). split; [done|]. exists o. split; [|done].
    apply Hx; [| |done]; by destruct Hk as [->|[? ->]].
Qed.

(** the counters, the ids and the set of holders of channels may change *)
Lemma inv_chans own s h' calls held held' hand :
  inv own s calls held hand -> same_but_chans (ks_heap s) h' ->
  (forall q, ks_heap s !! q = None -> h' !! q = None) ->
  (forall c ch', h' !! c = Some (OChan ch') -> exists ch, ks_heap s !! c = Some (OChan ch) /\ waiting ch' = waiting ch /\
     0 < ch_refcnt ch' /\ ch_refcnt ch' = occ c (holders (ks_heap s) (ks_entries s) calls held')) ->
  (forall c, c ∈ holders (ks_heap s) (ks_entries s) calls held' -> exists ch', h' !! c = Some (OChan ch')) ->
  (forall c ch, ks_heap s !! c = Some (OChan ch) -> h' !! c = None -> waiting ch = []) ->
  inv own (upd_heap (fun _ => h') s) calls held' hand.
Proof.
  intros Hinv Hsame Hnone Hch Hal Hgone. destruct_inv Hinv.
  assert (Hp : forall q e, ks_heap s !! q = Some (OProc e) <-> h' !! q = Some (OProc e)) by (intros; by apply Hsame).
  assert (Hm : forall q m, ks_heap s !! q = Some (OMsg m) <-> h' !! q = Some (OMsg m)) by (intros; by apply Hsame).
  assert (Hse : forall c p st, sends (ks_heap s) calls c p st -> sends h' calls c p st).
  { intros c p st. apply sends_ext. intros m. apply Hm. }
  assert (Hqu : forall c p, queued (ks_heap s) c p <-> queued h' c p).
  { intros c p. split; intros (ch & Hc & Hin).
    - destruct (h' !! c) as [o|] eqn:Hc'; [|rewrite (Hgone c ch Hc Hc') in Hin; by apply elem_of_nil in Hin].
      destruct (chan_or_not o) as [[ch' ->]|Hk]; [|apply Hsame in Hc'; [simplify_eq; by edestruct Hk|done]].
      exists ch'. split; [done|]. destruct (Hch c ch' Hc') as (ch0 & Hc0 & -> & _). by simplify_eq.
    - destruct (Hch c ch Hc) as (ch0 & Hc0 & Hw & _). exists ch0. by rewrite <- Hw. }
  assert (Hpe : forall p, is_pending (ks_heap s) p <-> is_pending h' p).
  { intros p. unfold is_pending. by setoid_rewrite Hp. }
  split; ks_simpl; try done.
  - intros q Hq. ks_simpl. apply Hnone. by apply Hfresh.
  - intros q Hq. destruct (Hlisted q Hq) as (e & He). exists e. by apply Hp.
  - intros q e. rewrite <- Hp. apply Hproc.
  - intros q q' e e'. rewrite <- !Hp. apply Hpids.
  - rewrite (list_bind_ext _ (proc_channels (ks_heap s)) (ks_entries s) (ks_entries s)); [done| |done].
    intros q. by apply proc_channels_ext.
  - intros c. rewrite (holders_ext _ _ _ _ _ Hp). apply Hal.
  - intros c ch' Hc. rewrite (holders_ext _ _ _ _ _ Hp). destruct (Hch c ch' Hc) as (ch & Hc0 & Hw & ? & ?).
    rewrite Hw. destruct (Hchan c ch Hc0) as (_ & _ & ?). done.
  - intros c ch' p Hc Hin. destruct (Hch c ch' Hc) as (ch & Hc0 & Hw & _). rewrite Hw in Hin. eauto.
  - intros q e p. rewrite <- Hp. intros Hq Hin. destruct (Hpending q e p Hq Hin) as (c & ? & ?). eauto.
  - eauto.
  - intros p Hr. destruct (Hreplied p Hr) as [(c & ?) Hnp]. split; [eauto|]. by rewrite <- Hpe.
  - intros x entry c recv Hx Hr. destruct (Hreceiver _ _ _ _ Hx Hr) as (? & e & ? & ?). split; [done|]. exists e. by rewrite <- Hp.
  - intros c p cur Hx. destruct (Hsender c p cur Hx) as (m & b & buf & Hs & Hpl). exists m, b, buf. split.
    + eapply sender_ok_ext; [|exact Hs]. intros q o _ Ho. by apply Hsame.
    + intros Ht. destruct (Hpl Ht) as [?|?]; [by left|right]. eapply placed_ext; [apply Hqu|apply Hpe|done].
  - intros p Hin. destruct (Hhand p Hin) as [? ?]. split; [done|]. eapply nowhere_ext; [intros; by apply Hqu|apply Hpe|done].
  - intros *. rewrite <- !Hm. eauto.
  - intros *. rewrite <- !Hm. eauto.
  - intros f fl q Hf Hq. destruct (Hfile f fl q) as [? Hinj]; [by apply Hsame|done|]. split; [done|].
    intros f' fl' Hf'. apply Hinj. by apply Hsame.
  - intros q o Hq. destruct (chan_or_not o) as [[? ->]|Hk]; [done|]. eapply tracked_ext; [done|intros ??; apply Hm|]. apply Hobjects. by apply Hsame.
  - intros q Hq. destruct (Hopened q Hq) as (f & fl & ? & ?). exists f, fl. split; [by apply Hsame|done].
Qed.

Lemma occ_holders_held c d h es calls held :
  occ c (holders h es calls (d :: held)) = (if decide (d = c) then 1 else 0) + occ c (holders h es calls held).
Proof. unfold holders. rewrite !occ_app, occ_cons. lia. Qed.

Lemma elem_of_holders c h es calls held :
  c ∈ holders h es calls held <->
  (exists q e, q ∈ es /\ h !! q = Some (OProc e) /\ c ∈ channels e) \/
  (exists x, x ∈ calls /\ c ∈ call_channels x) \/ c ∈ held.
Proof.
  unfold holders. rewrite !elem_of_app, !list_elem_of_bind. split.
  - intros [(q & Hc & Hq)|[(x & ? & ?)|?]]; [|eauto..]. left. unfold proc_channels in Hc.
    destruct (h !! q) as [[]|] eqn:He; try by apply elem_of_nil in Hc. eauto.
  - intros [(q & e & Hq & He & Hc)|[(x & ? & ?)|?]]; [|eauto..]. left. exists q. unfold proc_channels. by rewrite He.
Qed.

(** a reference more *)
Lemma inv_acquire own s calls held hand c ch :
  inv own s calls held hand -> ks_heap s !! c = Some (OChan ch) ->
  inv own (upd_heap <[c := OChan (set_ch_refcnt (ch_refcnt ch + 1) ch)]> s) calls (c :: held) hand.
Proof.
  intros Hinv Hc. eapply (inv_chans _ _ (<[c := _]> (ks_heap s))); [done|by eapply same_but_chans_insert|..].
  - intros q Hq. by rewrite lookup_insert_ne by congruence.
  - intros c' ch' Hc'. destruct (i_chan _ _ _ _ _ Hinv c ch Hc) as (? & Href & _).
    rewrite occ_holders_held. destruct (decide (c = c')) as [<-|Hne].
    + rewrite lookup_insert_eq in Hc'. simplify_eq. exists ch. cbn. split_and!; [done|done|lia|lia].
    + rewrite lookup_insert_ne in Hc' by done. exists ch'.
      destruct (i_chan _ _ _ _ _ Hinv c' ch' Hc') as (? & ? & _). split_and!; [done|done|lia|lia].
  - intros c' Hc'. destruct (decide (c = c')) as [<-|Hne]; [rewrite lookup_insert_eq; eauto|].
    rewrite lookup_insert_ne by done. apply (i_alive _ _ _ _ _ Hinv). rewrite elem_of_holders in *.
    destruct Hc' as [?|[?|[->|?]%elem_of_cons]]; [tauto|tauto|done|tauto].
  - intros c' ch' Hc'. destruct (decide (c = c')) as [<-|Hne]; [by rewrite lookup_insert_eq|].
    rewrite lookup_insert_ne by done. congruence.
Qed.

(** a sender holds its channel *)
Lemma queue_held own s calls held hand c ch p :
  inv own s calls held hand -> ks_heap s !! c = Some (OChan ch) -> p ∈ waiting ch ->
  c ∈ holders (ks_heap s) (ks_entries s) calls [].
Proof.
  intros Hinv Hc Hp. destruct (i_queued _ _ _ _ _ Hinv c ch p Hc Hp) as (cur & m & Hx & _).
  apply elem_of_holders. right; left. eexists. split; [done|]. by left.
Qed.

(** a reference less: the channel stays while somebody else has one *)
Lemma inv_release own s calls held hand c :
  inv own s calls (c :: held) hand ->
  exists ch, ks_heap s !! c = Some (OChan ch) /\ quiet ch /\
    inv own (upd_heap (partial_alter (fun _ => after_release ch) c) s) calls held hand /\
    (c ∈ holders (ks_heap s) (ks_entries s) calls held -> after_release ch = Some (OChan (set_ch_refcnt (ch_refcnt ch - 1) ch))).
Proof.
  intros Hinv. destruct (i_alive _ _ _ _ _ Hinv c) as [ch Hc]; [apply elem_of_holders; right; right; by left|].
  destruct (i_chan _ _ _ _ _ Hinv c ch Hc) as (Hpos & Href & _).
  rewrite occ_holders_held, decide_True in Href by done.
  pose proof (occ_nonneg c (holders (ks_heap s) (ks_entries s) calls held)) as Hnn.
  pose proof (occ_pos c (holders (ks_heap s) (ks_entries s) calls held)) as Hop.
  assert (Hempty : c ∉ holders (ks_heap s) (ks_entries s) calls held -> waiting ch = []).
  { intros Hn. destruct (waiting ch) as [|p l] eqn:Hw; [done|]. destruct Hn.
    pose proof (queue_held _ _ _ _ _ _ _ p Hinv Hc) as Hq. rewrite Hw in Hq. specialize (Hq ltac:(by left)).
    rewrite elem_of_holders in *. destruct Hq as [?|[?|?%elem_of_nil]]; tauto. }
  exists ch. split; [done|]. split; [|split].
  - destruct (decide (ch_refcnt ch = 1)); [right|left; lia]. split; [done|]. apply Hempty. rewrite <- Hop. lia.
  - unfold after_release. eapply (inv_chans _ _ (partial_alter _ c (ks_heap s))); [done|..].
    + case_cmp; [by eapply same_but_chans_delete|by eapply same_but_chans_insert].
    + intros q Hq. rewrite lookup_partial_alter_ne by congruence. done.
    + intros c' ch' Hc'. destruct (decide (c = c')) as [<-|Hne].
      * rewrite lookup_partial_alter_eq in Hc'. case_cmp_in Hc'; simplify_eq. exists ch. cbn. split_and!; [done|done|lia|lia].
      * rewrite lookup_partial_alter_ne in Hc' by done. exists ch'.
        destruct (i_chan _ _ _ _ _ Hinv c' ch' Hc') as (? & Hr & _). rewrite occ_holders_held, decide_False in Hr by done.
        split_and!; [done|done|lia|lia].
    + intros c' Hc'. destruct (decide (c = c')) as [<-|Hne].
      * rewrite lookup_partial_alter_eq. apply Hop in Hc'. case_cmp; [lia|eauto].
      * rewrite lookup_partial_alter_ne by done. apply (i_alive _ _ _ _ _ Hinv). rewrite elem_of_holders in *.
        rewrite elem_of_cons. tauto.
    + intros c' ch' Hc' Hgone. destruct (decide (c = c')) as [<-|Hne]; [|by rewrite lookup_partial_alter_ne, Hc' in Hgone].
      simplify_eq. rewrite lookup_partial_alter_eq in Hgone. case_cmp_in Hgone; [|done]. apply Hempty. rewrite <- Hop. lia.
  - intros Hin%Hop. unfold after_release. case_cmp; [lia|done].
Qed.

Lemma release_ok own s calls held hand c :
  inv own s calls (c :: held) hand ->
  exists ch, ks_heap s !! c = Some (OChan ch) /\ inv own (upd_heap (partial_alter (fun _ => after_release ch) c) s) calls held hand /\
    qnx_channel_release c s = Done (tt, upd_heap (partial_alter (fun _ => after_release ch) c) s).
Proof.
  intros Hinv. destruct (inv_release _ _ _ _ _ _ Hinv) as (ch & Hc & Hq & Hi & _).
  exists ch. split_and!; [done|done|by apply channel_release_eq].
Qed.

(** the process list is in order *)
Lemma inv_entries_ok own s calls held hand : inv own s calls held hand -> entries_ok s.
Proof.
  intros Hinv. split; [apply Hinv|]. intros q Hq. destruct (i_listed _ _ _ _ _ Hinv q Hq) as (e & He).
  exists e. destruct (i_proc _ _ _ _ _ Hinv q e He) as [_ Hr Ht Hpn Hpf Hown]. split_and!; [done|lia|].
  assert (Hch : forall c, c ∈ channels e -> exists ch, ks_heap s !! c = Some (OChan ch)).
  { intros c Hc. apply (i_alive _ _ _ _ _ Hinv). apply elem_of_holders. left. eauto. }
  split; [| |done|done| | |].
  - pose proof (i_owned _ _ _ _ _ Hinv) as Hnd. apply list_elem_of_split in Hq as (l1 & l2 & Heq). rewrite Heq, bind_app in Hnd.
    apply NoDup_app in Hnd as (_ & _ & Hnd). cbn in Hnd. apply NoDup_app in Hnd as (Hnd & _). unfold proc_channels in Hnd. by rewrite He in Hnd.
  - intros c Hc. destruct (Hch c Hc) as (ch & Hcc). exists ch. split; [done|]. by apply (i_chan _ _ _ _ _ Hinv c).
  - intros p Hp. destruct (i_pending _ _ _ _ _ Hinv q e p He Hp) as (c & (cur & m & Hx & Hm & _) & _).
    exists m. split; [done|]. destruct (i_sender _ _ _ _ _ Hinv _ _ _ Hx) as (m' & b & buf & Hs & _).
    rewrite (sn_msg _ _ _ _ _ _ _ _ _ Hs) in Hm. simplify_eq. rewrite (sn_task _ _ _ _ _ _ _ _ _ Hs). eauto.
  - rewrite Hpf. constructor.
  - rewrite Hpf. by intros ? ?%elem_of_nil.
Qed.

Lemma inv_entry_ok own s calls held hand q e :
  inv own s calls held hand -> ks_heap s !! q = Some (OProc e) -> entry_ok (ks_heap s) e.
Proof.
  intros Hinv He. destruct (es_entries _ (inv_entries_ok _ _ _ _ _ Hinv) q) as (e' & He' & _ & ?); [by eapply po_listed, i_proc|].
  by simplify_eq.
Qed.

(** ** Process entries *)

(** the channels of all processes, with those of one set apart *)
Lemma owned_channels_split h es q e :
  NoDup es -> q ∈ es -> h !! q = Some (OProc e) -> exists R,
    (es ≫= proc_channels h) ≡ₚ channels e ++ R /\
    (forall h' e', h' !! q = Some (OProc e') -> (forall q', q' ≠ q -> proc_channels h' q' = proc_channels h q') ->
       (es ≫= proc_channels h') ≡ₚ channels e' ++ R) /\
    (forall h', (forall q', q' ≠ q -> proc_channels h' q' = proc_channels h q') ->
       (list_del q es ≫= proc_channels h') = R).
Proof.
  intros Hnd (l1 & l2 & ->)%list_elem_of_split He. apply NoDup_app in Hnd as (_ & Hn1 & Hn2).
  apply NoDup_cons in Hn2 as [Hq2 _].
  assert (Hq1 : q ∉ l1) by (intros Hq; apply (Hn1 q Hq); by left).
  assert (Hext : forall h' l, q ∉ l -> (forall q', q' ≠ q -> proc_channels h' q' = proc_channels h q') ->
    (l ≫= proc_channels h') = (l ≫= proc_channels h)).
  { intros h' l Hl Hx. induction l as [|q' l IH]; [done|]. apply not_elem_of_cons in Hl as [??]. cbn.
    rewrite Hx by congruence. f_equal. by apply IH. }
  exists ((l1 ≫= proc_channels h) ++ (l2 ≫= proc_channels h)). split_and!.
  - rewrite bind_app. cbn. unfold proc_channels at 2. rewrite He. apply Permutation_app_swap_app.
  - intros h' e' He' Hx. rewrite bind_app. cbn. unfold proc_channels at 2. rewrite He', (Hext h' l1), (Hext h' l2) by done. apply Permutation_app_swap_app.
  - intros h' Hx. rewrite list_del_app, bind_app, (Hext h' l1), (Hext h' l2) by done. done.
Qed.

Lemma perm_rotate {A} (l1 l2 l3 l4 : list A) : (l1 ++ l2) ++ l3 ++ l4 ≡ₚ (l1 ++ l4) ++ l2 ++ l3.
Proof. rewrite <- !(assoc_L (++)). f_equiv. rewrite (assoc_L (++) l2 l3 l4). apply Permutation_app_comm. Qed.

(** the two heaps have the same objects, process entries apart *)
Definition same_but_procs h h' : Prop :=
  forall q o, (forall e, o ≠ OProc e) -> h !! q = Some o <-> h' !! q = Some o.

Lemma same_but_procs_insert h q e e' : h !! q = Some (OProc e) -> same_but_procs h (<[q := OProc e']> h).
Proof.
  intros Hq q' o Ho. destruct (decide (q' = q)) as [->|Hne]; [|by rewrite lookup_insert_ne].
  rewrite lookup_insert_eq. split; intros ?; simplify_eq; by edestruct Ho.
Qed.

(** An entry is replaced.  Channels may be handed over to [held'], and messages
    may move between [pending] and the hand. *)
Lemma inv_entry own s calls held held' hand hand' q e e' :
  inv own s calls held hand -> ks_heap s !! q = Some (OProc e) ->
  pe_pid e' = pe_pid e -> pe_refcnt e' = 1 -> table_ok (pe_connections e') -> pollfds e' = [] ->
  channels e' ⊆+ channels e -> channels e' ++ held' ≡ₚ channels e ++ held ->
  NoDup (pending e') ->
  (forall p, p ∈ pending e' -> p ∈ pending e \/
     hand = Some p /\ exists c, sends (ks_heap s) calls c p QNX_STATE_PENDING /\ own c = pe_pid e) ->
  (forall p, p ∈ pending e -> p ∈ pending e' \/ hand' = Some p) ->
  (forall p, hand = Some p -> p ∈ pending e' \/ hand' = Some p) ->
  (forall p, hand' = Some p -> (hand = Some p \/ p ∈ pending e) /\ p ∉ pending e') ->
  inv own (upd_heap <[q := OProc e']> s) calls held' hand'.
Proof.
  intros Hinv He Hpid Href Htab Hpf Hsub Hperm Hpnd Hin1 Hin2 Hin3 Hin4.
  pose proof (same_but_procs_insert (ks_heap s) q e e' He) as Hsame. set (h' := <[q := OProc e']> (ks_heap s)) in *.
  destruct_inv Hinv. pose proof (Hproc q e He) as [Hq _ _ _ _ Hown].
  destruct (owned_channels_split _ _ q e Hnodup Hq He) as (R & HR & HR' & _).
  assert (He' : h' !! q = Some (OProc e')) by apply lookup_insert_eq.
  assert (Hne : forall q', q' ≠ q -> h' !! q' = ks_heap s !! q') by (intros; by apply lookup_insert_ne).
  specialize (HR' h' e' He'). rewrite HR in Howned.
  assert (Hpc : forall q', q' ≠ q -> proc_channels h' q' = proc_channels (ks_heap s) q').
  { intros q' Hq'. unfold proc_channels. by rewrite Hne. }
  specialize (HR' Hpc).
  assert (Hho : holders h' (ks_entries s) calls held' ≡ₚ holders (ks_heap s) (ks_entries s) calls held).
  { unfold holders. rewrite HR, HR'. etransitivity; [apply perm_rotate|]. rewrite Hperm. symmetry. apply perm_rotate. }
  assert (Hse : forall c p st, sends (ks_heap s) calls c p st -> sends h' calls c p st).
  { intros c p st. apply sends_ext. intros m ?. by apply Hsame. }
  assert (Hprocs : forall q' e1, h' !! q' = Some (OProc e1) -> exists e0, ks_heap s !! q' = Some (OProc e0) /\ pe_pid e1 = pe_pid e0).
  { intros q' e1 Hq'. destruct (decide (q' = q)) as [->|Hq'n]; [rewrite He' in Hq'; simplify_eq; eauto|].
    rewrite Hne in Hq' by done. eauto. }
  assert (Hqu : forall c p, queued (ks_heap s) c p <-> queued h' c p).
  { intros c p. split; intros (ch & ? & ?); exists ch; (split; [by apply Hsame|done]). }
  assert (Hpe : forall p, is_pending h' p -> is_pending (ks_heap s) p \/ hand = Some p /\ p ∈ pending e').
  { intros p (q' & e1 & Hq' & Hp'). destruct (decide (q' = q)) as [->|Hq'n].
    - rewrite He' in Hq'. simplify_eq. destruct (Hin1 p Hp') as [?|[? _]]; [left; by exists q, e|by right].
    - left. exists q', e1. by rewrite <- Hne. }
  assert (Hother : forall p q' e1, q' ≠ q -> ks_heap s !! q' = Some (OProc e1) -> p ∈ pending e1 -> p ∉ pending e).
  { intros p q' e1 Hq'n Hq' Hp' Hp. apply Hq'n.
    destruct (Hpending _ _ _ Hq' Hp') as (c1 & (cur1 & m1 & Hx1 & _) & Ho1), (Hpending _ _ _ He Hp) as (c2 & (cur2 & m2 & Hx2 & _) & Ho2).
    assert (Heqx : CSend c1 p cur1 = CSend c2 p cur2) by (by eapply (omap_unique sent calls _ _ p)). simplify_eq.
    eapply Hpids; [done|done|congruence]. }
  split; ks_simpl; fold h'; try done.
  - intros q' Hq'. ks_simpl. fold h'. rewrite Hne; [by apply Hfresh|]. intros ->. by rewrite (Hfresh q Hq') in He.
  - intros q' Hq'. destruct (decide (q' = q)) as [->|Hq'n]; [eauto|]. rewrite Hne by done. by apply Hlisted.
  - intros q' e1 Hq'. destruct (decide (q' = q)) as [->|Hq'n].
    + rewrite He' in Hq'. simplify_eq. split; try done. intros c Hc. rewrite Hpid. apply Hown. by eapply elem_of_submseteq.
    + rewrite Hne in Hq' by done. by apply Hproc.
  - intros q1 q2 e1 e2 H1 H2 Heq. destruct (Hprocs _ _ H1) as (e01 & ? & Hp1), (Hprocs _ _ H2) as (e02 & ? & Hp2).
    eapply Hpids; [done|done|congruence].
  - rewrite HR'. apply submseteq_Permutation in Hsub as (k & Hk).
    rewrite Hk, (Permutation_app_comm _ k), <- (assoc_L (++)) in Howned. by apply NoDup_app in Howned as (_ & _ & ?).
  - intros c. rewrite Hho. intros [ch Hc]%Halive. exists ch. by apply Hsame.
  - intros c ch Hc. rewrite (occ_perm _ _ _ Hho). apply Hchan. by apply Hsame.
  - intros c ch p Hc Hp. apply Hse. eapply Hqueued; [|done]. by apply Hsame.
  - intros q' e1 p Hq' Hp. destruct (decide (q' = q)) as [->|Hq'n].
    + rewrite He' in Hq'. simplify_eq. rewrite Hpid. destruct (Hin1 p Hp) as [Hp0|[_ (c & ? & ?)]]; [|eauto].
      destruct (Hpending _ _ _ He Hp0) as (c & ? & ?). eauto.
    + rewrite Hne in Hq' by done. destruct (Hpending _ _ _ Hq' Hp) as (c & ? & ?). eauto.
  - eauto.
  - intros p Hr. destruct (Hreplied p Hr) as [(c & ?) Hnp]. split; [eauto|]. intros [?|[Hh _]]%Hpe; [done|].
    by destruct (Hhand p Hh) as [_ [_ _ _ []]].
  - intros x entry c recv Hx Hr. destruct (Hreceiver _ _ _ _ Hx Hr) as (? & e0 & He0 & ?). split; [done|].
    destruct (decide (entry = q)) as [->|]; [exists e'; simplify_eq; split; [done|congruence]|]. exists e0. by rewrite Hne.
  - intros c p cur Hx. destruct (Hsender c p cur Hx) as (m & b & buf & Hs & Hpl). exists m, b, buf. split.
    { eapply sender_ok_ext; [|exact Hs]. intros q' o Ho _. by apply Hsame. }
    intros Ht. destruct (Hpl Ht) as [Hh|[(? & ?)|[(? & Hxc)|(? & [(q' & e0 & Hq' & Hp)|?])]]].
    + destruct (Hin3 p Hh) as [Hp|Hp]; [right|by left]. destruct (Hin1 p Hp) as [Hp0|[_ (c0 & (cur0 & m0 & _ & Hm0 & ? & _) & _)]].
      { destruct (Hhand p Hh) as [_ [_ [] _ _]]. by exists q, e. }
      right; right. rewrite (sn_msg _ _ _ _ _ _ _ _ _ Hs) in Hm0. simplify_eq. split; [done|]. left. by exists q, e'.
    + right; left. split; [done|]. by apply Hqu.
    + right; right; left. done.
    + destruct (decide (q' = q)) as [->|Hq'n].
      * simplify_eq. destruct (Hin2 p Hp); [|by left]. right; right; right. split; [done|]. left. by exists q, e'.
      * right; right; right. split; [done|]. left. exists q', e0. by rewrite Hne.
    + right; right; right. auto.
  - intros p Hh. destruct (Hin4 p Hh) as [Hsrc Hnp]. destruct Hsrc as [Hsrc|Hsrc].
    + destruct (Hhand p Hsrc) as [? [? ? ? ?]]. split; [done|]. split; [|intros [?|[_ ?]]%Hpe; done|done|done].
      intros c ?%Hqu. naive_solver.
    + destruct (Hpending _ _ _ He Hsrc) as (c & (cur & m & Hx & Hm & Hst & _) & _). split; [eauto|].
      assert (Huniq : forall c' st, sends (ks_heap s) calls c' p st -> st = QNX_STATE_PENDING).
      { intros c' st (cur' & m' & _ & Hm' & <- & _). by simplify_eq. }
      split.
      * intros c' (ch & Hc & Hin)%Hqu. by apply (Hqueued _ _ _ Hc), Huniq in Hin.
      * intros (q' & e1 & Hq' & Hp'). destruct (decide (q' = q)) as [->|Hq'n]; [rewrite He' in Hq'; by simplify_eq|].
        rewrite Hne in Hq' by done. by eapply Hother.
      * intros (x & Hxc & Hcp). destruct x; simplify_eq/=. by apply Hcopied, Huniq in Hxc.
      * intros Hr. destruct (Hreplied p Hr) as [_ []]. by exists q, e.
  - intros *. intros Hx Hs Hx' Hs' Hm Hm'. eapply Hids; [exact Hx|done|exact Hx'|done|by apply Hsame|by apply Hsame].
  - intros *. intros Hx Hs Hx' Hs' Hm Hm'. eapply Hbuffers; [exact Hx|done|exact Hx'|done|by apply Hsame|by apply Hsame].
  - intros f fl q' Hf Hq'. destruct (Hfile f fl q') as [? Hinj]; [by apply Hsame|done|]. split; [done|].
    intros f' fl' Hf'. apply Hinj. by apply Hsame.
  - intros q' o Hq'. destruct (proc_or_not o) as [[? ->]|Hk]; [done|]. eapply tracked_ext; [done|intros ???; by apply Hsame|]. apply Hobjects. by apply Hsame.
  - intros q' Hq'. destruct (Hopened q' Hq') as (f & fl & ? & ?). exists f, fl. split; [by apply Hsame|done].
Qed.

(** ** Messages *)

(** the place of a message is where its state says *)
Lemma sends_state h calls c c' p st st' : sends h calls c p st -> sends h calls c' p st' -> st = st'.
Proof. intros (? & m & _ & Hm & <- & _) (? & m' & _ & Hm' & <- & _). by simplify_eq. Qed.

(** a message at the place that belongs to the state [st] is nowhere else *)
Lemma queued_only own s calls held hand c p :
  inv own s calls held hand -> queued (ks_heap s) c p ->
  (forall c', queued (ks_heap s) c' p -> c' = c) /\ ~ is_pending (ks_heap s) p /\ ~ is_copied calls p /\ ~ in_reply calls p /\ hand ≠ Some p.
Proof.
  intros Hinv (ch & Hc & Hin). destruct_inv Hinv. pose proof (Hqueued _ _ _ Hc Hin) as Hse. split_and!.
  - intros c' (ch' & Hc' & Hin'). pose proof (Hqueued _ _ _ Hc' Hin') as (cur' & m' & Hx' & _). destruct Hse as (cur & m & Hx & _).
    assert (Heq : CSend c p cur = CSend c' p cur') by (by eapply (omap_unique sent calls _ _ p)). by simplify_eq.
  - intros (q & e & Hq & Hp). destruct (Hpending _ _ _ Hq Hp) as (c' & Hse' & _). by pose proof (sends_state _ _ _ _ _ _ _ Hse Hse').
  - intros (x & Hx & Hp). destruct x; simplify_eq/=. apply Hcopied in Hx. by pose proof (sends_state _ _ _ _ _ _ _ Hse Hx).
  - intros Hr. destruct (Hreplied p Hr) as [(c' & Hse') _]. by pose proof (sends_state _ _ _ _ _ _ _ Hse Hse').
  - intros Hh. destruct (Hhand p Hh) as [_ [Hnq _ _ _]]. apply (Hnq c). by exists ch.
Qed.

(** A queue changes: messages move between it and the hand. *)
Lemma inv_queue own s calls held hand hand' c ch ch' :
  inv own s calls held hand -> ks_heap s !! c = Some (OChan ch) -> ch_refcnt ch' = ch_refcnt ch -> NoDup (waiting ch') ->
  (forall p, p ∈ waiting ch' -> p ∈ waiting ch \/ hand = Some p /\ sends (ks_heap s) calls c p QNX_STATE_INITIAL) ->
  (forall p, p ∈ waiting ch -> p ∈ waiting ch' \/ hand' = Some p) ->
  (forall p, hand = Some p -> p ∈ waiting ch' \/ hand' = Some p) ->
  (forall p, hand' = Some p -> (hand = Some p \/ p ∈ waiting ch) /\ p ∉ waiting ch') ->
  inv own (upd_heap <[c := OChan ch']> s) calls held hand'.
Proof.
  intros Hinv Hc Href Hwnd Hin1 Hin2 Hin3 Hin4. pose proof (same_but_chans_insert (ks_heap s) c ch ch' Hc) as Hsame.
  set (h' := <[c := OChan ch']> (ks_heap s)) in *. pose proof (queued_only own s calls held hand c) as Honly.
  specialize (fun p => Honly p Hinv). destruct_inv Hinv.
  assert (Hc' : h' !! c = Some (OChan ch')) by apply lookup_insert_eq.
  assert (Hne : forall q, q ≠ c -> h' !! q = ks_heap s !! q) by (intros; by apply lookup_insert_ne).
  assert (Hp : forall q e, ks_heap s !! q = Some (OProc e) <-> h' !! q = Some (OProc e)) by (intros; by apply Hsame).
  assert (Hm : forall q m, ks_heap s !! q = Some (OMsg m) <-> h' !! q = Some (OMsg m)) by (intros; by apply Hsame).
  assert (Hse : forall c p st, sends (ks_heap s) calls c p st -> sends h' calls c p st).
  { intros c0 p st. apply sends_ext. intros m. apply Hm. }
  assert (Hpe : forall p, is_pending (ks_heap s) p <-> is_pending h' p).
  { intros p. unfold is_pending. by setoid_rewrite Hp. }
  assert (Hqu : forall d p, d ≠ c -> queued (ks_heap s) d p <-> queued h' d p).
  { intros d p Hd. unfold queued. by rewrite Hne. }
  split; ks_simpl; fold h'; try done.
  - intros q Hq. ks_simpl. fold h'. rewrite Hne; [by apply Hfresh|]. intros ->. by rewrite (Hfresh c Hq) in Hc.
  - intros q Hq. destruct (Hlisted q Hq) as (e & He). exists e. by apply Hp.
  - intros q e. rewrite <- Hp. apply Hproc.
  - intros q q' e e'. rewrite <- !Hp. apply Hpids.
  - rewrite (list_bind_ext _ (proc_channels (ks_heap s)) (ks_entries s) (ks_entries s)); [done| |done].
    intros q. by apply proc_channels_ext.
  - intros d. rewrite (holders_ext _ _ _ _ _ Hp). intros [chd Hd]%Halive.
    destruct (decide (d = c)) as [->|Hdc]; [by exists ch'|]. exists chd. by rewrite Hne.
  - intros d chd Hd. rewrite (holders_ext _ _ _ _ _ Hp). destruct (decide (d = c)) as [->|Hdc].
    + rewrite Hc' in Hd. simplify_eq. rewrite Href. destruct (Hchan c ch Hc) as (? & ? & _). done.
    + rewrite Hne in Hd by done. by apply Hchan.
  - intros d chd p Hd Hin. destruct (decide (d = c)) as [->|Hdc].
    + rewrite Hc' in Hd. simplify_eq. apply Hse. destruct (Hin1 p Hin) as [?|[_ ?]]; eauto.
    + rewrite Hne in Hd by done. eauto.
  - intros q e p. rewrite <- Hp. intros Hq Hin. destruct (Hpending q e p Hq Hin) as (d & ? & ?). eauto.
  - eauto.
  - intros p Hr. destruct (Hreplied p Hr) as [(d & ?) Hnp]. split; [eauto|]. by rewrite <- Hpe.
  - intros x entry d recv Hx Hr. destruct (Hreceiver _ _ _ _ Hx Hr) as (? & e & ? & ?). split; [done|]. exists e. by rewrite <- Hp.
  - intros d p cur Hx. destruct (Hsender d p cur Hx) as (m & b & buf & Hs & Hpl). exists m, b, buf. split.
    { eapply sender_ok_ext; [|exact Hs]. intros q o _ Ho. by apply Hsame. }
    pose proof (sn_msg _ _ _ _ _ _ _ _ _ Hs) as Hpm.
    intros Ht. destruct (Hpl Ht) as [Hh|[(? & chd & Hd & Hin)|Hpl']].
    + destruct (Hin3 p Hh) as [Hin|]; [right; left|by left]. destruct (Hin1 p Hin) as [Hin0|[_ (cur0 & m0 & Hx0 & Hm0 & ? & _)]].
      { by destruct (Honly p) as (_ & _ & _ & _ & []); [exists ch|]. }
      simplify_eq. split; [done|]. assert (Heq : CSend d p cur = CSend c p cur0) by (by eapply (omap_unique sent calls _ _ p)).
      simplify_eq. by exists ch'.
    + destruct (decide (d = c)) as [->|Hdc].
      * simplify_eq. destruct (Hin2 p Hin); [right; left|by left]. split; [done|]. by exists ch'.
      * right; left. split; [done|]. exists chd. by rewrite Hne.
    + right; right. destruct Hpl' as [?|[? [Hpp|?]]]; [by left|right; split; [done|]; left; by apply Hpe|by right; auto].
  - intros p Hh. destruct (Hin4 p Hh) as [Hsrc Hnp].
    assert (Hnc : ~ queued h' c p) by (intros (chc & Hcc & Hin); rewrite Hc' in Hcc; by simplify_eq).
    destruct Hsrc as [Hsrc|Hsrc].
    + destruct (Hhand p Hsrc) as [? [Hnq ? ? ?]]. split; [done|]. split; [|by rewrite <- Hpe|done|done].
      intros d Hd. destruct (decide (d = c)) as [->|Hdc]; [done|]. apply (Hnq d). by apply Hqu.
    + destruct (Hqueued _ _ _ Hc Hsrc) as (cur & m & Hx & _). split; [eauto|].
      destruct (Honly p) as (Hq1 & ? & ? & ? & _); [by exists ch|]. split; [|by rewrite <- Hpe|done|done].
      intros d Hd. destruct (decide (d = c)) as [->|Hdc]; [done|]. apply Hdc, Hq1. by apply Hqu.
  - intros *. rewrite <- !Hm. eauto.
  - intros *. rewrite <- !Hm. eauto.
  - intros f fl q Hf Hq. destruct (Hfile f fl q) as [? Hinj]; [by apply Hsame|done|]. split; [done|].
    intros f' fl' Hf'. apply Hinj. by apply Hsame.
  - intros q o Hq. destruct (chan_or_not o) as [[? ->]|Hk]; [done|]. eapply tracked_ext; [done|intros ??; apply Hm|]. apply Hobjects. by apply Hsame.
  - intros q Hq. destruct (Hopened q Hq) as (f & fl & ? & ?). exists f, fl. split; [by apply Hsame|done].
Qed.

(** The message in the hand changes; a reply buffer may be new. *)
Lemma inv_msg own s s' calls held p m m' :
  inv own s calls held (Some p) -> ks_heap s !! p = Some (OMsg m) ->
  rcvid m' = rcvid m -> data m' = data m -> task m' = task m -> receiver_pid m' = receiver_pid m ->
  reply_base m = None -> (state m' ≠ QNX_STATE_FINISHED -> reply_base m' = None /\ reply_len m' = 0) ->
  ks_heap s' !! p = Some (OMsg m') ->
  (forall q o, q ≠ p -> reply_base m' ≠ Some q \/ ks_heap s !! q ≠ None -> ks_heap s' !! q = Some o <-> ks_heap s !! q = Some o) ->
  reply_ok (ks_heap s') m' ->
  (forall r, reply_base m' = Some r -> ks_heap s !! r = None /\
     exists o, ks_heap s' !! r = Some o /\ (o = ORaw \/ exists bytes, o = OBuf bytes)) ->
  fresh_above s' -> ks_entries s' = ks_entries s -> ks_next_rcvid s' = ks_next_rcvid s -> ks_sleeping s' ⊆ ks_sleeping s ->
  inv own s' calls held (Some p).
Proof.
  intros Hinv Hp Hid Hdata Htask Hrecv Hrb0 Hst Hp' Hsame Hrok Hnew Hfr Hes Hri Hsl.
  destruct_inv Hinv. destruct (Hhand p eq_refl) as [(c0 & cur0 & Hx0) Hnw].
  assert (Hold : forall q o, (forall m0, o ≠ OMsg m0) -> ks_heap s !! q = Some o -> ks_heap s' !! q = Some o).
  { intros q o Ho Hq. apply Hsame; [|right; congruence|done]. intros ->. rewrite Hp in Hq. simplify_eq. by edestruct Ho. }
  assert (Hback : forall q o, o ≠ ORaw -> (forall bytes, o ≠ OBuf bytes) -> (forall m0, o ≠ OMsg m0) ->
    ks_heap s' !! q = Some o -> ks_heap s !! q = Some o).
  { intros q o Hr Hb Hm Hq. destruct (decide (reply_base m' = Some q)) as [Hrq|Hrq].
    - destruct (Hnew q Hrq) as (_ & o' & Ho' & [->|[? ->]]); simplify_eq; by edestruct Hb.
    - apply Hsame in Hq; [done| |by left]. intros ->. rewrite Hp' in Hq. simplify_eq. by edestruct Hm. }
  assert (Hm : forall q mq, q ≠ p -> ks_heap s' !! q = Some (OMsg mq) <-> ks_heap s !! q = Some (OMsg mq)).
  { intros q mq Hq. destruct (decide (reply_base m' = Some q)) as [Hrq|Hrq]; [|by apply Hsame; auto].
    destruct (Hnew q Hrq) as (Hno & o' & Ho' & Hk). split; intros Hx; [|congruence]. rewrite Ho' in Hx. simplify_eq. by destruct Hk as [|[? ?]]. }
  assert (Hpr : forall q e, ks_heap s !! q = Some (OProc e) <-> ks_heap s' !! q = Some (OProc e)).
  { intros q e. split; [by apply Hold|by apply Hback]. }
  assert (Hch : forall q c, ks_heap s !! q = Some (OChan c) <-> ks_heap s' !! q = Some (OChan c)).
  { intros q e. split; [by apply Hold|by apply Hback]. }
  assert (Hse : forall c q st, q ≠ p -> sends (ks_heap s) calls c q st -> sends (ks_heap s') calls c q st).
  { intros c q st Hq. apply sends_ext. intros mq. by apply Hm. }
  assert (Hqu : forall c q, queued (ks_heap s) c q <-> queued (ks_heap s') c q) by (intros; unfold queued; by setoid_rewrite Hch).
  assert (Hpe : forall q, is_pending (ks_heap s) q <-> is_pending (ks_heap s') q) by (intros; unfold is_pending; by setoid_rewrite Hpr).
  assert (Hnot : nowhere (ks_heap s') calls p).
  { eapply nowhere_ext; [intros; by apply Hqu|apply Hpe|done]. }
  destruct Hnw as [Hnq Hnp Hnc Hnr].
  split; rewrite ?Hes, ?Hri; try done.
  - intros q Hq. destruct (Hlisted q Hq) as (e & He). exists e. by apply Hpr.
  - intros q e. rewrite <- Hpr. apply Hproc.
  - intros q q' e e'. rewrite <- !Hpr. apply Hpids.
  - rewrite (list_bind_ext _ (proc_channels (ks_heap s)) (ks_entries s) (ks_entries s)); [done| |done].
    intros q. by apply proc_channels_ext.
  - intros c. rewrite (holders_ext _ _ _ _ _ Hpr). setoid_rewrite <- Hch. apply Halive.
  - intros c ch. rewrite (holders_ext _ _ _ _ _ Hpr), <- Hch. apply Hchan.
  - intros c ch q. rewrite <- Hch. intros Hc Hin. apply Hse; [|eauto]. intros ->. apply (Hnq c). by exists ch.
  - intros q e p'. rewrite <- Hpr. intros Hq Hin. destruct (Hpending q e p' Hq Hin) as (c & ? & ?). exists c. split; [|done].
    apply Hse; [|done]. intros ->. apply Hnp. by exists q, e.
  - intros entry c q cur addr wait recv Hx. apply Hse; [|eauto]. intros ->. apply Hnc. by eexists; split.
  - intros q Hr. destruct (Hreplied q Hr) as [(c & ?) ?]. rewrite <- Hpe. split; [|done]. exists c. apply Hse; [|done]. by intros ->.
  - intros x entry c recv Hx Hr. destruct (Hreceiver _ _ _ _ Hx Hr) as (? & e & ? & ?). split; [done|]. exists e. by rewrite <- Hpr.
  - intros c q cur Hx. destruct (Hsender c q cur Hx) as (mq & b & buf & Hs & Hpl).
    assert (Hbuf : forall q bytes, ks_heap s !! q = Some (OBuf bytes) -> ks_heap s' !! q = Some (OBuf bytes)) by (intros; by apply Hold).
    assert (Hraw : forall q, ks_heap s !! q = Some ORaw -> ks_heap s' !! q = Some ORaw) by (intros; by apply Hold).
    destruct (decide (q = p)) as [->|Hq].
    + exists m', b, buf. destruct Hs. simplify_eq. split; [|by left]. split; try done; try congruence.
      * destruct sn_bytes as (bytes & ? & ?). eauto.
      * intros r Hr. destruct (Hnew r Hr) as (Hno & ?). split; [|done]. intros ->. destruct sn_bytes as (bytes & ? & ?). congruence.
    + exists mq, b, buf. split.
      * destruct Hs. split; try done; [by apply Hm| | |].
        -- destruct sn_bytes as (bytes & ? & ?). eauto.
        -- unfold reply_ok in *. destruct (reply_base mq) as [r|] eqn:Hr; [|done]. destruct sn_reply as [_ Hlen].
           destruct (sn_reply_buf r eq_refl) as (_ & o & Ho & Hk). split.
           ++ destruct Hk as [->|[? ->]]; eauto.
           ++ intros Hl. destruct (Hlen Hl) as (bytes & ? & ?). eauto.
        -- intros r Hr. destruct (sn_reply_buf r Hr) as (? & o & Ho & Hk). split; [done|].
           destruct Hk as [->|[? ->]]; eauto 6.
      * intros Ht. destruct Hpl as [?|?]; [contradict Ht; by eapply settled_mono|by left|right].
        eapply placed_ext; [apply Hqu|apply Hpe|done].
  - intros q [= <-]. split; [eauto|done].
  - intros x x' q q' mq mq' Hx Hsx Hx' Hsx' Hmq Hmq'.
    destruct (decide (q = p)) as [->|Hq], (decide (q' = p)) as [->|Hq']; [done|..];
      rewrite ?Hp', ?Hm in * by done; simplify_eq; rewrite ?Hid; intros; (eapply Hids; [exact Hx|done|exact Hx'|done|done|done|done]).
  - intros x x' q q' mq mq' r Hx Hsx Hx' Hsx' Hmq Hmq' Hr Hr'.
    assert (Hbufs : forall mq1 q1 x1, x1 ∈ calls -> sent x1 = Some q1 -> q1 ≠ p -> ks_heap s !! q1 = Some (OMsg mq1) ->
      r ∈ msg_buffers mq1 -> r ∈ msg_buffers m' -> q1 = p).
    { intros mq1 q1 x1 Hx1 Hs1 Hq1 Hm1 Hr1 Hrm. unfold msg_buffers in Hrm. apply elem_of_app in Hrm as [Hrm|Hrm].
      - eapply (Hbuffers x1 (CSend c0 p cur0) q1 p mq1 m r); try done. unfold msg_buffers. rewrite <- Hdata. apply elem_of_app. by left.
      - destruct (reply_base m') as [r'|] eqn:Hr'b; [|by apply elem_of_nil in Hrm]. apply list_elem_of_singleton in Hrm as ->.
        destruct (Hnew r' eq_refl) as (Hno & _). destruct x1; simplify_eq/=. destruct (Hsender _ _ _ Hx1) as (m1 & b1 & buf1 & Hs1' & _).
        destruct Hs1'. simplify_eq. unfold msg_buffers in Hr1. rewrite sn_data, sn_in in Hr1.
        apply elem_of_app in Hr1 as [Hr1|Hr1].
        + apply list_elem_of_singleton in Hr1 as ->. destruct sn_bytes as (? & ? & _). congruence.
        + destruct (reply_base mq1) as [r1|]; [|by apply elem_of_nil in Hr1]. apply list_elem_of_singleton in Hr1 as ->.
          destruct (sn_reply_buf r1 eq_refl) as (_ & o & ? & _). congruence. }
    destruct (decide (q = p)) as [->|Hq], (decide (q' = p)) as [->|Hq']; [done|..].
    + apply Hm in Hmq'; [|done]. simplify_eq. symmetry. by eapply (Hbufs mq' q' x').
    + apply Hm in Hmq; [|done]. simplify_eq. by eapply (Hbufs mq q x).
    + apply Hm in Hmq, Hmq'; [|done..]. eapply Hbuffers; [exact Hx|done|exact Hx'|done|done|done|done|done].
  - intros f fl q Hf Hq. destruct (Hfile f fl q) as [? Hinj]; [by apply Hback|done|]. split; [done|].
    intros f' fl' Hf'. apply Hinj. by apply Hback.
  - assert (Hmine : forall r, r ∈ msg_buffers m' -> exists c q cur mq, CSend c q cur ∈ calls /\ ks_heap s' !! q = Some (OMsg mq) /\ r ∈ msg_buffers mq).
    { intros r Hr. exists c0, p, cur0, m'. done. }
    assert (Hbuf : forall r, (exists c q cur mq, CSend c q cur ∈ calls /\ ks_heap s !! q = Some (OMsg mq) /\ r ∈ msg_buffers mq) ->
      exists c q cur mq, CSend c q cur ∈ calls /\ ks_heap s' !! q = Some (OMsg mq) /\ r ∈ msg_buffers mq).
    { intros r (c & q & cur & mq & Hx & Hmq & Hr). destruct (decide (q = p)) as [->|Hq].
      - simplify_eq. apply Hmine. unfold msg_buffers in *. rewrite Hrb0 in Hr. rewrite Hdata. cbn in Hr. rewrite app_nil_r in Hr.
        apply elem_of_app. by left.
      - exists c, q, cur, mq. split_and!; [done|by apply Hm|done]. }
    intros q o Hq. destruct (decide (q = p)) as [->|Hqp]; [rewrite Hp' in Hq; simplify_eq; by exists c0, cur0|].
    destruct (decide (reply_base m' = Some q)) as [Hrq|Hrq].
    + destruct (Hnew q Hrq) as (_ & o' & Ho' & Hk). simplify_eq.
      assert (q ∈ msg_buffers m') by (unfold msg_buffers; rewrite Hrq; apply elem_of_app; right; by left).
      destruct Hk as [->|[? ->]]; by apply Hmine.
    + apply Hsame in Hq; [|done|by left]. apply Hobjects in Hq. destruct o; cbn in *; auto.
  - intros q Hq. destruct (Hopened q Hq) as (f & fl & ? & ?). exists f, fl. split; [by apply Hold|done].
Qed.

(** ** Calls *)

(** The calls in progress change; the senders stay. *)
Lemma inv_calls own s calls calls' held held' hand hand' :
  inv own s calls held hand ->
  (forall c p cur, CSend c p cur ∈ calls' <-> CSend c p cur ∈ calls) ->
  omap sent calls' = omap sent calls -> omap sender_tid calls' = omap sender_tid calls ->
  NoDup (omap copied calls') -> NoDup (omap replied calls') ->
  (calls' ≫= call_channels) ++ held' ≡ₚ (calls ≫= call_channels) ++ held ->
  (forall entry c p cur addr wait recv, CCopy entry c p cur addr wait recv ∈ calls' ->
     sends (ks_heap s) calls c p QNX_STATE_RECEIVING) ->
  (forall p, in_reply calls' p -> in_reply calls p \/
     hand = Some p /\ exists c, sends (ks_heap s) calls c p QNX_STATE_PENDING) ->
  (forall x entry c recv, x ∈ calls' -> receiver x = Some (entry, c, recv) ->
     0 <= iov_len (rv_out recv) /\ exists e, ks_heap s !! entry = Some (OProc e) /\ own c = pe_pid e) ->
  (forall p, is_copied calls p -> is_copied calls' p \/ hand' = Some p) ->
  (forall p, in_reply calls p -> in_reply calls' p \/ hand' = Some p) ->
  (forall p, hand = Some p -> is_copied calls' p \/ in_reply calls' p \/ hand' = Some p) ->
  (forall p, hand' = Some p -> (hand = Some p \/ is_copied calls p \/ in_reply calls p) /\
     ~ is_copied calls' p /\ ~ in_reply calls' p) ->
  inv own s calls' held' hand'.
Proof.
  intros Hinv Hold Hsent' Htid' Hcnd Hrnd Hperm Hcp Hrp Hrecv Hc1 Hr1 Hh1 Hh2. pose proof (queued_only own s calls held hand) as Honly.
  specialize (fun c p => Honly c p Hinv). destruct_inv Hinv.
  assert (Hse : forall c p st, sends (ks_heap s) calls c p st -> sends (ks_heap s) calls' c p st).
  { intros c p st. apply sends_incl. intros. by apply Hold. }
  assert (Hho : holders (ks_heap s) (ks_entries s) calls' held' ≡ₚ holders (ks_heap s) (ks_entries s) calls held).
  { unfold holders. by rewrite Hperm. }
  split; rewrite ?Hsent', ?Htid'; try done.
  - intros c. rewrite Hho. apply Halive.
  - intros c ch. rewrite (occ_perm _ _ _ Hho). apply Hchan.
  - eauto.
  - intros q e p Hq Hp. destruct (Hpending q e p Hq Hp) as (c & ? & ?). eauto.
  - intros entry c p cur addr wait recv Hx. apply Hse. eauto.
  - intros p Hr. destruct (Hrp p Hr) as [Hr0|[Hh (c & ?)]].
    + destruct (Hreplied p Hr0) as [(c & ?) ?]. eauto.
    + destruct (Hhand p Hh) as [_ []]. eauto.
  - intros c p cur Hx%Hold. destruct (Hsender c p cur Hx) as (m & b & buf & Hs & Hpl). exists m, b, buf. split; [done|].
    pose proof (sn_msg _ _ _ _ _ _ _ _ _ Hs) as Hm.
    intros Ht. destruct (Hpl Ht) as [Hh|[?|[[? Hxc]|[? [?|Hxr]]]]].
    + destruct (Hh1 p Hh) as [(x & Hx' & Hcx)|[Hxr|?]]; [| |by left].
      * right; right; left. destruct x; simplify_eq/=. pose proof (Hcp _ _ _ _ _ _ _ Hx') as (cur' & m' & _ & Hm' & ? & _).
        simplify_eq. split; [done|]. by eexists; split.
      * right; right; right. destruct (Hrp p Hxr) as [Hr0|[_ (c' & cur' & m' & _ & Hm' & ? & _)]].
        { by destruct (Hhand p Hh) as [_ [_ _ _ []]]. }
        simplify_eq. auto.
    + right; left. done.
    + destruct (Hc1 p Hxc); [|by left]. right; right; left. done.
    + right; right; right. auto.
    + destruct (Hr1 p Hxr); [|by left]. right; right; right. auto.
  - intros p Hh. destruct (Hh2 p Hh) as [Hsrc [Hnc Hnr]]. destruct Hsrc as [Hsrc|[(x & Hx & Hcx)|Hr]].
    + destruct (Hhand p Hsrc) as [(c & cur & Hx) [? ? _ _]]. split; [|by split]. exists c, cur. by apply Hold.
    + destruct x; simplify_eq/=. pose proof (Hcopied _ _ _ _ _ _ _ Hx) as Hsd. pose proof Hsd as (cur0 & m & Hx0 & _).
      split; [exists chnl, cur0; by apply Hold|]. split; try done.
      * intros c Hq. destruct (Honly c p Hq) as (_ & _ & Hno & _). apply Hno. eexists. split; [exact Hx|done].
      * intros (q & e & Hq & Hp). destruct (Hpending _ _ _ Hq Hp) as (c' & Hse' & _). by pose proof (sends_state _ _ _ _ _ _ _ Hsd Hse').
    + destruct (Hreplied p Hr) as [(c & cur & m & Hx & _) Hnp]. split; [exists c, cur; by apply Hold|]. split; try done.
      intros c' Hq. by destruct (Honly c' p Hq) as (_ & _ & _ & Hno & _).
  - intros x x' p p' m m' Hx Hs Hx' Hs'. destruct x, x'; simplify_eq/=. apply Hold in Hx, Hx'.
    eapply Hids; [exact Hx|done|exact Hx'|done].
  - intros x x' p p' m m' r Hx Hs Hx' Hs'. destruct x, x'; simplify_eq/=. apply Hold in Hx, Hx'.
    eapply Hbuffers; [exact Hx|done|exact Hx'|done].
  - intros q o Hq. eapply tracked_ext; [intros; by apply Hold|done|eauto].
Qed.

(** a message that is nowhere, of a sender that is awake, is free to be taken *)
Lemma inv_grab own s calls held c p cur :
  inv own s calls held None -> CSend c p cur ∈ calls -> nowhere (ks_heap s) calls p -> inv own s calls held (Some p).
Proof.
  intros Hinv Hx Hnw. destruct_inv Hinv. split; try done.
  - intros c' p' cur' Hx'. destruct (Hsender _ _ _ Hx') as (m & b & buf & ? & Hpl). exists m, b, buf. split; [done|].
    intros Ht. destruct (Hpl Ht); [done|by right].
  - intros p' [= <-]. eauto.
Qed.

(** ... and be left alone *)
Lemma inv_drop own s calls held c p cur :
  inv own s calls held (Some p) -> CSend c p cur ∈ calls ->
  (forall m, ks_heap s !! p = Some (OMsg m) -> settled (ks_sleeping s) cur m) -> inv own s calls held None.
Proof.
  intros Hinv Hx Haw. destruct_inv Hinv. split; try done.
  intros c' p' cur' Hx'. destruct (Hsender _ _ _ Hx') as (m & b & buf & ? & Hpl). exists m, b, buf. split; [done|].
  intros Ht. destruct (Hpl Ht) as [[= <-]|]; [|by right].
  assert (Heq : CSend c p cur = CSend c' p cur') by (by eapply (omap_unique sent calls _ _ p)). simplify_eq.
  destruct Ht. apply Haw. by eapply sn_msg.
Qed.

(** ** Senders come and go *)

Lemma sender_ok_mono h h' own rid rid' c p cur m b buf :
  h ⊆ h' -> rid <= rid' -> sender_ok h own rid c p cur m b buf -> sender_ok h' own rid' c p cur m b buf.
Proof.
  intros Hs Hr H. assert (Hx : forall q o, h !! q = Some o -> h' !! q = Some o) by (intros q o ?; by eapply lookup_weaken).
  apply (sender_ok_ext h h') in H; [|by auto]. destruct H. split; try done. lia.
Qed.

Lemma inv_new_sender own s s' calls held c p buf bytes cur m b a :
  inv own s calls (c :: held) None ->
  ks_heap s !! p = None -> ks_heap s !! buf = None -> p ≠ buf ->
  ks_heap s' = <[p := OMsg m]> (<[buf := OBuf bytes]> (ks_heap s)) ->
  fresh_above s' -> ks_entries s' = ks_entries s -> ks_sleeping s' = {[tsk_pid cur]} ∪ ks_sleeping s ->
  ks_next_rcvid s' = ks_next_rcvid s + 1 -> rcvid m = ks_next_rcvid s + 1 ->
  task m = Some cur -> data m = DMsg b -> mb_in_base b = InKernel buf -> Z.of_nat (length bytes) = mb_in_len b ->
  mb_out_base b = OutUser a -> 0 <= mb_out_len b -> receiver_pid m = own c ->
  reply_base m = None -> reply_len m = 0 ->
  (forall x, x ∈ calls -> sender_tid x ≠ Some (tsk_pid cur)) ->
  inv own s' (CSend c p cur :: calls) held (Some p).
Proof.
  intros Hinv Hp Hbuf Hpb Hh Hfr Hes Hsl Hri Hid Htask Hdata Hin Hlen Hout Holen Hrecv Hrb Hrl Htid.
  assert (Hsub : ks_heap s ⊆ ks_heap s') by (rewrite Hh; do 2 (apply insert_subseteq_r; [done|]); done).
  assert (Hold : forall q o, ks_heap s !! q = Some o -> ks_heap s' !! q = Some o) by (intros; by eapply lookup_weaken).
  assert (Hback : forall q o, (forall m0, o ≠ OMsg m0) -> (forall bs, o ≠ OBuf bs) -> ks_heap s' !! q = Some o -> ks_heap s !! q = Some o).
  { intros q o Hm Hb Hq. rewrite Hh, !lookup_insert_Some in Hq.
    destruct Hq as [[_ <-]|[_ [[_ <-]|[_ ?]]]]; [by edestruct Hm|by edestruct Hb|done]. }
  assert (Hp' : ks_heap s' !! p = Some (OMsg m)) by (by rewrite Hh, lookup_insert_eq).
  destruct_inv Hinv.
  assert (Hnp : forall d p' cur', CSend d p' cur' ∈ calls -> p' ≠ p).
  { intros d p' cur' Hx ->. destruct (Hsender _ _ _ Hx) as (m' & b' & buf' & Hs & _). rewrite (sn_msg _ _ _ _ _ _ _ _ _ Hs) in Hp. done. }
  assert (Hpr : forall q e, ks_heap s !! q = Some (OProc e) <-> ks_heap s' !! q = Some (OProc e)).
  { intros q e. split; [by apply Hold|by apply Hback]. }
  assert (Hch : forall q e, ks_heap s !! q = Some (OChan e) <-> ks_heap s' !! q = Some (OChan e)).
  { intros q e. split; [by apply Hold|by apply Hback]. }
  assert (Hse : forall d q st, sends (ks_heap s) calls d q st -> sends (ks_heap s') (CSend c p cur :: calls) d q st).
  { intros d q st Hx. eapply sends_ext; [|eapply sends_incl; [|exact Hx]]; [intros mq; by apply Hold|intros; by right]. }
  assert (Hqu : forall d q, queued (ks_heap s) d q <-> queued (ks_heap s') d q) by (intros; unfold queued; by setoid_rewrite Hch).
  assert (Hpe : forall q, is_pending (ks_heap s) q <-> is_pending (ks_heap s') q) by (intros; unfold is_pending; by setoid_rewrite Hpr).
  assert (Hno : forall d st, ~ sends (ks_heap s) calls d p st) by (intros d st (cur' & m' & Hx & _); by eapply Hnp).
  assert (Hho : holders (ks_heap s') (ks_entries s) (CSend c p cur :: calls) held ≡ₚ
    holders (ks_heap s) (ks_entries s) calls (c :: held)).
  { rewrite (holders_ext _ _ _ _ _ Hpr). unfold holders. cbn. f_equiv. apply Permutation_middle. }
  assert (Hmsg : forall x q mq, x ∈ calls -> sent x = Some q -> ks_heap s' !! q = Some (OMsg mq) -> q ≠ p /\ ks_heap s !! q = Some (OMsg mq)).
  { intros x q mq Hx Hs Hq. destruct x; simplify_eq/=. split; [by eapply Hnp|].
    destruct (Hsender _ _ _ Hx) as (m' & b' & buf' & Hs' & _). pose proof (sn_msg _ _ _ _ _ _ _ _ _ Hs') as Hm'.
    pose proof (Hold _ _ Hm'). by simplify_eq. }
  assert (Hbf : forall r, r ∈ msg_buffers m -> r = buf).
  { intros r. unfold msg_buffers. rewrite Hdata, Hin, Hrb. cbn. by intros ->%list_elem_of_singleton. }
  assert (Hbo : forall x q mq, x ∈ calls -> sent x = Some q -> ks_heap s !! q = Some (OMsg mq) -> buf ∉ msg_buffers mq).
  { intros x q mq Hx Hs Hq Hb. destruct x; simplify_eq/=. destruct (Hsender _ _ _ Hx) as (m' & b' & buf' & Hs' & _).
    destruct Hs'. simplify_eq. unfold msg_buffers in Hb. rewrite sn_data, sn_in in Hb. apply elem_of_app in Hb as [Hb|Hb].
    - apply list_elem_of_singleton in Hb as ->. destruct sn_bytes as (? & ? & _). congruence.
    - destruct (reply_base mq) as [r|]; [|by apply elem_of_nil in Hb]. apply list_elem_of_singleton in Hb as ->.
      destruct (sn_reply_buf r eq_refl) as (_ & o & ? & _). congruence. }
  split; rewrite ?Hes, ?Hri; try done.
  - intros q Hq. destruct (Hlisted q Hq) as (e & He). eauto.
  - intros q e. rewrite <- Hpr. apply Hproc.
  - intros q q' e e'. rewrite <- !Hpr. apply Hpids.
  - rewrite (list_bind_ext _ (proc_channels (ks_heap s)) (ks_entries s) (ks_entries s)); [done| |done].
    intros q. by apply proc_channels_ext.
  - intros d. rewrite Hho. setoid_rewrite <- Hch. apply Halive.
  - intros d ch. rewrite (occ_perm _ _ _ Hho), <- Hch. apply Hchan.
  - intros d ch q. rewrite <- Hch. intros Hd Hq. eauto.
  - intros q e p'. rewrite <- Hpr. intros Hq Hin'. destruct (Hpending q e p' Hq Hin') as (d & ? & ?). eauto.
  - intros entry d q cur' addr wait recv [?|Hx]%elem_of_cons; [done|]. eauto.
  - intros q (x & [->|Hx]%elem_of_cons & Hr); [done|]. destruct (Hreplied q) as [(d & ?) ?]; [by exists x|].
    rewrite <- Hpe. eauto.
  - intros x entry d recv [->|Hx]%elem_of_cons Hr; [done|]. destruct (Hreceiver _ _ _ _ Hx Hr) as (? & e & ? & ?). eauto.
  - intros d q cur' [Heq|Hx]%elem_of_cons.
    + simplify_eq. exists m, b, buf. split; [|by left]. split; try done; [|by eauto|lia| |by rewrite Hrb].
      * exists bytes. by rewrite Hh, lookup_insert_ne, lookup_insert_eq.
      * unfold reply_ok. by rewrite Hrb.
    + destruct (Hsender _ _ _ Hx) as (mq & bq & bufq & Hs & Hpl). exists mq, bq, bufq.
      split; [eapply sender_ok_mono; [done| |done]; lia|]. rewrite Hsl. intros Ht. right.
      destruct Hpl as [?|?]; [|done|].
      * contradict Ht. destruct Ht as [Hn ?]. split; [|done]. rewrite elem_of_union, elem_of_singleton.
        intros [Heq|?]; [|done]. destruct (Htid _ Hx). cbn. by f_equal.
      * eapply placed_ext; [apply Hqu|apply Hpe|]. eapply placed_incl; [|done]. intros; by right.
  - intros q [= <-]. split; [exists c, cur; by left|]. split.
    + intros d (ch & Hd & Hq)%Hqu. by eapply Hno, Hqueued.
    + intros (q & e & Hq & Hp0)%Hpe. destruct (Hpending _ _ _ Hq Hp0) as (d & ? & _). by eapply Hno.
    + intros (x & [->|Hx]%elem_of_cons & Hcp); [done|]. destruct x; simplify_eq/=. by eapply Hno, Hcopied.
    + intros (x & [->|Hx]%elem_of_cons & Hcp); [done|]. destruct (Hreplied p) as [(d & ?) _]; [by exists x|]. by eapply Hno.
  - cbn. constructor; [|done]. intros (x & Hx & Hs)%list_elem_of_omap. destruct x; simplify_eq/=. by eapply Hnp.
  - cbn. constructor; [|done]. intros (x & Hx & Hs)%list_elem_of_omap. by destruct (Htid x Hx).
  - lia.
  - assert (Hle : forall x q mq, x ∈ calls -> sent x = Some q -> ks_heap s !! q = Some (OMsg mq) -> rcvid mq ≠ rcvid m).
    { intros x q mq Hx Hs Hq. destruct x; simplify_eq/=. destruct (Hsender _ _ _ Hx) as (m' & b' & buf' & Hs' & _).
      destruct Hs'. simplify_eq. lia. }
    intros x x' q q' mq mq' [->|Hx]%elem_of_cons Hs [->|Hx']%elem_of_cons Hs' Hq Hq' Heq; simplify_eq/=; [done|..].
    + destruct (Hmsg _ _ _ Hx' Hs' Hq') as [_ Hq'']. by destruct (Hle _ _ _ Hx' Hs' Hq'').
    + destruct (Hmsg _ _ _ Hx Hs Hq) as [_ Hq'']. by destruct (Hle _ _ _ Hx Hs Hq'').
    + eapply (Hids x x'); [done|done|done|done|by apply (Hmsg _ _ _ Hx Hs Hq)|by apply (Hmsg _ _ _ Hx' Hs' Hq')|done].
  - intros x x' q q' mq mq' r [->|Hx]%elem_of_cons Hs [->|Hx']%elem_of_cons Hs' Hq Hq' Hr Hr'; simplify_eq/=; [done|..].
    + apply Hbf in Hr as ->. destruct (Hmsg _ _ _ Hx' Hs' Hq') as [_ Hq'']. by destruct (Hbo _ _ _ Hx' Hs' Hq'').
    + apply Hbf in Hr' as ->. destruct (Hmsg _ _ _ Hx Hs Hq) as [_ Hq'']. by destruct (Hbo _ _ _ Hx Hs Hq'').
    + eapply (Hbuffers x x'); [done|done|done|done|by apply (Hmsg _ _ _ Hx Hs Hq)|by apply (Hmsg _ _ _ Hx' Hs' Hq')|done|done].
  - intros f fl q Hf Hq. destruct (Hfile f fl q) as [? Hinj]; [by apply Hback|done|]. split; [done|].
    intros f' fl' Hf'. apply Hinj. by apply Hback.
  - intros q o Hq. destruct (decide (q = p)) as [->|Hqp].
    { rewrite Hp' in Hq. simplify_eq. exists c, cur. by left. }
    destruct (decide (q = buf)) as [->|Hqb].
    { rewrite Hh, lookup_insert_ne, lookup_insert_eq in Hq by done. simplify_eq. exists c, p, cur, m.
      split_and!; [by left|done|]. unfold msg_buffers. rewrite Hdata, Hin. by left. }
    rewrite Hh, !lookup_insert_ne in Hq by done. eapply tracked_ext; [intros; by right|intros ??; apply Hold|eauto].
  - intros q Hq. destruct (Hopened q Hq) as (f & fl & ? & ?). eauto.
Qed.

Lemma inv_remove_sender own s s' calls held c p cur m b buf :
  inv own s (CSend c p cur :: calls) held (Some p) ->
  ks_heap s !! p = Some (OMsg m) -> data m = DMsg b -> mb_in_base b = InKernel buf ->
  ks_heap s' = delete p (without_reply m (delete buf (ks_heap s))) ->
  (ks_next s <= ks_next s')%positive -> ks_entries s' = ks_entries s -> ks_sleeping s' ⊆ ks_sleeping s ->
  ks_next_rcvid s' = ks_next_rcvid s ->
  inv own s' calls (c :: held) None.
Proof.
  intros Hinv Hp Hdata Hin Hh Hn Hes Hsl Hri. destruct_inv Hinv.
  assert (Hx0 : CSend c p cur ∈ CSend c p cur :: calls) by by left.
  destruct (Hsender _ _ _ Hx0) as (m' & b' & buf' & Hs & _). destruct Hs. simplify_eq.
  assert (Hkeep : forall q, q ≠ p -> q ∉ msg_buffers m -> ks_heap s' !! q = ks_heap s !! q).
  { intros q Hq Hb. unfold msg_buffers in Hb. rewrite Hdata, Hin in Hb. apply not_elem_of_cons in Hb as [Hqb Hb].
    rewrite Hh, lookup_delete_ne by done. unfold without_reply. destruct (reply_base m) as [r|].
    - apply not_elem_of_cons in Hb as [Hqr _]. by rewrite !lookup_delete_ne.
    - by rewrite lookup_delete_ne. }
  assert (Hback : forall q o, ks_heap s' !! q = Some o -> ks_heap s !! q = Some o).
  { intros q o. rewrite Hh. unfold without_reply.
    destruct (reply_base m); rewrite !lookup_delete_Some; tauto. }
  assert (Hbufs : forall q o, q ∈ msg_buffers m -> ks_heap s !! q = Some o -> o = ORaw \/ exists bs, o = OBuf bs).
  { intros q o Hq Ho. unfold msg_buffers in Hq. rewrite Hdata, Hin in Hq. apply elem_of_app in Hq as [Hq|Hq].
    - apply list_elem_of_singleton in Hq as ->. destruct sn_bytes as (bs & ? & _). right. exists bs. congruence.
    - destruct (reply_base m) as [r|]; [|by apply elem_of_nil in Hq]. apply list_elem_of_singleton in Hq as ->.
      destruct (sn_reply_buf r eq_refl) as (_ & o' & ? & ?). by simplify_eq. }
  assert (Hold : forall q o, o ≠ ORaw -> (forall bs, o ≠ OBuf bs) -> q ≠ p -> ks_heap s !! q = Some o -> ks_heap s' !! q = Some o).
  { intros q o Hr Hb Hq Ho. rewrite Hkeep; [done|done|]. intros Hqb. destruct (Hbufs q o Hqb Ho) as [?|[bs ?]]; [done|by edestruct Hb]. }
  assert (Hpr : forall q e, ks_heap s !! q = Some (OProc e) <-> ks_heap s' !! q = Some (OProc e)).
  { intros q e. split; [|by apply Hback]. intros ?. apply Hold; [done|done|congruence|done]. }
  assert (Hch : forall q e, ks_heap s !! q = Some (OChan e) <-> ks_heap s' !! q = Some (OChan e)).
  { intros q e. split; [|by apply Hback]. intros ?. apply Hold; [done|done|congruence|done]. }
  destruct (Hhand p eq_refl) as [_ [Hnq Hnp Hnc Hnr]].
  assert (Hnp' : forall d p' cur', CSend d p' cur' ∈ calls -> p' ≠ p).
  { intros d p' cur' Hx ->. cbn in Hsent. apply NoDup_cons in Hsent as [Hni _]. apply Hni, list_elem_of_omap. eauto. }
  assert (Hse : forall d q st, q ≠ p -> sends (ks_heap s) (CSend c p cur :: calls) d q st -> sends (ks_heap s') calls d q st).
  { intros d q st Hq (cur' & mq & Hx & Hmq & ?). exists cur', mq. apply elem_of_cons in Hx as [?|Hx]; [by simplify_eq|].
    split; [done|]. split; [by apply Hold|done]. }
  assert (Hqu : forall d q, queued (ks_heap s) d q <-> queued (ks_heap s') d q) by (intros; unfold queued; by setoid_rewrite Hch).
  assert (Hpe : forall q, is_pending (ks_heap s) q <-> is_pending (ks_heap s') q) by (intros; unfold is_pending; by setoid_rewrite Hpr).
  assert (Hho : holders (ks_heap s') (ks_entries s) calls (c :: held) ≡ₚ
    holders (ks_heap s) (ks_entries s) (CSend c p cur :: calls) held).
  { rewrite (holders_ext _ _ _ _ _ Hpr). unfold holders. cbn. f_equiv. symmetry. apply Permutation_middle. }
  split; rewrite ?Hes, ?Hri; try done.
  - intros q Hq. destruct (ks_heap s' !! q) as [o|] eqn:Ho; [|done]. apply Hback in Ho. rewrite Hfresh in Ho; [done|lia].
  - intros q Hq. destruct (Hlisted q Hq) as (e & He). exists e. by apply Hpr.
  - intros q e. rewrite <- Hpr. apply Hproc.
  - intros q q' e e'. rewrite <- !Hpr. apply Hpids.
  - rewrite (list_bind_ext _ (proc_channels (ks_heap s)) (ks_entries s) (ks_entries s)); [done| |done].
    intros q. by apply proc_channels_ext.
  - intros d. rewrite Hho. setoid_rewrite <- Hch. apply Halive.
  - intros d ch. rewrite (occ_perm _ _ _ Hho), <- Hch. apply Hchan.
  - intros d ch q. rewrite <- Hch. intros Hd Hq. apply Hse; [|eauto]. intros ->. apply (Hnq d). by exists ch.
  - intros q e p'. rewrite <- Hpr. intros Hq Hin'. destruct (Hpending q e p' Hq Hin') as (d & ? & ?). exists d.
    split; [|done]. apply Hse; [|done]. intros ->. apply Hnp. by exists q, e.
  - intros entry d q cur' addr wait recv Hx. apply Hse; [|by eapply Hcopied; right]. intros ->. apply Hnc. eexists.
    split; [right; exact Hx|done].
  - intros q (x & Hx & Hr). assert (Hq : q ≠ p). { intros ->. apply Hnr. exists x. split; [by right|done]. }
    destruct (Hreplied q) as [(d & ?) ?]; [exists x; split; [by right|done]|]. rewrite <- Hpe. eauto.
  - intros x entry d recv Hx Hr. destruct (Hreceiver x entry d recv) as (? & e & ? & ?); [by right|done|].
    split; [done|]. exists e. by rewrite <- Hpr.
  - intros d q cur' Hx. destruct (Hsender d q cur') as (mq & bq & bufq & Hs & Hpl); [by right|]. exists mq, bq, bufq.
    assert (Hq : q ≠ p) by by eapply Hnp'. pose proof Hs as [Hmq _ Hdq Hiq _ _ _ _ _ _ Hrq _].
    assert (Hdis : forall r, r ∈ msg_buffers mq -> r ∉ msg_buffers m).
    { intros r Hr Hr'. apply Hq. eapply (Hbuffers (CSend d q cur') (CSend c p cur)); [by right|done|done|done|done|done|done|done]. }
    assert (Hkb : forall r o, r ∈ msg_buffers mq -> ks_heap s !! r = Some o -> ks_heap s' !! r = Some o).
    { intros r o Hr Ho. rewrite Hkeep; [done| |by apply Hdis]. intros ->. unfold msg_buffers in Hr. rewrite Hdq, Hiq in Hr.
      apply elem_of_app in Hr as [Hr|Hr].
      - apply list_elem_of_singleton in Hr as ->. destruct Hs as [_ _ _ _ (? & ? & _) _ _ _ _ _ _ _]. congruence.
      - destruct (reply_base mq) as [r'|]; [|by apply elem_of_nil in Hr]. apply list_elem_of_singleton in Hr as ->.
        destruct (Hrq r' eq_refl) as (_ & o' & ? & [->|[? ->]]); congruence. }
    assert (Hbq : bufq ∈ msg_buffers mq) by (unfold msg_buffers; rewrite Hdq, Hiq; by left).
    assert (Hrb : forall r, reply_base mq = Some r -> r ∈ msg_buffers mq).
    { intros r Hr. unfold msg_buffers. rewrite Hr. apply elem_of_app. right. by left. }
    split.
    + destruct Hs. split; try done; [by apply Hold| | |].
      * destruct sn_bytes0 as (bs & ? & ?). eauto.
      * unfold reply_ok in *. destruct (reply_base mq) as [r|] eqn:Hr; [|done]. destruct sn_reply0 as [[o Ho] Hl]. split; [eauto|].
        intros Hlen. destruct (Hl Hlen) as (bs & ? & ?). exists bs. split; [by apply Hkb; [apply Hrb|]|done].
      * intros r Hr. destruct (sn_reply_buf0 r Hr) as (? & o & ? & ?). split; [done|]. exists o. split; [by apply Hkb; [apply Hrb|]|done].
    + intros Ht. right. destruct Hpl as [?|Hpl']; [contradict Ht; by eapply settled_mono|congruence|]. eapply placed_ext; [apply Hqu|apply Hpe|].
      destruct Hpl' as [?|[[? (x & [->|?]%elem_of_cons & ?)]|[? [?|(x & [->|?]%elem_of_cons & ?)]]]]; try done.
      * by left.
      * right; left. split; [done|]. by exists x.
      * right; right. auto.
      * right; right. split; [done|]. right. by exists x.
  - cbn in Hsent. by apply NoDup_cons in Hsent as [_ ?].
  - cbn in Hthreads. by apply NoDup_cons in Hthreads as [_ ?].
  - intros x x' q q' mq mq' Hx Hs Hx' Hs' Hq Hq'. eapply (Hids x x'); [by right|done|by right|done|by apply Hback|by apply Hback].
  - intros x x' q q' mq mq' r Hx Hs Hx' Hs' Hq Hq'. eapply (Hbuffers x x'); [by right|done|by right|done|by apply Hback|by apply Hback].
  - intros f fl q Hf Hq. destruct (Hfile f fl q) as [? Hinj]; [by apply Hback|done|]. split; [done|].
    intros f' fl' Hf'. apply Hinj. by apply Hback.
  - assert (Hgone : ks_heap s' !! p = None /\ forall q, q ∈ msg_buffers m -> ks_heap s' !! q = None).
    { rewrite Hh. split; [by rewrite lookup_delete_eq|]. intros q Hq. apply lookup_delete_None. right. unfold without_reply.
      unfold msg_buffers in Hq. rewrite Hdata, Hin in Hq. apply elem_of_app in Hq as [Hq|Hq].
      - apply list_elem_of_singleton in Hq as ->. destruct (reply_base m); rewrite ?lookup_delete_None, ?lookup_delete_eq; auto.
      - destruct (reply_base m) as [r|]; [|by apply elem_of_nil in Hq]. apply list_elem_of_singleton in Hq as ->. by rewrite lookup_delete_eq. }
    destruct Hgone as [Hgp Hgb].
    assert (Hbuf : forall q o, ks_heap s' !! q = Some o ->
      (exists d r t mr, CSend d r t ∈ CSend c p cur :: calls /\ ks_heap s !! r = Some (OMsg mr) /\ q ∈ msg_buffers mr) ->
      exists d r t mr, CSend d r t ∈ calls /\ ks_heap s' !! r = Some (OMsg mr) /\ q ∈ msg_buffers mr).
    { intros q o Hq (d & r & t & mr & Hx & Hmr & Hqm). apply elem_of_cons in Hx as [Heq|Hx].
      - simplify_eq. by rewrite (Hgb q Hqm) in Hq.
      - exists d, r, t, mr. split_and!; [done| |done]. apply Hold; [done..|by eapply Hnp'|done]. }
    intros q o Hq. pose proof (Hobjects q o (Hback _ _ Hq)) as Ho. destruct o; cbn in *; try done; try by eapply Hbuf.
    destruct Ho as (d & t & [?|Hx]%elem_of_cons); [|by exists d, t]. simplify_eq.
  - intros q Hq. destruct (Hopened q Hq) as (f & fl & Hf & ?). exists f, fl. split; [|done]. apply Hold; [done..|congruence|done].
Qed.

(** ** Channels and processes come and go *)

(** the owner of a new channel *)
Definition own_set own (c : ptr) (id : Z) : ptr -> Z := fun d => if decide (d = c) then id else own d.

Lemma inv_new_channel own s s' calls held hand q e c id :
  inv own s calls held hand -> ks_heap s !! q = Some (OProc e) -> ks_heap s !! c = None ->
  ks_heap s' = <[q := OProc (set_channels (c :: channels e) e)]> (<[c := OChan (Channel 1 id [] 0 0)]> (ks_heap s)) ->
  fresh_above s' -> ks_entries s' = ks_entries s -> ks_sleeping s' = ks_sleeping s -> ks_next_rcvid s' = ks_next_rcvid s ->
  inv (own_set own c (pe_pid e)) s' calls held hand.
Proof.
  intros Hinv He Hc Hh Hfr Hes Hsl Hri. destruct_inv Hinv. set (e' := set_channels (c :: channels e) e) in *.
  assert (Hqc : q ≠ c) by congruence. set (own' := own_set own c (pe_pid e)).
  assert (He' : ks_heap s' !! q = Some (OProc e')) by (by rewrite Hh, lookup_insert_eq).
  assert (Hc' : ks_heap s' !! c = Some (OChan (Channel 1 id [] 0 0))) by (by rewrite Hh, lookup_insert_ne, lookup_insert_eq).
  assert (Hne : forall r, r ≠ q -> r ≠ c -> ks_heap s' !! r = ks_heap s !! r) by (intros; by rewrite Hh, !lookup_insert_ne).
  assert (Hsame : forall r o, (forall e0, o ≠ OProc e0) -> r ≠ c -> ks_heap s' !! r = Some o <-> ks_heap s !! r = Some o).
  { intros r o Ho Hr. destruct (decide (r = q)) as [->|]; [|by rewrite Hne]. rewrite He', He.
    split; intros ?; simplify_eq; by edestruct Ho. }
  assert (Hm : forall r m, ks_heap s' !! r = Some (OMsg m) <-> ks_heap s !! r = Some (OMsg m)).
  { intros r m. destruct (decide (r = c)) as [->|]; [|by apply Hsame]. rewrite Hc', Hc. done. }
  assert (Hprocs : forall r e1, ks_heap s' !! r = Some (OProc e1) -> exists e0, ks_heap s !! r = Some (OProc e0) /\
    pe_pid e1 = pe_pid e0 /\ pending e1 = pending e0).
  { intros r e1 Hr. destruct (decide (r = q)) as [->|]; [rewrite He' in Hr; simplify_eq; eauto|].
    destruct (decide (r = c)) as [->|]; [by rewrite Hc' in Hr|]. rewrite Hne in Hr by done. eauto. }
  assert (Hprocs' : forall r e0, ks_heap s !! r = Some (OProc e0) -> exists e1, ks_heap s' !! r = Some (OProc e1) /\
    pe_pid e1 = pe_pid e0 /\ pending e1 = pending e0).
  { intros r e0 Hr. destruct (decide (r = q)) as [->|]; [simplify_eq; eauto|]. rewrite Hne by (done || congruence). eauto. }
  assert (Hch : forall r ch, r ≠ c -> ks_heap s' !! r = Some (OChan ch) <-> ks_heap s !! r = Some (OChan ch)) by (intros; by apply Hsame).
  assert (Hse : forall d r st, sends (ks_heap s) calls d r st -> sends (ks_heap s') calls d r st).
  { intros d r st. apply sends_ext. intros m. apply Hm. }
  assert (Hqu : forall d r, queued (ks_heap s') d r <-> queued (ks_heap s) d r).
  { intros d r. unfold queued. destruct (decide (d = c)) as [->|]; [|by setoid_rewrite Hch].
    rewrite Hc', Hc. split; intros (ch & ? & Hx); simplify_eq. by apply elem_of_nil in Hx. }
  assert (Hpe : forall r, is_pending (ks_heap s') r <-> is_pending (ks_heap s) r).
  { intros r. split; intros (q0 & e0 & Hq0 & Hr).
    - destruct (Hprocs _ _ Hq0) as (e1 & ? & _ & Hpp). exists q0, e1. by rewrite <- Hpp.
    - destruct (Hprocs' _ _ Hq0) as (e1 & ? & _ & Hpp). exists q0, e1. by rewrite Hpp. }
  destruct (owned_channels_split _ _ q e Hnodup (po_listed _ _ _ _ (Hproc q e He)) He) as (R & HR & HR' & _).
  assert (Hpc : forall r, r ≠ q -> proc_channels (ks_heap s') r = proc_channels (ks_heap s) r).
  { intros r Hr. unfold proc_channels. destruct (decide (r = c)) as [->|]; [by rewrite Hc', Hc|by rewrite Hne]. }
  specialize (HR' _ _ He' Hpc).
  assert (Hown : (ks_entries s ≫= proc_channels (ks_heap s')) ≡ₚ c :: (ks_entries s ≫= proc_channels (ks_heap s))).
  { by rewrite HR', HR. }
  assert (Hho : holders (ks_heap s') (ks_entries s) calls held ≡ₚ c :: holders (ks_heap s) (ks_entries s) calls held).
  { unfold holders. by rewrite Hown. }
  assert (Hcn : c ∉ holders (ks_heap s) (ks_entries s) calls held) by (intros [ch ?]%Halive; congruence).
  assert (Hod : forall d ch, ks_heap s !! d = Some (OChan ch) -> own' d = own d).
  { intros d ch Hd. unfold own', own_set. case_decide; [congruence|done]. }
  assert (Hcall : forall x d, x ∈ calls -> d ∈ call_channels x -> own' d = own d).
  { intros x d Hx Hd. destruct (Halive d) as [ch ?]; [|by eapply Hod]. apply elem_of_holders. eauto. }
  split; rewrite ?Hes, ?Hsl, ?Hri; try done.
  - intros r Hr. destruct (Hlisted r Hr) as (e0 & He0). destruct (Hprocs' _ _ He0) as (e1 & ? & _). eauto.
  - intros r e1 Hr. destruct (decide (r = q)) as [->|Hrq].
    + rewrite He' in Hr. simplify_eq. destruct (Hproc q e He) as [? ? ? ? ? Ho]. split; try done.
      intros d [->|Hd]%elem_of_cons; unfold own', own_set; [by rewrite decide_True|]. case_decide; [done|by apply Ho].
    + assert (Hrc : r ≠ c) by (intros ->; by rewrite Hc' in Hr). rewrite Hne in Hr by done.
      destruct (Hproc r e1 Hr) as [? ? ? ? ? Ho]. split; try done. intros d Hd. rewrite <- (Ho d Hd).
      destruct (Halive d) as [ch ?]; [apply elem_of_holders; eauto 6|by eapply Hod].
  - intros q1 q2 e1 e2 H1 H2 Heq. destruct (Hprocs _ _ H1) as (e01 & ? & Hp1 & _), (Hprocs _ _ H2) as (e02 & ? & Hp2 & _).
    eapply Hpids; [done|done|congruence].
  - rewrite Hown. constructor; [|done]. intros Hin. apply Hcn. unfold holders. apply elem_of_app. by left.
  - intros d. rewrite Hho. intros [->|Hd]%elem_of_cons; [eauto|]. destruct (Halive d Hd) as [ch Hd']. exists ch. apply Hch; [congruence|done].
  - intros d ch. rewrite (occ_perm _ _ _ Hho), occ_cons. destruct (decide (c = d)) as [<-|Hcd].
    + rewrite Hc'. intros [= <-]. cbn. rewrite <- occ_pos in Hcn.
      pose proof (occ_nonneg c (holders (ks_heap s) (ks_entries s) calls held)). split_and!; [lia|lia|constructor].
    + rewrite Hch by done. apply Hchan.
  - intros d ch p Hd Hp. apply Hse. assert (Hq : queued (ks_heap s') d p) by (by exists ch). apply Hqu in Hq as (ch' & ? & ?). eauto.
  - intros r e1 p Hr Hp. destruct (Hprocs _ _ Hr) as (e0 & Hr0 & Hpid & Hpp). rewrite Hpp in Hp.
    destruct (Hpending _ _ _ Hr0 Hp) as (d & Hsd & ?). exists d. split; [by apply Hse|]. rewrite Hpid.
    destruct Hsd as (cur & m & Hx & _). rewrite (Hcall _ d Hx) by (by left). done.
  - eauto.
  - intros p Hr. destruct (Hreplied p Hr) as [(d & ?) ?]. rewrite Hpe. eauto.
  - intros x entry d recv Hx Hr. destruct (Hreceiver _ _ _ _ Hx Hr) as (? & e0 & He0 & ?). split; [done|].
    destruct (Hprocs' _ _ He0) as (e1 & ? & Hpid & _). exists e1. rewrite Hpid, (Hcall x d Hx); [done|]. destruct x; simplify_eq/=; by left.
  - intros d p cur Hx. destruct (Hsender d p cur Hx) as (m & b & buf & Hs & Hpl). exists m, b, buf. split.
    + assert (Hox : own' d = own d) by (eapply Hcall; [done|by left]). eapply (sender_ok_ext (ks_heap s)).
      { intros r o Ho _ Hr. apply Hsame; [done|congruence|done]. }
      destruct Hs. split; try done. by rewrite Hox.
    + intros Ht. destruct (Hpl Ht) as [?|?]; [by left|right]. eapply placed_ext; [apply Hqu|apply Hpe|done].
  - intros p Hp. destruct (Hhand p Hp) as [? ?]. split; [done|]. eapply (nowhere_ext (ks_heap s)); [intros; by apply Hqu|apply Hpe|done].
  - intros *. rewrite !Hm. eauto.
  - intros *. rewrite !Hm. eauto.
  - intros f fl r Hf Hr. assert (Hfn : f ≠ c) by (intros ->; congruence). apply Hsame in Hf; [|done|done].
    destruct (Hfile f fl r Hf Hr) as [? Hinj]. split; [done|]. intros f' fl' Hf' Hr'.
    eapply Hinj; [apply Hsame; [done| |exact Hf']|done]. intros ->. congruence.
  - intros r o Hr. destruct (decide (r = c)) as [->|Hrc]; [rewrite Hc' in Hr; by simplify_eq|].
    destruct (decide (r = q)) as [->|Hrq]; [rewrite He' in Hr; by simplify_eq|]. rewrite Hne in Hr by done.
    eapply tracked_ext; [done|intros ??; apply Hm|eauto].
  - intros r Hr. destruct (Hopened r Hr) as (f & fl & Hf & ?). exists f, fl. split; [|done]. apply Hsame; [done|congruence|done].
Qed.

(** the two heaps have the same objects, process entries and files apart *)
Definition same_messages h h' : Prop :=
  forall q o, (forall e, o ≠ OProc e) -> (forall f, o ≠ OFile f) -> h !! q = Some o <-> h' !! q = Some o.

(** Processes may come and go when they have no channels and no messages. *)
Lemma inv_procs own s s' calls held hand :
  inv own s calls held hand -> same_messages (ks_heap s) (ks_heap s') ->
  fresh_above s' -> NoDup (ks_entries s') ->
  (forall q, q ∈ ks_entries s' -> exists e, ks_heap s' !! q = Some (OProc e)) ->
  (forall q e, ks_heap s' !! q = Some (OProc e) -> proc_ok (ks_entries s') own q e) ->
  (forall q q' e e', ks_heap s' !! q = Some (OProc e) -> ks_heap s' !! q' = Some (OProc e') -> pe_pid e = pe_pid e' -> q = q') ->
  (ks_entries s' ≫= proc_channels (ks_heap s')) = (ks_entries s ≫= proc_channels (ks_heap s)) ->
  (forall p, is_pending (ks_heap s) p <-> is_pending (ks_heap s') p) ->
  (forall q e p, ks_heap s' !! q = Some (OProc e) -> p ∈ pending e ->
     exists q0 e0, ks_heap s !! q0 = Some (OProc e0) /\ p ∈ pending e0 /\ pe_pid e0 = pe_pid e) ->
  (forall x entry c recv e, x ∈ calls -> receiver x = Some (entry, c, recv) -> ks_heap s !! entry = Some (OProc e) ->
     ks_heap s' !! entry = Some (OProc e)) ->
  (forall f fl q, ks_heap s' !! f = Some (OFile fl) -> private_data fl = Some q ->
    q ∈ ks_entries s' /\ forall f' fl', ks_heap s' !! f' = Some (OFile fl') -> private_data fl' = Some q -> f' = f) ->
  (forall q, q ∈ ks_entries s' -> exists f fl, ks_heap s' !! f = Some (OFile fl) /\ private_data fl = Some q) ->
  ks_sleeping s' = ks_sleeping s -> ks_next_rcvid s' = ks_next_rcvid s ->
  inv own s' calls held hand.
Proof.
  intros Hinv Hsame Hfr Hnd Hli Hpo Hpi Hown Hpe Hpp Hrc Hfi Hop Hsl Hri. destruct_inv Hinv.
  assert (Hm : forall q m, ks_heap s !! q = Some (OMsg m) <-> ks_heap s' !! q = Some (OMsg m)) by (intros; by apply Hsame).
  assert (Hch : forall q c, ks_heap s !! q = Some (OChan c) <-> ks_heap s' !! q = Some (OChan c)) by (intros; by apply Hsame).
  assert (Hho : holders (ks_heap s') (ks_entries s') calls held = holders (ks_heap s) (ks_entries s) calls held).
  { unfold holders. by rewrite Hown. }
  assert (Hse : forall d r st, sends (ks_heap s) calls d r st -> sends (ks_heap s') calls d r st).
  { intros d r st. apply sends_ext. intros m. apply Hm. }
  assert (Hqu : forall d r, queued (ks_heap s) d r <-> queued (ks_heap s') d r).
  { intros d r. unfold queued. by setoid_rewrite Hch. }
  split; rewrite ?Hho, ?Hown, ?Hsl, ?Hri; try done.
  - intros c. setoid_rewrite <- Hch. apply Halive.
  - intros c ch. rewrite <- Hch. apply Hchan.
  - intros c ch p. rewrite <- Hch. eauto.
  - intros q e p Hq Hp. destruct (Hpp _ _ _ Hq Hp) as (q0 & e0 & Hq0 & Hp0 & <-). destruct (Hpending _ _ _ Hq0 Hp0) as (c & ? & ?). eauto.
  - eauto.
  - intros p Hr. destruct (Hreplied p Hr) as [(c & ?) ?]. rewrite <- Hpe. eauto.
  - intros x entry c recv Hx Hr. destruct (Hreceiver _ _ _ _ Hx Hr) as (? & e & ? & ?). eauto 6.
  - intros c p cur Hx. destruct (Hsender c p cur Hx) as (m & b & buf & Hs & Hpl). exists m, b, buf. split.
    + destruct Hs. split; try done; [by apply Hm| | |].
      * destruct sn_bytes as (bytes & ? & ?). exists bytes. split; [by apply Hsame|done].
      * unfold reply_ok in *. destruct (reply_base m) as [r|] eqn:Hr; [|done]. destruct sn_reply as [_ Hlen].
        destruct (sn_reply_buf r eq_refl) as (_ & o & Ho & Hk). split.
        -- exists o. apply Hsame; [| |done]; by destruct Hk as [->|[? ->]].
        -- intros Hl. destruct (Hlen Hl) as (bytes & ? & ?). exists bytes. split; [by apply Hsame|done].
      * intros r Hr. destruct (sn_reply_buf r Hr) as (? & o & Ho & Hk). split; [done|]. exists o. split; [|done].
        apply Hsame; [| |done]; by destruct Hk as [->|[? ->]].
    + intros Ht. destruct (Hpl Ht) as [?|?]; [by left|right]. eapply placed_ext; [apply Hqu|apply Hpe|done].
  - intros p Hp. destruct (Hhand p Hp) as [? ?]. split; [done|].
    eapply (nowhere_ext (ks_heap s)); [intros; by apply Hqu|apply Hpe|done].
  - intros *. rewrite <- !Hm. eauto.
  - intros *. rewrite <- !Hm. eauto.
  - intros q o Hq. assert (Hk : (exists e, o = OProc e) \/ (exists f, o = OFile f) \/ ((forall e, o ≠ OProc e) /\ forall f, o ≠ OFile f)).
    { destruct o; eauto; right; right; done. }
    destruct Hk as [[? ->]|[[? ->]|[Hk1 Hk2]]]; [done..|]. eapply tracked_ext; [done|intros ??; apply Hm|]. apply Hobjects. by apply Hsame.
Qed.

Lemma inv_open own s s' calls held hand q f fl pid table :
  inv own s calls held hand -> ks_heap s !! f = Some (OFile fl) -> private_data fl = None -> ks_heap s !! q = None ->
  (forall r e, ks_heap s !! r = Some (OProc e) -> pe_pid e ≠ pid) -> table_ok table ->
  ks_heap s' = <[f := OFile (set_private_data (Some q) fl)]> (<[q := OProc (ProcessEntry 1 pid [] table [] [])]> (ks_heap s)) ->
  fresh_above s' -> ks_entries s' = q :: ks_entries s -> ks_sleeping s' = ks_sleeping s -> ks_next_rcvid s' = ks_next_rcvid s ->
  inv own s' calls held hand.
Proof.
  intros Hinv Hf Hpd Hq Hpid Htab Hh Hfr Hes Hsl Hri. set (e := ProcessEntry 1 pid [] table [] []) in *.
  assert (Hfq : f ≠ q) by congruence. pose proof Hinv as Hinv0. destruct_inv Hinv.
  assert (Hf' : ks_heap s' !! f = Some (OFile (set_private_data (Some q) fl))) by (by rewrite Hh, lookup_insert_eq).
  assert (Hq' : ks_heap s' !! q = Some (OProc e)) by (by rewrite Hh, lookup_insert_ne, lookup_insert_eq).
  assert (Hne : forall r, r ≠ f -> r ≠ q -> ks_heap s' !! r = ks_heap s !! r) by (intros; by rewrite Hh, !lookup_insert_ne).
  assert (Hpr : forall r e0, r ≠ q -> ks_heap s' !! r = Some (OProc e0) <-> ks_heap s !! r = Some (OProc e0)).
  { intros r e0 Hr. destruct (decide (r = f)) as [->|]; [by rewrite Hf, Hf'|by rewrite Hne]. }
  assert (Hqe : q ∉ ks_entries s) by (intros (e0 & ?)%Hlisted; congruence).
  assert (Hpq : forall r, r ≠ q -> proc_channels (ks_heap s') r = proc_channels (ks_heap s) r).
  { intros r Hr. apply proc_channels_ext. intros e0. by rewrite Hpr. }
  apply (inv_procs own s); try done; rewrite ?Hes.
  - intros r o Ho1 Ho2. destruct (decide (r = f)) as [->|]; [|destruct (decide (r = q)) as [->|]; [|by rewrite Hne]].
    + rewrite Hf, Hf'. split; intros ?; simplify_eq; by edestruct Ho2.
    + rewrite Hq, Hq'. split; intros ?; simplify_eq. by edestruct Ho1.
  - by constructor.
  - intros r [->|Hr]%elem_of_cons; [eauto|]. destruct (Hlisted r Hr) as (e0 & ?). exists e0. apply Hpr; [congruence|done].
  - intros r e0 Hr. destruct (decide (r = q)) as [->|Hrq].
    + rewrite Hq' in Hr. simplify_eq. split; try done; [by left|constructor|]. by intros ? ?%elem_of_nil.
    + apply Hpr in Hr; [|done]. destruct (Hproc r e0 Hr). split; try done. by right.
  - intros r r' e0 e0' Hr Hr' Heq. destruct (decide (r = q)) as [->|Hrq], (decide (r' = q)) as [->|Hrq']; [done|..].
    + rewrite Hq' in Hr. apply Hpr in Hr'; [|done]. simplify_eq. by destruct (Hpid _ _ Hr').
    + rewrite Hq' in Hr'. apply Hpr in Hr; [|done]. simplify_eq. by destruct (Hpid _ _ Hr).
    + apply Hpr in Hr, Hr'; [|done..]. eauto.
  - cbn. unfold proc_channels at 1. rewrite Hq'. cbn.
    assert (Hall : forall l, q ∉ l -> (l ≫= proc_channels (ks_heap s')) = (l ≫= proc_channels (ks_heap s))).
    { induction l as [|r l IH]; [done|]. intros [? ?]%not_elem_of_cons. cbn. rewrite Hpq, IH; done. }
    by apply Hall.
  - intros p. split; intros (r & e0 & Hr & Hp).
    + exists r, e0. split; [|done]. apply Hpr; [congruence|done].
    + destruct (decide (r = q)) as [->|]; [rewrite Hq' in Hr; simplify_eq; by apply elem_of_nil in Hp|]. exists r, e0. split; [by apply Hpr|done].
  - intros r e0 p Hr Hp. destruct (decide (r = q)) as [->|]; [rewrite Hq' in Hr; simplify_eq; by apply elem_of_nil in Hp|].
    exists r, e0. split; [by apply Hpr|done].
  - intros x entry c recv e0 _ _ He0. apply Hpr; [congruence|done].
  - assert (Hfs : forall g gl r, ks_heap s' !! g = Some (OFile gl) -> private_data gl = Some r ->
      (g = f /\ r = q) \/ (g ≠ f /\ r ≠ q /\ ks_heap s !! g = Some (OFile gl))).
    { intros g gl r Hg Hr. destruct (decide (g = f)) as [->|Hgf].
      - rewrite Hf' in Hg. simplify_eq/=. by left.
      - right. assert (g ≠ q) by congruence. rewrite Hne in Hg by done. split_and!; try done.
        intros ->. by apply (Hfile _ _ _ Hg) in Hr as [? _]. }
    intros g gl r Hg Hr. destruct (Hfs _ _ _ Hg Hr) as [[-> ->]|(Hgf & Hrq & Hg0)].
    + split; [by left|]. intros g' gl' Hg' Hr'. by destruct (Hfs _ _ _ Hg' Hr') as [[-> _]|(_ & ? & _)].
    + destruct (Hfile _ _ _ Hg0 Hr) as [? Hinj]. split; [by right|]. intros g' gl' Hg' Hr'.
      destruct (Hfs _ _ _ Hg' Hr') as [[_ ->]|(_ & _ & ?)]; [done|eauto].
  - intros r [->|Hr]%elem_of_cons; [by exists f, (set_private_data (Some q) fl)|].
    destruct (Hopened r Hr) as (g & gl & Hg & Hgr). exists g, gl. split; [|done]. rewrite Hne; [done| |congruence]. intros ->. congruence.
Qed.

(** a process gives up its channels *)
Lemma inv_drop_channels own s calls held hand q e l :
  inv own s calls held hand -> ks_heap s !! q = Some (OProc e) -> channels e = l ->
  exists h1, inv own (upd_heap (fun _ => h1) s) calls held hand /\ h1 !! q = Some (OProc (set_channels [] e)) /\
    (forall c ch, c ∈ l -> ks_heap s !! c = Some (OChan ch) -> h1 !! c = after_release ch /\ quiet ch) /\
    (forall r, r ≠ q -> r ∉ l -> h1 !! r = ks_heap s !! r).
Proof.
  revert s e. induction l as [|c l IH]; intros s e Hinv He Hl.
  { exists (ks_heap s). rewrite upd_heap_id by done. split_and!; [done|by destruct e; cbn in *; subst|by intros ?? ?%elem_of_nil|done]. }
  pose proof (i_proc _ _ _ _ _ Hinv q e He) as [? ? ? ? ? ?].
  assert (Hcl : c ∉ l).
  { pose proof (eo_channels_nodup _ _ (inv_entry_ok _ _ _ _ _ _ _ Hinv He)) as Hnd. rewrite Hl in Hnd. by apply NoDup_cons in Hnd as [? _]. }
  assert (Hinv1 : inv own (upd_heap <[q := OProc (set_channels l e)]> s) calls (c :: held) hand).
  { eapply (inv_entry _ _ _ held _ hand); try done; cbn; rewrite ?Hl.
    - by apply submseteq_cons.
    - symmetry. apply Permutation_middle.
    - intros p Hp. by left.
    - intros p Hp. by left.
    - intros p Hp. by right.
    - intros p Hp. split; [by left|]. intros Hin. destruct (i_hand _ _ _ _ _ Hinv p Hp) as [_ [_ [] _ _]]. by exists q, e. }
  destruct (inv_release _ _ _ _ _ _ Hinv1) as (ch & Hc & Hquiet & Hinv2 & _). ks_simpl.
  assert (Hcq : c ≠ q) by (intros ->; rewrite lookup_insert_eq in Hc; done).
  rewrite lookup_insert_ne in Hc by done. rewrite upd_heap_upd_heap in Hinv2.
  destruct (IH _ (set_channels l e) Hinv2) as (h1 & Hi & Hq1 & Hch & Hrest); [|done|].
  { ks_simpl. by rewrite lookup_partial_alter_ne, lookup_insert_eq. }
  exists h1. ks_simpl. split_and!; [done|done| |].
  - intros d chd [->|Hd]%elem_of_cons Hdc.
    + simplify_eq. rewrite Hrest by done. by rewrite lookup_partial_alter_eq.
    + assert (d ≠ c) by (by intros ->). apply Hch; [done|]. rewrite lookup_partial_alter_ne by done.
      rewrite lookup_insert_ne; [done|congruence].
  - intros r Hrq [Hrc Hrl]%not_elem_of_cons. rewrite Hrest by done. by rewrite lookup_partial_alter_ne, lookup_insert_ne.
Qed.

(** ... and its pending messages, whose senders are awake *)
Lemma inv_drop_pending own s calls held q e l :
  inv own s calls held None -> ks_heap s !! q = Some (OProc e) -> pending e = l ->
  (forall p m t, p ∈ l -> ks_heap s !! p = Some (OMsg m) -> task m = Some t -> tsk_pid t ∉ ks_sleeping s) ->
  exists h1, inv own (upd_heap (fun _ => h1) s) calls held None /\ h1 !! q = Some (OProc (set_pending [] e)) /\
    (forall p m, p ∈ l -> ks_heap s !! p = Some (OMsg m) -> h1 !! p = Some (OMsg (set_status (- ESRCH) m))) /\
    (forall r, r ≠ q -> r ∉ l -> h1 !! r = ks_heap s !! r).
Proof.
  revert s e. induction l as [|p l IH]; intros s e Hinv He Hl Haw.
  { exists (ks_heap s). rewrite upd_heap_id by done. split_and!; [done|by destruct e; cbn in *; subst|by intros ?? ?%elem_of_nil|done]. }
  pose proof (i_proc _ _ _ _ _ Hinv q e He) as [? ? ? Hpn ? ?]. rewrite Hl in Hpn. apply NoDup_cons in Hpn as [Hpl Hpn].
  destruct (i_pending _ _ _ _ _ Hinv q e p He) as (c & (cur & m & Hx & Hm & Hst & _) & _); [rewrite Hl; by left|].
  destruct (i_sender _ _ _ _ _ Hinv c p cur Hx) as (m' & b & buf & Hs & _). pose proof (sn_msg _ _ _ _ _ _ _ _ _ Hs) as Hm'. simplify_eq.
  destruct (sn_fresh _ _ _ _ _ _ _ _ _ Hs) as [Hrb Hrl]; [by rewrite Hst|].
  assert (Hpq : p ≠ q) by congruence.
  assert (Hinv1 : inv own (upd_heap <[q := OProc (set_pending l e)]> s) calls held (Some p)).
  { eapply (inv_entry _ _ _ held _ None); try done; cbn; rewrite ?Hl.
    - intros r Hr. left. by right.
    - intros r [->|Hr]%elem_of_cons; [by right|by left].
    - intros r [= <-]. split; [right; by left|done]. }
  set (s1 := upd_heap <[q := _]> s) in *. assert (Hm1 : ks_heap s1 !! p = Some (OMsg m)) by (unfold s1; ks_simpl; by rewrite lookup_insert_ne).
  assert (Hinv2 : inv own (upd_heap <[p := OMsg (set_status (- ESRCH) m)]> s1) calls held (Some p)).
  { eapply (inv_msg _ s1 _ _ _ _ m (set_status (- ESRCH) m)); try done; cbn; rewrite ?Hrb.
    - apply lookup_insert_eq.
    - intros r o Hr _. by rewrite lookup_insert_ne.
    - unfold reply_ok. cbn. by rewrite Hrb.
    - by intros r ?.
    - intros r Hr. pose proof (i_fresh _ _ _ _ _ Hinv1 r Hr) as Hno. ks_simpl. rewrite lookup_insert_ne by (intros ->; congruence). done. }
  apply (inv_drop _ _ _ _ c p cur) in Hinv2; [|done|].
  2: { ks_simpl. rewrite lookup_insert_eq. intros m0 [= <-]. split; [|by right; split]. eapply Haw; [by left|exact Hm|by eapply sn_task]. }
  unfold s1 in Hinv2. rewrite upd_heap_upd_heap in Hinv2.
  destruct (IH _ (set_pending l e) Hinv2) as (h1 & Hi & Hq1 & Hch & Hrest); [|done| |].
  { ks_simpl. by rewrite lookup_insert_ne, lookup_insert_eq. }
  { intros r mr t Hr Hmr Ht. ks_simpl. assert (r ≠ p) by (by intros ->). rewrite lookup_insert_ne in Hmr by done.
    eapply Haw; [by right| |done]. rewrite lookup_insert_ne in Hmr; [done|]. intros ->. by rewrite lookup_insert_eq in Hmr. }
  exists h1. ks_simpl. split_and!; [done|done| |].
  - intros r mr [->|Hr]%elem_of_cons Hmr.
    + simplify_eq. rewrite Hrest by done. by rewrite lookup_insert_eq.
    + assert (r ≠ p) by (by intros ->). apply Hch; [done|]. rewrite lookup_insert_ne by done.
      rewrite lookup_insert_ne; [done|congruence].
  - intros r Hrq [Hrc Hrl0]%not_elem_of_cons. rewrite Hrest by done. by rewrite !lookup_insert_ne.
Qed.

(** an entry without channels and messages goes, and its file is closed *)
Lemma inv_close own s s' calls held hand q e f fl :
  inv own s calls held hand -> ks_heap s !! q = Some (OProc e) -> channels e = [] -> pending e = [] ->
  ks_heap s !! f = Some (OFile fl) -> private_data fl = Some q ->
  (forall x entry c recv, x ∈ calls -> receiver x = Some (entry, c, recv) -> entry ≠ q) ->
  ks_heap s' = <[f := OFile (set_private_data None fl)]> (delete q (ks_heap s)) ->
  (ks_next s <= ks_next s')%positive -> ks_entries s' = list_del q (ks_entries s) ->
  ks_sleeping s' = ks_sleeping s -> ks_next_rcvid s' = ks_next_rcvid s ->
  inv own s' calls held hand.
Proof.
  intros Hinv He Hch Hpe Hf Hpd Hrc Hh Hn Hes Hsl Hri. assert (Hfq : f ≠ q) by congruence. pose proof Hinv as Hinv0. destruct_inv Hinv.
  assert (Hf' : ks_heap s' !! f = Some (OFile (set_private_data None fl))) by (by rewrite Hh, lookup_insert_eq).
  assert (Hq' : ks_heap s' !! q = None) by (by rewrite Hh, lookup_insert_ne, lookup_delete_eq).
  assert (Hne : forall r, r ≠ f -> r ≠ q -> ks_heap s' !! r = ks_heap s !! r) by (intros; by rewrite Hh, lookup_insert_ne, lookup_delete_ne).
  assert (Hpr : forall r e0, r ≠ q -> ks_heap s' !! r = Some (OProc e0) <-> ks_heap s !! r = Some (OProc e0)).
  { intros r e0 Hr. destruct (decide (r = f)) as [->|]; [by rewrite Hf, Hf'|by rewrite Hne]. }
  assert (Hpr' : forall r e0, ks_heap s' !! r = Some (OProc e0) -> r ≠ q /\ ks_heap s !! r = Some (OProc e0)).
  { intros r e0 Hr. assert (r ≠ q) by congruence. split; [done|by apply Hpr]. }
  assert (Hqe : q ∈ ks_entries s) by (by eapply po_listed, Hproc).
  assert (Hpq : forall r, r ≠ q -> proc_channels (ks_heap s') r = proc_channels (ks_heap s) r).
  { intros r Hr. apply proc_channels_ext. intros e0. by rewrite Hpr. }
  destruct (owned_channels_split _ _ q e Hnodup Hqe He) as (R & HR & _ & HR').
  assert (Hdel : forall r, r ∈ list_del q (ks_entries s) <-> r ≠ q /\ r ∈ ks_entries s).
  { intros r. destruct (decide (r = q)) as [->|Hr]; [|rewrite elem_of_list_del_ne by done; tauto].
    split; [intros Hin; by apply not_elem_of_list_del in Hin|tauto]. }
  assert (Hrefl : (list_del q (ks_entries s) ≫= proc_channels (ks_heap s')) = (ks_entries s ≫= proc_channels (ks_heap s))).
  { rewrite (HR' _ Hpq). apply list_elem_of_split in Hqe as (l1 & l2 & Heq). 
    rewrite <- (HR' (ks_heap s)) by done. rewrite Heq. rewrite Heq in Hnodup. apply NoDup_app in Hnodup as (_ & Hd & _).
    rewrite list_del_app by (intros Hq; by apply (Hd q Hq); left). rewrite !bind_app. cbn. unfold proc_channels at 4. by rewrite He, Hch. }
  apply (inv_procs own s); try done; rewrite ?Hes.
  - intros r o Ho1 Ho2. destruct (decide (r = f)) as [->|]; [|destruct (decide (r = q)) as [->|]; [|by rewrite Hne]].
    + rewrite Hf, Hf'. split; intros ?; simplify_eq; by edestruct Ho2.
    + rewrite He, Hq'. split; intros ?; simplify_eq. by edestruct Ho1.
  - intros r Hr. destruct (decide (r = f)) as [->|].
    { rewrite (Hfresh f) in Hf; [done|lia]. }
    destruct (decide (r = q)) as [->|]; [done|]. rewrite Hne by done. apply Hfresh. lia.
  - by apply list_del_NoDup.
  - intros r [Hrq Hr]%Hdel. destruct (Hlisted r Hr) as (e0 & ?). exists e0. by apply Hpr.
  - intros r e0 [Hrq Hr]%Hpr'. destruct (Hproc r e0 Hr). split; try done. by apply Hdel.
  - intros r r' e0 e0' [_ Hr]%Hpr' [_ Hr']%Hpr'. eauto.
  - exact Hrefl.
  - intros p. split; intros (r & e0 & Hr & Hp).
    + exists r, e0. split; [|done]. apply Hpr; [|done]. intros ->. simplify_eq. rewrite Hpe in Hp. by apply elem_of_nil in Hp.
    + apply Hpr' in Hr as [_ Hr]. by exists r, e0.
  - intros r e0 p [_ Hr]%Hpr' Hp. eauto.
  - intros x entry c recv e0 Hx Hr He0. apply Hpr; [by eapply Hrc|done].
  - assert (Hfs : forall g gl r, ks_heap s' !! g = Some (OFile gl) -> private_data gl = Some r -> ks_heap s !! g = Some (OFile gl) /\ g ≠ f).
    { intros g gl r Hg Hr. assert (g ≠ f) by (intros ->; rewrite Hf' in Hg; by simplify_eq/=).
      split; [|done]. assert (g ≠ q) by congruence. by rewrite Hne in Hg. }
    intros g gl r Hg Hr. destruct (Hfs _ _ _ Hg Hr) as [Hg0 Hgf]. destruct (Hfile _ _ _ Hg0 Hr) as [? Hinj].
    split; [apply Hdel; split; [|done]|].
    + intros ->. apply Hgf. symmetry. by eapply Hinj.
    + intros g' gl' Hg' Hr'. destruct (Hfs _ _ _ Hg' Hr') as [? _]. eauto.
  - intros r [Hrq Hr]%Hdel. destruct (Hopened r Hr) as (g & gl & Hg & Hgr). exists g, gl. split; [|done].
    rewrite Hne; [done| |congruence]. intros ->. congruence.
Qed.

End Rules.
