(* ===== verification/ProtocolSafe.v ===== *)
(** * Interleaved calls are safe

    Every action of Protocol.v keeps the invariant and runs to its end. *)

From Stdlib Require Import ZArith Lia.
From stdpp Require Import base tactics list option gmap fin_maps sets.
From S2P Require Import Prelude Layout UserMem ConnectionTable Kernel Msgsend Channel ProcessEntry DriverData Driver Protocol ProtocolInv.

Open Scope Z_scope.

Section Actions.
  Context {M : Type} `{!UserMem M} `{!UserMemLaws M}.
  Implicit Types (s : kstate M) (calls : list call) (held : list ptr) (own : ptr -> Z).

(** an action keeps the invariant *)
Definition safe (a : action) calls own s : Prop :=
  wp (exec a calls) (fun calls' s' => exists own', inv own' s' calls' [] None) s.

Lemma listed_proc own s calls held hand q :
  inv own s calls held hand -> q ∈ ks_entries s ->
  exists e, ks_heap s !! q = Some (OProc e) /\ proc_ok (ks_entries s) own q e /\ entry_ok (ks_heap s) e.
Proof.
  intros Hinv Hq. destruct (i_listed _ _ _ _ _ Hinv q Hq) as (e & He). exists e.
  split_and!; [done|by eapply i_proc|by eapply inv_entry_ok].
Qed.

Lemma interrupt_safe own s calls cur : inv own s calls [] None -> safe (AInterrupt cur) calls own s.
Proof. intros Hinv. unfold safe, exec. ksteps. exists own. eapply inv_frame; [..|exact Hinv]; ks_simpl; try done; set_solver. Qed.

(** a new connection table *)
Lemma inv_connections own s calls held hand q e table :
  inv own s calls held hand -> ks_heap s !! q = Some (OProc e) -> table_ok table ->
  inv own (upd_heap <[q := OProc (set_connections table e)]> s) calls held hand.
Proof.
  intros Hinv He Ht. destruct (i_proc _ _ _ _ _ Hinv q e He). eapply (inv_entry _ _ _ held _ hand); try done.
  - intros p Hp. by left.
  - intros p Hp. by left.
  - intros p Hp. by right.
  - intros p Hp. split; [by left|]. intros Hin. destruct (i_hand _ _ _ _ _ Hinv p Hp) as [_ [_ [] _ _]]. by exists q, e.
Qed.

Lemma detach_safe own s calls entry coid :
  inv own s calls [] None -> enabled (AConnectDetach entry coid) s calls -> safe (AConnectDetach entry coid) calls own s.
Proof.
  intros Hinv [Hin Hint]. destruct (listed_proc _ _ _ _ _ _ Hinv Hin) as (e & He & Hpo & _).
  unfold safe, exec, qnx_process_entry_remove_connection. ksteps.
  destruct (remove_total_wf (pe_connections e) coid Hint (po_table _ _ _ _ Hpo)) as (rc & table & -> & Ht).
  ksteps. exists own. by apply inv_connections.
Qed.

(** ConnectAttach changes the table of its caller and nothing else *)
Lemma attach_keeps s entry e att :
  entries_ok s -> ks_heap s !! entry = Some (OProc e) -> table_ok (pe_connections e) ->
  0 <= qnx_max_connections_per_process (ks_params s) ->
  wp (qnx_process_entry_add_connection entry att) (fun _ s' => exists table oom', table_ok table /\
    s' = upd_oom oom' (upd_heap <[entry := OProc (set_connections table e)]> s)) s.
Proof.
  intros Hok He Ht Hmax. pose proof (lookup_channel_process s (at_pid att) (at_chid att) Hok) as Hp.
  assert (Hid : forall oom, upd_oom oom s = upd_oom oom (upd_heap <[entry := OProc (set_connections (pe_connections e) e)]> s)).
  { intros oom. f_equal. symmetry. apply upd_heap_id. apply insert_id. rewrite He. by destruct e. }
  assert (Hid0 : s = upd_oom (ks_oom s) s) by (by destruct s).
  unfold qnx_process_entry_add_connection. kstep. eapply wp_of_run; [by apply find_process_run|].
  destruct (find_process s (at_pid att)) as [p|]; [|ksteps; do 2 eexists; split; [done|by rewrite <- Hid]].
  destruct Hp as (ep & Hep & Hr & Heo & Hec). rewrite Hep. set (e1 := set_pe_refcnt (pe_refcnt ep + 1) ep). set (s1 := upd_heap _ s).
  assert (Hs : same_objects (ks_heap s) (ks_heap s1)) by by eapply same_objects_insert.
  assert (He1 : ks_heap s1 !! p = Some (OProc e1)) by apply lookup_insert_eq.
  kstep. eapply wp_eq; [apply (is_channel_available_run p e1)|];
    [done|by apply entry_ok_refcnt, (entry_ok_same (ks_heap s))|].
  assert (Hrel : forall s2, ks_heap s2 = <[p := OProc e1]> (ks_heap s) ->
    wp (qnx_process_entry_release p) (fun _ s' => s' = upd_heap (fun _ => ks_heap s) s2) s2).
  { intros s2 Hh2. eapply wp_eq; [apply (entry_release_run p e1); [by rewrite Hh2, lookup_insert_eq|cbn; lia]|].
    apply upd_heap_ext. rewrite Hh2, insert_insert_eq. unfold e1. cbn [pe_refcnt set_pe_refcnt]. rewrite set_refcnt_back.
    by apply insert_id. }
  assert (Hnone : forall oom (rc : Z), wp (qnx_process_entry_release p) (fun _ s' => wp (kret rc) (fun _ s' => exists table oom', table_ok table /\
    s' = upd_oom oom' (upd_heap <[entry := OProc (set_connections table e)]> s)) s') (upd_oom oom s1)).
  { intros oom rc. eapply wp_mono; [by apply Hrel|]. cbn beta. intros _ s' ->. kstep. exists (pe_connections e), oom.
    split; [done|]. rewrite <- Hid. done. }
  kstep.
  destruct (match entry_channel _ _ _ with Some _ => true | None => false end); [|ksteps; exact (Hnone (ks_oom s) (- ESRCH))].
  ksteps. destruct (kmalloc_answer (ks_oom s1)) as [[] oom']; [|ksteps; exact (Hnone oom' (- ENOMEM))]. ksteps. unfold qnx_connection_init.
  change (ks_params (upd_oom oom' s1)) with (ks_params s).
  destruct (decide (entry = p)) as [<-|Hne].
  - assert (ep = e) as -> by congruence. eapply wp_get_proc; [exact He1|]. cbn beta. change (pe_connections e1) with (pe_connections e).
    destruct (add_total_wf (qnx_max_connections_per_process (ks_params s)) oom' (pe_connections e) (QnxConnection (at_pid att) (at_chid att)))
      as (rc & oom2 & table & -> & Ht'); [done..|]. ksteps.
    eapply wp_eq; [eapply entry_release_run; [ks_simpl; apply lookup_insert_eq|unfold e1; cbn; lia]|]. ksteps.
    exists table, oom2. split; [done|]. unfold s1, e1. state_eq. destruct e. unfold set_pe_refcnt, set_connections. cbn. do 3 f_equal. lia.
  - eapply wp_get_proc; [unfold s1; ks_simpl; rewrite lookup_insert_ne by congruence; exact He|]. cbn beta.
    destruct (add_total_wf (qnx_max_connections_per_process (ks_params s)) oom' (pe_connections e) (QnxConnection (at_pid att) (at_chid att)))
      as (rc & oom2 & table & -> & Ht'); [done..|]. unfold s1. ksteps.
    eapply wp_eq; [eapply (entry_release_run p e1); [ks_simpl; rewrite lookup_insert_ne by done; exact He1|unfold e1; cbn; lia]|].
    ksteps. exists table, oom2. split; [done|]. unfold e1. state_eq. cbn [pe_refcnt set_pe_refcnt]. rewrite set_refcnt_back. congruence.
Qed.

Lemma attach_safe own s calls entry att :
  inv own s calls [] None -> enabled (AConnectAttach entry att) s calls -> safe (AConnectAttach entry att) calls own s.
Proof.
  intros Hinv [Hin Hmax]. destruct (listed_proc _ _ _ _ _ _ Hinv Hin) as (e & He & Hpo & _).
  unfold safe, exec. kstep. eapply wp_mono.
  { eapply attach_keeps; [by eapply inv_entries_ok|done|by apply Hpo|done]. }
  cbn beta. intros _ s' (table & oom' & Ht & ->). kstep. exists own. eapply (inv_frame _ (upd_heap _ s)); try done.
  by apply inv_connections.
Qed.
(** a process gives up a channel *)
Lemma inv_unlink_channel own s calls held hand q e c :
  inv own s calls held hand -> ks_heap s !! q = Some (OProc e) -> c ∈ channels e ->
  inv own (upd_heap <[q := OProc (set_channels (list_del c (channels e)) e)]> s) calls (c :: held) hand.
Proof.
  intros Hinv He Hc. destruct (i_proc _ _ _ _ _ Hinv q e He). pose proof (list_del_perm c (channels e) Hc) as Hp.
  eapply (inv_entry _ _ _ held _ hand); try done; cbn.
  - rewrite Hp at 2. by apply submseteq_cons.
  - rewrite Hp at 2. symmetry. apply Permutation_middle.
  - intros p Hin. by left.
  - intros p Hin. by left.
  - intros p Hin. by right.
  - intros p Hin. split; [by left|]. intros Hin'. destruct (i_hand _ _ _ _ _ Hinv p Hin) as [_ [_ [] _ _]]. by exists q, e.
Qed.

Lemma destroy_safe own s calls entry id :
  inv own s calls [] None -> enabled (AChannelDestroy entry id) s calls -> safe (AChannelDestroy entry id) calls own s.
Proof.
  intros Hinv Hin. destruct (listed_proc _ _ _ _ _ _ Hinv Hin) as (e & He & Hpo & Heo).
  unfold safe, exec, qnx_process_entry_remove_channel. ksteps.
  eapply wp_eq; [apply find_chid_run; intros; by eapply entry_ok_chans|].
  fold (entry_channel (ks_heap s) e id). destruct (entry_channel (ks_heap s) e id) as [c|] eqn:Hc; ksteps; [|by exists own].
  destruct (entry_channel_Some _ _ _ _ Hc) as (Hce & _).
  pose proof (inv_unlink_channel _ _ _ _ _ _ _ _ Hinv He Hce) as Hinv1.
  destruct (release_ok _ _ _ _ _ _ Hinv1) as (ch & _ & Hinv2 & Hrun).
  eapply wp_eq; [exact Hrun|]. ksteps. by exists own.
Qed.

Lemma create_safe own s calls entry :
  inv own s calls [] None -> enabled (AChannelCreate entry) s calls -> safe (AChannelCreate entry) calls own s.
Proof.
  intros Hinv [Hin Hid]. destruct (listed_proc _ _ _ _ _ _ Hinv Hin) as (e & He & Hpo & Heo).
  pose proof (i_fresh _ _ _ _ _ Hinv) as Hf. pose proof (fresh_next s Hf) as Hfresh. assert (entry ≠ ks_next s) by congruence.
  unfold safe, exec, qnx_process_entry_add_channel, qnx_channel_init, get_new_channel_id, get_num_channels_unlocked.
  kstep. kstep. destruct (kmalloc_answer (ks_oom s)) as [[] oom'] eqn:Hk.
  - eapply wp_kmalloc; [done|]. ksteps. ks_simpl.
    assert (Hi : i32 (ks_next_channel_id s + 1) = ks_next_channel_id s + 1) by (apply i32_id; unfold_int; lia). rewrite !Hi. case_cmp.
    + ksteps. assert (ks_next_channel_id s + 1 <? 0 = false) as -> by lia. ksteps. eexists.
      eapply (inv_new_channel own s); try done; ks_simpl.
      * by rewrite insert_insert_eq.
      * intros r Hr. ks_simpl. pose proof (fresh_lt s entry _ Hf He). rewrite !lookup_insert_ne by lia. apply Hf. lia.
    + ksteps. change (- EMFILE <? 0) with true. cbn iota. ksteps. exists own. apply (inv_frame own s); ks_simpl; try done; [|lia].
      rewrite insert_insert_eq. by apply delete_insert_id.
  - eapply wp_kmalloc_fail; [done|]. ksteps. exists own. apply (inv_frame own s); ks_simpl; try done; lia.
Qed.

(** a call that only holds a reference *)
Lemma inv_wait own s calls held hand entry e c cur addr recv :
  inv own s calls (c :: held) hand -> ks_heap s !! entry = Some (OProc e) -> own c = pe_pid e -> 0 <= iov_len (rv_out recv) ->
  inv own s (CWait entry c cur addr recv :: calls) held hand.
Proof.
  intros Hinv He Hc Hl. pose proof Hinv as Hinv0. destruct_inv Hinv.
  assert (Hcop : forall p, is_copied (CWait entry c cur addr recv :: calls) p <-> is_copied calls p).
  { intros p. split; intros (x & Hx & Hp); exists x; [apply elem_of_cons in Hx as [->|]; done|split; [by right|done]]. }
  assert (Hrep : forall p, in_reply (CWait entry c cur addr recv :: calls) p <-> in_reply calls p).
  { intros p. split; intros (x & Hx & Hp); exists x; [apply elem_of_cons in Hx as [->|]; done|split; [by right|done]]. }
  eapply (inv_calls _ _ calls _ _ _ hand hand Hinv0); try done.
  - intros c' p cur'. rewrite elem_of_cons. naive_solver.
  - cbn. apply Permutation_middle.
  - intros entry' c' p cur' addr' wait recv' [?|Hx]%elem_of_cons; [done|]. eauto.
  - intros p Hp%Hrep. by left.
  - intros x entry' c' recv' [->|Hx]%elem_of_cons Hr; [|eauto]. simplify_eq/=. eauto.
  - intros p Hp. left. by apply Hcop.
  - intros p Hp. left. by apply Hrep.
  - intros p Hp. by right; right.
  - intros p Hp. destruct (Hhand p Hp) as [_ []]. rewrite Hcop, Hrep. split_and!; [by left|done|done].
Qed.

Lemma receive_safe own s calls entry cur addr :
  inv own s calls [] None -> enabled (AMsgReceive entry cur addr) s calls -> safe (AMsgReceive entry cur addr) calls own s.
Proof.
  intros Hinv Hin. destruct (listed_proc _ _ _ _ _ _ Hinv Hin) as (e & He & Hpo & Heo).
  unfold safe, exec, handle_msgreceive_begin. ksteps. destruct (copy_from_user _ _ _ _) as [bs|] eqn:Hbs; cbn [option_map]; ksteps; [|by exists own].
  eapply wp_of_run; [by eapply find_channel_run|]. destruct (entry_channel _ _ _) as [c|] eqn:Hc; [|ksteps; by exists own].
  destruct (entry_channel_Some _ _ _ _ Hc) as (Hce & ch & Hch & _). rewrite Hch. ksteps. exists own.
  eapply inv_wait; [by apply inv_acquire|ks_simpl; rewrite lookup_insert_ne by congruence; done|by apply (po_own _ _ _ _ Hpo)|].
  apply copy_from_user_length in Hbs as [_ Hb]. apply (dec_iovec_len (drop 8 bs)). by apply Forall_drop.
Qed.

End Actions.
