(* ===== verification/ProtocolMsg.v ===== *)
(** * The way of a message through interleaved calls is safe

    MsgReceive, MsgReply, MsgError, MsgRead and MsgSend: every piece keeps the
    invariant of Protocol.v and runs to its end. *)

From Stdlib Require Import ZArith Lia.
From stdpp Require Import base tactics list option gmap fin_maps sets.
From S2P Require Import Prelude Layout UserMem ConnectionTable Kernel Msgsend Channel ProcessEntry DriverData Driver Protocol ProtocolInv ProtocolSafe.

Open Scope Z_scope.

Section Messages.
  Context {M : Type} `{!UserMem M} `{!UserMemLaws M}.
  Implicit Types (s : kstate M) (calls : list call) (held : list ptr) (own : ptr -> Z).

(** ** More rules *)

(** the [i]-th call is in front *)
Lemma inv_nth own s calls held hand i x :
  calls !! i = Some x -> inv own s calls held hand -> inv own s (x :: delete i calls) held hand.
Proof. intros Hi. apply inv_perm; [by apply delete_Permutation|done]. Qed.

(** the call at the head, which is no sender and has no message, is over *)
Lemma inv_return own s x calls held hand :
  sent x = None -> copied x = None -> replied x = None ->
  inv own s (x :: calls) held hand -> inv own s calls (call_channels x ++ held) hand.
Proof.
  intros Hs Hc Hr Hinv. pose proof Hinv as Hinv0. destruct_inv Hinv. cbn in *. rewrite Hc in Hcopies. rewrite Hr in Hreplies.
  assert (Ht : sender_tid x = None) by by destruct x.
  assert (Hcop : forall p, is_copied (x :: calls) p -> is_copied calls p).
  { intros p (y & [->|Hy]%elem_of_cons & Hp); [congruence|]. by exists y. }
  assert (Hrep : forall p, in_reply (x :: calls) p -> in_reply calls p).
  { intros p (y & [->|Hy]%elem_of_cons & Hp); [congruence|]. by exists y. }
  assert (Hin : forall y, y ∈ calls -> y ∈ x :: calls) by (intros; by right).
  eapply (inv_calls _ _ _ _ _ _ hand hand Hinv0); try done.
  - intros c p cur. rewrite elem_of_cons. split; [by right|]. intros [<-|?]; done.
  - cbn. by rewrite Hs.
  - cbn. by rewrite Ht.
  - cbn. rewrite <- app_assoc. apply Permutation_app_swap_app.
  - intros entry c p cur addr wait recv Hy. eauto.
  - intros p (y & Hy & Hp). left. exists y. auto.
  - intros y entry c recv Hy. eauto.
  - intros p Hp%Hcop. by left.
  - intros p Hp%Hrep. by left.
  - intros p Hp. by right; right.
  - intros p Hp. split; [by left|]. destruct (Hhand p Hp) as [_ [_ _ Hnc Hnr]]. split.
    + intros (y & Hy & Hyp). apply Hnc. exists y. auto.
    + intros (y & Hy & Hyp). apply Hnr. exists y. auto.
Qed.

(** the message in the hand changes, but not its reply *)
Lemma inv_put_msg own s calls held p m m' :
  inv own s calls held (Some p) -> ks_heap s !! p = Some (OMsg m) ->
  rcvid m' = rcvid m -> data m' = data m -> task m' = task m -> receiver_pid m' = receiver_pid m ->
  reply_base m = None -> reply_base m' = None -> reply_len m' = 0 ->
  inv own (upd_heap <[p := OMsg m']> s) calls held (Some p).
Proof.
  intros Hinv Hm Hid Hd Ht Hrp Hrb0 Hrb Hrl. eapply (inv_msg _ s _ _ _ _ m m'); try done; rewrite ?Hrb.
  - apply lookup_insert_eq.
  - intros r o Hr _. ks_simpl. by rewrite lookup_insert_ne.
  - unfold reply_ok. by rewrite Hrb.
  - by intros r ?.
  - intros r Hr. pose proof (i_fresh _ _ _ _ _ Hinv r Hr) as Hno. ks_simpl. rewrite lookup_insert_ne by (intros ->; congruence). done.
Qed.

(** the message of a sender, in the state [st] *)
Lemma sends_message own s calls held hand c p st :
  inv own s calls held hand -> sends (ks_heap s) calls c p st ->
  exists cur m b buf, CSend c p cur ∈ calls /\ sender_ok (ks_heap s) own (ks_next_rcvid s) c p cur m b buf /\
    state m = st /\ status m = 0.
Proof.
  intros Hinv (cur & m & Hx & Hm & Hst & Hss). destruct (i_sender _ _ _ _ _ Hinv c p cur Hx) as (m' & b & buf & Hs & _).
  pose proof (sn_msg _ _ _ _ _ _ _ _ _ Hs). simplify_eq. exists cur, m, b, buf. done.
Qed.

(** ** Receiving *)

Lemma take_safe own s calls i wait : inv own s calls [] None -> safe (AMsgReceiveTake i wait) calls own s.
Proof.
  intros Hinv. unfold safe, exec. destruct (calls !! i) as [x|] eqn:Hi; [|kstep; by exists own].
  destruct x as [| entry chnl cur addr recv| | |]; try (kstep; by exists own).
  apply (inv_nth _ _ _ _ _ _ _ Hi) in Hinv. set (rest := delete i calls) in *.
  assert (Hrel : wp (qnx_channel_release chnl) (fun _ s' => wp (kret rest) (fun calls' s' => exists own', inv own' s' calls' [] None) s') s).
  { apply inv_return in Hinv; [|done..]. destruct (release_ok _ _ _ _ _ _ Hinv) as (ch & _ & Hinv2 & Hrun).
    eapply wp_eq; [exact Hrun|]. kstep. by exists own. }
  unfold handle_msgreceive_dequeue. case_cmp; [ksteps; exact Hrel|].
  destruct (i_alive _ _ _ _ _ Hinv chnl) as (ch & Hch).
  { apply elem_of_holders. right; left. eexists. split; [by left|]. by left. }
  ksteps. destruct (waiting ch) as [|p l] eqn:Hw; [ksteps; exact Hrel|].
  destruct (sends_message _ _ _ _ _ chnl p QNX_STATE_INITIAL Hinv) as (tcur & m & b & buf & Hx & Hs & Hst & Hss).
  { eapply i_queued; [done..|]. rewrite Hw. by left. }
  pose proof (sn_msg _ _ _ _ _ _ _ _ _ Hs) as Hm. destruct (sn_fresh _ _ _ _ _ _ _ _ _ Hs) as [Hrb Hrl]; [by rewrite Hst|].
  assert (chnl ≠ p) by congruence. ksteps.
  destruct (i_chan _ _ _ _ _ Hinv chnl ch Hch) as (_ & _ & Hnd). rewrite Hw in Hnd. apply NoDup_cons in Hnd as [Hpl Hnd].
  cbn [list_del]. rewrite decide_True by done. set (ch' := set_waiting l _). exists own.
  eapply (inv_queue _ _ _ _ None (Some p) chnl ch ch') in Hinv; try done.
  2: { intros q Hq. left. rewrite Hw. by right. }
  2: { intros q. rewrite Hw. intros [->|Hq]%elem_of_cons; [by right|by left]. }
  2: { intros q [= <-]. split; [right; rewrite Hw; by left|done]. }
  eapply (inv_put_msg _ _ _ _ p m (set_state QNX_STATE_RECEIVING m)) in Hinv; try done.
  2: { ks_simpl. by rewrite lookup_insert_ne. }
  set (s' := upd_heap _ _) in Hinv |- *. assert (Hm' : ks_heap s' !! p = Some (OMsg (set_state QNX_STATE_RECEIVING m))) by apply lookup_insert_eq.
  set (x := CWait entry chnl cur addr recv) in *. set (x' := CCopy entry chnl p cur addr wait recv).
  assert (Hse : sends (ks_heap s') (x :: rest) chnl p QNX_STATE_RECEIVING) by by exists tcur, (set_state QNX_STATE_RECEIVING m).
  destruct (i_hand _ _ _ _ _ Hinv p eq_refl) as [_ [_ _ Hnc Hnr]].
  pose proof Hinv as Hinv0. destruct_inv Hinv.
  assert (Hcop : forall q, is_copied (x' :: rest) q <-> q = p \/ is_copied (x :: rest) q).
  { intros q. unfold is_copied. setoid_rewrite elem_of_cons. split.
    - intros (y & [->|Hy] & Hq); [change (Some p = Some q) in Hq; left; congruence|right; eauto].
    - intros [->|(y & [->|Hy] & Hq)]; [exists x'; auto|done|eauto]. }
  assert (Hrep : forall q, in_reply (x' :: rest) q <-> in_reply (x :: rest) q).
  { intros q. unfold in_reply. setoid_rewrite elem_of_cons. split; intros (y & [->|Hy] & Hq); (done || eauto). }
  eapply (inv_calls _ _ _ _ _ _ _ None Hinv0); try done.
  - intros c q tc. rewrite !elem_of_cons. naive_solver.
  - cbn. constructor; [|done]. intros (y & Hy & Hyp)%list_elem_of_omap. apply Hnc. exists y. split; [by right|done].
  - intros e0 c q cur0 addr0 wait0 recv0 [Heq|Hy]%elem_of_cons; [by injection Heq as -> -> -> -> -> -> ->|]. eapply Hcopied. by right.
  - intros q Hq%Hrep. by left.
  - intros y e0 c recv0 [->|Hy]%elem_of_cons Hr; [|eapply Hreceiver; [by right|done]].
    eapply Hreceiver; [by left|exact Hr].
  - intros q Hq. left. apply Hcop. by right.
  - intros q Hq. left. by apply Hrep.
  - intros q [= <-]. left. apply Hcop. by left.
Qed.

(** the message of the call at the head is taken from it *)
Lemma inv_take own s x calls held p :
  sent x = None -> copied x = Some p \/ replied x = Some p ->
  inv own s (x :: calls) held None -> inv own s calls (call_channels x ++ held) (Some p).
Proof.
  intros Hs Hx Hinv. pose proof Hinv as Hinv0. destruct_inv Hinv. assert (Ht : sender_tid x = None) by by destruct x.
  assert (Hin : forall y, y ∈ calls -> y ∈ x :: calls) by (intros; by right).
  assert (Hcop : forall q, is_copied (x :: calls) q -> is_copied calls q \/ copied x = Some q).
  { intros q (y & [->|Hy]%elem_of_cons & Hq); [by right|]. left. by exists y. }
  assert (Hrep : forall q, in_reply (x :: calls) q -> in_reply calls q \/ replied x = Some q).
  { intros q (y & [->|Hy]%elem_of_cons & Hq); [by right|]. left. by exists y. }
  assert (Hcp : forall q, copied x = Some q -> exists c, sends (ks_heap s) (x :: calls) c q QNX_STATE_RECEIVING).
  { intros q Hq. destruct x; simplify_eq/=. eexists. eapply Hcopied. by left. }
  assert (Hrp : forall q, replied x = Some q -> exists c, sends (ks_heap s) (x :: calls) c q QNX_STATE_PENDING).
  { intros q Hq. destruct (Hreplied q) as [? _]; [|done]. exists x. split; [by left|done]. }
  eapply (inv_calls _ _ _ _ _ _ None (Some p) Hinv0); try done.
  - intros c q cur. rewrite elem_of_cons. split; [by right|]. intros [<-|?]; done.
  - cbn. by rewrite Hs.
  - cbn. by rewrite Ht.
  - cbn in Hcopies. destruct (copied x); [by apply NoDup_cons in Hcopies as [_ ?]|done].
  - cbn in Hreplies. destruct (replied x); [by apply NoDup_cons in Hreplies as [_ ?]|done].
  - cbn. rewrite <- app_assoc. apply Permutation_app_swap_app.
  - intros entry c q cur addr wait recv Hy. eauto.
  - intros q (y & Hy & Hq). left. exists y. auto.
  - intros y entry c recv Hy. eauto.
  - intros q [?|Hq]%Hcop; [by left|]. right. destruct x; by naive_solver.
  - intros q [?|Hq]%Hrep; [by left|]. right. destruct x; by naive_solver.
  - intros q [= <-]. split; [right; destruct Hx; [left|right]; exists x; (split; [by left|done])|].
    destruct Hx as [Hx|Hx].
    + destruct (Hcp p Hx) as [c Hc]. split.
      * intros (y & Hy & Hyp). cbn in Hcopies. rewrite Hx in Hcopies. apply NoDup_cons in Hcopies as [Hn _]. destruct Hn.
        apply list_elem_of_omap. eauto.
      * intros (y & Hy & Hyp). destruct (Hreplied p) as [(c' & Hc') _]; [exists y; auto|].
        by pose proof (sends_state _ _ _ _ _ _ _ Hc Hc').
    + destruct (Hrp p Hx) as [c Hc]. split.
      * intros (y & Hy & Hyp). destruct y; simplify_eq/=. pose proof (Hcopied _ _ _ _ _ _ _ (Hin _ Hy)) as Hc'.
        by pose proof (sends_state _ _ _ _ _ _ _ Hc Hc').
      * intros (y & Hy & Hyp). cbn in Hreplies. rewrite Hx in Hreplies. apply NoDup_cons in Hreplies as [Hn _]. destruct Hn.
        apply list_elem_of_omap. eauto.
Qed.

(** a sender and another holder: a release is not the last one *)
Lemma sender_and_holder own s calls held hand c p cur ch :
  inv own s calls (c :: held) hand -> CSend c p cur ∈ calls -> ks_heap s !! c = Some (OChan ch) ->
  1 < ch_refcnt ch /\ inv own (upd_heap <[c := OChan (set_ch_refcnt (ch_refcnt ch - 1) ch)]> s) calls held hand.
Proof.
  intros Hinv Hx Hc. destruct (inv_release _ _ _ _ _ _ Hinv) as (ch' & Hc' & _ & Hinv' & Haft). simplify_eq.
  assert (Hh : c ∈ holders (ks_heap s) (ks_entries s) calls held).
  { apply elem_of_holders. right; left. eexists. split; [done|]. by left. }
  destruct (i_chan _ _ _ _ _ Hinv c ch Hc) as (_ & Href & _). rewrite occ_holders_held, decide_True in Href by done.
  pose proof (proj2 (occ_pos _ _) Hh). split; [lia|]. by rewrite (Haft Hh) in Hinv'.
Qed.

Lemma deliver_safe own s calls i : inv own s calls [] None -> safe (AMsgReceiveReturn i) calls own s.
Proof.
  intros Hinv. unfold safe, exec. destruct (calls !! i) as [x|] eqn:Hi; [|kstep; by exists own].
  destruct x as [| |entry chnl p cur addr wait recv| |]; try (kstep; by exists own).
  apply (inv_nth _ _ _ _ _ _ _ Hi) in Hinv. set (rest := delete i calls) in *.
  destruct (sends_message _ _ _ _ _ chnl p QNX_STATE_RECEIVING Hinv) as (tcur & m & b & buf & Hx & Hs & Hst & Hss).
  { eapply i_copied; [done|]. by left. }
  apply elem_of_cons in Hx as [?|Hx]; [done|].
  destruct (i_receiver _ _ _ _ _ Hinv _ entry chnl recv ltac:(by left) eq_refl) as (Hol & e & He & Hown).
  destruct (i_proc _ _ _ _ _ Hinv entry e He) as [? ? ? Hpn ? ?].
  apply (inv_take _ _ _ _ _ p) in Hinv; [|done|by left]. cbn [call_channels app] in Hinv.
  destruct (i_alive _ _ _ _ _ Hinv chnl) as (ch & Hch); [apply elem_of_holders; right; right; by left|].
  destruct (sender_and_holder _ _ _ _ _ _ _ _ _ Hinv Hx Hch) as [Hr Hinv1].
  pose proof Hs as Hs0. destruct Hs0 as [Hm Ht Hd Hin (bytes & Hbuf & Hlen) (a & Hout) Hol' Hid Hrp Hrok Hrb Hfr].
  destruct Hfr as [Hrb0 Hrl0]; [by rewrite Hst|].
  assert (H1 : chnl ≠ p) by congruence. assert (H2 : entry ≠ p) by congruence. assert (H3 : entry ≠ chnl) by congruence.
  set (s1 := upd_heap _ s) in Hinv1. assert (Hm1 : ks_heap s1 !! p = Some (OMsg m)) by (unfold s1; ks_simpl; by rewrite lookup_insert_ne).
  pose proof (deliver_spec s entry e cur addr chnl ch recv wait p m b bytes buf tcur He Hch Hr Hm ltac:(lia) Hd Ht Hin Hbuf Hlen Hol) as Hspec.
  cbv zeta in Hspec. destruct (receive_copies _ _ _ _ _ _ _ _ _) as [u ok]. kstep. eapply wp_mono; [exact Hspec|]. clear Hspec.
  cbn beta. intros rc s' (Hu & Hal & Hcase). injection Hal as Hes Hnx Hoom Hri. kstep. exists own. destruct ok.
  - destruct Hcase as (_ & Hsl & Hh).
    apply (inv_put_msg _ _ _ _ p m (set_state QNX_STATE_PENDING m)) in Hinv1; try done. set (s2 := upd_heap _ s1) in Hinv1.
    apply (inv_frame own (upd_heap <[entry := OProc (set_pending (p :: pending e) e)]> s2)); ks_simpl; try done.
    + rewrite Hh. unfold s2, s1. clear -H1 H2 H3. heap_eq.
    + by rewrite Hnx.
    + by rewrite Hsl.
    + assert (Hnp : p ∉ pending e).
      { intros Hp. destruct (i_hand _ _ _ _ _ Hinv p eq_refl) as [_ [_ Hn _ _]]. apply Hn. by exists entry, e. }
      eapply (inv_entry _ s2 _ [] _ (Some p) None entry e); try done; cbn.
      * unfold s2, s1. ks_simpl. by rewrite !lookup_insert_ne by done.
      * by constructor.
      * intros q [->|Hq]%elem_of_cons; [|by left]. right. split; [done|]. exists chnl. split; [|done].
        exists tcur, (set_state QNX_STATE_PENDING m). split_and!; try done. apply lookup_insert_eq.
      * intros q Hq. left. by right.
      * intros q [= <-]. left. by left.
  - destruct Hcase as (_ & Hsl & Hh).
    apply (inv_put_msg _ _ _ _ p m (set_state QNX_STATE_FINISHED (set_status (- EFAULT) (set_reply None 0 m)))) in Hinv1; try done.
    set (s2 := upd_heap _ s1) in Hinv1.
    eapply (inv_drop _ _ _ _ chnl p tcur); try done.
    + eapply (inv_frame own s2); ks_simpl; try done; [by rewrite Hnx|rewrite Hsl; set_solver].
    + intros m0 Hm0. rewrite Hh, lookup_insert_eq in Hm0. simplify_eq. split; [rewrite Hsl; set_solver|by left].
Qed.

(** ** Replying *)

(** the message is taken from [pending] by a reply *)
Lemma release_pending_safe own s calls entry id (x : ptr -> call) :
  (forall p, replied (x p) = Some p /\ sent (x p) = None /\ copied (x p) = None /\ receiver (x p) = None /\ call_channels (x p) = []) ->
  inv own s calls [] None -> entry ∈ ks_entries s ->
  wp (qnx_process_entry_release_pending entry id) (fun taken s' =>
    inv own s' (match taken with Some p => x p :: calls | None => calls end) [] None) s.
Proof.
  intros Hx Hinv Hin. destruct (listed_proc _ _ _ _ _ _ Hinv Hin) as (e & He & [_ Hr Ht Hpn Hpf Hpo] & Heo).
  eapply wp_of_run; [apply (release_pending_run entry e); [done|intros; by eapply entry_ok_msgs]|].
  destruct (List.find _ (pending e)) as [p|] eqn:Hf; [|done]. apply find_elem in Hf as [Hp _].
  destruct (Hx p) as (Hxr & Hxs & Hxc & Hxv & Hxh). assert (Hxt : sender_tid (x p) = None) by by destruct (x p).
  pose proof (not_elem_of_list_del p (pending e) Hpn) as Hpd.
  destruct (i_pending _ _ _ _ _ Hinv entry e p He Hp) as (c & Hse & _).
  eapply (inv_entry _ s _ _ [] None (Some p) entry e (set_pending (list_del p (pending e)) e)) in Hinv; try done; cbn.
  2: by apply list_del_NoDup.
  2: { intros q Hq. left. by eapply elem_of_list_del. }
  2: { intros q Hq. destruct (decide (q = p)) as [->|]; [by right|]. left. by apply elem_of_list_del_ne. }
  2: { intros q [= <-]. split; [by right|done]. }
  set (s' := upd_heap _ s) in *.
  assert (Hse' : sends (ks_heap s') calls c p QNX_STATE_PENDING).
  { destruct Hse as (cur & m & ? & Hm & ?). exists cur, m. split_and!; try done; [|tauto..]. unfold s'. ks_simpl.
    rewrite lookup_insert_ne; [done|congruence]. }
  pose proof Hinv as Hinv0. destruct_inv Hinv. destruct (Hhand p eq_refl) as [_ [_ _ Hnc Hnr]].
  assert (Hcop : forall q, is_copied (x p :: calls) q <-> is_copied calls q).
  { intros q. unfold is_copied. setoid_rewrite elem_of_cons. split; intros (y & Hy & Hq); [destruct Hy as [->|]; [congruence|]|]; eauto. }
  assert (Hrep : forall q, in_reply (x p :: calls) q <-> q = p \/ in_reply calls q).
  { intros q. unfold in_reply. setoid_rewrite elem_of_cons. split.
    - intros (y & [->|] & Hq); [left; congruence|eauto].
    - intros [->|(y & ? & ?)]; eauto. }
  eapply (inv_calls _ _ calls _ [] _ _ None Hinv0); try done.
  - intros c' q cur. rewrite elem_of_cons. split; [|by right]. intros [Heq|]; [|done]. by rewrite <- Heq in Hxs.
  - cbn. by rewrite Hxs.
  - cbn. by rewrite Hxt.
  - cbn. by rewrite Hxc.
  - cbn. rewrite Hxr. constructor; [|done]. intros (y & Hy & Hyp)%list_elem_of_omap. apply Hnr. by exists y.
  - cbn. by rewrite Hxh.
  - intros e0 c' q cur a w r [Heq|Hy]%elem_of_cons; [by rewrite <- Heq in Hxc|]. eauto.
  - intros q [->|?]%Hrep; [|by left]. right. eauto.
  - intros y e0 c' r [->|Hy]%elem_of_cons Hyr; [congruence|]. eauto.
  - intros q Hq. left. by apply Hcop.
  - intros q Hq. left. apply Hrep. by right.
  - intros q [= <-]. right; left. apply Hrep. by left.
Qed.

Lemma reply_safe own s calls entry cur io :
  inv own s calls [] None -> enabled (AMsgReply entry cur io) s calls -> safe (AMsgReply entry cur io) calls own s.
Proof.
  intros Hinv Hin. unfold safe, exec. kstep.
  eapply wp_mono; [by apply (release_pending_safe _ _ _ _ _ (fun p => CReply p cur io) ltac:(done) Hinv Hin)|].
  cbn beta. intros taken s' ?. kstep. by exists own.
Qed.

Lemma error_safe own s calls entry io :
  inv own s calls [] None -> enabled (AMsgError entry io) s calls -> safe (AMsgError entry io) calls own s.
Proof.
  intros Hinv Hin. unfold safe, exec. kstep.
  eapply wp_mono; [by apply (release_pending_safe _ _ _ _ _ (fun p => CError p io) ltac:(done) Hinv Hin)|].
  cbn beta. intros taken s' ?. kstep. by exists own.
Qed.

(** the message is finished, with a reply in a new buffer or without *)
Lemma inv_finish own s s' calls held c p cur m st (reply : option (ptr * kobj)) len :
  inv own s calls held (Some p) -> CSend c p cur ∈ calls -> ks_heap s !! p = Some (OMsg m) -> reply_base m = None ->
  ks_heap s' = <[p := OMsg (set_state QNX_STATE_FINISHED (set_status st (set_reply (fst <$> reply) len m)))]>
    (match reply with Some (r, o) => <[r := o]> (ks_heap s) | None => ks_heap s end) ->
  match reply with
  | Some (r, o) => ks_heap s !! r = None /\ (r < ks_next s')%positive /\
      (o = ORaw /\ len = 0 \/ exists bytes, o = OBuf bytes /\ len = Z.of_nat (length bytes))
  | None => len = 0
  end ->
  (ks_next s <= ks_next s')%positive -> ks_entries s' = ks_entries s -> ks_next_rcvid s' = ks_next_rcvid s ->
  ks_sleeping s' = ks_sleeping s ∖ {[tsk_pid cur]} ->
  inv own s' calls held None.
Proof.
  intros Hinv Hx Hm Hrb0 Hh Hrep Hn Hes Hri Hsl. set (m' := set_state _ _) in Hh.
  eapply (inv_drop _ _ _ _ c p cur); [|done|].
  2: { intros m0 Hm0. rewrite Hh, lookup_insert_eq in Hm0. simplify_eq. split; [rewrite Hsl; set_solver|by left]. }
  eapply (inv_msg _ s s' _ _ _ m m'); try done.
  - by rewrite Hh, lookup_insert_eq.
  - intros q o Hq Hor. rewrite Hh, lookup_insert_ne by done. destruct reply as [[r o']|]; [|done].
    rewrite lookup_insert_ne; [done|]. intros ->. destruct Hrep as (Hr & _). cbn in Hor. naive_solver.
  - unfold reply_ok, m'. cbn. destruct reply as [[r o]|]; cbn; [|done]. destruct Hrep as (Hr & _ & Ho).
    rewrite Hh. rewrite (lookup_insert_ne _ p r) by congruence. rewrite lookup_insert_eq. split; [eauto|].
    intros Hl. destruct Ho as [[_ ->]|(bytes & -> & ->)]; [lia|eauto].
  - intros r Hr. unfold m' in Hr. cbn in Hr. destruct reply as [[r' o]|]; [|done]. cbn in Hr. simplify_eq.
    destruct Hrep as (Hr & _ & Ho). split; [done|]. exists o. rewrite Hh, (lookup_insert_ne _ p r) by congruence.
    rewrite lookup_insert_eq. split; [done|]. destruct Ho as [[-> _]|(bytes & -> & _)]; eauto.
  - pose proof (i_fresh _ _ _ _ _ Hinv) as Hf. pose proof (fresh_lt s p _ Hf Hm) as Hp.
    intros q Hq. rewrite Hh, lookup_insert_ne by lia.
    destruct reply as [[r o]|]; [destruct Hrep as (_ & ? & _); rewrite lookup_insert_ne by lia|]; apply Hf; lia.
  - rewrite Hsl. set_solver.
Qed.

Lemma reply_complete_safe own s calls cur io c p tcur :
  inv own s calls [] (Some p) -> CSend c p tcur ∈ calls -> (forall m, ks_heap s !! p = Some (OMsg m) -> reply_base m = None) ->
  wp (handle_msgreply_complete cur io p) (fun _ s' => inv own s' calls [] None) s.
Proof.
  intros Hinv Hx Hrb. destruct (i_sender _ _ _ _ _ Hinv c p tcur Hx) as (m & b & buf & Hs & _).
  destruct Hs as [Hm Ht Hd _ _ _ _ _ _ _ _ _]. specialize (Hrb m Hm). pose proof (i_fresh _ _ _ _ _ Hinv) as Hf. pose proof (fresh_next s Hf) as Hfr.
  assert (Hne : ks_next s ≠ p) by congruence. unfold handle_msgreply_complete, body_of. ksteps. rewrite Hd. ksteps.
  pose proof (inv_finish own s) as Hfin. specialize (fun s' st reply len => Hfin s' calls [] c p tcur m st reply len Hinv Hx Hm Hrb).
  destruct (_ && _ && _).
  - kstep. destruct (kmalloc_answer (ks_oom s)) as [[] oom'] eqn:Hk.
    + eapply wp_kmalloc; [done|]. ksteps. destruct (copy_from_user _ _ _ _) as [bytes|] eqn:Hcp; ksteps; cbn [task set_reply]; rewrite Ht; ksteps.
      * eapply (Hfin _ _ (Some (ks_next s, OBuf bytes))); ks_simpl; try done; try lia.
        -- clear -Hne. heap_eq.
        -- split_and!; [done|lia|]. right. exists bytes. split; [done|]. by apply copy_from_user_length in Hcp as [-> _].
      * eapply (Hfin _ _ (Some (ks_next s, ORaw))); ks_simpl; try done; try lia.
        -- clear -Hne. heap_eq.
        -- split_and!; [done|lia|]. by left.
    + eapply wp_kmalloc_fail; [done|]. ksteps. cbn [task set_reply]. rewrite Ht. ksteps.
      eapply (Hfin _ _ None); ks_simpl; try done; try lia. by rewrite insert_insert_eq.
  - ksteps. cbn [task set_reply]. rewrite Ht. ksteps.
    eapply (Hfin _ _ None); ks_simpl; try done; try lia. by rewrite insert_insert_eq.
Qed.

Lemma error_complete_safe own s calls io c p tcur :
  inv own s calls [] (Some p) -> CSend c p tcur ∈ calls -> (forall m, ks_heap s !! p = Some (OMsg m) -> reply_base m = None) ->
  wp (handle_msgerror_complete io p) (fun _ s' => inv own s' calls [] None) s.
Proof.
  intros Hinv Hx Hrb. destruct (i_sender _ _ _ _ _ Hinv c p tcur Hx) as (m & b & buf & Hs & _).
  destruct Hs as [Hm Ht Hd _ _ _ _ _ _ _ _ _]. specialize (Hrb m Hm). unfold handle_msgerror_complete. ksteps. rewrite Ht. ksteps.
  eapply (inv_finish own s _ calls [] c p tcur m _ None); ks_simpl; try done; lia.
Qed.

Lemma replied_safe own s calls i : inv own s calls [] None -> safe (AReplyReturn i) calls own s.
Proof.
  intros Hinv. unfold safe, exec. destruct (calls !! i) as [x|] eqn:Hi; [|kstep; by exists own].
  assert (Hhand : forall p, replied x = Some p -> sent x = None -> call_channels x = [] ->
    inv own s (delete i calls) [] (Some p) /\ (exists c cur, CSend c p cur ∈ delete i calls) /\
    forall m, ks_heap s !! p = Some (OMsg m) -> reply_base m = None).
  { intros p Hp Hs Hc. assert (Hrb : forall m, ks_heap s !! p = Some (OMsg m) -> reply_base m = None).
    { intros m Hm. destruct (i_replied _ _ _ _ _ Hinv p) as [(c & Hse) _]; [exists x; split; [by eapply list_elem_of_lookup_2|done]|].
      destruct (sends_message _ _ _ _ _ _ _ _ Hinv Hse) as (cur & m' & b & buf & _ & Hs' & Hst & _).
      pose proof (sn_msg _ _ _ _ _ _ _ _ _ Hs'). simplify_eq. apply (sn_fresh _ _ _ _ _ _ _ _ _ Hs'). by rewrite Hst. }
    apply (inv_nth _ _ _ _ _ _ _ Hi) in Hinv. apply (inv_take _ _ _ _ _ p) in Hinv; [|done|by right].
    rewrite Hc in Hinv. split; [done|]. split; [|done]. by destruct (i_hand _ _ _ _ _ Hinv p eq_refl) as [? _]. }
  destruct x as [| | |p cur io|p io]; try (kstep; by exists own); destruct (Hhand p) as (Hinv' & (c & tcur & Hx) & Hrb); try done; kstep.
  - eapply wp_mono; [by eapply reply_complete_safe|]. cbn beta. intros _ s' ?. kstep. by exists own.
  - eapply wp_mono; [by eapply error_complete_safe|]. cbn beta. intros _ s' ?. kstep. by exists own.
Qed.

(** ** Sending *)

(** a call without a trace *)
Lemma inv_unchanged own s s' calls held hand :
  unchanged s s' -> 0 <= ks_next_rcvid s < INT_MAX -> inv own s calls held hand -> inv own s' calls held hand.
Proof.
  intros (Hh & Hre & Hn & Hid) Hmax Hinv. injection Hre as Hus Hes Hci Hpa Hsl Htr.
  assert (Hle : ks_next_rcvid s <= ks_next_rcvid s').
  { destruct Hid as [->| ->]; [done|]. rewrite i32_id by (unfold_int; lia). lia. }
  apply (inv_frame own (upd_next_rcvid (ks_next_rcvid s') s)); ks_simpl; try done; [by rewrite Hsl|].
  destruct_inv Hinv. split; ks_simpl; try done; [|lia].
  clear Hh. intros c p cur Hx. destruct (Hsender c p cur Hx) as (m & b & buf & Hs & Hpl). exists m, b, buf.
  split; [by eapply sender_ok_mono|done].
Qed.

(** the channel of a connection belongs to the process that the connection names *)
Lemma send_target_owner own s calls held hand e coid conn chnl :
  inv own s calls held hand -> send_target s e coid = Some (conn, chnl) -> own chnl = pid conn.
Proof.
  intros Hinv. unfold send_target, lookup_channel. destruct (_ !! coid) as [conn'|]; [|done].
  destruct (QNX_CONN_IS_VALID conn'); [|done]. destruct (find_process s (pid conn')) as [q|] eqn:Hf; [|done].
  destruct (find_process_Some _ _ _ (inv_entries_ok _ _ _ _ _ Hinv) Hf) as (Hq & eq & Heq & Hpid & _). rewrite Heq.
  destruct (entry_channel _ _ _) as [c|] eqn:Hc; [|done]. intros [= -> ->].
  destruct (entry_channel_Some _ _ _ _ Hc) as [Hin _]. by rewrite (po_own _ _ _ _ (i_proc _ _ _ _ _ Hinv q eq Heq) chnl Hin).
Qed.

Lemma send_safe own s calls entry cur addr :
  inv own s calls [] None -> enabled (AMsgSend entry cur addr) s calls -> safe (AMsgSend entry cur addr) calls own s.
Proof.
  intros Hinv (Hin & Hrid & Htid). destruct (listed_proc _ _ _ _ _ _ Hinv Hin) as (e & He & Hpo & _).
  pose proof (i_fresh _ _ _ _ _ Hinv) as Hf. pose proof (fresh_next s Hf) as Hp.
  set (p := ks_next s) in *. set (buf := Pos.succ p).
  assert (Hbuf : ks_heap s !! buf = None) by (apply Hf; unfold buf, p; lia). assert (Hpb : p ≠ buf) by (unfold buf; lia).
  pose proof (msgsend_begin_spec s entry e cur addr Hf (inv_entries_ok _ _ _ _ _ Hinv) He (po_table _ _ _ _ Hpo)) as Hspec.
  cbv zeta in Hspec. fold p buf in Hspec. rewrite i32_id in Hspec by (unfold_int; lia).
  unfold safe, exec. kstep. eapply wp_mono; [exact Hspec|]. clear Hspec. cbn beta. intros r s' Hcase. kstep. exists own.
  destruct (send_request s cur addr) as [rc|[[io bytes] oom']] eqn:Hreq; [destruct Hcase as [-> ?]; by eapply inv_unchanged|].
  destruct (send_target s e (ms_coid io)) as [[conn chnl]|] eqn:Htgt; [|destruct Hcase as [-> ?]; by eapply inv_unchanged].
  destruct Hcase as (-> & Hid & _ & c & Hc & Hr & Hh & Hre & Hf'). injection Hre as Hus Hes Hci Hpa Hsl Htr.
  destruct (send_request_length _ _ _ _ _ _ Hreq) as (Hlen & _ & Hol).
  pose proof (send_target_owner _ _ _ _ _ _ _ _ _ Hinv Htgt) as Hown. destruct (i_chan _ _ _ _ _ Hinv chnl c Hc) as (_ & _ & Hnd).
  assert (Hcp : chnl ≠ p) by congruence. assert (Hcb : chnl ≠ buf) by congruence.
  assert (Hpw : p ∉ waiting c).
  { intros Hw. destruct (i_queued _ _ _ _ _ Hinv chnl c p Hc Hw) as (? & ? & _ & ? & _). congruence. }
  pose proof (inv_acquire _ _ _ _ _ _ _ Hinv Hc) as Hinv1. set (c1 := set_ch_refcnt _ c) in Hinv1. set (m := set_receiver_chid _ _) in Hh.
  set (h2 := <[p := OMsg m]> (<[buf := OBuf bytes]> (<[chnl := OChan c1]> (ks_heap s)))).
  assert (Hinv2 : inv own (upd_heap (fun _ => h2) s') (CSend chnl p cur :: calls) [] (Some p)).
  { eapply (inv_new_sender own (upd_heap _ s) _ calls [] chnl p buf bytes cur m); ks_simpl; try done.
    - by rewrite lookup_insert_ne by done.
    - by rewrite lookup_insert_ne by done.
    - intros q Hq. ks_simpl. unfold h2. specialize (Hf' q Hq). rewrite Hh in Hf'.
      rewrite !lookup_insert_None in Hf' |- *. tauto. }
  apply (inv_frame own (upd_heap <[chnl := OChan (with_message p c)]> (upd_heap (fun _ => h2) s'))); ks_simpl; try done.
  { rewrite Hh. unfold h2. clear -Hcp Hcb. heap_eq. }
  eapply (inv_queue _ _ _ _ (Some p) None chnl c1); try done.
  - ks_simpl. unfold h2. by rewrite !lookup_insert_ne, lookup_insert_eq by done.
  - cbn. apply NoDup_app. split_and!; [done| |apply NoDup_singleton]. by intros q Hq ->%list_elem_of_singleton.
  - intros q. cbn. rewrite elem_of_app, list_elem_of_singleton. intros [Hq| ->]; [by left|right]. split; [done|].
    exists cur, m. split_and!; [by left| |done..]. ks_simpl. unfold h2. by rewrite lookup_insert_eq.
  - intros q Hq. left. cbn. apply elem_of_app. by left.
  - intros q [= <-]. left. cbn. apply elem_of_app. right. by left.
Qed.

(** ** Reading *)

(** MsgRead does not touch the kernel's state *)
Lemma msgread_user own s calls held entry e cur io :
  inv own s calls held None -> ks_heap s !! entry = Some (OProc e) ->
  is_int (rd_offset io) -> 0 <= iov_len (rd_out io) ->
  wp (handle_msgread entry cur io) (fun _ s' => exists u, s' = upd_user u s) s.
Proof.
  intros Hinv He Hoff Hlen. assert (Hu : exists u, s = upd_user u s) by (exists (ks_user s); by rewrite upd_user_id).
  unfold handle_msgread. ksteps. eapply wp_eq; [apply find_rcvid_run; intros; eapply entry_ok_msgs; [by eapply inv_entry_ok|done]|].
  destruct (List.find _ (pending e)) as [p|] eqn:Hf; [|by ksteps]. apply find_elem in Hf as [Hp _].
  destruct (i_pending _ _ _ _ _ Hinv entry e p He Hp) as (c & Hse & _).
  destruct (sends_message _ _ _ _ _ _ _ _ Hinv Hse) as (tcur & m & b & buf & _ & Hs & _).
  destruct Hs as [Hm _ Hd Hin (bytes & Hbuf & Hbl) _ _ _ _ _ _ _]. unfold body_of, in_bytes. ksteps. rewrite Hd. ksteps.
  destruct (Z.geb_spec (rd_offset io) 0) as [Ho|]; [|by ksteps]. cbn [andb].
  rewrite (u64_id (rd_offset io)) by (unfold_int; lia). destruct (Z.leb_spec (rd_offset io) (mb_in_len b)); [|by ksteps].
  set (n := i32 _). destruct (Z.ltb_spec n 0); [by ksteps|]. rewrite Hin. ksteps.
  assert (Hn : n <= mb_in_len b - rd_offset io).
  { unfold n. unfold_int. set (k := Z.min _ _). assert (0 <= k <= mb_in_len b - rd_offset io).
    { unfold k. pose proof (Z.mod_pos_bound (mb_in_len b - rd_offset io) (2 ^ 64)).
      pose proof (Z.mod_le (mb_in_len b - rd_offset io) (2 ^ 64)). lia. }
    pose proof (Z.mod_le (k + 2 ^ 31) (2 ^ 32)). lia. }
  destruct (copy_to_user (ks_user s) (tsk_tgid cur) (iov_base (rd_out io))
    (take (Z.to_nat n) (drop (Z.to_nat (rd_offset io)) bytes))) as [u ok] eqn:Hcp. ksteps. by exists u.
Qed.

Lemma read_safe own s calls entry cur io :
  inv own s calls [] None -> enabled (AMsgRead entry cur io) s calls -> safe (AMsgRead entry cur io) calls own s.
Proof.
  intros Hinv (Hin & Hoff & Hlen). destruct (listed_proc _ _ _ _ _ _ Hinv Hin) as (e & He & _).
  unfold safe, exec. kstep. eapply wp_mono; [by eapply msgread_user|]. cbn beta. intros _ s' [u ->]. kstep.
  exists own. by apply (inv_frame own s).
Qed.

End Messages.
