(* ===== verification/ProtocolReturn.v ===== *)
(** * The return of a sender is safe

    The last piece of MsgSend, from the wake-up on: a sender with a reply, one
    whose channel or receiver is gone, and one that was interrupted. *)

From Stdlib Require Import ZArith Lia.
From stdpp Require Import base tactics list option gmap fin_maps sets.
From S2P Require Import Prelude Layout UserMem ConnectionTable Kernel Msgsend Channel ProcessEntry DriverData Driver Protocol ProtocolInv ProtocolSafe ProtocolMsg.

Open Scope Z_scope.

Section Return.
  Context {M : Type} `{!UserMem M} `{!UserMemLaws M}.
  Implicit Types (s : kstate M) (calls : list call) (held : list ptr) (own : ptr -> Z).

(** the id of a message tells whose it is *)
Lemma same_id own s calls held hand c p cur m c' q st :
  inv own s calls held hand -> CSend c p cur ∈ calls -> ks_heap s !! p = Some (OMsg m) ->
  sends (ks_heap s) calls c' q st -> has_rcvid (ks_heap s) (rcvid m) q = true -> q = p.
Proof.
  intros Hinv Hx Hm (cur' & m' & Hx' & Hm' & _) Hid. unfold has_rcvid, msg_test in Hid. rewrite Hm' in Hid. apply Z.eqb_eq in Hid.
  exact (i_ids _ _ _ _ _ Hinv _ _ q p m' m Hx' eq_refl Hx eq_refl Hm' Hm Hid).
Qed.

Lemma has_own_id s p m : ks_heap s !! p = Some (OMsg m) -> has_rcvid (ks_heap s) (rcvid m) p = true.
Proof. intros Hm. unfold has_rcvid, msg_test. rewrite Hm. apply Z.eqb_refl. Qed.

(** the message of [m]'s receiver that has its id is [p] itself *)
Lemma find_own_id own s calls held hand c p cur m l q :
  inv own s calls held hand -> CSend c p cur ∈ calls -> ks_heap s !! p = Some (OMsg m) ->
  (forall q, q ∈ l -> exists c' st, sends (ks_heap s) calls c' q st) ->
  List.find (has_rcvid (ks_heap s) (rcvid m)) l = Some q -> q = p /\ p ∈ l.
Proof.
  intros Hinv Hx Hm Hl [Hq Hid]%find_elem. destruct (Hl q Hq) as (c' & st & Hse).
  assert (q = p) as -> by by eapply same_id. done.
Qed.

(** an interrupted sender takes its message back, wherever it is *)
Lemma interrupted_inv own s calls chnl p cur m ch code :
  inv own s calls [] None -> CSend chnl p cur ∈ calls -> ks_heap s !! p = Some (OMsg m) -> ks_heap s !! chnl = Some (OChan ch) ->
  receiver_pid m = own chnl -> state m ≠ QNX_STATE_RECEIVING -> ~ in_reply calls p ->
  inv own (upd_heap (fun _ => snd (interrupted_outcome s chnl ch m code)) s) calls [] (Some p).
Proof.
  intros Hinv Hx Hm Hch Hrp Hst Hnr. pose proof (inv_entries_ok _ _ _ _ _ Hinv) as Hok. unfold interrupted_outcome.
  assert (Hwait : forall q, q ∈ waiting ch -> exists c' st, sends (ks_heap s) calls c' q st).
  { intros q Hq. do 2 eexists. by eapply i_queued. }
  pose proof (i_chan _ _ _ _ _ Hinv chnl ch Hch) as (_ & _ & Hnd).
  destruct (List.find _ (waiting ch)) as [q|] eqn:Hfw; cbn [snd].
  { destruct (find_own_id _ _ _ _ _ _ _ _ _ _ _ Hinv Hx Hm Hwait Hfw) as [-> Hp].
    pose proof (not_elem_of_list_del p _ Hnd).
    eapply (inv_queue _ s _ _ None (Some p) chnl ch (set_num_waiting _ (set_waiting (list_del p (waiting ch)) ch))); try done; cbn.
    - by apply list_del_NoDup.
    - intros q Hq. left. by eapply elem_of_list_del.
    - intros q Hq. destruct (decide (q = p)) as [->|]; [by right|left; by apply elem_of_list_del_ne].
    - intros q [= <-]. split; [by right|done]. }
  assert (Hnq : forall c, ~ queued (ks_heap s) c p).
  { intros c (ch' & Hc' & Hp). destruct (i_queued _ _ _ _ _ Hinv c ch' p Hc' Hp) as (cur' & m' & Hx' & _).
    assert (Heq : CSend c p cur' = CSend chnl p cur) by (by eapply (omap_unique sent calls _ _ p (i_sent _ _ _ _ _ Hinv))).
    simplify_eq. rewrite find_None_Forall, Forall_forall in Hfw. specialize (Hfw p ltac:(done)).
    by rewrite (has_own_id _ _ _ Hm) in Hfw. }
  assert (Hnc : ~ is_copied calls p).
  { intros (x & Hx' & Hp). destruct x; simplify_eq/=. destruct (i_copied _ _ _ _ _ Hinv _ _ _ _ _ _ _ Hx') as (? & m' & _ & Hm' & ? & _).
    congruence. }
  assert (Hpend : forall q e, ks_heap s !! q = Some (OProc e) -> p ∈ pending e -> find_process s (receiver_pid m) = Some q).
  { intros q e He Hp. destruct (i_pending _ _ _ _ _ Hinv q e p He Hp) as (c & (cur' & m' & Hx' & _) & Hc).
    assert (Heq : CSend c p cur' = CSend chnl p cur) by (by eapply (omap_unique sent calls _ _ p (i_sent _ _ _ _ _ Hinv))).
    simplify_eq. destruct (find_process s (receiver_pid m)) as [q'|] eqn:Hfp.
    - destruct (find_process_Some _ _ _ Hok Hfp) as (_ & e' & He' & Hpid & _). f_equal.
      eapply (i_pids _ _ _ _ _ Hinv); [done..|congruence].
    - unfold find_process in Hfp. rewrite find_None_Forall, Forall_forall in Hfp.
      specialize (Hfp q (po_listed _ _ _ _ (i_proc _ _ _ _ _ Hinv q e He))). unfold has_pid in Hfp. rewrite He in Hfp.
      apply Z.eqb_neq in Hfp. congruence. }
  assert (Hno : (forall q e, ks_heap s !! q = Some (OProc e) -> p ∉ pending e) ->
    inv own (upd_heap (fun _ => ks_heap s) s) calls [] (Some p)).
  { intros Hnp. rewrite upd_heap_id by done. eapply inv_grab; [done|done|]. split; [done| |done|done].
    intros (q & e & He & Hp). by eapply Hnp. }
  destruct (find_process s (receiver_pid m)) as [entry|] eqn:Hfp; cbn [snd].
  2: { apply Hno. intros q e He Hp. specialize (Hpend q e He Hp). done. }
  destruct (find_process_Some _ _ _ Hok Hfp) as (_ & e & He & _). rewrite He.
  assert (Hpe : forall q, q ∈ pending e -> exists c' st, sends (ks_heap s) calls c' q st).
  { intros q Hq. destruct (i_pending _ _ _ _ _ Hinv entry e q He Hq) as (c' & ? & _). eauto. }
  destruct (List.find _ (pending e)) as [q|] eqn:Hfq; cbn [snd].
  - destruct (find_own_id _ _ _ _ _ _ _ _ _ _ _ Hinv Hx Hm Hpe Hfq) as [-> Hp].
    destruct (i_proc _ _ _ _ _ Hinv entry e He) as [? ? ? Hpn ? ?]. pose proof (not_elem_of_list_del p _ Hpn).
    eapply (inv_entry _ s _ _ [] None (Some p) entry e (set_pending (list_del p (pending e)) e)); try done; cbn.
    + by apply list_del_NoDup.
    + intros q Hq. left. by eapply elem_of_list_del.
    + intros q Hq. destruct (decide (q = p)) as [->|]; [by right|left; by apply elem_of_list_del_ne].
    + intros q [= <-]. split; [by right|done].
  - apply Hno. intros q e' He' Hp. pose proof (Hpend q e' He' Hp). simplify_eq.
    rewrite find_None_Forall, Forall_forall in Hfq. specialize (Hfq p ltac:(done)).
    by rewrite (has_own_id _ _ _ Hm) in Hfq.
Qed.

(** from the decision on the return code to the return *)
Definition send_epilogue (p : ptr) (cur : task_struct) (rc0 : Z) : K M Z :=
  let! m := get_msg p in
  let! b := body_of m in
  let! rc :=
    (if (rc0 >=? 0) && (reply_len m >? 0)
     then
       let! bytes := reply_bytes m in
       let! part := slice 0 (Z.min (mb_out_len b) (reply_len m)) bytes in
       match mb_out_base b with
       | OutUser a =>
           let! ok := user_write (tsk_tgid cur) a part in
           kret (if ok then rc0 else - EFAULT)
       | OutKernel _ => koops (BadAccess p)
       end
     else kret rc0) in
  qnx_internal_msgsend_destroy p ;;;
  end_frame p ;;;
  kret rc.

Lemma msgsend_finish_split chnl p cur sleep :
  handle_msgsend_finish chnl p cur sleep = (let! rc := handle_msgsend_resume chnl p sleep in send_epilogue p cur rc).
Proof. done. Qed.

(** the heap after a message is gone *)
Definition without_message (p buf : ptr) (m : qnx_internal_msgsend) (h : gmap ptr kobj) : gmap ptr kobj :=
  delete p (without_reply m (delete buf h)).

Lemma without_message_Some p buf m h q o :
  without_message p buf m h !! q = Some o <-> q ≠ p /\ q ≠ buf /\ reply_base m ≠ Some q /\ h !! q = Some o.
Proof.
  unfold without_message, without_reply. rewrite lookup_delete_Some. destruct (reply_base m) as [r|].
  - rewrite !lookup_delete_Some. naive_solver.
  - rewrite lookup_delete_Some. naive_solver.
Qed.

(** the return code and the sender's memory after the epilogue *)
Definition epilogue_result s (cur : task_struct) (b : msg_body) (m : qnx_internal_msgsend) (a rc0 : Z) : Z * M :=
  if (rc0 >=? 0) && (reply_len m >? 0)
  then let '(u, ok) := copy_to_user (ks_user s) (tsk_tgid cur) a
                         (take (Z.to_nat (Z.min (mb_out_len b) (reply_len m))) (reply_of (ks_heap s) m)) in
       (if ok then rc0 else - EFAULT, u)
  else (rc0, ks_user s).

Lemma reply_of_ext h h' m : (forall r, reply_base m = Some r -> h' !! r = h !! r) -> reply_of h' m = reply_of h m.
Proof. intros Hr. unfold reply_of. destruct (reply_base m) as [r|]; [|done]. by rewrite (Hr r eq_refl). Qed.

Lemma epilogue_result_ext s s' cur b m a rc0 :
  ks_user s' = ks_user s -> (forall r, reply_base m = Some r -> ks_heap s' !! r = ks_heap s !! r) ->
  epilogue_result s' cur b m a rc0 = epilogue_result s cur b m a rc0.
Proof. intros Hu Hr. unfold epilogue_result. by rewrite Hu, (reply_of_ext _ _ _ Hr). Qed.

Lemma send_epilogue_run s p cur m b buf bufo a t rc0 :
  ks_heap s !! p = Some (OMsg m) -> data m = DMsg b -> task m = Some t -> mb_in_base b = InKernel buf ->
  ks_heap s !! buf = Some bufo -> buf ≠ p -> mb_out_base b = OutUser a -> 0 <= mb_out_len b -> reply_ok (ks_heap s) m ->
  (forall r, reply_base m = Some r -> r ≠ buf /\ r ≠ p) ->
  wp (send_epilogue p cur rc0) (fun rc s' => exists u, s' = upd_heap (without_message p buf m) (upd_user u s) /\
    epilogue_result s cur b m a rc0 = (rc, u)) s.
Proof.
  intros Hp Hd Ht Hin Hbuf Hbp Hout Holen Hrep Hne. unfold send_epilogue, epilogue_result, body_of. ksteps. rewrite Hd. ksteps.
  assert (Hend : forall u (rc : Z), wp (qnx_internal_msgsend_destroy p ;;; end_frame p ;;; kret rc)
    (fun rc' s' => exists u', s' = upd_heap (without_message p buf m) (upd_user u' s) /\ (rc, u) = (rc', u')) (upd_user u s)).
  { intros u rc. eapply wp_mono; [by eapply (message_teardown_spec _ p m b buf)|]. cbn beta. intros rc' s' [-> ->]. by exists u. }
  destruct (_ && _) eqn:Hcond.
  - assert (Hlen : 0 < reply_len m) by lia. unfold reply_bytes. pose proof Hrep as Hrep2. unfold reply_ok in Hrep2.
    unfold reply_of. destruct (reply_base m) as [r|] eqn:Hrb; [|lia]. destruct Hrep2 as [_ Hb]. destruct (Hb Hlen) as (bytes & Hrbytes & Hbl).
    do 4 (kstep; cbn beta). rewrite Hout. rewrite Hrbytes. destruct (copy_to_user (ks_user s) (tsk_tgid cur) a
      (take (Z.to_nat (Z.min (mb_out_len b) (reply_len m))) bytes)) as [u ok] eqn:Hw. change (drop (Z.to_nat 0) bytes) with bytes.
    kstep. kstep. cbn beta. kstep. apply Hend.
  - kstep. pose proof (Hend (ks_user s) rc0) as H. by rewrite upd_user_id in H.
Qed.

(** the sender is gone from the kernel *)
Definition left_kernel s (chnl p : ptr) (cur : task_struct) (m : qnx_internal_msgsend) (b : msg_body) (buf : ptr) (a rc0 rc : Z) s' : Prop :=
  exists ch, ks_heap s !! chnl = Some (OChan ch) /\
    ks_heap s' = without_message p buf m (partial_alter (fun _ => after_release ch) chnl (ks_heap s)) /\
    epilogue_result s cur b m a rc0 = (rc, ks_user s') /\ ks_next_rcvid s' = ks_next_rcvid s.

(** in terms of the invariant: the sender's reference is given back *)
Lemma return_with own s calls i chnl p cur m b buf a rc0 :
  calls !! i = Some (CSend chnl p cur) -> inv own s calls [] (Some p) ->
  sender_ok (ks_heap s) own (ks_next_rcvid s) chnl p cur m b buf -> mb_out_base b = OutUser a ->
  wp (qnx_channel_release chnl ;;; kret rc0) (fun rc s' =>
    wp (send_epilogue p cur rc) (fun rc s'' => inv own s'' (delete i calls) [] None /\
      left_kernel s chnl p cur m b buf a rc0 rc s'') s') s.
Proof.
  intros Hi Hinv Hs Ha. apply (inv_nth _ _ _ _ _ _ _ Hi) in Hinv. set (rest := delete i calls) in *.
  destruct Hs as [Hm Ht Hd Hin (bytes & Hbuf & Hlen) _ Hol Hid Hrp Hrok Hrb Hfr].
  assert (Hinv2 : inv own (upd_heap (without_message p buf m) s) rest [chnl] None) by (by eapply (inv_remove_sender own s)).
  destruct (inv_release _ _ _ _ _ _ Hinv2) as (ch & Hc2 & Hq & Hinv3 & _). ks_simpl.
  apply without_message_Some in Hc2 as (Hcp & Hcb & Hcr & Hc). set (s1 := upd_heap (partial_alter (fun _ => after_release ch) chnl) s).
  assert (Hs1 : forall q, q ≠ chnl -> ks_heap s1 !! q = ks_heap s !! q) by (intros q ?; unfold s1; ks_simpl; by rewrite lookup_partial_alter_ne).
  assert (Hbr : forall r, reply_base m = Some r -> r ≠ buf /\ r ≠ p /\ ks_heap s1 !! r = ks_heap s !! r).
  { intros r Hr. destruct (Hrb r Hr) as (? & o & Ho & Hk). split_and!; [done| |apply Hs1; congruence]. intros ->. destruct Hk as [->|[? ->]]; congruence. }
  kstep. eapply wp_eq; [by apply channel_release_eq|]. kstep. fold s1.
  eapply wp_mono; [eapply (send_epilogue_run s1); [by rewrite Hs1|done|done|done|by rewrite Hs1|congruence|done|done| |]|].
  - unfold reply_ok in *. destruct (reply_base m) as [r|]; [|done]. by destruct (Hbr r eq_refl) as (_ & _ & ->).
  - intros r Hr. by destruct (Hbr r Hr) as (? & ? & _).
  - cbn beta. intros rc s' (u & -> & Hres). split.
    + eapply inv_frame; [..|exact Hinv3]; ks_simpl; try done.
      unfold s1. ks_simpl. apply map_eq. intros q. destruct (decide (q = chnl)) as [->|Hqc].
      * rewrite lookup_partial_alter_eq. apply option_eq. intros o. rewrite without_message_Some, lookup_partial_alter_eq. tauto.
      * rewrite lookup_partial_alter_ne by done. apply option_eq. intros o. rewrite !without_message_Some.
        by rewrite lookup_partial_alter_ne.
    + exists ch. split; [done|]. split; [done|]. split; [|done]. etrans; [|exact Hres].
      symmetry. apply epilogue_result_ext; [done|]. intros r Hr. by apply Hbr.
Qed.

Lemma resume_eq s chnl p sleep m b :
  ks_heap s !! p = Some (OMsg m) -> data m = DMsg b ->
  handle_msgsend_resume chnl p sleep s =
    (let! rc := match interruption b sleep with
                | Some code => handle_msgsend_interrupted chnl p code
                | None => kret (status m)
                end in
     qnx_channel_release chnl ;;; kret rc) s.
Proof.
  intros Hm Hd. unfold handle_msgsend_resume, body_of, interruption. unfold kbind at 1, get_msg. rewrite Hm, Hd.
  unfold kbind at 1, kret at 1. destruct (_ && _); [done|]. by destruct (sl_signal sleep).
Qed.

(** what a sender finds when it goes on: the code that it leaves with, and the heap
    without its message in a queue or list *)
Definition resumed s (chnl : ptr) (ch : qnx_channel) (m : qnx_internal_msgsend) (b : msg_body) (sleep : sleep_result)
    : Z * gmap ptr kobj :=
  match interruption b sleep with
  | Some code => interrupted_outcome s chnl ch m code
  | None => (status m, ks_heap s)
  end.

Lemma return_run own s calls i sleep chnl p cur m b buf a ch :
  inv own s calls [] None -> enabled (AMsgSendReturn i sleep) s calls -> calls !! i = Some (CSend chnl p cur) ->
  sender_ok (ks_heap s) own (ks_next_rcvid s) chnl p cur m b buf -> mb_out_base b = OutUser a -> ks_heap s !! chnl = Some (OChan ch) ->
  let '(rc0, h1) := resumed s chnl ch m b sleep in
  wp (handle_msgsend_finish chnl p cur sleep) (fun rc s' =>
    inv own (upd_heap (fun _ => h1) s) calls [] (Some p) /\ inv own s' (delete i calls) [] None /\
    left_kernel (upd_heap (fun _ => h1) s) chnl p cur m b buf a rc0 rc s') s.
Proof.
  intros Hinv Hen Hi Hs Ha Hch. assert (Hx : CSend chnl p cur ∈ calls) by by eapply list_elem_of_lookup_2.
  pose proof Hs as [Hm Ht Hd _ _ _ _ _ Hrp _ _ _]. destruct (Hen chnl p cur m b Hi Hm Hd) as [Haw Hcase].
  destruct (resumed s chnl ch m b sleep) as [rc0 h1] eqn:Hres. unfold resumed in Hres.
  rewrite msgsend_finish_split. kstep. unfold wp. rewrite (resume_eq s chnl p sleep m b Hm Hd).
  match goal with |- match ?c s with _ => _ end => change (wp c (fun rc s' => wp (send_epilogue p cur rc)
    (fun rc s'' => inv own (upd_heap (fun _ => h1) s) calls [] (Some p) /\ inv own s'' (delete i calls) [] None /\
      left_kernel (upd_heap (fun _ => h1) s) chnl p cur m b buf a rc0 rc s'') s') s) end.
  assert (Hgo : inv own (upd_heap (fun _ => h1) s) calls [] (Some p) -> wp (qnx_channel_release chnl ;;; kret rc0) (fun rc s' =>
    wp (send_epilogue p cur rc) (fun rc s'' => inv own (upd_heap (fun _ => h1) s) calls [] (Some p) /\ inv own s'' (delete i calls) [] None /\
      left_kernel (upd_heap (fun _ => h1) s) chnl p cur m b buf a rc0 rc s'') s') (upd_heap (fun _ => h1) s)).
  { intros Hinv1. set (s1 := upd_heap _ s) in *. assert (Hs1 : sender_ok (ks_heap s1) own (ks_next_rcvid s1) chnl p cur m b buf).
    { destruct (i_sender _ _ _ _ _ Hinv1 chnl p cur Hx) as (m1 & b1 & buf1 & Hs1 & _).
      assert (m1 = m) as ->.
      { pose proof (sn_msg _ _ _ _ _ _ _ _ _ Hs1) as Hm1. unfold s1 in Hm1. ks_simpl.
        destruct (interruption b sleep); [|by simplify_eq].
        destruct (interrupted_outcome_heap s chnl ch m z (inv_entries_ok _ _ _ _ _ Hinv) Hch) as (c1 & _ & _ & Hrest).
        rewrite Hres in Hrest. cbn [snd] in Hrest. rewrite Hrest in Hm1; [by simplify_eq|congruence|congruence]. }
      pose proof (sn_data _ _ _ _ _ _ _ _ _ Hs1) as Hd1. rewrite Hd in Hd1. injection Hd1 as <-.
      pose proof (sn_in _ _ _ _ _ _ _ _ _ Hs1) as Hi1. rewrite (sn_in _ _ _ _ _ _ _ _ _ Hs) in Hi1. by injection Hi1 as <-. }
    eapply wp_mono; [exact (return_with own s1 calls i chnl p cur m b buf a rc0 Hi Hinv1 Hs1 Ha)|].
    cbn beta. intros rc s2 Hw. eapply wp_mono; [exact Hw|]. cbn beta. by intros rc' s' [? ?]. }
  destruct (interruption b sleep) as [code|].
  - destruct Hcase as [Hst Hnr]. kstep. eapply wp_mono.
    { apply (interrupted_spec s chnl p ch m code); try done; [by eapply inv_entries_ok| |].
      - intros q Hq. destruct (i_queued _ _ _ _ _ Hinv chnl ch q Hch Hq) as (? & mq & _ & ? & _). by exists mq.
      - intros q e q' He Hq' Hid. destruct (i_pending _ _ _ _ _ Hinv q e q' He Hq') as (c' & Hse & _).
        rewrite (same_id _ _ _ _ _ _ _ _ _ _ _ _ Hinv Hx Hm Hse Hid) in Hse. destruct Hse as (? & m' & _ & Hm' & Hst' & _).
        simplify_eq. by rewrite Hst'. }
    cbn beta zeta. rewrite Hres. intros rc s1 [-> ->]. apply Hgo.
    pose proof (interrupted_inv own s calls chnl p cur m ch code) as Hii. rewrite Hres in Hii. by apply Hii.
  - injection Hres as <- <-. kstep. kstep. rewrite upd_heap_id in Hgo |- * by done. apply Hgo. eapply inv_grab; [done..|]. split.
    + intros c (ch' & Hc & Hp). destruct (i_queued _ _ _ _ _ Hinv c ch' p Hc Hp) as (? & m' & _ & Hm' & Hst & Hss).
      simplify_eq. rewrite Hst, Hss in Hcase. by destruct Hcase.
    + intros (q & e & He & Hp). destruct (i_pending _ _ _ _ _ Hinv q e p He Hp) as (c & (? & m' & _ & Hm' & Hst & Hss) & _).
      simplify_eq. rewrite Hst, Hss in Hcase. by destruct Hcase.
    + intros (x & Hx' & Hp). destruct x; simplify_eq/=.
      destruct (i_copied _ _ _ _ _ Hinv _ _ _ _ _ _ _ Hx') as (? & m' & _ & Hm' & Hst & Hss).
      simplify_eq. rewrite Hst, Hss in Hcase. by destruct Hcase.
    + intros Hr. destruct (i_replied _ _ _ _ _ Hinv p Hr) as [(c & ? & m' & _ & Hm' & Hst & Hss) _].
      simplify_eq. rewrite Hst, Hss in Hcase. by destruct Hcase.
Qed.

Lemma return_safe own s calls i sleep :
  inv own s calls [] None -> enabled (AMsgSendReturn i sleep) s calls -> safe (AMsgSendReturn i sleep) calls own s.
Proof.
  intros Hinv Hen. unfold safe, exec. destruct (calls !! i) as [x|] eqn:Hi; [|kstep; by exists own].
  destruct x as [chnl p cur| | | |]; try (kstep; by exists own). assert (Hx : CSend chnl p cur ∈ calls) by by eapply list_elem_of_lookup_2.
  destruct (i_sender _ _ _ _ _ Hinv chnl p cur Hx) as (m & b & buf & Hs & _). destruct (sn_out _ _ _ _ _ _ _ _ _ Hs) as [a Ha].
  destruct (i_alive _ _ _ _ _ Hinv chnl) as (ch & Hch); [apply elem_of_holders; right; left; eexists; split; [done|by left]|].
  pose proof (return_run own s calls i sleep chnl p cur m b buf a ch Hinv Hen Hi Hs Ha Hch) as Hrun.
  destruct (resumed _ _ _ _ _ _) as [rc0 h1]. kstep. eapply wp_mono; [exact Hrun|]. cbn beta. intros rc s' (_ & ? & _). kstep. by exists own.
Qed.

End Return.
