(* ===== verification/ProtocolOpen.v ===== *)
(** * Opening and closing the device is safe

    A process that comes, and one that goes while others send to it. *)

From Stdlib Require Import ZArith Lia.
From stdpp Require Import base tactics list option gmap fin_maps sets.
From S2P Require Import Prelude Layout UserMem ConnectionTable Kernel Msgsend Channel ProcessEntry DriverData Driver Protocol ProtocolInv ProtocolSafe.

Open Scope Z_scope.

Section Open.
  Context {M : Type} `{!UserMem M} `{!UserMemLaws M}.
  Implicit Types (s : kstate M) (calls : list call) (held : list ptr) (own : ptr -> Z).

Lemma find_process_None s pid q e :
  find_process s pid = None -> q ∈ ks_entries s -> ks_heap s !! q = Some (OProc e) -> pe_pid e ≠ pid.
Proof.
  intros Hf Hq He. unfold find_process in Hf. rewrite find_None_Forall, Forall_forall in Hf. specialize (Hf q Hq).
  unfold has_pid in Hf. rewrite He in Hf. by apply Z.eqb_neq.
Qed.

Lemma open_safe own s calls f cur :
  inv own s calls [] None -> enabled (AOpen f cur) s calls -> safe (AOpen f cur) calls own s.
Proof.
  intros Hinv (fl & Hfl & Hpd & Hmode). pose proof (inv_entries_ok _ _ _ _ _ Hinv) as Hok.
  pose proof (i_fresh _ _ _ _ _ Hinv) as Hf. pose proof (fresh_next s Hf) as Hp. assert (Hfn : f ≠ ks_next s) by congruence.
  unfold safe, exec. kstep. destruct (find_process s (tsk_tgid cur)) as [q|] eqn:Hfp.
  { assert (Hm : Z.land (f_mode fl) O_RDWR =? 0 = false) by (by apply Z.eqb_neq).
    unfold qnxcomm_open, qnx_driver_data_is_process_available, current_get_pid_nr. ksteps. rewrite Hm. cbn [negb]. ksteps.
    eapply wp_eq; [apply find_pid_run; intros; by eapply entries_procs|]. fold (find_process s (tsk_tgid cur)). rewrite Hfp. ksteps.
    by exists own. }
  destruct (kmalloc_answer (ks_oom s)) as [[] oom'] eqn:Hk.
  - destruct (open_run s f fl cur oom' Hok Hfl Hfn Hmode Hk Hfp) as (table & oom2 & Ht & Hrun). cbv zeta in Hrun.
    eapply wp_eq; [exact Hrun|]. kstep. exists own.
    eapply (inv_open own s _ _ _ _ (ks_next s) f fl (tsk_tgid cur) table); ks_simpl; try done.
    + intros r e He. eapply find_process_None; [done| |done]. by eapply po_listed, i_proc.
    + intros r Hr. ks_simpl. pose proof (fresh_lt s f _ Hf Hfl). rewrite !lookup_insert_ne by lia. apply Hf. lia.
  - assert (Hm : Z.land (f_mode fl) O_RDWR =? 0 = false) by (by apply Z.eqb_neq).
    unfold qnxcomm_open, qnx_driver_data_is_process_available, current_get_pid_nr. ksteps. rewrite Hm. cbn [negb]. ksteps.
    eapply wp_eq; [apply find_pid_run; intros; by eapply entries_procs|]. fold (find_process s (tsk_tgid cur)). rewrite Hfp. ksteps.
    eapply wp_kmalloc_fail; [done|]. ksteps. exists own. by apply (inv_frame own s).
Qed.

(** two heaps that a process left behind the same way are equal *)
Lemma freed_unique s q e h1 h2 g1 g2 :
  entry_ok (ks_heap s) e -> freed s q e h1 g1 -> freed s q e h2 g2 -> forall r, r ≠ q -> h1 !! r = h2 !! r.
Proof.
  intros Hok [Hc1 Hp1 Hr1] [Hc2 Hp2 Hr2] r Hr. destruct (decide (r ∈ channels e)) as [Hc|Hc].
  { destruct (entry_ok_chans _ _ _ Hok Hc) as [ch Hch]. by rewrite (Hc1 r ch Hc Hch), (Hc2 r ch Hc Hch). }
  destruct (decide (r ∈ pending e)) as [Hp|Hp]; [|by rewrite Hr1, Hr2].
  destruct (eo_pending _ _ Hok r Hp) as (m & Hm & t & Ht). destruct (Hp1 r m t Hp Hm Ht) as [-> _]. by destruct (Hp2 r m t Hp Hm Ht) as [-> _].
Qed.

(** the same in terms of the invariant: the entry is left with empty lists *)
Lemma inv_freed own s calls q e (asleep : gset Z) h' :
  inv own s calls [] None -> ks_heap s !! q = Some (OProc e) -> freed s q e h' asleep -> asleep ⊆ ks_sleeping s ->
  exists h2, inv own (upd_heap (fun _ => h2) (upd_sleeping asleep s)) calls [] None /\ freed s q e h2 asleep /\
    h2 !! q = Some (OProc (set_pending [] (set_channels [] e))).
Proof.
  intros Hinv He Hfr Hsub. pose proof (inv_entry_ok _ _ _ _ _ _ _ Hinv He) as Hok.
  assert (Hinv0 : inv own (upd_sleeping asleep s) calls [] None) by (by apply (inv_frame own s)).
  destruct (inv_drop_channels _ _ _ _ _ q e (channels e) Hinv0 He eq_refl) as (h1 & Hinv1 & Hq1 & Hch1 & Hrest1). ks_simpl.
  assert (Hmsg : forall p, p ∈ pending e -> p ∉ channels e /\ p ≠ q).
  { intros p Hp. destruct (entry_ok_msgs _ _ _ Hok Hp) as [m Hm]. split; [|congruence].
    intros Hc. destruct (entry_ok_chans _ _ _ Hok Hc). congruence. }
  destruct (inv_drop_pending _ _ _ _ q (set_channels [] e) (pending e) Hinv1 Hq1 eq_refl) as (h2 & Hinv2 & Hq2 & Hp2 & Hrest2).
  { ks_simpl. intros p m t Hp Hm Ht. destruct (Hmsg p Hp). rewrite Hrest1 in Hm by done. by eapply fr_pending. }
  ks_simpl. exists h2. split; [done|]. split; [|done]. split.
  - intros c ch Hc Hcc. rewrite Hrest2; [by apply Hch1|congruence|]. intros Hp. by destruct (Hmsg c Hp).
  - intros p m t Hp Hm Ht. destruct (Hmsg p Hp). split; [|by eapply fr_pending]. apply Hp2; [done|]. by rewrite Hrest1.
  - intros r Hrq Hrc Hrp. by rewrite Hrest2, Hrest1.
Qed.

Lemma close_safe own s calls f :
  inv own s calls [] None -> enabled (AClose f) s calls -> safe (AClose f) calls own s.
Proof.
  intros Hinv (fl & Hfl & Hmode & Hrc). pose proof (inv_entries_ok _ _ _ _ _ Hinv) as Hok.
  assert (Hm : Z.land (f_mode fl) O_RDWR =? 0 = false) by (by apply Z.eqb_neq).
  unfold safe, exec, qnxcomm_close. ksteps. rewrite Hm. cbn [negb]. destruct (private_data fl) as [q|] eqn:Hpd; [|ksteps; by exists own].
  destruct (i_file _ _ _ _ _ Hinv f fl q Hfl Hpd) as [Hq _]. destruct (listed_proc _ _ _ _ _ _ Hinv Hq) as (e & He & [_ Hr _ _ _ _] & Heo).
  assert (Hfind : find_process s (pe_pid e) = Some q).
  { destruct (find_process s (pe_pid e)) as [q'|] eqn:Hfp; [|by eapply find_process_None in Hfp].
    destruct (find_process_Some _ _ _ Hok Hfp) as (_ & e' & He' & Hpid & _). f_equal. by eapply i_pids. }
  unfold qnx_driver_data_remove. ksteps. eapply wp_eq; [apply find_pid_run; intros; by eapply entries_procs|].
  fold (find_process s (pe_pid e)). rewrite Hfind. ksteps.
  assert (Hquiet : forall c ch, c ∈ channels e -> ks_heap s !! c = Some (OChan ch) -> quiet ch).
  { destruct (inv_drop_channels _ _ _ _ _ q e (channels e) Hinv He eq_refl) as (h1 & _ & _ & Hch1 & _).
    intros c ch Hc Hcc. by destruct (Hch1 c ch Hc Hcc). }
  eapply wp_mono; [by apply (entry_free_run _ q e)|]. cbn beta. intros _ s1 (Hfr & Hq1 & Hal & Hsub & _). ks_simpl.
  assert (Hfr' : freed s q e (ks_heap s1) (ks_sleeping s1)) by (by destruct Hfr).
  destruct (inv_freed _ _ _ _ _ _ _ Hinv He Hfr' Hsub) as (h2 & Hinv2 & Hfr2 & Hq2).
  assert (Hf1 : f ∉ channels e /\ f ∉ pending e /\ f ≠ q).
  { split_and!; [intros Hc; destruct (entry_ok_chans _ _ _ Heo Hc); congruence|
      intros Hc; destruct (entry_ok_msgs _ _ _ Heo Hc); congruence|congruence]. }
  destruct Hf1 as (Hfc & Hfp & Hfq). assert (Hs1f : ks_heap s1 !! f = Some (OFile fl)) by (by rewrite (fr_rest _ _ _ _ _ Hfr')).
  injection Hal as Hes Hn Hoom Hri. ksteps. exists own.
  eapply (inv_close own _ _ _ _ _ q _ f fl Hinv2); ks_simpl; try done.
  - by rewrite (fr_rest _ _ _ _ _ Hfr2).
  - intros x entry c recv Hx Hxr ->. by destruct (Hrc x q c recv Hx Hxr).
  - f_equal. apply map_eq. intros r. destruct (decide (r = q)) as [->|Hrq]; [by rewrite lookup_delete_eq|].
    rewrite lookup_delete_ne by done. by eapply freed_unique.
  - by rewrite Hn.
Qed.

End Open.
