(* ===== verification/Interleaving.v ===== *)
(** * Interleaved calls: the properties

    What holds in every configuration that can be reached from the loaded module
    by any interleaving of the pieces of calls (Protocol.v). *)

From Stdlib Require Import ZArith Lia.
From stdpp Require Import base tactics list option gmap fin_maps sets relations.
From S2P Require Import Prelude Layout UserMem ConnectionTable Kernel Msgsend Channel ProcessEntry DriverData Driver Protocol ProtocolInv ProtocolSafe ProtocolMsg ProtocolReturn ProtocolOpen.

Open Scope Z_scope.

Section Interleaving.
  Context {M : Type} `{!UserMem M}.
  Implicit Types (s : kstate M) (calls : list call) (own : ptr -> Z).

(** several pieces, one after the other *)
Fixpoint run (l : list action) (calls : list call) : K M (list call) :=
  match l with
  | [] => kret calls
  | a :: l' => let! calls' := exec a calls in run l' calls'
  end.

(** no descriptor is open for communication *)
Definition all_closed s : Prop := forall f fl, ks_heap s !! f = Some (OFile fl) -> private_data fl = None.

(** the kind of an object, and the pointers to other objects in it with the kind
    of object that they are used for *)
Inductive kind := KBuf | KMsg | KChan | KProc | KPollfd | KFile.

Definition kind_of (o : kobj) : kind :=
  match o with
  | ORaw | OBuf _ => KBuf
  | OMsg _ => KMsg
  | OChan _ => KChan
  | OProc _ => KProc
  | OPollfd _ => KPollfd
  | OFile _ => KFile
  end.

Definition refs (o : kobj) : list (ptr * kind) :=
  match o with
  | ORaw | OBuf _ | OPollfd _ => []
  | OMsg m => (fun r => (r, KBuf)) <$> msg_buffers m
  | OChan c => (fun p => (p, KMsg)) <$> waiting c
  | OProc e => ((fun c => (c, KChan)) <$> channels e) ++ ((fun p => (p, KMsg)) <$> pending e) ++
               ((fun f => (f, KPollfd)) <$> pollfds e)
  | OFile fl => (fun q => (q, KProc)) <$> option_list (private_data fl)
  end.

(** the pointers in the local variables of a call *)
Definition call_refs (x : call) : list (ptr * kind) :=
  match x with
  | CSend chnl p _ => [(chnl, KChan); (p, KMsg)]
  | CWait entry chnl _ _ _ => [(entry, KProc); (chnl, KChan)]
  | CCopy entry chnl p _ _ _ _ => [(entry, KProc); (chnl, KChan); (p, KMsg)]
  | CReply p _ _ | CError p _ => [(p, KMsg)]
  end.

(** the pointer is neither dangling nor of another type *)
Definition well_typed s (r : ptr * kind) : Prop := exists o, ks_heap s !! r.1 = Some o /\ kind_of o = r.2.

(** ** Lemmas *)

Lemma initial_inv s calls : initial (s, calls) -> inv (fun _ => 0) s calls [] None.
Proof.
  intros (-> & He & Hf & Hr & Hh).
  assert (Hfile : forall q o, ks_heap s !! q = Some o -> (forall fl, o = OFile fl -> private_data fl ≠ None) -> False).
  { intros q o Hq Ho. destruct (Hh q o Hq) as (fl & -> & Hp). by apply (Ho fl). }
  assert (Hno : forall q o, ks_heap s !! q = Some o -> (forall fl, o ≠ OFile fl) -> False).
  { intros q o Hq Ho. destruct (Hh q o Hq) as (fl & -> & _). by apply (Ho fl). }
  split; rewrite ?He; try done; try (by constructor); try (by intros * ?%elem_of_nil).
  - by intros q e Hq%Hno.
  - by intros q q' e e' Hq%Hno.
  - by intros c ch Hc%Hno.
  - by intros c ch p Hc%Hno.
  - by intros q e p Hq%Hno.
  - by intros p (x & ?%elem_of_nil & _).
  - intros f fl q Hq Hp. destruct (Hh f _ Hq) as (fl' & [= <-] & ?). congruence.
  - intros q o Hq. destruct (Hh q o Hq) as (fl & -> & _). done.
Qed.

Context `{!UserMemLaws M}.

Lemma action_safe own s calls a : inv own s calls [] None -> enabled a s calls -> safe a calls own s.
Proof.
  intros Hinv Hen. destruct a.
  - by apply open_safe.
  - by apply close_safe.
  - by apply create_safe.
  - by apply destroy_safe.
  - by apply attach_safe.
  - by apply detach_safe.
  - by apply send_safe.
  - by apply interrupt_safe.
  - by apply return_safe.
  - by apply receive_safe.
  - by apply take_safe.
  - by apply deliver_safe.
  - by apply reply_safe.
  - by apply error_safe.
  - by apply replied_safe.
  - by apply read_safe.
Qed.

Lemma step_inv own s calls s' calls' :
  inv own s calls [] None -> step (s, calls) (s', calls') -> exists own', inv own' s' calls' [] None.
Proof.
  intros Hinv Hst. inversion Hst as [a s0 c0 s1 c1 Hen Hrun]; subst. pose proof (action_safe own s calls a Hinv Hen) as Hs.
  apply wp_run in Hs as (? & ? & Hrun' & ?). rewrite Hrun in Hrun'. by simplify_eq.
Qed.

Lemma reachable_inv s calls : reachable (s, calls) -> exists own, inv own s calls [] None.
Proof.
  intros (x0 & Hi & Hr). revert Hr.
  enough (Hall : forall y, rtc step x0 y -> exists own, inv own y.1 y.2 [] None) by (intros Hr; exact (Hall _ Hr)).
  apply rtc_ind_r.
  - destruct x0 as [s0 calls0]. eexists. by apply initial_inv.
  - intros [s1 calls1] [s2 calls2] _ Hst [own Hinv]. by eapply step_inv.
Qed.

Lemma reachable_step x y : reachable x -> step x y -> reachable y.
Proof. intros (x0 & Hi & Hr) Hst. exists x0. split; [done|]. by eapply rtc_r. Qed.

Lemma reachable_run s calls a :
  reachable (s, calls) -> enabled a s calls ->
  exists calls' s', exec a calls s = Done (calls', s') /\ step (s, calls) (s', calls') /\ reachable (s', calls').
Proof.
  intros Hr Hen. destruct (reachable_inv _ _ Hr) as [own Hinv]. pose proof (action_safe own s calls a Hinv Hen) as Hs.
  apply wp_run in Hs as (calls' & s' & Hrun & _). assert (Hst : step (s, calls) (s', calls')) by by econstructor.
  exists calls', s'. split_and!; [done|done|by eapply reachable_step].
Qed.

(** the message of a sender that has a place is not decided yet *)
Lemma placed_open own s calls c p cur m :
  inv own s calls [] None -> CSend c p cur ∈ calls -> ks_heap s !! p = Some (OMsg m) -> placed (ks_heap s) calls c p m ->
  status m = 0 /\ state m ≠ QNX_STATE_FINISHED.
Proof.
  intros Hinv Hx Hm Hpl.
  assert (Hse : exists c' st, sends (ks_heap s) calls c' p st /\ st ≠ QNX_STATE_FINISHED).
  { destruct Hpl as [[_ (ch & Hc & Hp)]|[[_ (x & Hx' & Hp)]|[_ [(q & e & Hq & Hp)|Hr]]]].
    - exists c, QNX_STATE_INITIAL. split; [by eapply i_queued|done].
    - destruct x; simplify_eq/=. exists chnl, QNX_STATE_RECEIVING. split; [by eapply i_copied|done].
    - destruct (i_pending _ _ _ _ _ Hinv q e p Hq Hp) as (c' & ? & _). exists c', QNX_STATE_PENDING. done.
    - destruct (i_replied _ _ _ _ _ Hinv p Hr) as [(c' & ?) _]. exists c', QNX_STATE_PENDING. done. }
  destruct Hse as (c' & st & (cur' & m' & _ & Hm' & <- & ?) & ?). by simplify_eq.
Qed.

Lemma sends_typed s calls c p st : sends (ks_heap s) calls c p st -> well_typed s (p, KMsg).
Proof. intros (cur & m & _ & Hm & _). by exists (OMsg m). Qed.

(** the pointers in an object *)
Lemma refs_typed own s calls q o r :
  inv own s calls [] None -> ks_heap s !! q = Some o -> r ∈ refs o -> well_typed s r.
Proof.
  intros Hinv Hq Hr. destruct o as [| |m|c|e| |fl]; cbn in Hr; try by apply elem_of_nil in Hr.
  - destruct (i_objects _ _ _ _ _ Hinv q _ Hq) as (c & cur & Hx).
    destruct (i_sender _ _ _ _ _ Hinv c q cur Hx) as (m' & b & buf & [Hm _ Hd Hin (bs & Hbuf & _) _ _ _ _ _ Hrb _] & _). simplify_eq.
    apply list_elem_of_fmap in Hr as (b0 & -> & Hb). unfold msg_buffers in Hb. rewrite Hd, Hin in Hb.
    apply elem_of_app in Hb as [Hb|Hb].
    + apply list_elem_of_singleton in Hb as ->. by exists (OBuf bs).
    + destruct (reply_base m) as [r0|]; [|by apply elem_of_nil in Hb]. apply list_elem_of_singleton in Hb as ->.
      destruct (Hrb r0 eq_refl) as (_ & o & ? & Hk). exists o. split; [done|]. by destruct Hk as [->|[? ->]].
  - apply list_elem_of_fmap in Hr as (p & -> & Hp). by eapply sends_typed, i_queued.
  - pose proof (inv_entry_ok _ _ _ _ _ _ _ Hinv Hq) as Hok. rewrite !elem_of_app in Hr.
    destruct Hr as [Hr|[Hr|Hr]]; apply list_elem_of_fmap in Hr as (p & -> & Hp).
    + destruct (entry_ok_chans _ _ _ Hok Hp) as [ch ?]. by exists (OChan ch).
    + destruct (entry_ok_msgs _ _ _ Hok Hp) as [m ?]. by exists (OMsg m).
    + destruct (eo_pollfds _ _ Hok p Hp) as [f ?]. by exists (OPollfd f).
  - destruct (private_data fl) as [q'|] eqn:Hp; [|by apply elem_of_nil in Hr]. apply list_elem_of_singleton in Hr as ->.
    destruct (i_file _ _ _ _ _ Hinv q fl q' Hq Hp) as [Hin _]. destruct (i_listed _ _ _ _ _ Hinv q' Hin) as [e ?]. by exists (OProc e).
Qed.

(** the pointers in a call *)
Lemma call_refs_typed own s calls x r : inv own s calls [] None -> x ∈ calls -> r ∈ call_refs x -> well_typed s r.
Proof.
  intros Hinv Hx Hr.
  assert (Hch : forall c, c ∈ call_channels x -> well_typed s (c, KChan)).
  { intros c Hc. destruct (i_alive _ _ _ _ _ Hinv c) as [ch ?]; [|by exists (OChan ch)]. apply elem_of_holders. eauto. }
  assert (Hen : forall entry c recv, receiver x = Some (entry, c, recv) -> well_typed s (entry, KProc)).
  { intros entry c recv Hrc. destruct (i_receiver _ _ _ _ _ Hinv x entry c recv Hx Hrc) as (_ & e & ? & _). by exists (OProc e). }
  assert (Hrp : forall p, replied x = Some p -> well_typed s (p, KMsg)).
  { intros p Hp. destruct (i_replied _ _ _ _ _ Hinv p) as [(c & ?) _]; [by exists x|by eapply sends_typed]. }
  destruct x; cbn in *; rewrite ?elem_of_cons in Hr; destruct_or! Hr; try (by apply elem_of_nil in Hr); subst;
    try (by apply Hch; left); try (by eapply Hen); try (by apply Hrp).
  - destruct (i_sender _ _ _ _ _ Hinv chnl p cur Hx) as (m & b & buf & Hs & _). exists (OMsg m). split; [by eapply sn_msg|done].
  - by eapply sends_typed, i_copied.
Qed.

Lemma settled_dec sl cur m : settled sl cur m \/ ~ settled sl cur m.
Proof.
  unfold settled. destruct (decide (tsk_pid cur ∈ sl)), (decide (state m = QNX_STATE_FINISHED)),
    (decide (state m = QNX_STATE_PENDING)), (decide (status m = - ESRCH)); tauto.
Qed.

(** ** Calls come to an end *)

(** the i-th call is over after the action [a] *)
Definition finishes (a : action) (i : nat) calls : Prop :=
  forall s calls' s', exec a calls s = Done (calls', s') -> calls' = delete i calls.

Lemma then_return {A} (c : K M A) calls' calls s s' : (let! _ := c in kret calls') s = Done (calls, s') -> calls = calls'.
Proof. unfold kbind. destruct (c s) as [[a s1]| |]; [|done..]. by intros [= <- _]. Qed.

Lemma finish_copy i calls entry chnl p cur addr wait recv :
  calls !! i = Some (CCopy entry chnl p cur addr wait recv) -> finishes (AMsgReceiveReturn i) i calls.
Proof. intros Hi s calls' s'. unfold exec. rewrite Hi. apply then_return. Qed.

Lemma finish_wait i calls entry chnl cur addr recv :
  calls !! i = Some (CWait entry chnl cur addr recv) -> finishes (AMsgReceiveTake i (-1)) i calls.
Proof. intros Hi s calls' s'. unfold exec. rewrite Hi. exact (then_return _ _ _ _ _). Qed.

Lemma finish_reply i calls x :
  calls !! i = Some x -> is_Some (replied x) -> finishes (AReplyReturn i) i calls.
Proof.
  intros Hi [p Hp] s calls' s'. unfold exec. rewrite Hi. destruct x; simplify_eq/=; apply then_return.
Qed.

Lemma finish_send i calls chnl p cur sleep :
  calls !! i = Some (CSend chnl p cur) -> finishes (AMsgSendReturn i sleep) i calls.
Proof. intros Hi s calls' s'. unfold exec. rewrite Hi. apply then_return. Qed.

(** an action that is enabled and finishes a call *)
Lemma finish_step s calls a i x :
  reachable (s, calls) -> calls !! i = Some x -> enabled a s calls -> finishes a i calls ->
  exists s' calls', rtc step (s, calls) (s', calls') /\ (length calls' < length calls)%nat.
Proof.
  intros Hr Hi Hen Hfin. destruct (reachable_run _ _ _ Hr Hen) as (calls' & s' & Hrun & Hst & _).
  exists s', calls'. split; [by apply rtc_once|]. rewrite (Hfin _ _ _ Hrun). rewrite length_delete by by eexists.
  apply lookup_lt_Some in Hi. lia.
Qed.

Lemma finish_one s calls :
  reachable (s, calls) -> calls ≠ [] ->
  exists s' calls', rtc step (s, calls) (s', calls') /\ (length calls' < length calls)%nat.
Proof.
  intros Hr Hne.
  assert (Hcase : (exists i x, calls !! i = Some x /\ sent x = None) \/ forall x, x ∈ calls -> is_Some (sent x)).
  { clear Hr Hne. induction calls as [|x calls IH]; [right; by intros ? ?%elem_of_nil|]. destruct (sent x) as [p|] eqn:Hx.
    - destruct IH as [(i & y & ? & ?)|Hall]; [left; by exists (S i), y|]. right. intros y [->|?]%elem_of_cons; eauto.
    - left. by exists 0%nat, x. }
  destruct Hcase as [(i & x & Hi & Hx)|Hall].
  { destruct x; simplify_eq/=.
    - by eapply (finish_step s calls (AMsgReceiveTake i (-1))); [..|by eapply finish_wait].
    - by eapply (finish_step s calls (AMsgReceiveReturn i)); [..|by eapply finish_copy].
    - by eapply (finish_step s calls (AReplyReturn i)); [..|by eapply finish_reply].
    - by eapply (finish_step s calls (AReplyReturn i)); [..|by eapply finish_reply]. }
  destruct calls as [|x rest]; [done|]. destruct (Hall x) as [p Hp]; [by left|]. destruct x as [chnl p' cur| | | |]; simplify_eq/=.
  set (calls := CSend chnl p cur :: rest) in *.
  destruct (reachable_run s calls (AInterrupt cur) Hr I) as (calls1 & s1 & Hrun & Hst & Hr1).
  unfold exec, kbind, kmod, kret in Hrun. injection Hrun as Hc1 Hs1. subst calls1 s1.
  set (s1 := upd_sleeping (ks_sleeping s ∖ {[tsk_pid cur]}) s) in *.
  destruct (reachable_inv _ _ Hr1) as [own Hinv].
  destruct (finish_step s1 calls (AMsgSendReturn 0 (Sleep 0 true)) 0 (CSend chnl p cur) Hr1) as (s2 & calls2 & Hst2 & Hlen);
    [done| |by eapply finish_send|].
  2: { exists s2, calls2. split; [|done]. by eapply rtc_l. }
  intros c q t m b [= <- <- <-] Hm Hd. split; [unfold s1; ks_simpl; set_solver|].
  assert (Hint : exists code, interruption b (Sleep 0 true) = Some code) by (unfold interruption; destruct (_ && _); by eexists).
  destruct Hint as [code ->]. split.
  - intros Hst0. destruct (i_sender _ _ _ _ _ Hinv chnl p cur) as (m' & b' & buf & Hs & Hpl); [by left|].
    pose proof (sn_msg _ _ _ _ _ _ _ _ _ Hs). simplify_eq.
    destruct Hpl as [?|[[Hf _]|[[_ (x & Hx & Hcx)]|[Hf _]]]]; [|done|by rewrite Hst0 in Hf| |by rewrite Hst0 in Hf].
    + intros [_ [Hf|[Hf _]]]; by rewrite Hst0 in Hf.
    + destruct (Hall x Hx) as [? ?]. by destruct x.
  - intros (x & Hx & Hcx). destruct (Hall x Hx) as [? ?]. by destruct x.
Qed.

End Interleaving.

(** ** Properties *)


(** C14: in a reachable configuration every pointer is well typed: those in the
    process list, in all objects and in the local variables of the calls in
    progress lead to a live object of the kind that they are used for. *)
Theorem interleaving_typed {M : Type} `{!UserMem M} `{!UserMemLaws M} (s : kstate M) (calls : list call) :
  reachable (s, calls) ->
  (forall q, q ∈ ks_entries s -> well_typed s (q, KProc)) /\
  (forall q o r, ks_heap s !! q = Some o -> r ∈ refs o -> well_typed s r) /\
  (forall x r, x ∈ calls -> r ∈ call_refs x -> well_typed s r).
Proof.
  intros Hr. destruct (reachable_inv _ _ Hr) as [own Hinv]. split_and!.
  - intros q Hq. destruct (i_listed _ _ _ _ _ Hinv q Hq) as [e ?]. by exists (OProc e).
  - intros q o r. by eapply refs_typed.
  - intros x r. by eapply call_refs_typed.
Qed.

(** C8: in a reachable configuration the reference count of a channel is the
    number of its holders, the process that owns it and the calls that use it;
    it is positive, so a channel without a holder is not there any more. *)
Theorem interleaving_refcounts {M : Type} `{!UserMem M} `{!UserMemLaws M} (s : kstate M) (calls : list call) (c : ptr) :
  reachable (s, calls) ->
  match ks_heap s !! c with
  | Some (OChan ch) => ch_refcnt ch = occ c (holders (ks_heap s) (ks_entries s) calls []) /\ 0 < ch_refcnt ch
  | _ => c ∉ holders (ks_heap s) (ks_entries s) calls []
  end.
Proof.
  intros Hr. destruct (reachable_inv _ _ Hr) as [own Hinv].
  assert (Hno : (forall ch, ks_heap s !! c ≠ Some (OChan ch)) -> c ∉ holders (ks_heap s) (ks_entries s) calls []).
  { intros Hn Hc. destruct (i_alive _ _ _ _ _ Hinv c Hc) as [ch ?]. by eapply Hn. }
  destruct (ks_heap s !! c) as [[| | |ch| | |]|] eqn:Hc; try by apply Hno.
  by destruct (i_chan _ _ _ _ _ Hinv c ch Hc) as (? & ? & _).
Qed.

(** C7: no wake-up is lost.  In a reachable configuration the message of a thread
    that is in MsgSend is either settled (it has a reply or an error, and the
    thread is awake), or it is still open and in exactly the place that its state
    says: in the queue of the channel, in the hands of a receiver that copies it,
    or waiting for the reply in the list of a process or in the hands of a
    MsgReply or MsgError. *)
Theorem interleaving_senders {M : Type} `{!UserMem M} `{!UserMemLaws M} (s : kstate M) (calls : list call)
    (c p : ptr) (cur : task_struct) :
  reachable (s, calls) -> CSend c p cur ∈ calls ->
  exists m, ks_heap s !! p = Some (OMsg m) /\ task m = Some cur /\
    (settled (ks_sleeping s) cur m \/
     placed (ks_heap s) calls c p m /\ status m = 0 /\ state m ≠ QNX_STATE_FINISHED).
Proof.
  intros Hr Hx. destruct (reachable_inv _ _ Hr) as [own Hinv].
  destruct (i_sender _ _ _ _ _ Hinv c p cur Hx) as (m & b & buf & [Hm Ht _ _ _ _ _ _ _ _ _ _] & Hpl). exists m. split_and!; [done|done|].
  destruct (settled_dec (ks_sleeping s) cur m) as [?|Hns]; [by left|right]. destruct (Hpl Hns) as [|Hp]; [done|].
  split; [done|]. by eapply placed_open.
Qed.


(** C13: no call is stuck.  From every reachable configuration the calls in progress
    can all be brought to their end (a signal gets any blocked thread out), and
    the kernel is then in a reachable state without calls. *)
Theorem interleaving_terminates {M : Type} `{!UserMem M} `{!UserMemLaws M} (s : kstate M) (calls : list call) :
  reachable (s, calls) -> exists s', rtc step (s, calls) (s', []) /\ reachable (s', []).
Proof.
  remember (length calls) as n eqn:Hn. revert s calls Hn. induction n as [n IH] using lt_wf_ind. intros s calls -> Hr.
  destruct calls as [|x calls]; [by exists s|]. destruct (finish_one s (x :: calls) Hr ltac:(done)) as (s1 & calls1 & Hst & Hlen).
  destruct (IH _ Hlen s1 calls1 eq_refl) as (s2 & ? & ?).
  { destruct Hr as (x0 & ? & ?). exists x0. split; [done|]. by etrans. }
  exists s2. split; [by etrans|done].
Qed.

