(* ===== verification/ExampleRun.v ===== *)
(** * A concrete run of interleaved calls

    A server and a client open the device, the client sends, the server receives
    and replies, and both close the device again: the configurations on the way
    are reachable, and the properties of Interleaving.v are applied to them. *)

From Stdlib Require Import ZArith Lia.
From stdpp Require Import base tactics list option gmap fin_maps sets relations.
From S2P Require Import Prelude Layout UserMem ConnectionTable Kernel Msgsend Channel ProcessEntry DriverData Driver Examples Protocol Interleaving.

Open Scope Z_scope.

Abbreviation config := (kstate flatmem * list call)%type.

(** the configuration after an action *)
Definition next (a : action) (x : config) : config :=
  match exec a x.2 x.1 with Done (calls, s) => (s, calls) | _ => x end.

(** two descriptors, not open for communication *)
Definition loaded : kstate flatmem :=
  KState (list_to_map [(1%positive, OFile (File 3 None)); (2%positive, OFile (File 3 None))]) 3 [] 7 mem_duo [] 0 0
    default_params ∅ [].

Definition run0 : config := (loaded, []).
Definition run1 : config := next (AOpen 1 thread_a) run0.
Definition run2 : config := next (AOpen 2 thread_b) run1.
Definition run3 : config := next (AChannelCreate 3) run2.
Definition run4 : config := next (AConnectAttach 4 (IoAttach 10 1 0)) run3.
Definition run5 : config := next (AMsgReceive 3 thread_a 1000) run4.
Definition run6 : config := next (AMsgSend 4 thread_b 1000) run5.
Definition run7 : config := next (AMsgReceiveTake 1 1) run6.
Definition run8 : config := next (AMsgReceiveReturn 0) run7.
Definition run9 : config := next (AMsgReply 3 thread_a (IoReply 1 42 (Iovec 1100 2))) run8.
Definition run10 : config := next (AReplyReturn 0) run9.
Definition run11 : config := next (AMsgSendReturn 0 (Sleep 0 false)) run10.
Definition run12 : config := next (AClose 1) run11.
Definition run13 : config := next (AClose 2) run12.

(** ** Reachability *)

Lemma reachable_next a x : reachable x -> enabled a x.1 x.2 -> reachable (next a x).
Proof.
  destruct x as [s calls]. intros Hr Hen. destruct (reachable_run s calls a Hr Hen) as (calls' & s' & Hrun & _ & Hr').
  unfold next. cbn [fst snd]. by rewrite Hrun.
Qed.

#[local] Opaque next.

Lemma reachable_pair (x : config) : reachable x -> reachable (x.1, x.2).
Proof. by destruct x. Qed.

Lemma run0_reachable : reachable run0.
Proof.
  exists run0. split; [|done]. split_and!; try done.
  - intros q Hq. unfold run0, loaded in *. ks_simpl. apply not_elem_of_list_to_map_1. cbn. rewrite !elem_of_cons, elem_of_nil. lia.
  - intros q o Hq. apply elem_of_list_to_map_2 in Hq. rewrite !elem_of_cons, elem_of_nil in Hq.
    destruct Hq as [Hq|[Hq|[]]]; simplify_eq; by eexists.
Qed.

(** a fact about a configuration that can be computed *)
Ltac computed := vm_compute; first [reflexivity | done | tauto].

(** the entry at [q] is listed *)
Ltac listed := match goal with |- ?q ∈ ks_entries ?s => let l := eval vm_compute in (ks_entries s) in change (q ∈ l) end; rewrite !elem_of_cons; tauto.

Lemma run4_reachable : reachable run4.
Proof.
  apply reachable_next; [apply reachable_next; [apply reachable_next; [apply reachable_next; [exact run0_reachable|]|]|]|].
  - exists (File 3 None). by split_and!; [computed|computed|].
  - exists (File 3 None). by split_and!; [computed|computed|].
  - split; [listed|]. split; computed.
  - split; [listed|computed].
Qed.

Lemma run6_reachable : reachable run6.
Proof.
  apply reachable_next; [apply reachable_next; [exact run4_reachable|]|].
  - cbn [enabled]. listed.
  - split; [listed|]. split; [split; computed|]. replace (run5.2) with [CWait 3 5 thread_a 1000 recv_a] by computed.
    by intros x ->%list_elem_of_singleton.
Qed.

Lemma run7_reachable : reachable run7.
Proof. by apply reachable_next; [exact run6_reachable|]. Qed.

Lemma run10_reachable : reachable run10.
Proof.
  apply reachable_next; [apply reachable_next; [apply reachable_next; [exact run7_reachable|done]|]|done]. cbn [enabled]. listed.
Qed.

Lemma run13_reachable : reachable run13.
Proof.
  apply reachable_next; [apply reachable_next; [apply reachable_next; [exact run10_reachable|]|]|].
  - intros chnl p cur m b Hx Hm Hd. replace (run10.2) with [CSend 5 6 thread_b] in Hx by computed. injection Hx as <- <- <-.
    assert (Hm' : match ks_heap run10.1 !! 6%positive with Some (OMsg m) => state m = QNX_STATE_FINISHED /\
      match data m with DMsg b => interruption b (Sleep 0 false) = None | _ => False end | _ => False end) by (vm_compute; by split).
    rewrite Hm, Hd in Hm'. destruct Hm' as [Hst ->]. split; [computed|by left].
  - exists (File 3 (Some 3%positive)). split_and!; [computed|computed|].
    replace (run11.2) with (@nil call) by computed. by intros x entry c r ?%elem_of_nil.
  - exists (File 3 (Some 4%positive)). split_and!; [computed|computed|].
    replace (run12.2) with (@nil call) by computed. by intros x entry c r ?%elem_of_nil.
Qed.

(** ** Witnesses *)


Lemma interleaving_typed_witness :
  well_typed run7.1 (6%positive, KMsg) /\ well_typed run7.1 (7%positive, KBuf).
Proof.
  destruct (interleaving_typed run7.1 run7.2 (reachable_pair _ run7_reachable)) as (_ & Hobj & Hcalls).
  assert (Hm : ks_heap run7.1 !! 6%positive = match ks_heap run7.1 !! 6%positive with Some o => Some o | None => None end)
    by (by destruct (ks_heap run7.1 !! 6%positive)).
  split.
  - apply (Hcalls (CSend 5 6 thread_b)); [|by right; left].
    replace (run7.2) with [CCopy 3 5 6 thread_a 1000 1 recv_a; CSend 5 6 thread_b] by computed. by right; left.
  - destruct (ks_heap run7.1 !! 6%positive) as [o|] eqn:Ho; [|by vm_compute in Ho].
    apply (Hobj 6%positive o _ Ho). vm_compute in Ho. injection Ho as <-. by left.
Defined.

Lemma interleaving_refcounts_witness :
  match ks_heap run7.1 !! 5%positive with Some (OChan ch) => ch_refcnt ch = 3 | _ => False end /\
  occ 5 (holders (ks_heap run7.1) (ks_entries run7.1) run7.2 []) = 3.
Proof.
  assert (Hrc : match ks_heap run7.1 !! 5%positive with Some (OChan ch) => ch_refcnt ch = 3 | _ => False end) by computed.
  split; [exact Hrc|]. pose proof (interleaving_refcounts run7.1 run7.2 5 (reachable_pair _ run7_reachable)) as Hspec.
  destruct (ks_heap run7.1 !! 5%positive) as [[| | |ch| | |]|]; try done; destruct Hspec as [Hocc _]; congruence.
Defined.

Lemma interleaving_senders_witness :
  exists m, ks_heap run7.1 !! 6%positive = Some (OMsg m) /\
    (settled (ks_sleeping run7.1) thread_b m \/ placed (ks_heap run7.1) run7.2 5 6 m).
Proof.
  destruct (interleaving_senders run7.1 run7.2 5 6 thread_b (reachable_pair _ run7_reachable)) as (m & Hm & _ & Hcase).
  - replace (run7.2) with [CCopy 3 5 6 thread_a 1000 1 recv_a; CSend 5 6 thread_b] by computed. by right; left.
  - exists m. split; [exact Hm|]. destruct Hcase as [?|[? _]]; [by left|by right].
Defined.


Lemma interleaving_terminates_witness : exists s', rtc step run7 (s', []) /\ reachable (s', []).
Proof. rewrite (surjective_pairing run7). apply (interleaving_terminates run7.1 run7.2). exact (reachable_pair _ run7_reachable). Defined.
