(* ===== verification/Exchange.v ===== *)
(** * What message passing promises: an abstract machine

    A client's MsgSend opens an _exchange_: it waits in the channel, is copied to
    a receiver, waits for the answer, is answered, and is over when the client
    returns.  The machine knows exchanges by their id and nothing of the queues,
    lists, reference counts and buffers of the driver; [abstract] says which
    state of the machine a configuration of Protocol.v stands for, and [admits]
    which events an action of it may be. *)

From Stdlib Require Import ZArith Lia.
From stdpp Require Import base tactics list option gmap fin_maps sets sorting.
From S2P Require Import Prelude Layout UserMem ConnectionTable Kernel Msgsend Channel ProcessEntry DriverData Driver Protocol.

Open Scope Z_scope.

(** ** Exchanges *)

Inductive phase :=
  | Queued                                     (* in the channel *)
  | Copying                                    (* a MsgReceive has taken it *)
  | Unanswered                                 (* received, and the client waits *)
  | Answering                                  (* a MsgReply or MsgError has taken it *)
  | Closed (st : Z) (reply : list Z).          (* the client can return *)

#[export] Instance phase_eq_dec : EqDecision phase.
Proof. solve_decision. Defined.

Record exchange := Exchange {
  x_client : task_struct;
  x_pid : Z;                   (* the client's process, for the receiver *)
  x_channel : ptr;
  x_chid : Z;
  x_server : Z;                (* the process that owns the channel *)
  x_coid : Z;
  x_request : list Z;
  x_out : Z;                   (* the client's buffer for the reply *)
  x_out_len : Z;
  x_phase : phase
}.

Definition in_phase (ph : phase) (x : exchange) : exchange :=
  Exchange (x_client x) (x_pid x) (x_channel x) (x_chid x) (x_server x) (x_coid x) (x_request x) (x_out x) (x_out_len x) ph.

(** how far an exchange is *)
Definition rank (ph : phase) : nat :=
  match ph with Queued => 0 | Copying => 1 | Unanswered => 2 | Answering => 3 | Closed _ _ => 4 end.

(** a later phase, or the same; nothing changes once the exchange is closed *)
Definition later (ph ph' : phase) : Prop := ph = ph' \/ (rank ph < rank ph')%nat.

Inductive event :=
  (* a MsgSend that fails may have used up an id *)
  | EReject (id : Z)
  | ESend (id : Z) (x : exchange)
  | ETake (c : ptr) (id : Z)
  | EDeliver (id : Z) (cur : task_struct) (addr : Z) (recv : qnx_io_receive)
  | EFault (id : Z) (cur : task_struct) (addr : Z) (recv : qnx_io_receive)
  | ERead (server id : Z) (cur : task_struct) (base offset n : Z)
  | EAccept (server id : Z)
  | EAnswer (id st : Z) (reply : list Z)
  (* the server is gone *)
  | EExit (server id : Z)
  | EReturn (id rc : Z)
  (* a timeout or a signal got the client out *)
  | EWithdraw (id rc : Z).

Section Exchange.
  Context {M : Type} `{!UserMem M}.
  Implicit Types (s : kstate M) (h : gmap ptr kobj) (calls : list call).

(** the memory of the processes, the last id and the exchanges by their id *)
Record astate := AState { a_user : M; a_last : Z; a_exchanges : gmap Z exchange }.

(** what the receiver [cur] finds in its memory *)
Definition delivered (u : M) (x : exchange) (cur : task_struct) (addr : Z) (recv : qnx_io_receive) : M * bool :=
  let len := Z.of_nat (length (x_request x)) in
  let '(u1, ok) := copy_to_user u (tsk_tgid cur) (iov_base (rv_out recv))
                     (take (Z.to_nat (Z.min len (iov_len (rv_out recv)))) (x_request x)) in
  if ok
  then copy_to_user u1 (tsk_tgid cur) addr (c_enc c_io_receive (with_info recv
         (receive_info (x_pid x) (x_chid x) (x_coid x) (i32 len) (i32 (x_out_len x)) 0)))
  else (u1, false).

(** the return code of the client and its memory *)
Definition returned (u : M) (x : exchange) (st : Z) (reply : list Z) : Z * M :=
  if (st >=? 0) && bool_decide (reply ≠ [])
  then let '(u', ok) := copy_to_user u (tsk_tgid (x_client x)) (x_out x) (take (Z.to_nat (x_out_len x)) reply) in
       (if ok then st else - EFAULT, u')
  else (st, u).

(** what MsgReply answers; [mem]: there is memory for the reply *)
Definition answer (u : M) (x : exchange) (cur : task_struct) (io : qnx_io_reply) (mem : bool) : Z * list Z :=
  if negb (x_out x =? 0) && (x_out_len x >? 0) && (iov_len (rp_in io) >? 0)
  then if mem
       then match copy_from_user u (tsk_tgid cur) (iov_base (rp_in io)) (iov_len (rp_in io)) with
            | Some bytes => (rp_status io, bytes)
            | None => (- EFAULT, [])
            end
       else (- ENOMEM, [])
  else (rp_status io, []).

(** ** The machine *)

(** the exchange [id] is [x], in the phase [ph] *)
Definition holds (A : astate) (id : Z) (x : exchange) (ph : phase) : Prop :=
  a_exchanges A !! id = Some x /\ x_phase x = ph.

Definition set_phase (id : Z) (x : exchange) (ph : phase) (u : M) (A : astate) : astate :=
  AState u (a_last A) (<[id := in_phase ph x]> (a_exchanges A)).

Definition end_exchange (id : Z) (u : M) (A : astate) : astate := AState u (a_last A) (delete id (a_exchanges A)).

Inductive abs_step (A : astate) : event -> astate -> Prop :=
  | as_reject id : a_last A <= id ->
      abs_step A (EReject id) (AState (a_user A) id (a_exchanges A))
  (* ids are never used again, and a thread is in one exchange at a time *)
  | as_send id x : a_last A < id -> x_phase x = Queued ->
      (forall j y, a_exchanges A !! j = Some y -> tsk_pid (x_client y) ≠ tsk_pid (x_client x)) ->
      abs_step A (ESend id x) (AState (a_user A) id (<[id := x]> (a_exchanges A)))
  (* first come, first served *)
  | as_take c id x : holds A id x Queued -> x_channel x = c ->
      (forall j y, holds A j y Queued -> x_channel y = c -> id <= j) ->
      abs_step A (ETake c id) (set_phase id x Copying (a_user A) A)
  | as_deliver id x cur addr recv u : holds A id x Copying -> delivered (a_user A) x cur addr recv = (u, true) ->
      abs_step A (EDeliver id cur addr recv) (set_phase id x Unanswered u A)
  | as_fault id x cur addr recv u : holds A id x Copying -> delivered (a_user A) x cur addr recv = (u, false) ->
      abs_step A (EFault id cur addr recv) (set_phase id x (Closed (- EFAULT) []) u A)
  (* only the server reads and answers *)
  | as_read server id x cur base offset n u ok : holds A id x Unanswered -> x_server x = server ->
      0 <= offset -> 0 <= n -> offset + n <= Z.of_nat (length (x_request x)) ->
      copy_to_user (a_user A) (tsk_tgid cur) base (take (Z.to_nat n) (drop (Z.to_nat offset) (x_request x))) = (u, ok) ->
      abs_step A (ERead server id cur base offset n) (AState u (a_last A) (a_exchanges A))
  | as_accept server id x : holds A id x Unanswered -> x_server x = server ->
      abs_step A (EAccept server id) (set_phase id x Answering (a_user A) A)
  | as_answer id x st reply : holds A id x Answering ->
      abs_step A (EAnswer id st reply) (set_phase id x (Closed st reply) (a_user A) A)
  | as_exit server id x : holds A id x Unanswered -> x_server x = server ->
      abs_step A (EExit server id) (set_phase id x (Closed (- ESRCH) []) (a_user A) A)
  | as_return id x st reply rc u : holds A id x (Closed st reply) -> returned (a_user A) x st reply = (rc, u) ->
      abs_step A (EReturn id rc) (end_exchange id u A)
  | as_withdraw id x rc : a_exchanges A !! id = Some x -> rc < 0 -> x_phase x ≠ Copying -> x_phase x ≠ Answering ->
      abs_step A (EWithdraw id rc) (end_exchange id (a_user A) A).

Fixpoint abs_run (l : list event) (A A' : astate) : Prop :=
  match l with
  | [] => A' = A
  | ev :: l => exists A1, abs_step A ev A1 /\ abs_run l A1 A'
  end.

(** ** The state that a configuration stands for *)

Definition phase_of h calls (p : ptr) (m : qnx_internal_msgsend) : phase :=
  if (state m =? QNX_STATE_FINISHED) || negb (status m =? 0)
  then Closed (status m) (if reply_len m >? 0 then reply_of h m else [])
  else if state m =? QNX_STATE_INITIAL then Queued
  else if state m =? QNX_STATE_RECEIVING then Copying
  else if bool_decide (p ∈ omap replied calls) then Answering else Unanswered.

Definition exchange_of h calls (x : call) : option (Z * exchange) :=
  match x with
  | CSend c p cur =>
      match h !! p, h !! c with
      | Some (OMsg m), Some (OChan ch) =>
          match data m with
          | DMsg b =>
              match mb_in_base b, mb_out_base b with
              | InKernel buf, OutUser a =>
                  match h !! buf with
                  | Some (OBuf bytes) =>
                      Some (rcvid m, Exchange cur (sender_pid m) c (ch_chid ch) (receiver_pid m) (mb_coid b) bytes a
                                       (mb_out_len b) (phase_of h calls p m))
                  | _ => None
                  end
              | _, _ => None
              end
          | DPulse _ => None
          end
      | _, _ => None
      end
  | _ => None
  end.

Definition exchanges h calls : gmap Z exchange := list_to_map (omap (exchange_of h calls) calls).

Definition abstract s calls : astate := AState (ks_user s) (ks_next_rcvid s) (exchanges (ks_heap s) calls).

(** ** The events of an action *)

(** [c] returns [rc] when it is run in [s] *)
Definition returns (c : K M Z) s (rc : Z) : Prop := exists s', c s = Done (rc, s').

Definition message_id h (p : ptr) : Z := match h !! p with Some (OMsg m) => rcvid m | _ => 0 end.

Definition pid_at h (q : ptr) : Z := match h !! q with Some (OProc e) => pe_pid e | _ => 0 end.

(** the exchange that a MsgSend opens *)
Definition new_exchange s (e : qnx_process_entry) (cur : task_struct) (io : qnx_io_msgsend) (bytes : list Z)
    (conn : qnx_connection) (chnl : ptr) : exchange :=
  Exchange cur (pe_pid e) chnl (match ks_heap s !! chnl with Some (OChan c) => ch_chid c | _ => 0 end) (pid conn)
    (ms_coid io) bytes (iov_base (ms_out io)) (iov_len (ms_out io)) Queued.

Definition send_events s (e : qnx_process_entry) (cur : task_struct) (addr : Z) (evs : list event) : Prop :=
  match send_request s cur addr with
  | inr (io, bytes, _) =>
      match send_target s e (ms_coid io) with
      | Some (conn, chnl) => evs = [ESend (ks_next_rcvid s + 1) (new_exchange s e cur io bytes conn chnl)]
      | None => exists id, evs = [EReject id]
      end
  | inl _ => exists id, evs = [EReject id]
  end.

(** a MsgReply or MsgError of [server] for [id]: it takes the exchange exactly if
    it is unanswered and its own *)
Definition accept_events (server id : Z) (A : astate) (evs : list event) : Prop :=
  evs = match a_exchanges A !! id with
        | Some x => if decide (x_phase x = Unanswered /\ x_server x = server) then [EAccept server id] else []
        | None => []
        end.

(** a MsgRead of [server]: it reads from an exchange exactly if it is unanswered, its
    own, and the offset is in the message; as in the code, the number of bytes is an [int] *)
Definition read_events (server : Z) (cur : task_struct) (io : qnx_io_read) (A : astate) (evs : list event) : Prop :=
  evs = match a_exchanges A !! rd_rcvid io with
        | Some x =>
            let len := Z.of_nat (length (x_request x)) in
            let n := i32 (Z.min (u64 (len - rd_offset io)) (iov_len (rd_out io))) in
            if decide (x_phase x = Unanswered /\ x_server x = server /\ 0 <= rd_offset io <= len /\ 0 <= n)
            then [ERead server (rd_rcvid io) cur (iov_base (rd_out io)) (rd_offset io) n] else []
        | None => []
        end.

Definition admits (a : action) s calls (evs : list event) : Prop :=
  let A := abstract s calls in
  let h := ks_heap s in
  match a with
  | AMsgSend entry cur addr => exists e, h !! entry = Some (OProc e) /\ send_events s e cur addr evs
  | AMsgSendReturn i sleep =>
      match calls !! i with
      | Some (CSend chnl p cur) => exists m b rc, h !! p = Some (OMsg m) /\ data m = DMsg b /\
          returns (handle_msgsend_finish chnl p cur sleep) s rc /\
          (evs = [EReturn (rcvid m) rc] \/ interruption b sleep = Some rc /\ evs = [EWithdraw (rcvid m) rc])
      | _ => evs = []
      end
  | AMsgReceiveTake i wait =>
      match calls !! i with
      | Some (CWait _ chnl _ _ _) =>
          (exists id, evs = [ETake chnl id]) \/
          evs = [] /\ (wait < 0 \/ forall id x, holds A id x Queued -> x_channel x ≠ chnl)
      | _ => evs = []
      end
  | AMsgReceiveReturn i =>
      match calls !! i with
      | Some (CCopy entry chnl p cur addr wait recv) => exists rc,
          returns (handle_msgreceive_deliver entry cur addr chnl recv wait p) s rc /\
          (evs = [EDeliver (message_id h p) cur addr recv] /\ rc = message_id h p \/
           evs = [EFault (message_id h p) cur addr recv] /\ rc = - EFAULT)
      | _ => evs = []
      end
  | AMsgReply entry _ io => accept_events (pid_at h entry) (rp_rcvid io) A evs
  | AMsgError entry io => accept_events (pid_at h entry) (er_rcvid io) A evs
  | AReplyReturn i =>
      match calls !! i with
      | Some (CReply p cur io) => exists x mem, a_exchanges A !! message_id h p = Some x /\
          let '(st, reply) := answer (ks_user s) x cur io mem in evs = [EAnswer (message_id h p) st reply]
      | Some (CError p io) => evs = [EAnswer (message_id h p) (- Z.abs (er_error io)) []]
      | _ => evs = []
      end
  | AMsgRead entry cur io => read_events (pid_at h entry) cur io A evs
  (* with the process every exchange ends that it has not answered *)
  | AClose f => forall fl, h !! f = Some (OFile fl) ->
      match private_data fl with
      | Some q => Forall (fun ev => exists id, ev = EExit (pid_at h q) id) evs /\
          forall id x, holds A id x Unanswered -> x_server x = pid_at h q -> EExit (pid_at h q) id ∈ evs
      | None => evs = []
      end
  | _ => evs = []
  end.

(** the queues are in the order of the ids *)
Definition ordered h : Prop := forall c ch, h !! c = Some (OChan ch) ->
  StronglySorted (fun p q => message_id h p < message_id h q) (waiting ch).

(** what an action has to do *)
Definition simulates (a : action) s calls s' calls' : Prop :=
  (exists evs, admits a s calls evs /\ abs_run evs (abstract s calls) (abstract s' calls')) /\ ordered (ks_heap s').

End Exchange.

Arguments astate : clear implicits.
