(* ===== verification/ExchangeSim.v ===== *)
(** * The driver implements the abstract machine

    For each action of Protocol.v: the events of the machine of Exchange.v that it
    is, and that the state of the machine afterwards is the one that the new
    configuration stands for. *)

From Stdlib Require Import ZArith Lia.
From stdpp Require Import base tactics list option gmap fin_maps sets relations sorting.
From S2P Require Import Prelude Layout UserMem ConnectionTable Kernel Msgsend Channel ProcessEntry DriverData Driver Protocol ProtocolInv ProtocolSafe ProtocolMsg ProtocolReturn ProtocolOpen Interleaving Exchange.

Open Scope Z_scope.

(** ** Lists *)

(** a list of unique keys, seen through a function that does not merge them *)
Lemma omap_NoDup {A B C} (f : A -> option B) (g : A -> option C) l :
  (forall x y c, x ∈ l -> y ∈ l -> g x = Some c -> g y = Some c -> exists b, f x = Some b /\ f y = Some b) ->
  NoDup (omap f l) -> NoDup (omap g l).
Proof.
  induction l as [|x l IH]; intros Hfg Hnd; cbn; [constructor|].
  assert (Hl : NoDup (omap g l)).
  { apply IH.
    - intros y z c Hy Hz. apply Hfg; by right.
    - cbn in Hnd. destruct (f x); [by apply NoDup_cons in Hnd as [_ ?]|done]. }
  destruct (g x) as [c|] eqn:Hx; [|done]. constructor; [|done]. intros (y & Hy & Hyc)%list_elem_of_omap.
  destruct (Hfg x y c) as (b & Hbx & Hby); [by left|by right|done|done|]. cbn in Hnd. rewrite Hbx in Hnd.
  apply NoDup_cons in Hnd as [Hb _]. apply Hb. apply list_elem_of_omap. eauto.
Qed.

Lemma StronglySorted_sublist {A} (R : A -> A -> Prop) l l' : l' `sublist_of` l -> StronglySorted R l -> StronglySorted R l'.
Proof.
  induction 1 as [|x l1 l2 Hs IH|x l1 l2 Hs IH]; intros Hl; [done|..]; apply StronglySorted_inv in Hl as [Hl Hx].
  - constructor; [by apply IH|]. rewrite Forall_forall in Hx |- *. intros y Hy. apply Hx. by eapply elem_of_sublist.
  - by apply IH.
Qed.

Lemma StronglySorted_snoc {A} (R : A -> A -> Prop) l x :
  StronglySorted R l -> (forall y, y ∈ l -> R y x) -> StronglySorted R (l ++ [x]).
Proof.
  induction l as [|y l IH]; intros Hl Hx; cbn; [repeat constructor|]. apply StronglySorted_inv in Hl as [Hl Hy].
  constructor; [apply IH; [done|]|].
  - intros z Hz. apply Hx. by right.
  - apply Forall_app. split; [done|]. repeat constructor. apply Hx. by left.
Qed.

Lemma StronglySorted_weaken {A} (R R' : A -> A -> Prop) l :
  (forall x y, x ∈ l -> y ∈ l -> R x y -> R' x y) -> StronglySorted R l -> StronglySorted R' l.
Proof.
  induction l as [|y l IH]; intros Hx Hl; [constructor|]. apply StronglySorted_inv in Hl as [Hl Hy]. constructor.
  - apply IH; [|done]. intros a b ??. apply Hx; by right.
  - rewrite Forall_forall in Hy |- *. intros z Hz. apply Hx; [by left|by right|]. by apply Hy.
Qed.

Lemma list_del_sublist {A} `{EqDecision A} (x : A) l : list_del x l `sublist_of` l.
Proof.
  induction l as [|y l IH]; cbn; [done|]. case_decide; [by apply sublist_cons|by apply sublist_skip].
Qed.

Section Lookup.
  Context {M : Type} `{!UserMem M}.
  Implicit Types (s : kstate M) (h : gmap ptr kobj) (calls : list call) (own : ptr -> Z).

(** ** The exchanges of a configuration *)

Lemma exchange_of_inv h calls y id x :
  exchange_of h calls y = Some (id, x) ->
  exists p m, y = CSend (x_channel x) p (x_client x) /\ h !! p = Some (OMsg m) /\ rcvid m = id /\ x_phase x = phase_of h calls p m.
Proof.
  destruct y as [c p cur| | | |]; cbn; try done. destruct (h !! p) as [[| |m| | | |]|] eqn:Hm; try done.
  destruct (h !! c) as [[]|]; try done. destruct (data m) as [b|]; [|done].
  destruct (mb_in_base b) as [|buf|], (mb_out_base b); try done. destruct (h !! buf) as [[]|]; try done. intros [= <- <-]. eauto 6.
Qed.

Lemma exchanges_lookup own s calls held hand id x :
  inv own s calls held hand ->
  exchanges (ks_heap s) calls !! id = Some x <-> exists y, y ∈ calls /\ exchange_of (ks_heap s) calls y = Some (id, x).
Proof.
  intros Hinv. unfold exchanges. rewrite <- list_elem_of_omap. symmetry. apply elem_of_list_to_map.
  rewrite list_fmap_omap. apply (omap_NoDup sent); [|apply Hinv].
  intros y y' i Hy Hy' Hi Hi'. apply fmap_Some in Hi as ((id1 & x1) & Hx1 & ->), Hi' as ((id2 & x2) & Hx2 & Heq). cbn in Heq. subst id2.
  apply exchange_of_inv in Hx1 as (p & m & -> & Hm & Hid & _), Hx2 as (p' & m' & -> & Hm' & Hid' & _).
  assert (p = p') as <- by (eapply (i_ids _ _ _ _ _ Hinv); [exact Hy|done|exact Hy'|done|done|done|congruence]). by exists p.
Qed.

(** the exchange of a sender *)
Lemma sender_exchange own s calls held hand c p cur :
  inv own s calls held hand -> CSend c p cur ∈ calls ->
  exists m b buf bytes a ch, sender_ok (ks_heap s) own (ks_next_rcvid s) c p cur m b buf /\
    ks_heap s !! p = Some (OMsg m) /\ data m = DMsg b /\
    ks_heap s !! buf = Some (OBuf bytes) /\ mb_out_base b = OutUser a /\ ks_heap s !! c = Some (OChan ch) /\
    Z.of_nat (length bytes) = mb_in_len b /\
    exchange_of (ks_heap s) calls (CSend c p cur) = Some (rcvid m, Exchange cur (sender_pid m) c (ch_chid ch) (own c)
      (mb_coid b) bytes a (mb_out_len b) (phase_of (ks_heap s) calls p m)).
Proof.
  intros Hinv Hx. destruct (i_sender _ _ _ _ _ Hinv c p cur Hx) as (m & b & buf & Hs & _).
  destruct (i_alive _ _ _ _ _ Hinv c) as (ch & Hch); [apply elem_of_holders; right; left; eexists; split; [done|by left]|].
  pose proof Hs as [Hm _ Hd Hin (bytes & Hbuf & Hlen) (a & Hout) _ _ Hrp _ _ _].
  exists m, b, buf, bytes, a, ch. split_and!; try done. cbn [exchange_of]. by rewrite Hm, Hch, Hd, Hin, Hout, Hbuf, Hrp.
Qed.

(** an exchange is that of a sender *)
Lemma exchange_sender own s calls held hand id x :
  inv own s calls held hand -> exchanges (ks_heap s) calls !! id = Some x ->
  exists p m b buf, CSend (x_channel x) p (x_client x) ∈ calls /\
    sender_ok (ks_heap s) own (ks_next_rcvid s) (x_channel x) p (x_client x) m b buf /\
    rcvid m = id /\ x_phase x = phase_of (ks_heap s) calls p m /\ x_server x = own (x_channel x) /\
    exchange_of (ks_heap s) calls (CSend (x_channel x) p (x_client x)) = Some (id, x).
Proof.
  intros Hinv Hx. apply (exchanges_lookup _ _ _ _ _ _ _ Hinv) in Hx as (y & Hy & Hyx).
  destruct (exchange_of_inv _ _ _ _ _ Hyx) as (p & m & -> & Hm & Hid & Hph).
  destruct (sender_exchange _ _ _ _ _ _ _ _ Hinv Hy) as (m' & b & buf & bytes & a & ch & Hs & Hm' & _ & _ & _ & _ & _ & Heq).
  rewrite Hm in Hm'. injection Hm' as <-. rewrite Hyx in Heq. injection Heq as _ Heq.
  exists p, m, b, buf. split_and!; try done. by rewrite Heq.
Qed.

(** an open message is in the phase of its state *)
Lemma phase_open h calls c p m st :
  sends h calls c p st -> h !! p = Some (OMsg m) -> st ≠ QNX_STATE_FINISHED ->
  phase_of h calls p m = if st =? QNX_STATE_INITIAL then Queued
    else if st =? QNX_STATE_RECEIVING then Copying
    else if bool_decide (p ∈ omap replied calls) then Answering else Unanswered.
Proof.
  intros (cur & m' & _ & Hm' & Hst & Hss) Hm Hf. simplify_eq. unfold phase_of. rewrite Hss.
  assert (state m' =? QNX_STATE_FINISHED = false) as -> by by apply Z.eqb_neq. done.
Qed.

Lemma in_reply_omap calls p : in_reply calls p <-> p ∈ omap replied calls.
Proof. rewrite list_elem_of_omap. done. Qed.

(** ** When the exchanges change *)

(** other objects than those of the messages in [P] changed, and no channel got
    another id *)
Definition is_data (o : kobj) : Prop := match o with OMsg _ | OBuf _ | ORaw => True | _ => False end.

Record agree (P : ptr -> Prop) h h' : Prop := {
  ag_data : forall q o, ~ P q -> is_data o -> h !! q = Some o -> h' !! q = Some o;
  ag_chan : forall c ch ch', h !! c = Some (OChan ch) -> h' !! c = Some (OChan ch') -> ch_chid ch' = ch_chid ch
}.

Lemma agree_exchange own s calls held hand own' s' calls' held' hand' (P : ptr -> Prop) c p cur :
  inv own s calls held hand -> inv own' s' calls' held' hand' -> agree P (ks_heap s) (ks_heap s') ->
  CSend c p cur ∈ calls -> CSend c p cur ∈ calls' ->
  (forall q m, P q -> ks_heap s !! p = Some (OMsg m) -> q ≠ p /\ q ∉ msg_buffers m) ->
  (p ∈ omap replied calls' <-> p ∈ omap replied calls) ->
  exchange_of (ks_heap s') calls' (CSend c p cur) = exchange_of (ks_heap s) calls (CSend c p cur).
Proof.
  intros Hinv Hinv' [Hag Hch] Hx Hx' HP Hr.
  destruct (sender_exchange _ _ _ _ _ _ _ _ Hinv Hx) as (m & b & buf & bytes & a & ch & Hs & Hm & Hd & Hb & Ha & Hc & _ & _).
  destruct (sender_exchange _ _ _ _ _ _ _ _ Hinv' Hx') as (m' & b' & buf' & bytes' & a' & ch' & Hs' & Hm' & _ & _ & _ & Hc' & _ & _).
  assert (HPp : ~ P p) by (intros Hp; by destruct (HP p m Hp Hm) as [? _]).
  pose proof (Hag p (OMsg m) HPp I Hm) as Hmm. assert (m' = m) as -> by congruence.
  assert (Hbuf : ks_heap s' !! buf = Some (OBuf bytes)).
  { apply Hag; [|done|done]. intros Hp. destruct (HP buf m Hp Hm) as [_ Hn]. apply Hn. unfold msg_buffers.
    rewrite Hd, (sn_in _ _ _ _ _ _ _ _ _ Hs). by left. }
  cbn [exchange_of]. rewrite Hm, Hm', Hc, Hc', Hd, (sn_in _ _ _ _ _ _ _ _ _ Hs), Ha, Hb, Hbuf, (Hch _ _ _ Hc Hc').
  do 3 f_equal. unfold phase_of. rewrite (bool_decide_ext _ _ Hr). destruct (_ || _); [|done]. f_equal.
  destruct (Z.gtb_spec (reply_len m) 0); [|done]. unfold reply_of. destruct (reply_base m) as [r|] eqn:Hrb; [|done].
  destruct (sn_reply_buf _ _ _ _ _ _ _ _ _ Hs r Hrb) as (_ & o & Ho & Hk).
  assert (HPr : ~ P r).
  { intros Hp. destruct (HP r m Hp Hm) as [_ Hn]. apply Hn. unfold msg_buffers. rewrite Hrb. apply elem_of_app. right. by left. }
  assert (Hdo : is_data o) by (by destruct Hk as [->|[? ->]]). by rewrite Ho, (Hag r o HPr Hdo Ho).
Qed.

(** the senders of the two configurations are the same, up to [x] *)
Definition same_senders calls calls' : Prop := forall c p cur, CSend c p cur ∈ calls' <-> CSend c p cur ∈ calls.

Lemma exchanges_agree own s calls held hand own' s' calls' held' hand' :
  inv own s calls held hand -> inv own' s' calls' held' hand' -> same_senders calls calls' ->
  (forall c p cur, CSend c p cur ∈ calls ->
     exchange_of (ks_heap s') calls' (CSend c p cur) = exchange_of (ks_heap s) calls (CSend c p cur)) ->
  exchanges (ks_heap s') calls' = exchanges (ks_heap s) calls.
Proof.
  intros Hinv Hinv' Hse Heq. apply map_eq. intros id. apply option_eq. intros x.
  rewrite (exchanges_lookup _ _ _ _ _ _ _ Hinv), (exchanges_lookup _ _ _ _ _ _ _ Hinv').
  split; intros (y & Hy & Hyx); destruct (exchange_of_inv _ _ _ _ _ Hyx) as (p & m & -> & _).
  - apply Hse in Hy. exists (CSend (x_channel x) p (x_client x)). by rewrite <- Heq.
  - exists (CSend (x_channel x) p (x_client x)). rewrite Heq by done. split; [by apply Hse|done].
Qed.

(** one exchange is in another phase *)
Lemma exchanges_update own s calls held hand own' s' calls' held' hand' c0 p0 cur0 id0 x0 ph :
  inv own s calls held hand -> inv own' s' calls' held' hand' -> same_senders calls calls' ->
  CSend c0 p0 cur0 ∈ calls -> exchange_of (ks_heap s) calls (CSend c0 p0 cur0) = Some (id0, x0) ->
  exchange_of (ks_heap s') calls' (CSend c0 p0 cur0) = Some (id0, in_phase ph x0) ->
  (forall c p cur, CSend c p cur ∈ calls -> p ≠ p0 ->
     exchange_of (ks_heap s') calls' (CSend c p cur) = exchange_of (ks_heap s) calls (CSend c p cur)) ->
  exchanges (ks_heap s') calls' = <[id0 := in_phase ph x0]> (exchanges (ks_heap s) calls).
Proof.
  intros Hinv Hinv' Hse Hx0 He0 He0' Heq. apply map_eq. intros id. apply option_eq. intros x.
  pose proof (proj2 (exchanges_lookup _ _ _ _ _ id0 _ Hinv') (ex_intro _ _ (conj (proj2 (Hse _ _ _) Hx0) He0'))) as Hl'.
  pose proof (proj2 (exchanges_lookup _ _ _ _ _ id0 _ Hinv) (ex_intro _ _ (conj Hx0 He0))) as Hl.
  destruct (decide (id = id0)) as [->|Hne]; [by rewrite lookup_insert_eq, Hl'|]. rewrite lookup_insert_ne by done.
  rewrite (exchanges_lookup _ _ _ _ _ _ _ Hinv), (exchanges_lookup _ _ _ _ _ _ _ Hinv').
  split; intros (y & Hy & Hyx); destruct (exchange_of_inv _ _ _ _ _ Hyx) as (p & m & -> & _).
  - apply Hse in Hy. exists (CSend (x_channel x) p (x_client x)). split; [done|]. rewrite <- Heq; [done..|].
    intros ->. destruct (omap_unique sent calls _ _ p0 (i_sent _ _ _ _ _ Hinv) Hy Hx0 eq_refl eq_refl). congruence.
  - exists (CSend (x_channel x) p (x_client x)). split; [by apply Hse|]. rewrite Heq; [done..|].
    intros ->. destruct (omap_unique sent calls _ _ p0 (i_sent _ _ _ _ _ Hinv) Hy Hx0 eq_refl eq_refl). congruence.
Qed.

(** a sender returns *)
Lemma exchanges_remove own s calls held hand own' s' calls' held' hand' c0 p0 cur0 id0 x0 :
  inv own s calls held hand -> inv own' s' calls' held' hand' ->
  (forall c p cur, CSend c p cur ∈ calls' <-> CSend c p cur ∈ calls /\ p ≠ p0) ->
  CSend c0 p0 cur0 ∈ calls -> exchange_of (ks_heap s) calls (CSend c0 p0 cur0) = Some (id0, x0) ->
  (forall c p cur, CSend c p cur ∈ calls -> p ≠ p0 ->
     exchange_of (ks_heap s') calls' (CSend c p cur) = exchange_of (ks_heap s) calls (CSend c p cur)) ->
  exchanges (ks_heap s') calls' = delete id0 (exchanges (ks_heap s) calls).
Proof.
  intros Hinv Hinv' Hse Hx0 He0 Heq. apply map_eq. intros id. apply option_eq. intros x.
  pose proof (proj2 (exchanges_lookup _ _ _ _ _ id0 _ Hinv) (ex_intro _ _ (conj Hx0 He0))) as Hl.
  rewrite lookup_delete_Some, (exchanges_lookup _ _ _ _ _ _ _ Hinv'). split.
  - intros (y & Hy & Hyx). destruct (exchange_of_inv _ _ _ _ _ Hyx) as (p & m & -> & _). apply Hse in Hy as [Hy Hp].
    rewrite Heq in Hyx by done. assert (Hlx : exchanges (ks_heap s) calls !! id = Some x) by (apply (exchanges_lookup _ _ _ _ _ _ _ Hinv); eauto).
    split; [|done]. intros <-. rewrite Hl in Hlx. injection Hlx as <-.
    destruct (exchange_of_inv _ _ _ _ _ He0) as (p1 & m1 & Hy1 & Hm1 & Hid1 & _). injection Hy1 as -> -> ->.
    destruct (exchange_of_inv _ _ _ _ _ Hyx) as (p2 & m2 & Hy2 & Hm2 & Hid2 & _). injection Hy2 as ->.
    apply Hp. eapply (i_ids _ _ _ _ _ Hinv); [exact Hy|done|exact Hx0|done|done|done|congruence].
  - intros [Hne Hlx]. apply (exchanges_lookup _ _ _ _ _ _ _ Hinv) in Hlx as (y & Hy & Hyx).
    destruct (exchange_of_inv _ _ _ _ _ Hyx) as (p & m & -> & _). assert (Hp : p ≠ p0).
    { intros ->. destruct (omap_unique sent calls _ _ p0 (i_sent _ _ _ _ _ Hinv) Hy Hx0 eq_refl eq_refl). congruence. }
    exists (CSend (x_channel x) p (x_client x)). rewrite Heq by done. split; [by apply Hse|done].
Qed.

(** a new sender *)
Lemma exchanges_add own s calls held hand own' s' calls' held' hand' c0 p0 cur0 id0 x0 :
  inv own s calls held hand -> inv own' s' calls' held' hand' ->
  (forall c p cur, CSend c p cur ∈ calls' <-> (c, p, cur) = (c0, p0, cur0) \/ CSend c p cur ∈ calls) ->
  (forall c cur, CSend c p0 cur ∉ calls) -> exchange_of (ks_heap s') calls' (CSend c0 p0 cur0) = Some (id0, x0) ->
  (forall c p cur, CSend c p cur ∈ calls -> exchange_of (ks_heap s') calls' (CSend c p cur) = exchange_of (ks_heap s) calls (CSend c p cur)) ->
  exchanges (ks_heap s') calls' = <[id0 := x0]> (exchanges (ks_heap s) calls).
Proof.
  intros Hinv Hinv' Hse Hnew He0 Heq.
  assert (Hx0 : CSend c0 p0 cur0 ∈ calls') by (apply Hse; by left).
  rewrite (exchanges_remove own' s' calls' held' hand' own s calls held hand c0 p0 cur0 id0 x0) by
    (done || (intros c p cur; rewrite Hse; split; [intros ?; split; [by right|intros ->; by eapply Hnew]|naive_solver]) ||
     (intros c p cur [[= -> -> ->]|?]%Hse ?; [done|by rewrite Heq])).
  rewrite insert_delete_id; [done|]. apply (exchanges_lookup _ _ _ _ _ _ _ Hinv'). eauto.
Qed.

(** ** The order of the queues *)

Lemma ordered_keep h h' :
  (forall c ch', h' !! c = Some (OChan ch') ->
     waiting ch' = [] \/ exists ch, h !! c = Some (OChan ch) /\ waiting ch' `sublist_of` waiting ch) ->
  (forall c ch p, h !! c = Some (OChan ch) -> p ∈ waiting ch -> message_id h' p = message_id h p) ->
  ordered h -> ordered h'.
Proof.
  intros Hc Hid Ho c ch' Hc'. destruct (Hc c ch' Hc') as [->|(ch & Hch & Hsub)]; [constructor|].
  eapply (StronglySorted_weaken (fun p q => message_id h p < message_id h q)); [|by eapply StronglySorted_sublist, Ho].
  intros p q Hp Hq. rewrite !(Hid c ch) by (done || by eapply elem_of_sublist). done.
Qed.

End Lookup.

(** ** Steps that the machine does not see *)

Section Calm.
  Context {M : Type} `{!UserMem M}.
  Implicit Types (s : kstate M) (h : gmap ptr kobj) (calls : list call) (own : ptr -> Z).

(** messages, buffers, the ids and queues of channels are as before *)
Definition calm_heap h h' : Prop :=
  (forall q o, is_data o -> h !! q = Some o -> h' !! q = Some o) /\
  (forall c ch', h' !! c = Some (OChan ch') ->
     h !! c = None /\ waiting ch' = [] \/
     exists ch, h !! c = Some (OChan ch) /\ ch_chid ch' = ch_chid ch /\ waiting ch' = waiting ch).

Definition calm s s' : Prop :=
  calm_heap (ks_heap s) (ks_heap s') /\ ks_user s' = ks_user s /\ ks_next_rcvid s' = ks_next_rcvid s.

Lemma calm_heap_refl h : calm_heap h h.
Proof. split; [done|]. intros c ch Hc. right. eauto. Qed.

(** an object that is no message, buffer or channel *)
Definition is_aside (o : option kobj) : Prop :=
  match o with Some (OProc _) | Some (OFile _) | Some (OPollfd _) | None => True | _ => False end.

Lemma calm_heap_insert h h' q o : calm_heap h h' -> is_aside (h !! q) -> is_aside (Some o) -> calm_heap h (<[q := o]> h').
Proof.
  intros [Hd Hc] Hq Ho. split.
  - intros r x Hx Hr. rewrite lookup_insert_ne; [by apply Hd|]. intros <-. rewrite Hr in Hq. by destruct x.
  - intros c ch'. rewrite lookup_insert_Some. intros [[<- ->]|[_ ?]]; [done|by apply Hc].
Qed.

Lemma calm_heap_new_chan h h' q ch : calm_heap h h' -> h !! q = None -> waiting ch = [] -> calm_heap h (<[q := OChan ch]> h').
Proof.
  intros [Hd Hc] Hq Hw. split.
  - intros r x Hx Hr. rewrite lookup_insert_ne; [by apply Hd|]. intros <-. congruence.
  - intros c ch'. rewrite lookup_insert_Some. intros [[<- [= <-]]|[_ ?]]; [by left|by apply Hc].
Qed.

Lemma calm_heap_chan h h' q ch ch' :
  calm_heap h h' -> h !! q = Some (OChan ch) -> ch_chid ch' = ch_chid ch -> waiting ch' = waiting ch ->
  calm_heap h (<[q := OChan ch']> h').
Proof.
  intros [Hd Hc] Hq ? ?. split.
  - intros r x Hx Hr. rewrite lookup_insert_ne; [by apply Hd|]. intros <-. rewrite Hr in Hq. by simplify_eq.
  - intros c c'. rewrite lookup_insert_Some. intros [[<- [= <-]]|[_ ?]]; [|by apply Hc]. right. eauto.
Qed.

Lemma calm_heap_delete h h' q : calm_heap h h' -> (forall o, h !! q = Some o -> ~ is_data o) -> calm_heap h (delete q h').
Proof.
  intros [Hd Hc] Hq. split.
  - intros r x Hx Hr. rewrite lookup_delete_ne; [by apply Hd|]. intros <-. by eapply Hq.
  - intros c ch' [_ ?]%lookup_delete_Some. by apply Hc.
Qed.

Lemma calm_heap_release h h' q ch :
  calm_heap h h' -> h !! q = Some (OChan ch) -> calm_heap h (partial_alter (fun _ => after_release ch) q h').
Proof.
  intros Hh Hq. unfold after_release. destruct (_ =? _).
  - apply (calm_heap_delete h h' q Hh). intros o Ho. rewrite Hq in Ho. injection Ho as <-. by intros [].
  - by apply (calm_heap_chan h h' q ch).
Qed.

Lemma calm_refl s : calm s s.
Proof. split; [apply calm_heap_refl|done]. Qed.

Lemma calm_exchange own s calls own' s' calls' :
  inv own s calls [] None -> inv own' s' calls' [] None -> calm s s' -> same_senders calls calls' ->
  omap replied calls' = omap replied calls -> ordered (ks_heap s) ->
  abstract s' calls' = abstract s calls /\ ordered (ks_heap s').
Proof.
  intros Hinv Hinv' ((Hd & Hc) & Hu & Hr) Hse Hre Ho. split.
  - unfold abstract. f_equal; [done|done|]. apply (exchanges_agree own s calls [] None own' s' calls' [] None); try done.
    intros c p cur Hx. apply (agree_exchange own s calls [] None own' s' calls' [] None (fun _ => False)); try done; [|by apply Hse|by rewrite Hre].
    split; [intros q o _; apply Hd|]. intros d ch ch' Hch Hch'. destruct (Hc d ch' Hch') as [[? _]|(? & ? & ? & _)]; congruence.
  - apply (ordered_keep (ks_heap s)); [| |done].
    + intros c ch' Hch'. destruct (Hc c ch' Hch') as [[_ ?]|(ch & ? & _ & ->)]; [by left|right]. eauto.
    + intros c ch p Hch Hp. destruct (i_queued _ _ _ _ _ Hinv c ch p Hch Hp) as (? & m & _ & Hm & _).
      unfold message_id. by rewrite Hm, (Hd p (OMsg m) I Hm).
Qed.

(** ** Simulation, action by action *)

Definition sim (a : action) calls own s : Prop :=
  ordered (ks_heap s) ->
  wp (exec a calls) (fun calls' s' => forall own', inv own' s' calls' [] None -> simulates a s calls s' calls') s.

(** an action that the machine does not see *)
Lemma calm_simulates own s calls own' s' calls' a :
  inv own s calls [] None -> inv own' s' calls' [] None -> calm s s' -> same_senders calls calls' ->
  omap replied calls' = omap replied calls -> ordered (ks_heap s) -> admits a s calls [] ->
  simulates a s calls s' calls'.
Proof.
  intros Hinv Hinv' Hcalm Hse Hre Ho Ha. destruct (calm_exchange own s calls own' s' calls') as [Heq ?]; [done..|].
  split; [|done]. exists []. by split.
Qed.

(** ... and that is run by [c] *)
Lemma calm_sim {A} (c : K M A) own s calls calls' (a : action) :
  inv own s calls [] None -> same_senders calls calls' -> omap replied calls' = omap replied calls -> admits a s calls [] ->
  ordered (ks_heap s) -> wp c (fun _ s' => calm s s') s ->
  wp (let! _ := c in kret calls') (fun calls' s' => forall own', inv own' s' calls' [] None -> simulates a s calls s' calls') s.
Proof.
  intros Hinv Hse Hre Ha Ho Hc. kstep. eapply wp_mono; [exact Hc|]. cbn beta. intros x s' Hcalm. kstep.
  intros own' Hinv'. by eapply calm_simulates.
Qed.

End Calm.

#[export] Hint Resolve calm_heap_refl calm_heap_insert calm_heap_new_chan calm_heap_chan calm_heap_delete calm_heap_release calm_refl : calm.
