(* ===== verification/ExchangeSteps.v ===== *)
(** * Each action is a step of the abstract machine

    The actions of Protocol.v one by one, against the machine of Exchange.v: those
    that it does not see, and those on the way of a message. *)

From Stdlib Require Import ZArith Lia.
From stdpp Require Import base tactics list option gmap fin_maps sets relations sorting.
From S2P Require Import Prelude Layout UserMem ConnectionTable Kernel Msgsend Channel ProcessEntry DriverData Driver Protocol ProtocolInv ProtocolSafe ProtocolMsg ProtocolReturn ProtocolOpen Interleaving Exchange ExchangeSim.

Open Scope Z_scope.

Section Steps.
  Context {M : Type} `{!UserMem M} `{!UserMemLaws M}.
  Implicit Types (s : kstate M) (h : gmap ptr kobj) (calls : list call) (own : ptr -> Z).

(** ** Channels, connections, processes *)

Ltac calm_state := split; [ks_simpl; eauto 8 with calm | by split].

Lemma interrupt_sim own s calls cur : inv own s calls [] None -> sim (AInterrupt cur) calls own s.
Proof. intros Hinv Ho. unfold exec. eapply calm_sim; [done..|]. ksteps. calm_state. Qed.

Lemma detach_sim own s calls entry coid :
  inv own s calls [] None -> enabled (AConnectDetach entry coid) s calls -> sim (AConnectDetach entry coid) calls own s.
Proof.
  intros Hinv [Hin Hint] Ho. destruct (listed_proc _ _ _ _ _ _ Hinv Hin) as (e & He & Hpo & _).
  unfold exec. eapply calm_sim; [done..|]. unfold qnx_process_entry_remove_connection. ksteps.
  destruct (remove_total_wf (pe_connections e) coid Hint (po_table _ _ _ _ Hpo)) as (rc & table & -> & Ht).
  ksteps. split; [|done]. ks_simpl. apply calm_heap_insert; [apply calm_heap_refl|by rewrite He|done].
Qed.

Lemma attach_sim own s calls entry att :
  inv own s calls [] None -> enabled (AConnectAttach entry att) s calls -> sim (AConnectAttach entry att) calls own s.
Proof.
  intros Hinv [Hin Hmax] Ho. destruct (listed_proc _ _ _ _ _ _ Hinv Hin) as (e & He & Hpo & _).
  unfold exec. eapply calm_sim; [done..|]. eapply wp_mono.
  { eapply attach_keeps; [by eapply inv_entries_ok|done|by apply Hpo|done]. }
  cbn beta. intros _ s' (table & oom' & _ & ->). split; [|done]. ks_simpl.
  apply calm_heap_insert; [apply calm_heap_refl|by rewrite He|done].
Qed.

Lemma destroy_sim own s calls entry id :
  inv own s calls [] None -> enabled (AChannelDestroy entry id) s calls -> sim (AChannelDestroy entry id) calls own s.
Proof.
  intros Hinv Hin Ho. destruct (listed_proc _ _ _ _ _ _ Hinv Hin) as (e & He & Hpo & Heo).
  unfold exec. eapply calm_sim; [done..|]. unfold qnx_process_entry_remove_channel. ksteps.
  eapply wp_eq; [apply find_chid_run; intros; by eapply entry_ok_chans|].
  fold (entry_channel (ks_heap s) e id). destruct (entry_channel (ks_heap s) e id) as [c|] eqn:Hc; ksteps; [|apply calm_refl].
  destruct (entry_channel_Some _ _ _ _ Hc) as (Hce & _).
  pose proof (inv_unlink_channel _ _ _ _ _ _ _ _ Hinv He Hce) as Hinv1.
  destruct (release_ok _ _ _ _ _ _ Hinv1) as (ch & Hch & _ & Hrun). ks_simpl. rewrite lookup_insert_ne in Hch.
  2: { intros <-. by rewrite lookup_insert_eq in Hch. }
  eapply wp_eq; [exact Hrun|]. ksteps. split; [|done]. ks_simpl.
  apply calm_heap_release; [|done]. apply calm_heap_insert; [apply calm_heap_refl|by rewrite He|done].
Qed.

Lemma create_sim own s calls entry :
  inv own s calls [] None -> enabled (AChannelCreate entry) s calls -> sim (AChannelCreate entry) calls own s.
Proof.
  intros Hinv [Hin Hid] Ho. destruct (listed_proc _ _ _ _ _ _ Hinv Hin) as (e & He & Hpo & Heo).
  pose proof (fresh_next s (i_fresh _ _ _ _ _ Hinv)) as Hfresh. assert (entry ≠ ks_next s) by congruence.
  unfold exec. eapply calm_sim; [done..|].
  unfold qnx_process_entry_add_channel, qnx_channel_init, get_new_channel_id, get_num_channels_unlocked.
  kstep. destruct (kmalloc_answer (ks_oom s)) as [[] oom'] eqn:Hk.
  - eapply wp_kmalloc; [done|]. ksteps. ks_simpl.
    assert (Hi : i32 (ks_next_channel_id s + 1) = ks_next_channel_id s + 1) by (apply i32_id; unfold_int; lia). rewrite !Hi. case_cmp.
    + ksteps. assert (ks_next_channel_id s + 1 <? 0 = false) as -> by lia. ksteps. split; [|done]. ks_simpl.
      rewrite insert_insert_eq. apply calm_heap_insert; [|by rewrite He|done]. apply calm_heap_new_chan; [apply calm_heap_refl|done|done].
    + ksteps. change (- EMFILE <? 0) with true. cbn iota. ksteps. split; [|done]. ks_simpl.
      rewrite insert_insert_eq, delete_insert_id by done. apply calm_heap_refl.
  - eapply wp_kmalloc_fail; [done|]. ksteps. split; [|done]. apply calm_heap_refl.
Qed.

Lemma open_sim own s calls f cur :
  inv own s calls [] None -> enabled (AOpen f cur) s calls -> sim (AOpen f cur) calls own s.
Proof.
  intros Hinv (fl & Hfl & Hpd & Hmode) Ho. pose proof (inv_entries_ok _ _ _ _ _ Hinv) as Hok.
  pose proof (fresh_next s (i_fresh _ _ _ _ _ Hinv)) as Hp. assert (Hfn : f ≠ ks_next s) by congruence.
  assert (Hm : Z.land (f_mode fl) O_RDWR =? 0 = false) by (by apply Z.eqb_neq).
  unfold exec. eapply calm_sim; [done..|].
  destruct (find_process s (tsk_tgid cur)) as [q|] eqn:Hfp; [|destruct (kmalloc_answer (ks_oom s)) as [[] oom'] eqn:Hk].
  2: { destruct (open_run s f fl cur oom' Hok Hfl Hfn Hmode Hk Hfp) as (table & oom2 & Ht & Hrun). cbv zeta in Hrun.
    eapply wp_eq; [exact Hrun|]. split; [|done]. ks_simpl.
    apply calm_heap_insert; [|by rewrite Hfl|done]. apply calm_heap_insert; [apply calm_heap_refl|by rewrite Hp|done]. }
  all: unfold qnxcomm_open, qnx_driver_data_is_process_available, current_get_pid_nr; ksteps; rewrite Hm; cbn [negb]; ksteps;
    eapply wp_eq; [apply find_pid_run; intros; by eapply entries_procs|]; fold (find_process s (tsk_tgid cur)); rewrite Hfp; ksteps.
  - apply calm_refl.
  - eapply wp_kmalloc_fail; [done|]. ksteps. split; [apply calm_heap_refl|done].
Qed.

Lemma receive_sim own s calls entry cur addr :
  inv own s calls [] None -> enabled (AMsgReceive entry cur addr) s calls -> sim (AMsgReceive entry cur addr) calls own s.
Proof.
  intros Hinv Hin Ho. destruct (listed_proc _ _ _ _ _ _ Hinv Hin) as (e & He & Hpo & Heo).
  unfold exec. kstep. eapply wp_mono with (Q := fun _ s' => calm s s').
  { unfold handle_msgreceive_begin. ksteps. destruct (copy_from_user _ _ _ _) as [bs|] eqn:Hbs; cbn [option_map]; ksteps; [|apply calm_refl].
    eapply wp_of_run; [by eapply find_channel_run|]. destruct (entry_channel _ _ _) as [c|] eqn:Hc; [|ksteps; apply calm_refl].
    destruct (entry_channel_Some _ _ _ _ Hc) as (Hce & ch & Hch & _). rewrite Hch. ksteps. split; [|done]. ks_simpl.
    by apply (calm_heap_chan _ _ c ch); [apply calm_heap_refl|..]. }
  cbn beta. intros r s' Hcalm. kstep. intros own' Hinv'. eapply calm_simulates; [done..| | |done|done].
  - destruct r as [?|[chnl recv]]; [done|]. intros c p tc. rewrite elem_of_cons. naive_solver.
  - by destruct r as [?|[chnl recv]].
Qed.

(** ** An exchange goes on *)

Lemma sender_holds own s calls held hand c p cur id x :
  inv own s calls held hand -> CSend c p cur ∈ calls -> exchange_of (ks_heap s) calls (CSend c p cur) = Some (id, x) ->
  a_exchanges (abstract s calls) !! id = Some x.
Proof. intros Hinv Hx He. apply (exchanges_lookup _ _ _ _ _ _ _ Hinv). eauto. Qed.

(** buffers are no messages *)
Lemma buffers_kind h own rid c p cur m b buf q m' :
  sender_ok h own rid c p cur m b buf -> q ∈ msg_buffers m -> h !! q ≠ Some (OMsg m').
Proof.
  intros Hs Hin. unfold msg_buffers in Hin. rewrite (sn_data _ _ _ _ _ _ _ _ _ Hs), (sn_in _ _ _ _ _ _ _ _ _ Hs) in Hin.
  destruct (sn_bytes _ _ _ _ _ _ _ _ _ Hs) as (bytes & Hb & _).
  apply elem_of_app in Hin as [->%list_elem_of_singleton|Hin]; [congruence|].
  destruct (reply_base m) as [r|] eqn:Hr; [|by apply elem_of_nil in Hin]. apply list_elem_of_singleton in Hin as ->.
  destruct (sn_reply_buf _ _ _ _ _ _ _ _ _ Hs r Hr) as (_ & o & Ho & [->|[? ->]]); congruence.
Qed.

(** the message at [p] and its exchange change, and nothing else that the machine sees *)
Lemma phase_update own s calls own' s' calls' c p cur m m' id x ph :
  inv own s calls [] None -> inv own' s' calls' [] None -> same_senders calls calls' -> CSend c p cur ∈ calls ->
  exchange_of (ks_heap s) calls (CSend c p cur) = Some (id, x) ->
  agree (eq p) (ks_heap s) (ks_heap s') -> (forall q, q ≠ p -> q ∈ omap replied calls' <-> q ∈ omap replied calls) ->
  ks_heap s !! p = Some (OMsg m) -> ks_heap s' !! p = Some (OMsg m') ->
  rcvid m' = rcvid m -> sender_pid m' = sender_pid m -> receiver_pid m' = receiver_pid m -> data m' = data m ->
  phase_of (ks_heap s') calls' p m' = ph -> ks_next_rcvid s' = ks_next_rcvid s ->
  abstract s' calls' = set_phase id x ph (ks_user s') (abstract s calls).
Proof.
  intros Hinv Hinv' Hse Hx He Hag Hre Hm Hm' Hid Hsp Hrp Hd Hph Hri. unfold abstract, set_phase. cbn [a_last a_exchanges]. f_equal; [done|].
  apply (exchanges_update own s calls [] None own' s' calls' [] None c p cur); try done.
  - destruct (sender_exchange _ _ _ _ _ _ _ _ Hinv Hx) as (m0 & b & buf & bytes & a & ch & Hs & Hm0 & Hdb & Hb & Ha & Hc & _ & _).
    destruct (sender_exchange _ _ _ _ _ _ _ _ Hinv' (proj2 (Hse _ _ _) Hx)) as (_ & _ & _ & _ & _ & ch' & _ & _ & _ & _ & _ & Hc' & _ & _).
    simplify_eq. assert (Hb' : ks_heap s' !! buf = Some (OBuf bytes)) by (apply (ag_data _ _ _ Hag); [congruence|done|done]).
    pose proof (sn_in _ _ _ _ _ _ _ _ _ Hs) as Hin. cbn [exchange_of] in He |- *. rewrite Hm, Hc, Hdb, Hin, Ha, Hb in He. rewrite Hm', Hc', Hd, Hdb, Hin, Ha, Hb'.
    rewrite (ag_chan _ _ _ Hag _ _ _ Hc Hc'), Hid, Hsp, Hrp. by injection He as <- <-.
  - intros c1 p1 cur1 Hx1 Hp1. apply (agree_exchange own s calls [] None own' s' calls' [] None (eq p)); try done; [by apply Hse| |by apply Hre].
    intros q m1 <- Hm1. split; [done|]. intros Hin.
    destruct (sender_exchange _ _ _ _ _ _ _ _ Hinv Hx1) as (m2 & b & buf & bytes & a & ch & Hs & Hm2 & Hdb & Hb & _).
    assert (m2 = m1) as -> by congruence.
    by eapply buffers_kind in Hm.
Qed.

Lemma ordered_update own s calls p m m' h' :
  inv own s calls [] None -> ordered (ks_heap s) -> ks_heap s !! p = Some (OMsg m) -> h' !! p = Some (OMsg m') -> rcvid m' = rcvid m ->
  (forall q m, q ≠ p -> ks_heap s !! q = Some (OMsg m) -> h' !! q = Some (OMsg m)) ->
  (forall c ch', h' !! c = Some (OChan ch') -> exists ch, ks_heap s !! c = Some (OChan ch) /\ waiting ch' `sublist_of` waiting ch) ->
  ordered h'.
Proof.
  intros Hinv Ho Hm Hm' Hid Hq Hc. apply (ordered_keep (ks_heap s)); [intros; right; eauto| |done].
  intros c ch q Hch Hin. unfold message_id. destruct (decide (q = p)) as [->|Hne]; [by rewrite Hm, Hm'|].
  destruct (i_queued _ _ _ _ _ Hinv c ch q Hch Hin) as (? & mq & _ & Hmq & _). by rewrite Hmq, (Hq _ _ Hne Hmq).
Qed.

(** a message in the queue is a queued exchange, and the other way round *)
Lemma queued_phase own s calls c ch p cur :
  inv own s calls [] None -> ks_heap s !! c = Some (OChan ch) -> CSend c p cur ∈ calls ->
  (exists id x, exchange_of (ks_heap s) calls (CSend c p cur) = Some (id, x) /\ x_phase x = Queued) <-> p ∈ waiting ch.
Proof.
  intros Hinv Hc Hx. destruct (sender_exchange _ _ _ _ _ _ _ _ Hinv Hx) as (m & b & buf & bytes & a & ch0 & Hs & Hm & _ & _ & _ & _ & _ & He).
  rewrite He. split.
  - intros (id & x & [= <- <-] & Hph). cbn [x_phase] in Hph. unfold phase_of in Hph.
    destruct (_ || _) eqn:Hop; [done|]. apply orb_false_iff in Hop as [Hf%Z.eqb_neq Hss%negb_false_iff%Z.eqb_eq].
    destruct (Z.eqb_spec (state m) QNX_STATE_INITIAL) as [Hst|]; [|destruct (_ =? _); [done|by destruct (bool_decide _)]].
    destruct (i_sender _ _ _ _ _ Hinv c p cur Hx) as (m1 & b1 & buf1 & Hs1 & Hpl). pose proof (sn_msg _ _ _ _ _ _ _ _ _ Hs1). simplify_eq.
    destruct Hpl as [?|[[_ (ch1 & Hc1 & Hp)]|[[Hst1 _]|[Hst1 _]]]]; [|done|by simplify_eq|by rewrite Hst in Hst1..].
    intros [_ [?|[Hst1 _]]]; [done|by rewrite Hst in Hst1].
  - intros Hp. do 2 eexists. split; [done|]. cbn [x_phase].
    by rewrite (phase_open _ _ _ _ _ _ (i_queued _ _ _ _ _ Hinv c ch p Hc Hp) Hm).
Qed.

(** the head of a queue is the oldest exchange in it *)
Lemma head_oldest own s calls c ch p l id x :
  inv own s calls [] None -> ordered (ks_heap s) -> ks_heap s !! c = Some (OChan ch) -> waiting ch = p :: l ->
  holds (abstract s calls) id x Queued -> x_channel x = c -> message_id (ks_heap s) p <= id.
Proof.
  intros Hinv Ho Hc Hw [Hl Hph] Hxc. destruct (exchange_sender _ _ _ _ _ _ _ Hinv Hl) as (q & m & b & buf & Hx & Hs & Hid & _ & _ & He).
  rewrite Hxc in Hx, He. assert (Hq : q ∈ waiting ch) by (eapply queued_phase; eauto).
  pose proof (Ho c ch Hc) as Hsort. rewrite Hw in Hq, Hsort. apply StronglySorted_inv in Hsort as [_ Hall].
  pose proof (sn_msg _ _ _ _ _ _ _ _ _ Hs) as Hm. assert (Hmid : message_id (ks_heap s) q = id) by (unfold message_id; by rewrite Hm).
  apply elem_of_cons in Hq as [->|Hq]; [lia|]. rewrite Forall_forall in Hall. specialize (Hall q Hq). lia.
Qed.

(** ** Calls that come and go *)

Lemma omap_delete {B} (f : call -> option B) calls i x : calls !! i = Some x -> f x = None -> omap f (delete i calls) = omap f calls.
Proof.
  revert i. induction calls as [|y calls IH]; intros [|i] Hi Hx; try done; simplify_eq/=; [by rewrite Hx|]. by rewrite (IH i).
Qed.

Lemma same_senders_delete calls i x : calls !! i = Some x -> sent x = None -> same_senders calls (delete i calls).
Proof.
  intros Hi Hx c p cur. pose proof (delete_Permutation calls i x Hi) as Hp.
  assert (CSend c p cur ∈ calls <-> CSend c p cur ∈ x :: delete i calls) as -> by (by rewrite <- Hp). rewrite elem_of_cons. split; [by right|]. intros [<-|?]; done.
Qed.

Lemma same_senders_cons calls calls' x : sent x = None -> same_senders calls calls' -> same_senders calls (x :: calls').
Proof. intros Hx Hs c p cur. rewrite elem_of_cons, (Hs c p cur). split; [|by right]. intros [<-|?]; done. Qed.

(** an action that does nothing *)
Lemma idle_sim own s calls a :
  inv own s calls [] None -> ordered (ks_heap s) -> admits a s calls [] ->
  wp (kret calls) (fun calls' s' => forall own', inv own' s' calls' [] None -> simulates a s calls s' calls') s.
Proof. intros Hinv Ho Ha. kstep. intros own' Hinv'. eapply calm_simulates; try done. apply calm_refl. Qed.

(** a single event *)
Lemma one_event a s calls s' calls' ev :
  admits a s calls [ev] -> abs_step (abstract s calls) ev (abstract s' calls') -> ordered (ks_heap s') -> simulates a s calls s' calls'.
Proof. intros Ha Hs Ho. split; [|done]. exists [ev]. split; [done|]. cbn. eauto. Qed.

(** ** Receiving *)

Lemma take_sim own s calls i wait : inv own s calls [] None -> sim (AMsgReceiveTake i wait) calls own s.
Proof.
  intros Hinv Ho. unfold exec. destruct (calls !! i) as [x|] eqn:Hi; [|apply (idle_sim own); try done; cbn; by rewrite Hi].
  destruct x as [| entry chnl cur addr recv| | |]; try (apply (idle_sim own); try done; cbn; by rewrite Hi).
  pose proof (same_senders_delete _ _ _ Hi eq_refl) as Hse. pose proof (omap_delete replied _ _ _ Hi eq_refl) as Hre.
  destruct (i_alive _ _ _ _ _ Hinv chnl) as (ch & Hch).
  { apply elem_of_holders. right; left. exists (CWait entry chnl cur addr recv). split; [by eapply list_elem_of_lookup_2|by left]. }
  assert (Hrel : admits (AMsgReceiveTake i wait) s calls [] -> wp (qnx_channel_release chnl) (fun _ s' => wp (kret (delete i calls))
    (fun calls' s' => forall own', inv own' s' calls' [] None -> simulates (AMsgReceiveTake i wait) s calls s' calls') s') s).
  { intros Ha. pose proof (inv_nth _ _ _ _ _ _ _ Hi Hinv) as Hinv1. apply inv_return in Hinv1; [|done..].
    destruct (release_ok _ _ _ _ _ _ Hinv1) as (ch' & Hch' & _ & Hrun). assert (ch' = ch) as -> by congruence.
    eapply wp_eq; [exact Hrun|]. kstep. intros own' Hinv'. eapply calm_simulates; try done. split; [|done]. ks_simpl.
    apply calm_heap_release; [apply calm_heap_refl|done]. }
  unfold handle_msgreceive_dequeue. case_cmp; [ksteps; apply Hrel; cbn; rewrite Hi; right; split; [done|by left; lia]|].
  ksteps. destruct (waiting ch) as [|p l] eqn:Hw; ksteps.
  { apply Hrel. cbn. rewrite Hi. right. split; [done|]. right. intros id x [Hl Hph] Hxc.
    destruct (exchange_sender _ _ _ _ _ _ _ Hinv Hl) as (q & m & b & buf & Hx & _ & _ & _ & _ & He). rewrite Hxc in Hx, He.
    assert (Hq : q ∈ waiting ch) by (eapply queued_phase; eauto). rewrite Hw in Hq. by apply elem_of_nil in Hq. }
  assert (Hpw : p ∈ waiting ch) by (rewrite Hw; by left).
  pose proof (i_queued _ _ _ _ _ Hinv chnl ch p Hch Hpw) as Hsends. destruct Hsends as (tcur & m & Hx & Hm & Hst & Hss).
  destruct (proj2 (queued_phase _ _ _ _ _ _ _ Hinv Hch Hx) Hpw) as (id & x & He & Hph).
  destruct (exchange_of_inv _ _ _ _ _ He) as (p' & m' & Heq & Hm' & Hid & _). injection Heq as -> <- ->.
  assert (m' = m) as -> by congruence. subst id.
  assert (x_channel x ≠ p) by congruence. ksteps. intros own' Hinv'.
  set (s' := upd_heap _ (upd_heap _ s)) in *. set (calls' := CCopy _ _ _ _ _ _ _ :: _) in *.
  assert (Hh : ks_heap s' !! p = Some (OMsg (set_state QNX_STATE_RECEIVING m))) by apply lookup_insert_eq.
  assert (Hids : message_id (ks_heap s) p = rcvid m) by (unfold message_id; by rewrite Hm).
  eapply one_event with (ev := ETake (x_channel x) (rcvid m)).
  - cbn. rewrite Hi. left. eauto.
  - rewrite (phase_update own s calls own' s' calls' (x_channel x) p (x_client x) m (set_state QNX_STATE_RECEIVING m) (rcvid m) x Copying Hinv Hinv'); try done.
    + apply as_take; [split; [by eapply sender_holds|done]|done|]. intros j y Hj Hyc. rewrite <- Hids. by eapply head_oldest.
    + by apply same_senders_cons.
    + unfold s'. ks_simpl. split.
      * intros q o Hq Ho' Hqo. rewrite lookup_insert_ne by done. rewrite lookup_insert_ne; [done|]. intros <-. rewrite Hqo in Hch. by simplify_eq.
      * intros c ch1 ch2 Hc1. rewrite lookup_insert_ne by congruence. rewrite lookup_insert_Some. intros [[<- [= <-]]|[_ ?]]; [|congruence].
        by simplify_eq.
    + intros q _. unfold calls'. cbn. by rewrite Hre.
    + unfold phase_of. cbn. by rewrite Hss.
  - eapply (ordered_update own s calls p m (set_state QNX_STATE_RECEIVING m) (ks_heap s')); try done; unfold s'; ks_simpl.
    + intros q mq Hq Hmq. rewrite !lookup_insert_ne; [done|congruence|done].
    + intros c ch'. rewrite lookup_insert_Some. intros [[<- ?]|[_ Hc]]; [done|]. rewrite lookup_insert_Some in Hc.
      destruct Hc as [[<- [= <-]]|[_ ?]]; [|eauto]. exists ch. split; [done|]. cbn [waiting set_waiting]. rewrite Hw. exact (list_del_sublist p (p :: l)).
Qed.

(** the machine's copies are those of the driver *)
Lemma delivered_copies s cur addr recv ch m b bytes c srv a ph t :
  Z.of_nat (length bytes) = mb_in_len b ->
  delivered (ks_user s) (Exchange t (sender_pid m) c (ch_chid ch) srv (mb_coid b) bytes a (mb_out_len b) ph) cur addr recv =
  receive_copies s cur addr recv ch m b bytes 0.
Proof. intros Hlen. unfold delivered, receive_copies, received_struct. cbn. by rewrite Hlen. Qed.

(** a message changes next to a channel and a process *)
Lemma agree_insert (P : ptr -> Prop) h h' q o :
  agree P h h' -> P q \/ is_aside (h !! q) -> (forall ch, o ≠ OChan ch) -> agree P h (<[q := o]> h').
Proof.
  intros [Hd Hc] Hq Ho. split.
  - intros r x Hr Hx Hrx. rewrite lookup_insert_ne; [by apply Hd|]. intros <-. destruct Hq as [?|Hq]; [done|]. rewrite Hrx in Hq. by destruct x.
  - intros c ch ch' Hcc. rewrite lookup_insert_Some. intros [[<- ->]|[_ ?]]; [by edestruct Ho|by eapply Hc].
Qed.

Lemma agree_chan (P : ptr -> Prop) h h' c ch ch' :
  agree P h h' -> h !! c = Some (OChan ch) -> ch_chid ch' = ch_chid ch -> agree P h (<[c := OChan ch']> h').
Proof.
  intros [Hd Hc] Hcc Hid. split.
  - intros r x Hr Hx Hrx. rewrite lookup_insert_ne; [by apply Hd|]. intros <-. rewrite Hrx in Hcc. by simplify_eq.
  - intros d ch1 ch2 Hd1. rewrite lookup_insert_Some. intros [[<- [= <-]]|[_ ?]]; [|by eapply Hc]. by simplify_eq.
Qed.

Lemma agree_refl (P : ptr -> Prop) h : agree P h h.
Proof. split; [done|]. intros. by simplify_eq. Qed.

(** the heap after a delivery, or one that failed: the message, its receiver's
    process and the count of the channel have changed *)
Lemma ordered_deliver own s calls p m m' chnl ch entry e' n h' :
  inv own s calls [] None -> ordered (ks_heap s) -> ks_heap s !! p = Some (OMsg m) -> ks_heap s !! chnl = Some (OChan ch) ->
  h' !! p = Some (OMsg m') -> rcvid m' = rcvid m -> h' !! entry = Some (OProc e') ->
  (forall q m, ks_heap s !! q = Some (OMsg m) -> q ≠ entry) ->
  (forall q, q ≠ p -> q ≠ entry -> h' !! q = <[chnl := OChan (set_ch_refcnt n ch)]> (ks_heap s) !! q) -> ordered h'.
Proof.
  intros Hinv Ho Hm Hch Hp1 Hid1 He1 Hne Hrest. apply (ordered_update own s calls p m m' h'); try done.
  - intros q mq Hq Hmq. rewrite Hrest by eauto. rewrite lookup_insert_ne; [done|congruence].
  - intros c ch'. destruct (decide (c = p)) as [->|]; [by rewrite Hp1|]. destruct (decide (c = entry)) as [->|]; [by rewrite He1|].
    rewrite Hrest by done. rewrite lookup_insert_Some. intros [[<- [= <-]]|[_ ?]]; [exists ch|]; eauto.
Qed.

Lemma deliver_sim own s calls i : inv own s calls [] None -> sim (AMsgReceiveReturn i) calls own s.
Proof.
  intros Hinv Ho. unfold exec. destruct (calls !! i) as [x|] eqn:Hi; [|apply (idle_sim own); try done; cbn; by rewrite Hi].
  destruct x as [| |entry chnl p cur addr wait recv| |]; try (apply (idle_sim own); try done; cbn; by rewrite Hi).
  pose proof (same_senders_delete _ _ _ Hi eq_refl) as Hse. pose proof (omap_delete replied _ _ _ Hi eq_refl) as Hre.
  assert (Hcopy : CCopy entry chnl p cur addr wait recv ∈ calls) by (by eapply list_elem_of_lookup_2).
  pose proof (i_copied _ _ _ _ _ Hinv _ _ _ _ _ _ _ Hcopy) as (tcur & m & Hx & Hm & Hst & Hss).
  destruct (i_receiver _ _ _ _ _ Hinv _ entry chnl recv Hcopy eq_refl) as (Hol & e & He & Hown).
  destruct (sender_exchange _ _ _ _ _ _ _ _ Hinv Hx) as (m' & b & buf & bytes & a & ch & Hs & Hm' & Hd & Hb & Ha & Hc & Hlen & Hex).
  assert (m' = m) as -> by congruence. clear Hm'. pose proof Hs as [_ Ht _ Hin _ _ _ [Hid _] _ _ _ Hfr].
  destruct Hfr as [Hrb Hrl]; [by rewrite Hst|]. set (x := Exchange _ _ _ _ _ _ _ _ _ _) in Hex.
  assert (Hph : x_phase x = Copying) by (unfold x; cbn; by rewrite (phase_open _ _ _ _ _ _ (i_copied _ _ _ _ _ Hinv _ _ _ _ _ _ _ Hcopy) Hm)).
  assert (Hnr : p ∉ omap replied calls).
  { intros Hr%in_reply_omap. destruct (i_replied _ _ _ _ _ Hinv p Hr) as [[c Hse'] _].
    by pose proof (sends_state _ _ _ _ _ _ _ Hse' (i_copied _ _ _ _ _ Hinv _ _ _ _ _ _ _ Hcopy)). }
  assert (Hr2 : 1 < ch_refcnt ch).
  { pose proof (inv_nth _ _ _ _ _ _ _ Hi Hinv) as Hinv1. apply (inv_take _ _ _ _ _ p) in Hinv1; [|done|by left].
    eapply (sender_and_holder _ _ _ _ _ _ _ _ _ Hinv1); [by apply Hse|done]. }
  assert (H1 : chnl ≠ p) by congruence. assert (H2 : entry ≠ p) by congruence. assert (H3 : entry ≠ chnl) by congruence.
  pose proof (deliver_spec s entry e cur addr chnl ch recv wait p m b bytes buf tcur He Hc Hr2 Hm Hid Hd Ht Hin Hb Hlen Hol) as Hspec.
  cbv zeta in Hspec. destruct (receive_copies _ _ _ _ _ _ _ _ _) as [u ok] eqn:Hcp. apply wp_run in Hspec as (rc & s' & Hrun & Hu & Hal & Hcase).
  injection Hal as Hes Hnx Hoom Hri. kstep. eapply wp_eq; [exact Hrun|]. kstep. intros own' Hinv'.
  assert (Hmid : message_id (ks_heap s) p = rcvid m) by (unfold message_id; by rewrite Hm).
  assert (Hdel : delivered (a_user (abstract s calls)) x cur addr recv = (u, ok)) by (rewrite <- Hcp; by apply delivered_copies).
  assert (Hholds : holds (abstract s calls) (rcvid m) x Copying) by (split; [by eapply sender_holds|done]).
  set (h1 := <[chnl := OChan (set_ch_refcnt (ch_refcnt ch - 1) ch)]> (ks_heap s)) in *.
  assert (Hag1 : agree (eq p) (ks_heap s) h1) by (eapply agree_chan; [apply agree_refl|done|done]).
  assert (Hne : forall q m, ks_heap s !! q = Some (OMsg m) -> q ≠ entry) by congruence.
  destruct ok; destruct Hcase as (-> & Hsl & Hh).
  - assert (Hp' : ks_heap s' !! p = Some (OMsg (set_state QNX_STATE_PENDING m))) by (by rewrite Hh, lookup_insert_eq).
    eapply one_event with (ev := EDeliver (rcvid m) cur addr recv).
    + cbn. rewrite Hi, Hmid. exists (rcvid m). split; [by eexists|by left].
    + rewrite (phase_update own s calls own' s' (delete i calls) chnl p tcur m (set_state QNX_STATE_PENDING m) (rcvid m) x Unanswered); try done.
      * rewrite Hu. by apply as_deliver.
      * rewrite Hh. apply agree_insert; [|by left|done]. apply agree_insert; [done|right; by rewrite He|done].
      * intros q _. by rewrite Hre.
      * unfold phase_of. cbn. rewrite Hss, Hre. by rewrite bool_decide_eq_false_2.
    + eapply (ordered_deliver own s calls p m _ chnl ch entry _ (ch_refcnt ch - 1)); try done; rewrite Hh; [by rewrite lookup_insert_ne, lookup_insert_eq|].
      intros. by do 2 rewrite lookup_insert_ne by done.
  - set (m1 := set_state _ _) in Hh. assert (Hp' : ks_heap s' !! p = Some (OMsg m1)) by (by rewrite Hh, lookup_insert_eq).
    eapply one_event with (ev := EFault (rcvid m) cur addr recv).
    + cbn. rewrite Hi, Hmid. exists (- EFAULT). split; [by eexists|by right].
    + rewrite (phase_update own s calls own' s' (delete i calls) chnl p tcur m m1 (rcvid m) x (Closed (- EFAULT) [])); try done.
      * rewrite Hu. by apply as_fault.
      * rewrite Hh. apply agree_insert; [done|by left|done].
      * intros q _. by rewrite Hre.
    + eapply (ordered_deliver own s calls p m m1 chnl ch entry e (ch_refcnt ch - 1)); try done; rewrite Hh; [unfold h1; by rewrite !lookup_insert_ne|].
      intros. by rewrite lookup_insert_ne.
Qed.

(** ** Replying *)

(** what a process has pending are its unanswered exchanges *)
Lemma pending_unanswered own s calls entry e p :
  inv own s calls [] None -> ks_heap s !! entry = Some (OProc e) -> p ∈ pending e ->
  exists m x, CSend (x_channel x) p (x_client x) ∈ calls /\ ks_heap s !! p = Some (OMsg m) /\
    exchange_of (ks_heap s) calls (CSend (x_channel x) p (x_client x)) = Some (rcvid m, x) /\
    x_phase x = Unanswered /\ x_server x = pe_pid e /\ state m = QNX_STATE_PENDING /\ status m = 0.
Proof.
  intros Hinv He Hp. destruct (i_pending _ _ _ _ _ Hinv entry e p He Hp) as (c & Hse & Hown). pose proof Hse as (cur & m & Hx & Hm & Hst & Hss).
  destruct (sender_exchange _ _ _ _ _ _ _ _ Hinv Hx) as (m' & b & buf & bytes & a & ch & Hs & Hm' & Hd & Hb & Ha & Hc & Hlen & Hex).
  assert (m' = m) as -> by congruence. exists m. eexists (Exchange cur _ c _ _ _ _ _ _ _). split_and!; try done.
  cbn. rewrite (phase_open _ _ _ _ _ _ Hse Hm) by done. cbn. rewrite bool_decide_eq_false_2; [done|].
  intros Hr%in_reply_omap. destruct (i_replied _ _ _ _ _ Hinv p Hr) as [_ Hn]. apply Hn. by exists entry, e.
Qed.

Lemma unanswered_pending own s calls entry e id x :
  inv own s calls [] None -> ks_heap s !! entry = Some (OProc e) ->
  holds (abstract s calls) id x Unanswered -> x_server x = pe_pid e ->
  exists p, p ∈ pending e /\ has_rcvid (ks_heap s) id p = true.
Proof.
  intros Hinv He [Hl Hph] Hsrv. destruct (exchange_sender _ _ _ _ _ _ _ Hinv Hl) as (p & m & b & buf & Hx & Hs & Hid & Hpm & Hown & _).
  exists p. pose proof (sn_msg _ _ _ _ _ _ _ _ _ Hs) as Hm. split; [|unfold has_rcvid, msg_test; rewrite Hm; by apply Z.eqb_eq].
  rewrite Hph in Hpm. unfold phase_of in Hpm. destruct (_ || _) eqn:Hop; [done|].
  apply orb_false_iff in Hop as [Hf%Z.eqb_neq Hss%negb_false_iff%Z.eqb_eq].
  destruct (Z.eqb_spec (state m) QNX_STATE_INITIAL) as [|Hi]; [done|]. destruct (Z.eqb_spec (state m) QNX_STATE_RECEIVING) as [|Hr]; [done|].
  destruct (bool_decide _) eqn:Hb; [done|]. apply bool_decide_eq_false in Hb.
  destruct (i_sender _ _ _ _ _ Hinv _ p _ Hx) as (m1 & b1 & buf1 & Hs1 & Hpl). pose proof (sn_msg _ _ _ _ _ _ _ _ _ Hs1).
  assert (m1 = m) as -> by congruence.
  destruct Hpl as [?|[[? _]|[[? _]|[Hst [(q & e' & Hq & Hp)|Hrep]]]]]; try done.
  - intros [_ [?|[_ Hs2]]]; [done|by rewrite Hss in Hs2].
  - destruct (i_pending _ _ _ _ _ Hinv q e' p Hq Hp) as (c & (cur & m' & Hx' & _) & Hown').
    assert (Heq : CSend c p cur = CSend (x_channel x) p (x_client x)) by (by eapply (omap_unique sent calls _ _ p (i_sent _ _ _ _ _ Hinv))).
    injection Heq as -> ->. assert (q = entry) as -> by (eapply (i_pids _ _ _ _ _ Hinv); [done..|congruence]). by simplify_eq.
  - by apply in_reply_omap in Hrep.
Qed.

Lemma accept_sim own s calls entry id (x : ptr -> call) (a : action) :
  (forall p, replied (x p) = Some p /\ sent (x p) = None) -> inv own s calls [] None -> entry ∈ ks_entries s -> ordered (ks_heap s) ->
  (forall evs, accept_events (pid_at (ks_heap s) entry) id (abstract s calls) evs -> admits a s calls evs) ->
  wp (let! taken := qnx_process_entry_release_pending entry id in
      kret (match taken with None => calls | Some p => x p :: calls end))
     (fun calls' s' => forall own', inv own' s' calls' [] None -> simulates a s calls s' calls') s.
Proof.
  intros Hx Hinv Hin Ho Ha. destruct (listed_proc _ _ _ _ _ _ Hinv Hin) as (e & He & _ & Heo).
  assert (Hpid : pid_at (ks_heap s) entry = pe_pid e) by (unfold pid_at; by rewrite He). rewrite Hpid in Ha.
  kstep. eapply wp_of_run; [apply (release_pending_run entry e); [done|intros; by eapply entry_ok_msgs]|].
  destruct (List.find _ (pending e)) as [p|] eqn:Hf.
  - kstep. intros own' Hinv'. apply find_elem in Hf as [Hp Hid]. destruct (pending_unanswered _ _ _ _ _ _ Hinv He Hp) as (m & y & Hy & Hm & Hex & Hph & Hsrv & Hst & Hss).
    assert (rcvid m = id) as Hrid by (unfold has_rcvid, msg_test in Hid; rewrite Hm in Hid; by apply Z.eqb_eq).
    rewrite Hrid in Hex. destruct (Hx p) as [Hxr Hxs]. set (s' := upd_heap _ s) in *. assert (entry ≠ p) by congruence.
    assert (Hh : ks_heap s' !! p = Some (OMsg m)) by (unfold s'; ks_simpl; by rewrite lookup_insert_ne).
    pose proof (sender_holds _ _ _ _ _ _ _ _ _ _ Hinv Hy Hex) as Hl.
    eapply one_event with (ev := EAccept (pe_pid e) id).
    + apply Ha. unfold accept_events. rewrite Hl. by rewrite decide_True.
    + rewrite (phase_update own s calls own' s' (x p :: calls) (x_channel y) p (x_client y) m m id y Answering); try done.
      * by apply as_accept.
      * by apply same_senders_cons.
      * unfold s'. ks_simpl. apply agree_insert; [apply agree_refl|right; by rewrite He|done].
      * intros q Hq. cbn. rewrite Hxr, elem_of_cons. naive_solver.
      * unfold phase_of. rewrite Hss, Hst. cbn. rewrite Hxr. by rewrite bool_decide_eq_true_2 by by left.
    + apply (ordered_update own s calls p m m (ks_heap s')); try done; unfold s'; ks_simpl.
      * intros q mq Hq Hmq. rewrite lookup_insert_ne; [done|congruence].
      * intros c ch'. rewrite lookup_insert_Some. intros [[_ ?]|[_ ?]]; [done|eauto].
  - kstep. intros own' Hinv'. eapply calm_simulates; try done; [apply calm_refl|]. apply Ha. unfold accept_events.
    destruct (a_exchanges _ !! id) as [y|] eqn:Hl; [|done]. rewrite decide_False; [done|]. intros [Hph Hsrv].
    destruct (unanswered_pending own s calls entry e id y Hinv He) as (p & Hp & Hid); [by split|done|].
    rewrite find_None_Forall, Forall_forall in Hf. by rewrite (Hf p Hp) in Hid.
Qed.

Lemma reply_sim own s calls entry cur io :
  inv own s calls [] None -> enabled (AMsgReply entry cur io) s calls -> sim (AMsgReply entry cur io) calls own s.
Proof. intros Hinv Hin Ho. by apply (accept_sim own s calls entry (rp_rcvid io) (fun p => CReply p cur io)). Qed.

Lemma error_sim own s calls entry io :
  inv own s calls [] None -> enabled (AMsgError entry io) s calls -> sim (AMsgError entry io) calls own s.
Proof. intros Hinv Hin Ho. by apply (accept_sim own s calls entry (er_rcvid io) (fun p => CError p io)). Qed.

(** the message as a reply leaves it: its bytes are in a new buffer, if there are any *)
Definition answered s s' (p : ptr) (m : qnx_internal_msgsend) (st : Z) (reply : list Z) : Prop :=
  ks_user s' = ks_user s /\ ks_next_rcvid s' = ks_next_rcvid s /\
  exists r o len, ks_heap s' = <[p := OMsg (set_state QNX_STATE_FINISHED (set_status st (set_reply r len m)))]>
      (match r with Some q => <[q := o]> (ks_heap s) | None => ks_heap s end) /\
    (forall q, r = Some q -> ks_heap s !! q = None /\ is_data o) /\
    (len = 0 /\ reply = [] \/ 0 < len /\ is_Some r /\ o = OBuf reply).

Lemma reply_answers s cur io p m b t a x :
  ks_heap s !! p = Some (OMsg m) -> data m = DMsg b -> task m = Some t -> ks_heap s !! ks_next s = None ->
  mb_out_base b = OutUser a -> x_out x = a -> x_out_len x = mb_out_len b ->
  wp (handle_msgreply_complete cur io p) (fun _ s' => exists mem,
    let '(st, reply) := answer (ks_user s) x cur io mem in answered s s' p m st reply) s.
Proof.
  intros Hm Hd Ht Hfr Ha Hxa Hxl. assert (Hne : ks_next s ≠ p) by congruence.
  unfold handle_msgreply_complete, answer, body_of. ksteps. rewrite Hd. ksteps. rewrite Ha, Hxa, Hxl. cbn [out_is_null].
  destruct (negb (a =? 0) && (mb_out_len b >? 0) && (iov_len (rp_in io) >? 0)) eqn:Hcond.
  - kstep. destruct (kmalloc_answer (ks_oom s)) as [[] oom'] eqn:Hk.
    + eapply wp_kmalloc; [done|]. ksteps.
      destruct (copy_from_user (ks_user s) (tsk_tgid cur) (iov_base (rp_in io)) (iov_len (rp_in io))) as [bytes|] eqn:Hcp; ksteps; cbn [task set_reply]; rewrite Ht; ksteps;
        exists true; (split; [done|]; split; [done|]); ks_simpl.
      * exists (Some (ks_next s)), (OBuf bytes). eexists. split; [clear -Hne; heap_eq|]. split; [by intros q [= <-]|].
        right. apply copy_from_user_length in Hcp as [Hl _]. split; [lia|by split].
      * exists (Some (ks_next s)), ORaw, 0. split; [clear -Hne; heap_eq|]. split; [by intros q [= <-]|by left].
    + eapply wp_kmalloc_fail; [done|]. ksteps. cbn [task set_reply]. rewrite Ht. ksteps. exists false.
      split; [done|]. split; [done|]. ks_simpl. exists None, ORaw, 0. split; [by rewrite insert_insert_eq|]. split; [done|by left].
  - ksteps. cbn [task set_reply]. rewrite Ht. ksteps. exists true. split; [done|]. split; [done|]. ks_simpl.
    exists None, ORaw, 0. split; [by rewrite insert_insert_eq|]. split; [done|by left].
Qed.

Lemma error_answers s io p m t :
  ks_heap s !! p = Some (OMsg m) -> task m = Some t ->
  wp (handle_msgerror_complete io p) (fun _ s' => answered s s' p m (- Z.abs (er_error io)) []) s.
Proof.
  intros Hm Ht. unfold handle_msgerror_complete. ksteps. rewrite Ht. ksteps. split; [done|]. split; [done|]. ks_simpl.
  exists None, ORaw, 0. split; [|split; [done|by left]]. repeat f_equal. case_cmp; lia.
Qed.

(** an exchange that is answered is closed *)
Lemma answered_step own s calls own' s' calls' p m st reply a :
  inv own s calls [] None -> inv own' s' calls' [] None -> ordered (ks_heap s) -> in_reply calls p -> ks_heap s !! p = Some (OMsg m) ->
  same_senders calls calls' -> (forall q, q ≠ p -> q ∈ omap replied calls' <-> q ∈ omap replied calls) ->
  answered s s' p m st reply -> admits a s calls [EAnswer (rcvid m) st reply] -> simulates a s calls s' calls'.
Proof.
  intros Hinv Hinv' Ho Hr Hm Hse Hre (Hu & Hri & r & o & len & Hh & Hnew & Hlen) Ha.
  destruct (i_replied _ _ _ _ _ Hinv p Hr) as [[c Hsend] _]. pose proof Hsend as (cur & m0 & Hx & Hm0 & Hst & Hss). assert (m0 = m) as -> by congruence.
  destruct (sender_exchange _ _ _ _ _ _ _ _ Hinv Hx) as (m1 & b & buf & bytes & a' & ch & _ & Hm1 & _ & _ & _ & _ & _ & Hex).
  assert (m1 = m) as -> by congruence. set (x := Exchange _ _ _ _ _ _ _ _ _ _) in Hex.
  assert (Hph : x_phase x = Answering).
  { unfold x. cbn. rewrite (phase_open _ _ _ _ _ _ Hsend Hm) by done. cbn. by rewrite bool_decide_eq_true_2 by by apply in_reply_omap. }
  assert (Hrp : r ≠ Some p) by (intros ->; destruct (Hnew p eq_refl) as [? _]; congruence).
  set (m' := set_state _ _) in Hh. assert (Hp : ks_heap s' !! p = Some (OMsg m')) by (by rewrite Hh, lookup_insert_eq).
  assert (Hrest : forall q, q ≠ p -> r ≠ Some q -> ks_heap s' !! q = ks_heap s !! q).
  { intros q Hq Hrq. rewrite Hh, lookup_insert_ne by done. destruct r as [r|]; [|done]. rewrite lookup_insert_ne; [done|congruence]. }
  assert (Hlive : forall q o', ks_heap s !! q = Some o' -> r ≠ Some q) by (intros q o' Hq ->; destruct (Hnew q eq_refl) as [? _]; congruence).
  assert (Hchan : forall d ch', ks_heap s' !! d = Some (OChan ch') -> ks_heap s !! d = Some (OChan ch')).
  { intros d ch'. destruct (decide (d = p)) as [->|Hd]; [by rewrite Hp|]. destruct (decide (r = Some d)) as [->|Hd']; [|by rewrite Hrest].
    rewrite Hh, lookup_insert_ne, lookup_insert_eq by done. intros [= ->]. by destruct (Hnew d eq_refl) as [_ []]. }
  eapply one_event; [exact Ha| |].
  - rewrite (phase_update own s calls own' s' calls' c p cur m m' (rcvid m) x (Closed st reply)); try done.
    + rewrite Hu. apply as_answer. split; [by eapply sender_holds|done].
    + split; [|intros d ch1 ch2 Hd1 Hd2%Hchan; by simplify_eq]. intros q o' Hq _ Hqo. rewrite Hrest; [done|by intros ->|by eapply Hlive].
    + unfold phase_of, m'. cbn. f_equal. destruct Hlen as [[-> ->]|(Hl & [q ->] & ->)]; [done|].
      assert (len >? 0 = true) as -> by lia. cbn. assert (q ≠ p) by congruence. by rewrite Hh, lookup_insert_ne, lookup_insert_eq.
  - apply (ordered_update own s calls p m m' (ks_heap s')); try done.
    + intros q mq Hq Hmq. by rewrite Hrest; [|done|by eapply Hlive].
    + intros d ch' Hd%Hchan. eauto.
Qed.

Lemma replied_sim own s calls i : inv own s calls [] None -> sim (AReplyReturn i) calls own s.
Proof.
  intros Hinv Ho. unfold exec. destruct (calls !! i) as [y|] eqn:Hi; [|apply (idle_sim own); try done; cbn; by rewrite Hi].
  assert (Hrep : forall p, replied y = Some p -> sent y = None ->
    in_reply calls p /\ same_senders calls (delete i calls) /\
    (forall q, q ≠ p -> q ∈ omap replied (delete i calls) <-> q ∈ omap replied calls) /\
    exists c tcur m b buf bytes a ch, sender_ok (ks_heap s) own (ks_next_rcvid s) c p tcur m b buf /\
      ks_heap s !! p = Some (OMsg m) /\ data m = DMsg b /\ mb_out_base b = OutUser a /\ message_id (ks_heap s) p = rcvid m /\
      a_exchanges (abstract s calls) !! rcvid m = Some (Exchange tcur (sender_pid m) c (ch_chid ch) (own c)
        (mb_coid b) bytes a (mb_out_len b) (phase_of (ks_heap s) calls p m))).
  { intros p Hp Hs. assert (Hr : in_reply calls p) by (exists y; split; [by eapply list_elem_of_lookup_2|done]).
    split; [done|]. split; [by eapply same_senders_delete|]. split.
    - intros q Hq. pose proof (delete_Permutation calls i y Hi) as Hperm.
      assert (q ∈ omap replied calls <-> q ∈ omap replied (y :: delete i calls)) as -> by (by rewrite <- Hperm).
      cbn. rewrite Hp, elem_of_cons. naive_solver.
    - destruct (i_replied _ _ _ _ _ Hinv p Hr) as [(c & tcur & m & Hx & Hm & _) _].
      destruct (sender_exchange _ _ _ _ _ _ _ _ Hinv Hx) as (m' & b & buf & bytes & a & ch & Hso & Hm' & Hd & _ & Ha & _ & _ & Hex).
      exists c, tcur, m', b, buf, bytes, a, ch. split_and!; try done; [by unfold message_id; rewrite Hm'|by eapply sender_holds]. }
  destruct y as [| | |p cur io|p io]; try (apply (idle_sim own); try done; cbn; by rewrite Hi);
    destruct (Hrep p eq_refl eq_refl) as (Hr & Hse & Hre & c & tcur & m & b & buf & bytes & a & ch & Hso & Hm & Hd & Ha & Hmid & Hl);
    set (x := Exchange _ _ _ _ _ _ _ _ _ _) in Hl; kstep.
  - eapply wp_mono; [apply (reply_answers s cur io p m b tcur a x); try done; [by apply Hso|by eapply fresh_next, i_fresh]|].
    cbn beta. intros _ s' [mem Hans]. kstep. intros own' Hinv'. destruct (answer _ _ _ _ _) as [st reply] eqn:Hanswer.
    eapply (answered_step own s calls own'); try done. cbn. rewrite Hi, Hmid. exists x, mem. split; [done|]. by rewrite Hanswer.
  - eapply wp_mono; [apply (error_answers s io p m tcur); [done|by apply Hso]|].
    cbn beta. intros _ s' Hans. kstep. intros own' Hinv'. eapply (answered_step own s calls own'); try done. cbn. by rewrite Hi, Hmid.
Qed.

(** ** Reading *)

Lemma read_sim own s calls entry cur io :
  inv own s calls [] None -> enabled (AMsgRead entry cur io) s calls -> sim (AMsgRead entry cur io) calls own s.
Proof.
  intros Hinv (Hin & Hoff & Hlen) Ho. destruct (listed_proc _ _ _ _ _ _ Hinv Hin) as (e & He & _ & Heo).
  assert (Hpid : pid_at (ks_heap s) entry = pe_pid e) by (unfold pid_at; by rewrite He).
  unfold exec. kstep. eapply wp_mono with (Q := fun _ s' =>
    s' = s /\ read_events (pe_pid e) cur io (abstract s calls) [] \/
    exists u ev, s' = upd_user u s /\ read_events (pe_pid e) cur io (abstract s calls) [ev] /\
      abs_step (abstract s calls) ev (abstract (upd_user u s) calls)).
  2: { cbn beta. intros _ s' Hcase. kstep. intros own' Hinv'. destruct Hcase as [[-> Hev]|(u & ev & -> & Hev & Hstep)].
    - eapply calm_simulates; try done; [apply calm_refl|]. cbn. by rewrite Hpid.
    - eapply one_event; [|exact Hstep|exact Ho]. cbn. by rewrite Hpid. }
  unfold handle_msgread. ksteps. eapply wp_eq; [apply find_rcvid_run; intros; by eapply entry_ok_msgs|].
  destruct (List.find _ (pending e)) as [p|] eqn:Hf.
  2: { ksteps. left. split; [done|]. unfold read_events. destruct (a_exchanges _ !! _) as [x|] eqn:Hl; [|done].
    rewrite decide_False; [done|]. intros (Hph & Hsrv & _).
    destruct (unanswered_pending own s calls entry e (rd_rcvid io) x Hinv He) as (p & Hp & Hid); [by split|done|].
    rewrite find_None_Forall, Forall_forall in Hf. by rewrite (Hf p Hp) in Hid. }
  apply find_elem in Hf as [Hp Hid]. destruct (pending_unanswered _ _ _ _ _ _ Hinv He Hp) as (m & x & Hx & Hm & Hex & Hph & Hsrv & _).
  assert (rcvid m = rd_rcvid io) as Hrid by (unfold has_rcvid, msg_test in Hid; rewrite Hm in Hid; by apply Z.eqb_eq).
  destruct (sender_exchange _ _ _ _ _ _ _ _ Hinv Hx) as (m' & b & buf & bytes & a & ch & Hs & Hm' & Hd & Hb & _ & _ & Hbl & Hex').
  assert (m' = m) as -> by congruence. rewrite Hex in Hex'. injection Hex' as Hex'. assert (Hreq : x_request x = bytes) by (by rewrite Hex').
  rewrite Hrid in Hex. pose proof (sender_holds _ _ _ _ _ _ _ _ _ _ Hinv Hx Hex) as Hl. unfold read_events. rewrite Hl, Hreq, Hbl. cbv zeta.
  unfold body_of, in_bytes. ksteps. rewrite Hd. ksteps.
  destruct (Z.geb_spec (rd_offset io) 0) as [H0|H0]; [|ksteps; left; split; [done|]; rewrite decide_False; [done|lia]]. cbn [andb].
  rewrite (u64_id (rd_offset io)) by (unfold_int; lia).
  destruct (Z.leb_spec (rd_offset io) (mb_in_len b)); [|ksteps; left; split; [done|]; rewrite decide_False; [done|lia]].
  set (n := i32 _). destruct (Z.ltb_spec n 0); [ksteps; left; split; [done|]; rewrite decide_False; [done|lia]|].
  rewrite (sn_in _ _ _ _ _ _ _ _ _ Hs). ksteps.
  assert (Hn : n <= mb_in_len b - rd_offset io).
  { unfold n. unfold_int. set (k := Z.min _ _). assert (0 <= k <= mb_in_len b - rd_offset io).
    { unfold k. pose proof (Z.mod_pos_bound (mb_in_len b - rd_offset io) (2 ^ 64)).
      pose proof (Z.mod_le (mb_in_len b - rd_offset io) (2 ^ 64)). lia. }
    pose proof (Z.mod_le (k + 2 ^ 31) (2 ^ 32)). lia. }
  destruct (copy_to_user (ks_user s) (tsk_tgid cur) (iov_base (rd_out io))
    (take (Z.to_nat n) (drop (Z.to_nat (rd_offset io)) bytes))) as [u ok] eqn:Hcp. ksteps.
  right. eexists u, _. split; [done|]. split; [rewrite decide_True; [done|split_and!; done || lia]|].
  eapply as_read; [by split|done|lia|lia|rewrite Hreq; lia|by rewrite Hreq].
Qed.

End Steps.
