(* ===== verification/ExchangeEnds.v ===== *)
(** * Each action is a step of the abstract machine: the ends of an exchange

    MsgSend that opens an exchange, its return that ends it, and a process that
    goes and ends those it has not answered; with ExchangeSteps.v, all actions. *)

From Stdlib Require Import ZArith Lia.
From stdpp Require Import base tactics list option gmap fin_maps sets relations sorting.
From S2P Require Import Prelude Layout UserMem ConnectionTable Kernel Msgsend Channel ProcessEntry DriverData Driver Protocol ProtocolInv ProtocolSafe ProtocolMsg ProtocolReturn ProtocolOpen Interleaving Exchange ExchangeSim ExchangeSteps.

Open Scope Z_scope.

Section Ends.
  Context {M : Type} `{!UserMem M} `{!UserMemLaws M}.
  Implicit Types (s : kstate M) (h : gmap ptr kobj) (calls : list call) (own : ptr -> Z).

(** ** Sending *)

Lemma reject_sim own s calls own' s' a :
  inv own s calls [] None -> inv own' s' calls [] None -> ordered (ks_heap s) -> unchanged s s' -> 0 <= ks_next_rcvid s < INT_MAX ->
  (forall id, admits a s calls [EReject id]) -> simulates a s calls s' calls.
Proof.
  intros Hinv Hinv' Ho (Hh & Hre & _ & Hid) Hmax Ha. injection Hre as Hus _ _ _ _ _.
  eapply one_event; [apply (Ha (ks_next_rcvid s'))| |by rewrite Hh]. unfold abstract. rewrite Hh, Hus.
  apply as_reject. cbn. destruct Hid as [->| ->]; [done|]. rewrite i32_id by (unfold_int; lia). lia.
Qed.

(** a new message at the end of a queue *)
Lemma ordered_send own s calls h' chnl c p m :
  inv own s calls [] None -> ordered (ks_heap s) -> ks_heap s !! chnl = Some (OChan c) -> ks_heap s !! p = None ->
  h' !! p = Some (OMsg m) -> ks_next_rcvid s < rcvid m ->
  (forall q o, is_data o -> ks_heap s !! q = Some o -> h' !! q = Some o) ->
  (forall d ch', h' !! d = Some (OChan ch') -> d = chnl /\ waiting ch' = waiting c ++ [p] \/ ks_heap s !! d = Some (OChan ch')) ->
  ordered h'.
Proof.
  intros Hinv Ho Hc Hp Hm Hid Hdata Hchan d ch' Hd.
  assert (Hmid : forall d ch q, ks_heap s !! d = Some (OChan ch) -> q ∈ waiting ch ->
    message_id h' q = message_id (ks_heap s) q /\ message_id (ks_heap s) q <= ks_next_rcvid s).
  { intros d1 ch q Hd1 Hq. destruct (i_queued _ _ _ _ _ Hinv d1 ch q Hd1 Hq) as (cur & mq & Hx & Hmq & _). unfold message_id.
    rewrite Hmq, (Hdata q (OMsg mq) I Hmq). split; [done|].
    destruct (i_sender _ _ _ _ _ Hinv _ _ _ Hx) as (m' & b & buf & Hs & _). pose proof (sn_msg _ _ _ _ _ _ _ _ _ Hs). simplify_eq. apply Hs. }
  assert (Hkeep : forall d ch, ks_heap s !! d = Some (OChan ch) -> StronglySorted (fun p q => message_id h' p < message_id h' q) (waiting ch)).
  { intros d1 ch Hd1. eapply StronglySorted_weaken; [|by apply (Ho d1 ch)]. intros q r Hq Hr.
    destruct (Hmid d1 ch q Hd1 Hq) as [-> _], (Hmid d1 ch r Hd1 Hr) as [-> _]. done. }
  destruct (Hchan d ch' Hd) as [[-> ->]|Hd']; [|by eapply Hkeep]. apply StronglySorted_snoc; [by eapply Hkeep|].
  intros q Hq. destruct (Hmid chnl c q Hc Hq) as [-> ?]. unfold message_id at 2. rewrite Hm. lia.
Qed.

Lemma send_sim own s calls entry cur addr :
  inv own s calls [] None -> enabled (AMsgSend entry cur addr) s calls -> sim (AMsgSend entry cur addr) calls own s.
Proof.
  intros Hinv (Hin & Hrid & Htid) Ho. destruct (listed_proc _ _ _ _ _ _ Hinv Hin) as (e & He & Hpo & _).
  pose proof (i_fresh _ _ _ _ _ Hinv) as Hf. pose proof (fresh_next s Hf) as Hp.
  set (p := ks_next s) in *. set (buf := Pos.succ p).
  assert (Hbuf : ks_heap s !! buf = None) by (apply Hf; unfold buf, p; lia). assert (Hpb : p ≠ buf) by (unfold buf; lia).
  pose proof (msgsend_begin_spec s entry e cur addr Hf (inv_entries_ok _ _ _ _ _ Hinv) He (po_table _ _ _ _ Hpo)) as Hspec.
  cbv zeta in Hspec. fold p buf in Hspec. rewrite i32_id in Hspec by (unfold_int; lia).
  unfold exec. kstep. eapply wp_mono; [exact Hspec|]. clear Hspec. cbn beta. intros r s' Hcase. kstep. intros own' Hinv'.
  assert (Ha : forall evs, send_events s e cur addr evs -> admits (AMsgSend entry cur addr) s calls evs) by (intros evs ?; by exists e).
  unfold send_events in Ha.
  destruct (send_request s cur addr) as [rc|[[io bytes] oom']] eqn:Hreq; [destruct Hcase as [-> ?]; by eapply reject_sim; eauto|].
  destruct (send_target s e (ms_coid io)) as [[conn chnl]|] eqn:Htgt; [|destruct Hcase as [-> ?]; by eapply reject_sim; eauto].
  destruct Hcase as (-> & Hid & _ & c & Hc & Hr & Hh & Hre & Hf'). injection Hre as Hus _ _ _ _ _.
  assert (Hcp : chnl ≠ p) by congruence. assert (Hcb : chnl ≠ buf) by congruence. set (m := set_receiver_chid _ _) in Hh.
  assert (Hm : ks_heap s' !! p = Some (OMsg m)) by (by rewrite Hh, lookup_insert_ne, lookup_insert_eq).
  assert (Hb : ks_heap s' !! buf = Some (OBuf bytes)) by (by rewrite Hh, !lookup_insert_ne, lookup_insert_eq by done).
  assert (Hc' : ks_heap s' !! chnl = Some (OChan (with_message p c))) by (by rewrite Hh, lookup_insert_eq).
  assert (Hdata : forall q o, is_data o -> ks_heap s !! q = Some o -> ks_heap s' !! q = Some o).
  { intros q o Hod Hq. rewrite Hh, !lookup_insert_ne by (congruence || (intros <-; rewrite Hq in Hc; by simplify_eq)). done. }
  assert (Hchan : forall d ch', ks_heap s' !! d = Some (OChan ch') -> d = chnl /\ ch' = with_message p c \/ ks_heap s !! d = Some (OChan ch')).
  { intros d ch'. rewrite Hh, !lookup_insert_Some. intros [[<- [= <-]]|[_ [[_ ?]|[_ [[_ ?]|[_ ?]]]]]]; by auto. }
  eapply one_event; [by apply Ha| |].
  - unfold abstract at 2. rewrite Hus, Hid, (exchanges_add own s calls [] None own' s' (CSend chnl p cur :: calls) [] None chnl p cur
      (ks_next_rcvid s + 1) (new_exchange s e cur io bytes conn chnl)); try done.
    + apply as_send; [cbn; lia|done|]. intros j y Hy. destruct (exchange_sender _ _ _ _ _ _ _ Hinv Hy) as (q & mq & b & buf' & Hx & _).
      intros Heq. apply (Htid _ Hx). cbn. by f_equal.
    + intros c1 p1 cur1. rewrite elem_of_cons. split; [intros [[= -> -> ->]|?]; auto|intros [[= -> -> ->]|?]; auto].
    + intros c1 cur1 Hx. destruct (i_sender _ _ _ _ _ Hinv _ _ _ Hx) as (m1 & b & buf' & Hs & _). pose proof (sn_msg _ _ _ _ _ _ _ _ _ Hs). congruence.
    + cbn [exchange_of]. rewrite Hm, Hc'. cbn. rewrite Hb. unfold new_exchange. by rewrite Hc.
    + intros c1 p1 cur1 Hx. apply (agree_exchange own s calls [] None own' s' _ [] None (fun _ => False)); try done; [|by right].
      split; [intros; by apply Hdata|]. intros d ch1 ch2 Hd1 Hd2. destruct (Hchan d ch2 Hd2) as [[-> ->]|?]; by simplify_eq.
  - apply (ordered_send own s calls (ks_heap s') chnl c p m); try done; [cbn; lia|].
    intros d ch' Hd. destruct (Hchan d ch' Hd) as [[-> ->]|?]; auto.
Qed.

(** ** Returning *)

(** an interrupted sender only touches the queue or the list that has its message *)
Lemma resumed_heap s chnl ch m b sleep :
  entries_ok s -> ks_heap s !! chnl = Some (OChan ch) ->
  let h1 := snd (resumed s chnl ch m b sleep) in
  (forall q o, is_data o -> ks_heap s !! q = Some o -> h1 !! q = Some o) /\
  (forall d ch', h1 !! d = Some (OChan ch') -> exists ch0, ks_heap s !! d = Some (OChan ch0) /\ ch_chid ch' = ch_chid ch0 /\
     waiting ch' `sublist_of` waiting ch0).
Proof.
  intros Hok Hc. assert (Hid : (forall q o, is_data o -> ks_heap s !! q = Some o -> ks_heap s !! q = Some o) /\
    (forall d ch', ks_heap s !! d = Some (OChan ch') -> exists ch0, ks_heap s !! d = Some (OChan ch0) /\ ch_chid ch' = ch_chid ch0 /\
       waiting ch' `sublist_of` waiting ch0)) by (split; eauto).
  unfold resumed, interrupted_outcome. destruct (interruption b sleep) as [code|]; [|done].
  destruct (List.find _ (waiting ch)) as [q|]; cbn [snd].
  { split.
    - intros r o Ho Hr. rewrite lookup_insert_ne; [done|]. intros <-. rewrite Hr in Hc. by simplify_eq.
    - intros d ch'. rewrite lookup_insert_Some. intros [[<- [= <-]]|[_ ?]]; [|eauto]. exists ch. split_and!; try done. apply list_del_sublist. }
  destruct (find_process s (receiver_pid m)) as [entry|]; cbn [snd]; [|done].
  destruct (ks_heap s !! entry) as [[| | | |e| |]|] eqn:He; cbn [snd]; try done. destruct (List.find _ (pending e)) as [q|]; cbn [snd]; [|done]. split.
  - intros r o Ho Hr. rewrite lookup_insert_ne; [done|]. intros <-. rewrite Hr in He. by simplify_eq.
  - intros d ch'. rewrite lookup_insert_Some. intros [[_ ?]|[_ ?]]; [done|eauto].
Qed.

Lemma interruption_negative b sleep code : interruption b sleep = Some code -> code < 0.
Proof. unfold interruption. destruct (_ && _); [by intros [= <-]|]. by destruct (sl_signal sleep); [intros [= <-]|]. Qed.

(** a settled exchange is closed *)
Lemma phase_closed h calls p m :
  state m = QNX_STATE_FINISHED \/ status m = - ESRCH ->
  phase_of h calls p m = Closed (status m) (if reply_len m >? 0 then reply_of h m else []).
Proof. intros [Hst|Hss]; unfold phase_of; [rewrite Hst|rewrite Hss, orb_true_r]; done. Qed.

(** an interrupted sender leaves with the code of the interruption, and its exchange
    is nobody else's; or its exchange is closed *)
Lemma resumed_cases own s calls i chnl p cur m b buf ch sleep :
  inv own s calls [] None -> enabled (AMsgSendReturn i sleep) s calls -> calls !! i = Some (CSend chnl p cur) ->
  sender_ok (ks_heap s) own (ks_next_rcvid s) chnl p cur m b buf -> ks_heap s !! chnl = Some (OChan ch) ->
  let rc0 := fst (resumed s chnl ch m b sleep) in
  let ph := phase_of (ks_heap s) calls p m in
  interruption b sleep = Some rc0 /\ ph ≠ Copying /\ ph ≠ Answering \/
  rc0 = status m /\ ph = Closed (status m) (if reply_len m >? 0 then reply_of (ks_heap s) m else []).
Proof.
  intros Hinv Hen Hi Hs Hch. assert (Hx : CSend chnl p cur ∈ calls) by by eapply list_elem_of_lookup_2.
  pose proof Hs as [Hm Ht Hd _ _ _ _ _ Hrp _ _ _]. destruct (Hen chnl p cur m b Hi Hm Hd) as [_ Hcase]. cbv zeta. unfold resumed.
  destruct (interruption b sleep) as [code|]; [|right; split; [done|by apply phase_closed]]. destruct Hcase as [Hst Hnr].
  assert (Hph : phase_of (ks_heap s) calls p m ≠ Copying /\ phase_of (ks_heap s) calls p m ≠ Answering).
  { unfold phase_of. destruct (_ || _); [done|]. destruct (_ =? _); [done|]. destruct (Z.eqb_spec (state m) QNX_STATE_RECEIVING); [done|].
    rewrite bool_decide_eq_false_2; [done|]. by rewrite <- in_reply_omap. }
  unfold interrupted_outcome. destruct (List.find _ (waiting ch)) as [q|] eqn:Hfw; cbn [fst]; [by left|].
  destruct (find_process s (receiver_pid m)) as [entry|] eqn:Hfp; cbn [fst]; [|by left].
  destruct (find_process_Some _ _ _ (inv_entries_ok _ _ _ _ _ Hinv) Hfp) as (_ & e & He & Hpid & _). rewrite He.
  destruct (List.find _ (pending e)) as [q|] eqn:Hfq; cbn [fst]; [by left|]. right. split; [done|].
  destruct (i_sender _ _ _ _ _ Hinv chnl p cur Hx) as (m1 & b1 & buf1 & Hs1 & Hpl). pose proof (sn_msg _ _ _ _ _ _ _ _ _ Hs1).
  assert (m1 = m) as -> by congruence. destruct (settled_dec (ks_sleeping s) cur m) as [[_ [?|[_ ?]]]|Hns]; [apply phase_closed; by left|apply phase_closed; by right|].
  exfalso. rewrite find_None_Forall, Forall_forall in Hfw, Hfq. pose proof (has_own_id s p m Hm) as Hown.
  destruct (Hpl Hns) as [|[[_ (ch1 & Hc1 & Hp)]|[[? _]|[_ [(q & e' & Hq & Hp)|?]]]]]; [done| |done| |done].
  - simplify_eq. by rewrite (Hfw p Hp) in Hown.
  - destruct (i_pending _ _ _ _ _ Hinv q e' p Hq Hp) as (c & (cur' & m' & Hx' & _) & Hc).
    assert (Heq : CSend c p cur' = CSend chnl p cur) by (by eapply (omap_unique sent calls _ _ p (i_sent _ _ _ _ _ Hinv))).
    injection Heq as -> ->. assert (q = entry) as -> by (eapply (i_pids _ _ _ _ _ Hinv); [done..|congruence]).
    assert (e' = e) as -> by congruence. by rewrite (Hfq p Hp) in Hown.
Qed.

(** the machine's result of a return is that of the driver *)
Lemma returned_epilogue s cur b m a x :
  reply_ok (ks_heap s) m -> x_client x = cur -> x_out x = a -> x_out_len x = mb_out_len b -> 0 <= mb_out_len b ->
  returned (ks_user s) x (status m) (if reply_len m >? 0 then reply_of (ks_heap s) m else []) = epilogue_result s cur b m a (status m).
Proof.
  intros Hok Hcur Ha Hl Hol. unfold returned, epilogue_result. rewrite Hcur, Ha, Hl. destruct (Z.gtb_spec (reply_len m) 0) as [Hlen|Hlen].
  - unfold reply_ok in Hok. unfold reply_of. destruct (reply_base m) as [r|]; [|lia]. destruct Hok as [_ Hb].
    destruct (Hb ltac:(lia)) as (bytes & -> & Hbl). rewrite bool_decide_eq_true_2 by (intros ->; cbn in Hbl; lia).
    destruct (status m >=? 0); [|done]. cbn [andb].
    assert (take (Z.to_nat (mb_out_len b)) bytes = take (Z.to_nat (Z.min (mb_out_len b) (reply_len m))) bytes) as ->; [|done].
    destruct (Z.min_spec (mb_out_len b) (reply_len m)) as [[? ->]|[? ->]]; [done|]. rewrite !take_ge; [done|lia..].
  - rewrite bool_decide_eq_false_2 by (intros []; done). by rewrite !andb_false_r.
Qed.

(** the senders without one *)
Lemma senders_without own s calls held hand i chnl p cur :
  inv own s calls held hand -> calls !! i = Some (CSend chnl p cur) ->
  forall c q t, CSend c q t ∈ delete i calls <-> CSend c q t ∈ calls /\ q ≠ p.
Proof.
  intros Hinv Hi c q t. pose proof (delete_Permutation calls i _ Hi) as Hp.
  assert (CSend c q t ∈ calls <-> CSend c q t ∈ CSend chnl p cur :: delete i calls) as -> by (by rewrite <- Hp).
  pose proof (i_sent _ _ _ _ _ Hinv) as Hnd. rewrite Hp in Hnd. cbn in Hnd. apply NoDup_cons in Hnd as [Hn _].
  rewrite elem_of_cons. split.
  - intros Hx. split; [by right|]. intros ->. apply Hn. apply list_elem_of_omap. by exists (CSend c p t).
  - intros [[[= -> -> ->]|?] ?]; done.
Qed.

(** all that a message consists of goes, and nothing that belongs to another one *)
Lemma remove_exchange own s calls own' s' i chnl p cur m b buf ch0 h1 id x :
  inv own s calls [] None -> inv own' s' (delete i calls) [] None -> calls !! i = Some (CSend chnl p cur) ->
  sender_ok (ks_heap s) own (ks_next_rcvid s) chnl p cur m b buf ->
  exchange_of (ks_heap s) calls (CSend chnl p cur) = Some (id, x) ->
  (forall q o, is_data o -> ks_heap s !! q = Some o -> h1 !! q = Some o) ->
  (forall d ch', h1 !! d = Some (OChan ch') -> exists ch0, ks_heap s !! d = Some (OChan ch0) /\ ch_chid ch' = ch_chid ch0 /\
     waiting ch' `sublist_of` waiting ch0) ->
  h1 !! chnl = Some (OChan ch0) -> ordered (ks_heap s) ->
  ks_heap s' = without_message p buf m (partial_alter (fun _ => after_release ch0) chnl h1) ->
  (forall d ch p', h1 !! d = Some (OChan ch) -> p' ∈ waiting ch -> p' ≠ p) ->
  exchanges (ks_heap s') (delete i calls) = delete id (exchanges (ks_heap s) calls) /\ ordered (ks_heap s').
Proof.
  intros Hinv Hinv' Hi Hs Hex Hdata Hchan Hc0 Ho Hh Hnp. assert (Hx : CSend chnl p cur ∈ calls) by by eapply list_elem_of_lookup_2.
  pose proof (sn_msg _ _ _ _ _ _ _ _ _ Hs) as Hm. set (P q := q = p \/ q ∈ msg_buffers m).
  assert (Hbufs : forall q, q = buf \/ reply_base m = Some q -> q ∈ msg_buffers m).
  { intros q. unfold msg_buffers. rewrite (sn_data _ _ _ _ _ _ _ _ _ Hs), (sn_in _ _ _ _ _ _ _ _ _ Hs), elem_of_app.
    intros [-> | ->]; [left|right]; by left. }
  assert (Hkeep : forall q o, ~ P q -> is_data o -> ks_heap s !! q = Some o -> ks_heap s' !! q = Some o).
  { intros q o Hq Hod Hqo. rewrite Hh. apply without_message_Some. split_and!; [|intros ->|intros Hr|].
    - intros ->. apply Hq. by left.
    - apply Hq. right. apply Hbufs. by left.
    - apply Hq. right. apply Hbufs. by right.
    - pose proof (Hdata q o Hod Hqo). rewrite lookup_partial_alter_ne; [done|]. intros <-. rewrite Hc0 in H. by simplify_eq. }
  assert (Hch' : forall d ch', ks_heap s' !! d = Some (OChan ch') -> exists ch1, h1 !! d = Some (OChan ch1) /\
    ch_chid ch' = ch_chid ch1 /\ waiting ch' = waiting ch1).
  { intros d ch'. rewrite Hh, without_message_Some. intros (_ & _ & _ & Hd). destruct (decide (d = chnl)) as [->|Hdc].
    - rewrite lookup_partial_alter_eq in Hd. unfold after_release in Hd. destruct (_ =? _); [done|]. injection Hd as <-. by exists ch0.
    - rewrite lookup_partial_alter_ne in Hd by done. by exists ch'. }
  split.
  - apply (exchanges_remove own s calls [] None own' s' _ [] None chnl p cur id x); try done; [by eapply senders_without|].
    intros c1 p1 cur1 Hx1 Hp1. apply (agree_exchange own s calls [] None own' s' _ [] None P); try done.
    + split; [exact Hkeep|]. intros d ch1 ch2 Hd1 Hd2. destruct (Hch' d ch2 Hd2) as (ch3 & Hd3 & Hid3 & _).
      destruct (Hchan d ch3 Hd3) as (ch4 & Hd4 & Hid4 & _). simplify_eq. congruence.
    + by eapply senders_without.
    + intros q m1 Hq Hm1. destruct (sender_exchange _ _ _ _ _ _ _ _ Hinv Hx1) as (m2 & b2 & buf2 & bytes2 & a2 & ch2 & Hs2 & Hm2 & Hd2 & Hb2 & _).
      assert (m2 = m1) as -> by congruence. destruct Hq as [->|Hq].
      * split; [done|]. intros Hin. exact (buffers_kind _ _ _ _ _ _ _ _ _ _ _ Hs2 Hin Hm).
      * split.
        -- intros ->. exact (buffers_kind _ _ _ _ _ _ _ _ _ _ _ Hs Hq Hm1).
        -- intros Hin. apply Hp1. eapply (i_buffers _ _ _ _ _ Hinv); [exact Hx1|done|exact Hx|done|done|done|exact Hin|done].
    + by rewrite (omap_delete replied calls i _ Hi eq_refl).
  - apply (ordered_keep h1).
    + intros d ch' Hd. right. destruct (Hch' d ch' Hd) as (ch1 & Hd1 & _ & ->). eauto.
    + intros d ch q Hd Hq. destruct (Hchan d ch Hd) as (ch1 & Hd1 & _ & Hsub).
      assert (Hq1 : q ∈ waiting ch1) by (by eapply elem_of_sublist).
      destruct (i_queued _ _ _ _ _ Hinv d ch1 q Hd1 Hq1) as (tq & mq & Hxq & Hmq & _). unfold message_id.
      rewrite (Hdata q (OMsg mq) I Hmq), (Hkeep q (OMsg mq)); [done| |done|done].
      intros [->|Hq2]; [by eapply Hnp|]. exact (buffers_kind _ _ _ _ _ _ _ _ _ _ _ Hs Hq2 Hmq).
    + apply (ordered_keep (ks_heap s)); [| |done].
      * intros d ch' Hd. right. destruct (Hchan d ch' Hd) as (ch1 & ? & _ & ?). eauto.
      * intros d ch q Hd Hq. destruct (i_queued _ _ _ _ _ Hinv d ch q Hd Hq) as (tq & mq & Hxq & Hmq & _). unfold message_id.
        by rewrite Hmq, (Hdata q (OMsg mq) I Hmq).
Qed.

Lemma return_sim own s calls i sleep :
  inv own s calls [] None -> enabled (AMsgSendReturn i sleep) s calls -> sim (AMsgSendReturn i sleep) calls own s.
Proof.
  intros Hinv Hen Ho. unfold exec. destruct (calls !! i) as [y|] eqn:Hi; [|apply (idle_sim own); try done; cbn; by rewrite Hi].
  destruct y as [chnl p cur| | | |]; try (apply (idle_sim own); try done; cbn; by rewrite Hi).
  assert (Hx : CSend chnl p cur ∈ calls) by by eapply list_elem_of_lookup_2.
  destruct (sender_exchange _ _ _ _ _ _ _ _ Hinv Hx) as (m & b & buf & bytes & a & ch & Hs & Hm & Hd & Hb & Ha & Hc & Hlen & Hex).
  set (x := Exchange _ _ _ _ _ _ _ _ _ _) in Hex.
  pose proof (return_run own s calls i sleep chnl p cur m b buf a ch Hinv Hen Hi Hs Ha Hc) as Hrun.
  pose proof (resumed_heap s chnl ch m b sleep (inv_entries_ok _ _ _ _ _ Hinv) Hc) as [Hdata Hchan].
  pose proof (resumed_cases own s calls i chnl p cur m b buf ch sleep Hinv Hen Hi Hs Hc) as Hcases. cbv zeta in Hcases.
  destruct (resumed s chnl ch m b sleep) as [rc0 h1]. cbn [fst snd] in *. apply wp_run in Hrun as (rc & s' & Hrun & Hinv1 & _ & Hleft).
  destruct Hleft as (ch0 & Hc0 & Hh & Hres & Hri). ks_simpl. kstep. eapply wp_eq; [exact Hrun|]. kstep. intros own' Hinv'.
  destruct (remove_exchange own s calls own' s' i chnl p cur m b buf ch0 h1 (rcvid m) x) as [Hexch Hord]; try done.
  { intros d ch1 q Hd1 Hq ->. destruct (i_hand _ _ _ _ _ Hinv1 p eq_refl) as [_ [Hnq _ _ _]]. apply (Hnq d). by exists ch1. }
  assert (Hres' : epilogue_result s cur b m a rc0 = (rc, ks_user s')).
  { etrans; [|exact Hres]. symmetry. apply epilogue_result_ext; [done|]. ks_simpl. intros r Hr.
    destruct (sn_reply_buf _ _ _ _ _ _ _ _ _ Hs r Hr) as (_ & o & Hro & Hk). rewrite Hro. apply Hdata; [by destruct Hk as [->|[? ->]]|done]. }
  assert (Heq : abstract s' (delete i calls) = end_exchange (rcvid m) (ks_user s') (abstract s calls)).
  { unfold abstract, end_exchange. cbn [a_last a_exchanges]. by rewrite Hexch, Hri. }
  pose proof (sender_holds _ _ _ _ _ _ _ _ _ _ Hinv Hx Hex) as Hl.
  destruct Hcases as [(Hint & Hph1 & Hph2)|(-> & Hph)].
  - pose proof (interruption_negative _ _ _ Hint) as Hneg. unfold epilogue_result in Hres'.
    assert (rc0 >=? 0 = false) as Hge by lia. rewrite Hge in Hres'. cbn [andb] in Hres'. injection Hres' as <- Hu.
    eapply one_event with (ev := EWithdraw (rcvid m) rc0); [|rewrite Heq, <- Hu; by eapply as_withdraw|done].
    cbn. rewrite Hi. exists m, b, rc0. split; [done|]. split; [done|]. split; [by eexists|by right].
  - eapply one_event with (ev := EReturn (rcvid m) rc); [|rewrite Heq; eapply as_return; [by split|]|done].
    + cbn. rewrite Hi. exists m, b, rc. split; [done|]. split; [done|]. split; [by eexists|by left].
    + rewrite <- Hres'. apply returned_epilogue; try done; by eapply Hs.
Qed.

(** ** A process that goes *)

(** the exchanges with one of the [ids] are given up *)
Definition given_up (ids : list Z) (id : Z) (x : exchange) : exchange :=
  if decide (id ∈ ids) then in_phase (Closed (- ESRCH) []) x else x.

Lemma exits_run server ids (A : astate M) :
  NoDup ids -> (forall id, id ∈ ids -> exists x, holds A id x Unanswered /\ x_server x = server) ->
  abs_run (EExit server <$> ids) A (AState (a_user A) (a_last A) (map_imap (fun id x => Some (given_up ids id x)) (a_exchanges A))).
Proof.
  revert A. induction ids as [|id ids IH]; intros A Hnd Hall; cbn.
  { destruct A as [u l X]. cbn. f_equal. apply map_eq. intros j. rewrite map_lookup_imap. by destruct (X !! j). }
  apply NoDup_cons in Hnd as [Hid Hnd]. destruct (Hall id) as (x & Hx & Hsrv); [by left|].
  exists (set_phase id x (Closed (- ESRCH) []) (a_user A) A). split; [by apply as_exit|].
  match goal with |- abs_run _ ?A1 ?A2 => assert (A2 = AState (a_user A1) (a_last A1)
    (map_imap (fun j y => Some (given_up ids j y)) (a_exchanges A1))) as -> end.
  { unfold set_phase. cbn. f_equal. apply map_eq. intros j. rewrite !map_lookup_imap. destruct Hx as [Hl Hph].
    destruct (decide (j = id)) as [->|Hj].
    - rewrite lookup_insert_eq, Hl. cbn. unfold given_up. rewrite decide_True by by left. by rewrite decide_False.
    - rewrite lookup_insert_ne by done. destruct (a_exchanges A !! j); [|done]. cbn. unfold given_up. f_equal.
      destruct (decide (j ∈ ids)); [rewrite decide_True by by right|rewrite decide_False by (rewrite elem_of_cons; naive_solver)]; done. }
  apply IH; [done|]. intros j Hj. destruct (Hall j) as (y & [Hl Hph] & Hy); [by right|]. exists y. split; [|done]. split; [|done].
  cbn. rewrite lookup_insert_ne; [done|]. by intros <-.
Qed.

(** every exchange changes in a way that depends on its id only *)
Lemma exchanges_imap own s calls held hand own' s' calls' held' hand' (g : Z -> exchange -> exchange) :
  inv own s calls held hand -> inv own' s' calls' held' hand' -> same_senders calls calls' ->
  (forall c p cur, CSend c p cur ∈ calls ->
     exchange_of (ks_heap s') calls' (CSend c p cur) = (fun '(id, x) => (id, g id x)) <$> exchange_of (ks_heap s) calls (CSend c p cur)) ->
  exchanges (ks_heap s') calls' = map_imap (fun id x => Some (g id x)) (exchanges (ks_heap s) calls).
Proof.
  intros Hinv Hinv' Hse Heq. apply map_eq. intros id. rewrite map_lookup_imap. apply option_eq. intros x.
  rewrite (exchanges_lookup _ _ _ _ _ _ _ Hinv'). split.
  - intros (y & Hy & Hyx). destruct (exchange_of_inv _ _ _ _ _ Hyx) as (p & m & -> & _). apply Hse in Hy.
    rewrite Heq in Hyx by done. apply fmap_Some in Hyx as ([id0 x0] & Hx0 & [= <- ->]).
    rewrite (proj2 (exchanges_lookup _ _ _ _ _ id x0 Hinv)); [done|]. eauto.
  - intros (x0 & Hx0 & [= <-])%bind_Some. apply (exchanges_lookup _ _ _ _ _ _ _ Hinv) in Hx0 as (y & Hy & Hyx).
    destruct (exchange_of_inv _ _ _ _ _ Hyx) as (p & m & -> & _). eexists. split; [by apply Hse|]. by rewrite Heq, Hyx.
Qed.

(** the exchanges of the process that is gone *)
Lemma freed_exchanges own s calls own' s' q e f fl fl' h1 asleep :
  inv own s calls [] None -> inv own' s' calls [] None -> ks_heap s !! q = Some (OProc e) -> freed s q e h1 asleep ->
  ks_heap s !! f = Some (OFile fl) -> ks_heap s' = <[f := OFile fl']> h1 ->
  exchanges (ks_heap s') calls =
    map_imap (fun id x => Some (given_up (message_id (ks_heap s) <$> pending e) id x)) (exchanges (ks_heap s) calls).
Proof.
  intros Hinv Hinv' He Hfr Hf Hh. pose proof (inv_entry_ok _ _ _ _ _ _ _ Hinv He) as Hok.
  assert (Hdata : forall r o, r ∉ pending e -> is_data o -> ks_heap s !! r = Some o -> ks_heap s' !! r = Some o).
  { intros r o Hrp Ho Hr. rewrite Hh, lookup_insert_ne by (intros <-; rewrite Hr in Hf; by simplify_eq).
    rewrite (fr_rest _ _ _ _ _ Hfr); [done| |intros Hin; destruct (entry_ok_chans _ _ _ Hok Hin); by simplify_eq|done].
    intros ->. by simplify_eq. }
  apply (exchanges_imap own s calls [] None own' s' calls [] None); try done. intros c p cur Hx.
  destruct (sender_exchange _ _ _ _ _ _ _ _ Hinv Hx) as (m & b & buf & bytes & a & ch & Hs & Hm & Hd & Hb & Ha & Hc & _ & Hex).
  destruct (decide (p ∈ pending e)) as [Hp|Hp].
  - destruct (pending_unanswered _ _ _ _ _ _ Hinv He Hp) as (m1 & x & Hx1 & Hm1 & Hex1 & _ & _ & Hst & Hss). assert (m1 = m) as -> by congruence.
    assert (Hxe : CSend (x_channel x) p (x_client x) = CSend c p cur) by (by eapply (omap_unique sent calls _ _ p (i_sent _ _ _ _ _ Hinv))).
    rewrite Hxe in Hex1. destruct (sender_exchange _ _ _ _ _ _ _ _ Hinv' Hx) as (_ & _ & _ & _ & _ & ch' & _ & _ & _ & _ & _ & Hc' & _ & _).
    destruct (fr_pending _ _ _ _ _ Hfr p m cur Hp Hm (sn_task _ _ _ _ _ _ _ _ _ Hs)) as [Hm1' _].
    assert (Hm' : ks_heap s' !! p = Some (OMsg (set_status (- ESRCH) m))) by (rewrite Hh, lookup_insert_ne; [done|congruence]).
    assert (Hb' : ks_heap s' !! buf = Some (OBuf bytes)).
    { apply Hdata; [|done|done]. intros Hin. destruct (entry_ok_msgs _ _ _ Hok Hin). congruence. }
    assert (Hchid : ch_chid ch' = ch_chid ch).
    { rewrite Hh in Hc'. assert (f ≠ c) by congruence. rewrite lookup_insert_ne in Hc' by done. assert (c ≠ q) by congruence.
      destruct (decide (c ∈ channels e)) as [Hce|Hce].
      - rewrite (fr_channels _ _ _ _ _ Hfr c ch Hce Hc) in Hc'. unfold after_release in Hc'. destruct (_ =? _); [done|]. by injection Hc' as <-.
      - rewrite (fr_rest _ _ _ _ _ Hfr) in Hc'; [congruence|done|done|]. intros Hin. destruct (entry_ok_msgs _ _ _ Hok Hin). congruence. }
    destruct (sn_fresh _ _ _ _ _ _ _ _ _ Hs) as [_ Hrl]; [by rewrite Hst|].
    rewrite Hex. cbn [exchange_of fmap option_fmap option_map]. rewrite Hm', Hc', Hchid. cbn [data set_status].
    rewrite Hd, (sn_in _ _ _ _ _ _ _ _ _ Hs), Ha, Hb'. rewrite (sn_receiver _ _ _ _ _ _ _ _ _ Hs : receiver_pid (set_status _ m) = _).
    do 2 f_equal. unfold given_up. rewrite decide_True.
    + unfold in_phase. cbn. f_equal. rewrite phase_closed by (right; done). cbn. by rewrite Hrl.
    + apply list_elem_of_fmap. exists p. split; [|done]. unfold message_id. by rewrite Hm.
  - rewrite (agree_exchange own s calls [] None own' s' calls [] None (fun r => r ∈ pending e) c p cur); try done.
    + rewrite Hex. cbn. do 2 f_equal. unfold given_up. rewrite decide_False; [done|]. intros (r & Hid & Hr)%list_elem_of_fmap.
      destruct (pending_unanswered _ _ _ _ _ _ Hinv He Hr) as (mr & x & Hxr & Hmr & _). unfold message_id in Hid. rewrite Hmr in Hid.
      assert (p = r) as ->; [|done]. eapply (i_ids _ _ _ _ _ Hinv); [exact Hx|done|exact Hxr|done|done|done|done].
    + split; [exact Hdata|]. intros d ch1 ch2 Hd1 Hd2. rewrite Hh in Hd2. assert (f ≠ d) by congruence. rewrite lookup_insert_ne in Hd2 by done.
      destruct (decide (d ∈ channels e)) as [Hce|Hce].
      * rewrite (fr_channels _ _ _ _ _ Hfr d ch1 Hce Hd1) in Hd2. unfold after_release in Hd2. destruct (_ =? _); [done|]. by injection Hd2 as <-.
      * rewrite (fr_rest _ _ _ _ _ Hfr) in Hd2; [congruence|congruence|done|]. intros Hin. destruct (entry_ok_msgs _ _ _ Hok Hin). congruence.
    + intros r m1 Hr Hm1. assert (m1 = m) as -> by congruence. split; [by intros ->|]. intros Hin.
      destruct (entry_ok_msgs _ _ _ Hok Hr) as [mr Hmr]. exact (buffers_kind _ _ _ _ _ _ _ _ _ _ _ Hs Hin Hmr).
Qed.

Lemma freed_ordered own s calls q e f fl fl' h1 h' asleep :
  inv own s calls [] None -> ordered (ks_heap s) -> ks_heap s !! q = Some (OProc e) -> freed s q e h1 asleep -> h1 !! q = None ->
  ks_heap s !! f = Some (OFile fl) -> h' = <[f := OFile fl']> h1 -> ordered h'.
Proof.
  intros Hinv Ho He Hfr Hq Hf ->. pose proof (inv_entry_ok _ _ _ _ _ _ _ Hinv He) as Hok. apply (ordered_keep (ks_heap s)); [| |done].
  - intros d ch'. rewrite lookup_insert_Some. intros [[_ ?]|[Hfd Hd]]; [done|]. right. assert (d ≠ q) by congruence.
    destruct (decide (d ∈ channels e)) as [Hce|Hce].
    + destruct (entry_ok_chans _ _ _ Hok Hce) as [ch Hch]. rewrite (fr_channels _ _ _ _ _ Hfr d ch Hce Hch) in Hd.
      unfold after_release in Hd. destruct (_ =? _); [done|]. injection Hd as <-. by exists ch.
    + destruct (decide (d ∈ pending e)) as [Hp|Hp]; [|rewrite (fr_rest _ _ _ _ _ Hfr) in Hd by done; by exists ch'].
      destruct (eo_pending _ _ Hok d Hp) as (m & Hm & t & Ht). destruct (fr_pending _ _ _ _ _ Hfr d m t Hp Hm Ht). congruence.
  - intros d ch p Hd Hp. destruct (i_queued _ _ _ _ _ Hinv d ch p Hd Hp) as (cur & m & _ & Hm & Hst & _). unfold message_id.
    rewrite Hm, lookup_insert_ne by congruence. rewrite (fr_rest _ _ _ _ _ Hfr); [by rewrite Hm|congruence| |].
    + intros Hin. destruct (entry_ok_chans _ _ _ Hok Hin). congruence.
    + intros Hin. destruct (pending_unanswered _ _ _ _ _ _ Hinv He Hin) as (m' & x & _ & Hm' & _ & _ & _ & Hst' & _). simplify_eq.
      by rewrite Hst in Hst'.
Qed.

Lemma pending_ids own s calls q e :
  inv own s calls [] None -> ks_heap s !! q = Some (OProc e) ->
  NoDup (message_id (ks_heap s) <$> pending e) /\
  (forall id, id ∈ message_id (ks_heap s) <$> pending e <->
     exists x, holds (abstract s calls) id x Unanswered /\ x_server x = pe_pid e).
Proof.
  intros Hinv He. split.
  - apply NoDup_fmap_2_strong; [|by eapply po_pending, i_proc]. intros p p' Hp Hp' Hid.
    destruct (pending_unanswered _ _ _ _ _ _ Hinv He Hp) as (m & x & Hx & Hm & _), (pending_unanswered _ _ _ _ _ _ Hinv He Hp') as (m' & x' & Hx' & Hm' & _).
    unfold message_id in Hid. rewrite Hm, Hm' in Hid. by eapply (i_ids _ _ _ _ _ Hinv _ _ p p' m m' Hx eq_refl Hx').
  - intros id. rewrite list_elem_of_fmap. split.
    + intros (p & -> & Hp). destruct (pending_unanswered _ _ _ _ _ _ Hinv He Hp) as (m & x & Hx & Hm & Hex & Hph & Hsrv & _).
      exists x. unfold message_id. rewrite Hm. split; [|done]. split; [by eapply sender_holds|done].
    + intros (x & Hx & Hsrv). destruct (unanswered_pending _ _ _ _ _ _ _ Hinv He Hx Hsrv) as (p & Hp & Hid). exists p. split; [|done].
      destruct (pending_unanswered _ _ _ _ _ _ Hinv He Hp) as (m & _ & _ & Hm & _). unfold has_rcvid, msg_test, message_id in *.
      rewrite Hm in *. by apply Z.eqb_eq in Hid.
Qed.

Lemma close_sim own s calls f :
  inv own s calls [] None -> enabled (AClose f) s calls -> sim (AClose f) calls own s.
Proof.
  intros Hinv (fl & Hfl & Hmode & Hrc) Ho. pose proof (inv_entries_ok _ _ _ _ _ Hinv) as Hok.
  assert (Hm : Z.land (f_mode fl) O_RDWR =? 0 = false) by (by apply Z.eqb_neq).
  unfold exec, qnxcomm_close. ksteps. rewrite Hm. cbn [negb]. destruct (private_data fl) as [q|] eqn:Hpd.
  2: { ksteps. intros own' Hinv'. eapply calm_simulates; try done; [apply calm_refl|]. intros fl0 Hfl0. simplify_eq. by rewrite Hpd. }
  destruct (i_file _ _ _ _ _ Hinv f fl q Hfl Hpd) as [Hq _]. destruct (listed_proc _ _ _ _ _ _ Hinv Hq) as (e & He & [_ Hr _ _ _ _] & Heo).
  assert (Hfind : find_process s (pe_pid e) = Some q).
  { destruct (find_process s (pe_pid e)) as [q'|] eqn:Hfp; [|by eapply find_process_None in Hfp].
    destruct (find_process_Some _ _ _ Hok Hfp) as (_ & e' & He' & Hpid & _). f_equal. by eapply i_pids. }
  unfold qnx_driver_data_remove. ksteps. eapply wp_eq; [apply find_pid_run; intros; by eapply entries_procs|].
  fold (find_process s (pe_pid e)). rewrite Hfind. ksteps.
  assert (Hquiet : forall c ch, c ∈ channels e -> ks_heap s !! c = Some (OChan ch) -> quiet ch).
  { destruct (inv_drop_channels _ _ _ _ _ q e (channels e) Hinv He eq_refl) as (h1 & _ & _ & Hch1 & _).
    intros c ch Hc Hcc. by destruct (Hch1 c ch Hc Hcc). }
  eapply wp_mono; [by apply (entry_free_run _ q e)|]. cbn beta. intros _ s1 (Hfr & Hq1 & Hal & Hsub & Hus). ks_simpl.
  assert (Hfr' : freed s q e (ks_heap s1) (ks_sleeping s1)) by (by destruct Hfr). injection Hal as _ _ _ Hri. ks_simpl.
  assert (Hs1f : ks_heap s1 !! f = Some (OFile fl)).
  { rewrite (fr_rest _ _ _ _ _ Hfr'); [done|congruence| |]; intros Hin; [destruct (entry_ok_chans _ _ _ Heo Hin)|destruct (entry_ok_msgs _ _ _ Heo Hin)]; congruence. }
  ksteps. intros own' Hinv'. destruct (pending_ids _ _ _ _ _ Hinv He) as [Hnd Hids].
  assert (Hpid : pid_at (ks_heap s) q = pe_pid e) by (unfold pid_at; by rewrite He).
  split; [|by eapply (freed_ordered own s calls q e f fl)]. exists (EExit (pe_pid e) <$> (message_id (ks_heap s) <$> pending e)). split.
  - intros fl0 Hfl0. assert (fl0 = fl) as -> by congruence. rewrite Hpd, Hpid. split.
    + apply Forall_fmap, Forall_true. intros id. by exists id.
    + intros id x Hx Hsrv. apply list_elem_of_fmap. exists id. split; [done|]. apply Hids. eauto.
  - pose proof (exits_run (pe_pid e) _ (abstract s calls) Hnd (fun id Hid => proj1 (Hids id) Hid)) as Hex.
    unfold abstract in Hex |- * at 2. cbn [a_user a_last a_exchanges] in Hex.
    rewrite (freed_exchanges own s calls own' _ q e f fl _ (ks_heap s1) (ks_sleeping s1) Hinv Hinv' He Hfr' Hfl eq_refl). ks_simpl. by rewrite Hus, Hri.
Qed.

(** ** All actions *)

Lemma action_sim own s calls a : inv own s calls [] None -> enabled a s calls -> sim a calls own s.
Proof.
  intros Hinv Hen. destruct a.
  - by apply open_sim.
  - by apply close_sim.
  - by apply create_sim.
  - by apply destroy_sim.
  - by apply attach_sim.
  - by apply detach_sim.
  - by apply send_sim.
  - by apply interrupt_sim.
  - by apply return_sim.
  - by apply receive_sim.
  - by apply take_sim.
  - by apply deliver_sim.
  - by apply reply_sim.
  - by apply error_sim.
  - by apply replied_sim.
  - by apply read_sim.
Qed.

Lemma exec_simulates own s calls a s' calls' :
  inv own s calls [] None -> ordered (ks_heap s) -> enabled a s calls -> exec a calls s = Done (calls', s') -> simulates a s calls s' calls'.
Proof.
  intros Hinv Ho Hen Hrun. pose proof (action_sim own s calls a Hinv Hen Ho) as Hs.
  destruct (step_inv own s calls s' calls' Hinv) as [own' Hinv']; [by econstructor|].
  apply wp_run in Hs as (? & ? & Hrun' & Hs). rewrite Hrun in Hrun'. simplify_eq. by apply (Hs own').
Qed.

Lemma reachable_ordered s calls : reachable (s, calls) -> ordered (ks_heap s).
Proof.
  intros (x0 & Hi & Hr). revert Hr.
  enough (Hall : forall y, rtc step x0 y -> ordered (ks_heap y.1)) by (intros Hr; exact (Hall _ Hr)).
  apply rtc_ind_r.
  - destruct x0 as [s0 calls0]. destruct Hi as (_ & _ & _ & _ & Hh). intros c ch Hc. by destruct (Hh c _ Hc) as (? & ? & _).
  - intros [s1 calls1] [s2 calls2] Hr Hst Ho. destruct (reachable_inv s1 calls1) as [own Hinv]; [by exists x0|].
    inversion Hst as [a ? ? ? ? Hen Hrun]; subst. by eapply exec_simulates.
Qed.

End Ends.
