(* ===== verification/Refinement.v ===== *)
(** * Interleaved calls refine the abstract machine

    What follows from ExchangeEnds.v for every configuration that can be reached:
    each action is a run of the machine of Exchange.v, an exchange only goes
    forward, and a client whose exchange is closed returns with its answer.  At
    the end the configurations of ExampleRun.v as instances. *)

From Stdlib Require Import ZArith Lia.
From stdpp Require Import base tactics list option gmap fin_maps sets relations.
From S2P Require Import Prelude Layout UserMem ConnectionTable Kernel Msgsend Channel ProcessEntry DriverData Driver Examples Protocol ProtocolInv ProtocolReturn Interleaving ExampleRun Exchange ExchangeSim ExchangeSteps ExchangeEnds.

Open Scope Z_scope.

(** ** Lemmas *)

Section Machine.
  Context {M : Type} `{!UserMem M}.
  Implicit Types (A : astate M).

Lemma in_phase_id x : in_phase (x_phase x) x = x.
Proof. by destruct x. Qed.

(** [A'] has no exchange with an old id that [A] does not have, and the old ones
    went on *)
Definition goes_on A A' : Prop :=
  a_last A <= a_last A' /\
  forall id x', id <= a_last A -> a_exchanges A' !! id = Some x' ->
    exists x, a_exchanges A !! id = Some x /\ x' = in_phase (x_phase x') x /\ later (x_phase x) (x_phase x').

Lemma goes_on_refl A : goes_on A A.
Proof. split; [done|]. intros id x _ Hx. exists x. split_and!; [done|by rewrite in_phase_id|by left]. Qed.

Lemma goes_on_trans A1 A2 A3 : goes_on A1 A2 -> goes_on A2 A3 -> goes_on A1 A3.
Proof.
  intros [Hl1 H1] [Hl2 H2]. split; [lia|]. intros id x3 Hid Hx3. destruct (H2 id x3) as (x2 & Hx2 & Heq2 & Hlat2); [lia|done|].
  destruct (H1 id x2 Hid Hx2) as (x1 & Hx1 & Heq1 & Hlat1). exists x1. split_and!; [done|by rewrite Heq2, Heq1|].
  unfold later in *. destruct Hlat1 as [->|?], Hlat2 as [<-|?]; auto. right. lia.
Qed.

Lemma set_phase_goes_on A id x ph u : a_exchanges A !! id = Some x -> later (x_phase x) ph -> goes_on A (set_phase id x ph u A).
Proof.
  intros Hx Hph. split; [done|]. intros j y _. cbn. rewrite lookup_insert_Some. intros [[<- <-]|[_ Hy]]; [by exists x|].
  exists y. split_and!; [done|by rewrite in_phase_id|by left].
Qed.

Lemma end_goes_on A id u : goes_on A (end_exchange id u A).
Proof. split; [done|]. intros j y _. cbn. intros [_ Hy]%lookup_delete_Some. exists y. split_and!; [done|by rewrite in_phase_id|by left]. Qed.

Lemma abs_step_goes_on A ev A' : abs_step A ev A' -> goes_on A A'.
Proof.
  assert (Hsame : forall u id, a_last A <= id -> goes_on A (AState u id (a_exchanges A))).
  { intros u id Hid. split; [done|]. intros j y _ Hy. exists y. split_and!; [done|by rewrite in_phase_id|by left]. }
  assert (Hnext : forall id x ph ph' u, holds A id x ph -> (rank ph < rank ph')%nat -> goes_on A (set_phase id x ph' u A)).
  { intros id x ph ph' u [Hx Hph] Hr. apply set_phase_goes_on; [done|]. right. by rewrite Hph. }
  destruct 1; try (by apply Hsame); try (by apply end_goes_on); try (eapply Hnext; [done|cbn; lia]).
  split; [cbn; lia|]. intros j y Hj. cbn. rewrite lookup_insert_ne by lia. intros Hy.
  exists y. split_and!; [done|by rewrite in_phase_id|by left].
Qed.

Lemma abs_run_goes_on evs A A' : abs_run evs A A' -> goes_on A A'.
Proof.
  revert A. induction evs as [|ev evs IH]; intros A; cbn; [intros ->; apply goes_on_refl|].
  intros (A1 & Hs & Hr). eapply goes_on_trans; [by eapply abs_step_goes_on|by apply IH].
Qed.

Lemma return_inv A id rc A' :
  abs_step A (EReturn id rc) A' -> exists x st reply u,
    holds A id x (Closed st reply) /\ returned (a_user A) x st reply = (rc, u) /\ A' = end_exchange id u A.
Proof. inversion 1; subst. eauto 10. Qed.

End Machine.

Section Refinement.
  Context {M : Type} `{!UserMem M} `{!UserMemLaws M}.
  Implicit Types (s : kstate M) (calls : list call).

Lemma reachable_simulates s calls a calls' s' :
  reachable (s, calls) -> enabled a s calls -> exec a calls s = Done (calls', s') -> simulates a s calls s' calls'.
Proof.
  intros Hr Hen Hrun. destruct (reachable_inv _ _ Hr) as [own Hinv]. pose proof (reachable_ordered _ _ Hr) as Ho.
  by eapply exec_simulates.
Qed.

Lemma steps_go_on (x y : kstate M * list call) : reachable x -> rtc step x y -> goes_on (abstract x.1 x.2) (abstract y.1 y.2).
Proof.
  intros Hr Hst. revert Hr. induction Hst as [x|[s1 calls1] y z Hst _ IH]; intros Hr; [apply goes_on_refl|].
  eapply goes_on_trans; [|apply IH; by eapply reachable_step]. inversion Hst as [a ? ? s2 calls2 Hen Hrun]; subst.
  destruct (reachable_simulates _ _ _ _ _ Hr Hen Hrun) as [(evs & _ & Hev) _]. by eapply abs_run_goes_on.
Qed.

(** the client of a closed exchange is awake *)
Lemma closed_settled own s calls c p cur m id x st reply :
  inv own s calls [] None -> CSend c p cur ∈ calls -> ks_heap s !! p = Some (OMsg m) ->
  exchange_of (ks_heap s) calls (CSend c p cur) = Some (id, x) -> x_phase x = Closed st reply ->
  settled (ks_sleeping s) cur m.
Proof.
  intros Hinv Hx Hm He Hph. destruct (i_sender _ _ _ _ _ Hinv c p cur Hx) as (m' & b & buf & Hs & Hpl).
  pose proof (sn_msg _ _ _ _ _ _ _ _ _ Hs). assert (m' = m) as -> by congruence.
  destruct (settled_dec (ks_sleeping s) cur m) as [?|Hns]; [done|]. exfalso. destruct (Hpl Hns) as [|Hp]; [done|].
  destruct (placed_open _ _ _ _ _ _ _ Hinv Hx Hm Hp) as [Hss Hst].
  destruct (exchange_of_inv _ _ _ _ _ He) as (p' & m' & Heq & Hm' & _ & Hph'). injection Heq as -> <- ->.
  assert (m' = m) as -> by congruence. rewrite Hph in Hph'. unfold phase_of in Hph'. rewrite Hss in Hph'.
  assert (state m =? QNX_STATE_FINISHED = false) as Hf by (by apply Z.eqb_neq). rewrite Hf in Hph'. cbn in Hph'.
  destruct (_ =? _); [done|]. destruct (_ =? _); [done|]. by destruct (bool_decide _).
Qed.

End Refinement.

(** ** Properties *)

(** C1: the driver implements the machine of exchanges.  Every action that is enabled
    in a reachable configuration runs to its end, and what it does is a run of the
    machine, with the events that the action may be: a receiver takes the oldest
    waiting exchange of its channel, and none only if there is none; the receiver
    finds the bytes that the client sent; MsgReply and MsgError take an exchange
    exactly if it is received, unanswered and their process's own, so that each is
    answered once; MsgRead reads the bytes of such an exchange; the client returns with the answer's status and bytes; a
    process that goes ends all its unanswered exchanges; and no other call,
    whatever it does to channels, connections, processes or reference counts,
    changes any exchange. *)
Theorem interleaving_refines {M : Type} `{!UserMem M} `{!UserMemLaws M} (s : kstate M) (calls : list call) (a : action) :
  reachable (s, calls) -> enabled a s calls ->
  exists calls' s' evs, exec a calls s = Done (calls', s') /\ admits a s calls evs /\
    abs_run evs (abstract s calls) (abstract s' calls').
Proof.
  intros Hr Hen. destruct (reachable_run _ _ _ Hr Hen) as (calls' & s' & Hrun & _ & _).
  destruct (reachable_simulates _ _ _ _ _ Hr Hen Hrun) as [(evs & ? & ?) _]. by exists calls', s', evs.
Qed.



(** ** Witnesses *)

Lemma interleaving_refines_witness :
  exists calls' s' evs, exec (AMsgReceiveTake 1 1) run6.2 run6.1 = Done (calls', s') /\
    admits (AMsgReceiveTake 1 1) run6.1 run6.2 evs /\ abs_run evs (abstract run6.1 run6.2) (abstract s' calls').
Proof. apply (interleaving_refines run6.1 run6.2 (AMsgReceiveTake 1 1)); [exact (reachable_pair _ run6_reachable)|exact I]. Defined.


