(* ===== verification/Proc.v ===== *)
(** * The files under /proc/qnxcomm (kernel/proc.c)

    The three files print the lists of the driver: the connections and the
    channels of each process, and the threads that are blocked in MsgSend.  A show
    function is a computation of [K] that has the text so far ([buf], the
    [seq_file]) and [have_output] as arguments and returns both; [seq_printf] adds
    to the text.  The properties say what is in the text, for the blocked threads
    in every configuration of interleaved calls. *)

From Stdlib Require Import ZArith Lia Ascii String.
From stdpp Require Import base tactics list option gmap fin_maps sets strings pretty.
From S2P Require Import Prelude Layout UserMem ConnectionTable Kernel Msgsend Channel ProcessEntry DriverData Driver Protocol ProtocolInv ProtocolSafe ProtocolMsg ProtocolReturn ProtocolOpen Interleaving.

Open Scope Z_scope.

(** ** Text *)

Definition newline : string := String (ascii_of_nat 10) EmptyString.

(** the texts one after the other; [%d] is [pretty] *)
Definition text (l : list string) : string := foldr String.append EmptyString l.

Definition seq_printf (buf : string) (l : list string) : string := buf +:+ text l.

Definition no_processes : string := "<no processes attached>" +:+ newline.

(** ** The show functions *)

Section Proc.
  Context {M : Type} `{!UserMem M}.

Definition print_connection (coid : Z) (conn : qnx_connection) (buf : string) : string :=
  seq_printf buf ["   "; pretty coid; " => pid="; pretty (pid conn); ", chid="; pretty (chid conn); newline].

(** the loop of qnx_show_connections *)
Fixpoint show_connections (l : list ptr) (buf : string) (have_output : bool) : K M (string * bool) :=
  match l with
  | [] => kret (buf, have_output)
  | entry :: l' =>
      let! e := get_proc entry in
      if negb (qnx_connection_table_is_empty (pe_connections e))
      then
        let buf := seq_printf buf ["pid="; pretty (pe_pid e); ":"; newline] in
        match qnx_connection_table_for_each (pe_connections e) with
        | Some calls =>
            let buf := fold_left (fun buf '(coid, conn) => print_connection coid conn buf) calls buf in
            show_connections l' (seq_printf buf [newline]) true
        | None => koops OutOfBounds
        end
      else show_connections l' buf have_output
  end.

Definition finish_show (r : string * bool) : K M string :=
  let '(buf, have_output) := r in kret (if have_output then buf else seq_printf buf [no_processes]).

Definition qnx_show_connections : K M string :=
  let! l := kget ks_entries in
  let! r := show_connections l EmptyString false in
  finish_show r.

Definition print_blocked (tid coid pid chid : Z) (how : string) (buf : string) : string :=
  seq_printf buf ["tid="; pretty tid; " (coid="; pretty coid; ") => pid="; pretty pid; ", chid="; pretty chid; " ["; how; "]"; newline].

(** the loop over [chnl->waiting] *)
Fixpoint show_waiting (e : qnx_process_entry) (c : qnx_channel) (l : list ptr) (buf : string) (have_output : bool)
    : K M (string * bool) :=
  match l with
  | [] => kret (buf, have_output)
  | p :: l' =>
      let! m := get_msg p in
      match task m with
      | Some t =>
          let! b := body_of m in
          show_waiting e c l' (print_blocked (current_get_tid_nr t) (mb_coid b) (pe_pid e) (ch_chid c) "SEND" buf) true
      | None => show_waiting e c l' buf have_output
      end
  end.

(** the loop over [entry->channels] *)
Fixpoint show_senders (e : qnx_process_entry) (l : list ptr) (buf : string) (have_output : bool) : K M (string * bool) :=
  match l with
  | [] => kret (buf, have_output)
  | chnl :: l' =>
      let! c := get_chan chnl in
      let! (buf, have_output) := show_waiting e c (waiting c) buf have_output in
      show_senders e l' buf have_output
  end.

(** the loop over [entry->pending] *)
Fixpoint show_pending (e : qnx_process_entry) (l : list ptr) (buf : string) (have_output : bool) : K M (string * bool) :=
  match l with
  | [] => kret (buf, have_output)
  | p :: l' =>
      let! m := get_msg p in
      match task m with
      | Some t =>
          let! b := body_of m in
          show_pending e l' (print_blocked (current_get_tid_nr t) (mb_coid b) (pe_pid e) (receiver_chid m) "REPLY" buf) true
      | None => koops NullAccess
      end
  end.

Fixpoint show_blocked (l : list ptr) (buf : string) (have_output : bool) : K M (string * bool) :=
  match l with
  | [] => kret (buf, have_output)
  | entry :: l' =>
      let! e := get_proc entry in
      let! (buf, have_output) := show_senders e (channels e) buf have_output in
      let! (buf, have_output) := show_pending e (pending e) buf have_output in
      show_blocked l' buf have_output
  end.

Definition qnx_show_blocked_tasks : K M string :=
  let! l := kget ks_entries in
  let! r := show_blocked l EmptyString false in
  finish_show r.

Fixpoint show_channel_ids (l : list ptr) (buf : string) : K M string :=
  match l with
  | [] => kret buf
  | chnl :: l' => let! c := get_chan chnl in show_channel_ids l' (seq_printf buf [pretty (ch_chid c); " "])
  end.

Fixpoint show_channels (l : list ptr) (buf : string) (have_output : bool) : K M (string * bool) :=
  match l with
  | [] => kret (buf, have_output)
  | entry :: l' =>
      let! e := get_proc entry in
      match channels e with
      | [] => show_channels l' buf have_output
      | _ =>
          let! buf := show_channel_ids (channels e) (seq_printf buf ["pid="; pretty (pe_pid e); ": "]) in
          show_channels l' (seq_printf buf [newline]) true
      end
  end.

Definition qnx_show_channels : K M string :=
  let! l := kget ks_entries in
  let! r := show_channels l EmptyString false in
  finish_show r.

End Proc.

(** ** The files *)

Definition QNX_PROC_ROOT_DIR : string := "qnxcomm".
Definition QNX_PROC_CONNECTIONS : string := "connections".
Definition QNX_PROC_CHANNELS : string := "channels".
Definition QNX_PROC_BLOCKED_TASKS : string := "blocked".

Inductive proc_show := ShowConnections | ShowChannels | ShowBlockedTasks.

(** [strncmp(a, b, n) == 0] *)
Definition same_prefix (n : nat) (a b : string) : bool := String.eqb (substring 0 n a) (substring 0 n b).

(** the show function of the file with the given name; [None]: the open succeeds
    without one *)
Definition qnx_open (name : string) : option proc_show :=
  if same_prefix 2 QNX_PROC_CONNECTIONS name then Some ShowConnections
  else if same_prefix 2 QNX_PROC_CHANNELS name then Some ShowChannels
  else if same_prefix 2 QNX_PROC_BLOCKED_TASKS name then Some ShowBlockedTasks
  else None.

Definition run_show {M} `{!UserMem M} (f : proc_show) : K M string :=
  match f with
  | ShowConnections => qnx_show_connections
  | ShowChannels => qnx_show_channels
  | ShowBlockedTasks => qnx_show_blocked_tasks
  end.

(** ** Specification *)

(** the text of a file that lists [l] *)
Definition shown (l : list string) : string :=
  match l with [] => no_processes | _ => text l end.

Definition connection_line (x : Z * qnx_connection) : string :=
  text ["   "; pretty x.1; " => pid="; pretty (pid x.2); ", chid="; pretty (chid x.2); newline].

(** what /proc/qnxcomm/connections has for a process, when it has connections *)
Definition connections_section (e : qnx_process_entry) : list string :=
  if qnx_connection_table_is_empty (pe_connections e) then []
  else [text ["pid="; pretty (pe_pid e); ":"; newline] +:+ text (map connection_line (owned (pe_connections e))) +:+ newline].

(** a line of /proc/qnxcomm/blocked *)
Record blocked := Blocked { bl_tid : Z; bl_coid : Z; bl_pid : Z; bl_chid : Z; bl_how : string }.

Definition blocked_line (b : blocked) : string :=
  text ["tid="; pretty (bl_tid b); " (coid="; pretty (bl_coid b); ") => pid="; pretty (bl_pid b); ", chid=";
        pretty (bl_chid b); " ["; bl_how b; "]"; newline].

Definition channel_text (h : gmap ptr kobj) (c : ptr) : string :=
  match h !! c with Some (OChan ch) => pretty (ch_chid ch) +:+ " " | _ => EmptyString end.

Definition channels_section (h : gmap ptr kobj) (e : qnx_process_entry) : list string :=
  match channels e with
  | [] => []
  | _ => [text ["pid="; pretty (pe_pid e); ": "] +:+
          text (channel_text h <$> channels e) +:+ newline]
  end.

(** the sender of the message at [p], when it is a thread *)
Definition blocked_at (h : gmap ptr kobj) (pid chid : qnx_internal_msgsend -> Z) (how : string) (p : ptr) : option blocked :=
  match h !! p with
  | Some (OMsg m) =>
      match task m, data m with
      | Some t, DMsg b => Some (Blocked (tsk_pid t) (mb_coid b) (pid m) (chid m) how)
      | _, _ => None
      end
  | _ => None
  end.

Definition blocked_in_channel (h : gmap ptr kobj) (e : qnx_process_entry) (c : ptr) : list blocked :=
  match h !! c with
  | Some (OChan ch) => omap (blocked_at h (fun _ => pe_pid e) (fun _ => ch_chid ch) "SEND") (waiting ch)
  | _ => []
  end.

Definition blocked_on (h : gmap ptr kobj) (e : qnx_process_entry) : list blocked :=
  (channels e ≫= blocked_in_channel h e) ++ omap (blocked_at h (fun _ => pe_pid e) receiver_chid "REPLY") (pending e).

(** ** Lemmas *)

Lemma append_nil_r a : a +:+ EmptyString = a.
Proof. induction a as [|c a IH]; [done|]. change (String c (a +:+ EmptyString) = String c a). by rewrite IH. Qed.

Lemma append_assoc a b c : (a +:+ b) +:+ c = a +:+ (b +:+ c).
Proof. induction a as [|x a IH]; [done|]. change (String x ((a +:+ b) +:+ c) = String x (a +:+ (b +:+ c))). by rewrite IH. Qed.

Lemma text_app l k : text (l ++ k) = text l +:+ text k.
Proof. induction l as [|a l IH]; [done|]. cbn [text app foldr]. fold (text (l ++ k)) (text l). by rewrite IH, append_assoc. Qed.

Lemma text_cons a l : text (a :: l) = a +:+ text l.
Proof. done. Qed.

Lemma text_one a : text [a] = a.
Proof. apply append_nil_r. Qed.

Definition nonempty {A} (l : list A) : bool := match l with [] => false | _ => true end.

Lemma nonempty_app {A} (l k : list A) : nonempty (l ++ k) = nonempty l || nonempty k.
Proof. by destruct l. Qed.

Lemma finish_show_run {M} l (s : kstate M) : finish_show (text l, nonempty l) s = Done (shown l, s).
Proof. unfold finish_show, kret, shown. destruct l; [|done]. unfold seq_printf. by rewrite text_one. Qed.

Section ProcSpec.
  Context {M : Type} `{!UserMem M}.
  Implicit Types (s : kstate M) (h : gmap ptr kobj).

(** the show function of a list adds [lines] to the text *)
Definition adds (f : string -> bool -> K M (string * bool)) (lines : list string) s : Prop :=
  forall buf have, f buf have s = Done ((buf +:+ text lines, have || nonempty lines), s).

Lemma adds_nil s : adds (fun buf have => kret (buf, have)) [] s.
Proof. intros buf have. unfold kret. cbn. by rewrite append_nil_r, orb_false_r. Qed.

Lemma adds_app f g l k s :
  adds f l s -> adds g k s -> adds (fun buf have => let! (buf, have) := f buf have in g buf have) (l ++ k) s.
Proof.
  intros Hf Hg buf have. unfold kbind. rewrite Hf, Hg. by rewrite text_app, nonempty_app, append_assoc, orb_assoc.
Qed.

Lemma adds_show f l s : adds f l s -> (let! r := f EmptyString false in finish_show r) s = Done (shown l, s).
Proof. intros Hf. unfold kbind. rewrite Hf. apply finish_show_run. Qed.

(** one object of the loop is printed *)
Lemma adds_line f line lines s :
  adds f lines s -> adds (fun buf have => f (buf +:+ line) true) (line :: lines) s.
Proof. intros Hf buf have. rewrite Hf. by rewrite append_assoc, orb_true_r. Qed.

(** *** Blocked threads *)

(** the message at [p] is one that a thread waits for, or has no thread *)
Definition readable h (p : ptr) : Prop := exists m, h !! p = Some (OMsg m) /\ (is_Some (task m) -> exists b, data m = DMsg b).

Lemma show_waiting_adds e c l s :
  (forall p, p ∈ l -> readable (ks_heap s) p) ->
  adds (show_waiting e c l) (map blocked_line (omap (blocked_at (ks_heap s) (fun _ => pe_pid e) (fun _ => ch_chid c) "SEND") l)) s.
Proof.
  induction l as [|p l IH]; intros Hl; [apply adds_nil|].
  destruct (Hl p) as (m & Hm & Hb); [by left|]. specialize (IH (fun p' H => Hl p' (list_elem_of_further _ _ _ H))).
  intros buf have. cbn [show_waiting omap list_omap]. set (at_p := blocked_at _ _ _ _ p).
  assert (Hat : at_p = blocked_at (ks_heap s) (fun _ => pe_pid e) (fun _ => ch_chid c) "SEND" p) by done.
  unfold blocked_at in Hat. rewrite Hm in Hat. unfold kbind at 1, get_msg. rewrite Hm.
  destruct (task m) as [t|]; [|rewrite Hat; apply IH].
  destruct Hb as [b Hd]; [by eexists|]. rewrite Hd in Hat. rewrite Hat. unfold kbind, body_of, kret. rewrite Hd.
  by apply (adds_line _ (blocked_line (Blocked (tsk_pid t) (mb_coid b) (pe_pid e) (ch_chid c) "SEND"))).
Qed.

Lemma show_pending_adds e l s :
  (forall p, p ∈ l -> readable (ks_heap s) p /\ exists m t, ks_heap s !! p = Some (OMsg m) /\ task m = Some t) ->
  adds (show_pending e l) (map blocked_line (omap (blocked_at (ks_heap s) (fun _ => pe_pid e) receiver_chid "REPLY") l)) s.
Proof.
  induction l as [|p l IH]; intros Hl; [apply adds_nil|].
  destruct (Hl p) as ((m & Hm & Hb) & m' & t & Hm' & Ht); [by left|]. simplify_eq.
  specialize (IH (fun p' H => Hl p' (list_elem_of_further _ _ _ H))).
  destruct Hb as [b Hd]; [by eexists|].
  assert (Hat : blocked_at (ks_heap s) (fun _ => pe_pid e) receiver_chid "REPLY" p =
            Some (Blocked (tsk_pid t) (mb_coid b) (pe_pid e) (receiver_chid m) "REPLY")) by (unfold blocked_at; by rewrite Hm, Ht, Hd).
  intros buf have. cbn [show_pending omap list_omap]. rewrite Hat. unfold kbind at 1, get_msg. rewrite Hm, Ht.
  unfold kbind, body_of, kret. rewrite Hd.
  by apply (adds_line _ (blocked_line (Blocked (tsk_pid t) (mb_coid b) (pe_pid e) (receiver_chid m) "REPLY"))).
Qed.

Lemma show_senders_adds e l s :
  (forall c, c ∈ l -> exists ch, ks_heap s !! c = Some (OChan ch) /\ forall p, p ∈ waiting ch -> readable (ks_heap s) p) ->
  adds (show_senders e l) (map blocked_line (l ≫= blocked_in_channel (ks_heap s) e)) s.
Proof.
  induction l as [|c l IH]; intros Hl; [apply adds_nil|]. destruct (Hl c) as (ch & Hc & Hw); [by left|].
  intros buf have. cbn [show_senders]. unfold kbind at 1, get_chan. rewrite Hc. rewrite bind_cons, map_app.
  assert (Hin : blocked_in_channel (ks_heap s) e c =
            omap (blocked_at (ks_heap s) (fun _ => pe_pid e) (fun _ => ch_chid ch) "SEND") (waiting ch))
    by (unfold blocked_in_channel; by rewrite Hc).
  rewrite Hin.
  apply (adds_app (show_waiting e ch (waiting ch)) (show_senders e l)); [by apply show_waiting_adds|].
  apply IH. intros c' Hc'. apply Hl. by right.
Qed.

(** what a show function reads of a process is there *)
Record printable h (e : qnx_process_entry) : Prop := {
  pr_channels : forall c, c ∈ channels e -> exists ch, h !! c = Some (OChan ch) /\ forall p, p ∈ waiting ch -> readable h p;
  pr_pending : forall p, p ∈ pending e -> readable h p /\ exists m t, h !! p = Some (OMsg m) /\ task m = Some t;
  pr_table : table_ok (pe_connections e)
}.

Definition all_printable s : Prop :=
  forall q, q ∈ ks_entries s -> exists e, ks_heap s !! q = Some (OProc e) /\ printable (ks_heap s) e.

Definition procs_of s (l : list ptr) : list qnx_process_entry :=
  omap (fun q => match ks_heap s !! q with Some (OProc e) => Some e | _ => None end) l.

Lemma procs_of_cons s q l e : ks_heap s !! q = Some (OProc e) -> procs_of s (q :: l) = e :: procs_of s l.
Proof. intros He. unfold procs_of. cbn [omap list_omap]. by rewrite He. Qed.

Lemma show_blocked_adds l s :
  (forall q, q ∈ l -> exists e, ks_heap s !! q = Some (OProc e) /\ printable (ks_heap s) e) ->
  adds (show_blocked l) (map blocked_line (procs_of s l ≫= blocked_on (ks_heap s))) s.
Proof.
  induction l as [|q l IH]; intros Hl; [apply adds_nil|]. destruct (Hl q) as (e & He & [Hch Hpe _]); [by left|].
  intros buf have. cbn [show_blocked]. unfold kbind at 1, get_proc. rewrite He. rewrite (procs_of_cons _ _ _ _ He), bind_cons, map_app.
  change (blocked_on (ks_heap s) e) with ((channels e ≫= blocked_in_channel (ks_heap s) e) ++
    omap (blocked_at (ks_heap s) (fun _ => pe_pid e) receiver_chid "REPLY") (pending e)). rewrite map_app, <- (assoc_L (++)).
  apply (adds_app (show_senders e (channels e)) (fun buf have => let! (buf, have) := show_pending e (pending e) buf have in show_blocked l buf have));
    [by apply show_senders_adds|].
  apply (adds_app (show_pending e (pending e)) (show_blocked l)); [by apply show_pending_adds|].
  apply IH. intros q' Hq'. apply Hl. by right.
Qed.

(** *** Connections *)

Lemma print_connections_text l buf :
  fold_left (fun buf '(coid, conn) => print_connection coid conn buf) l buf = buf +:+ text (map connection_line l).
Proof.
  revert buf. induction l as [|[id c] l IH]; intros buf; [by rewrite append_nil_r|]. cbn [fold_left map]. rewrite IH.
  unfold print_connection, seq_printf. rewrite append_assoc. reflexivity.
Qed.

Lemma show_connections_adds l s :
  (forall q, q ∈ l -> exists e, ks_heap s !! q = Some (OProc e) /\ printable (ks_heap s) e) ->
  adds (show_connections l) (procs_of s l ≫= connections_section) s.
Proof.
  induction l as [|q l IH]; intros Hl; [apply adds_nil|]. destruct (Hl q) as (e & He & [_ _ Htab]); [by left|].
  specialize (IH (fun q' H => Hl q' (list_elem_of_further _ _ _ H))).
  intros buf have. cbn [show_connections]. unfold kbind at 1, get_proc. rewrite He. rewrite (procs_of_cons _ _ _ _ He), bind_cons.
  assert (Hsec : connections_section e = connections_section e) by done. unfold connections_section in Hsec at 2.
  rewrite Hsec. clear Hsec. destruct (qnx_connection_table_is_empty (pe_connections e)); [apply IH|].
  cbn [negb]. rewrite for_each_owned by done. rewrite print_connections_text. unfold seq_printf.
  rewrite IH, orb_true_r. cbn [app]. rewrite (text_cons (_ +:+ _)), (text_one newline). by rewrite !append_assoc.
Qed.

(** *** Channels *)

Lemma show_channel_ids_run l buf s :
  (forall c, c ∈ l -> exists ch, ks_heap s !! c = Some (OChan ch)) ->
  show_channel_ids l buf s = Done (buf +:+ text (channel_text (ks_heap s) <$> l), s).
Proof.
  revert buf. induction l as [|c l IH]; intros buf Hl; [cbn; by rewrite append_nil_r|]. destruct (Hl c) as [ch Hc]; [by left|].
  cbn [show_channel_ids]. unfold kbind, get_chan. rewrite Hc. rewrite IH by (intros; apply Hl; by right).
  rewrite fmap_cons, text_cons. unfold channel_text at 2. rewrite Hc. unfold seq_printf. by rewrite text_cons, text_one, !append_assoc.
Qed.

Lemma show_channels_adds l s :
  (forall q, q ∈ l -> exists e, ks_heap s !! q = Some (OProc e) /\ printable (ks_heap s) e) ->
  adds (show_channels l) (procs_of s l ≫= channels_section (ks_heap s)) s.
Proof.
  induction l as [|q l IH]; intros Hl; [apply adds_nil|]. destruct (Hl q) as (e & He & [Hch _ _]); [by left|].
  specialize (IH (fun q' H => Hl q' (list_elem_of_further _ _ _ H))).
  intros buf have. cbn [show_channels]. unfold kbind at 1, get_proc. rewrite He. rewrite (procs_of_cons _ _ _ _ He), bind_cons.
  assert (Hsec : channels_section (ks_heap s) e = channels_section (ks_heap s) e) by done. unfold channels_section in Hsec at 2.
  rewrite Hsec. clear Hsec. destruct (channels e) as [|c cs] eqn:Hcs; [apply IH|]. rewrite <- Hcs in *.
  unfold kbind. rewrite show_channel_ids_run by (intros c' Hc'; destruct (Hch c' Hc') as (ch & ? & _); by exists ch).
  unfold seq_printf. rewrite IH, orb_true_r. cbn [app]. rewrite (text_cons (_ +:+ _)), (text_one newline). by rewrite !append_assoc.
Qed.

End ProcSpec.

Section ProcReachable.
  Context {M : Type} `{!UserMem M} `{!UserMemLaws M}.
  Implicit Types (s : kstate M) (h : gmap ptr kobj) (calls : list call) (own : ptr -> Z).

Lemma sends_readable own s calls c p st :
  inv own s calls [] None -> sends (ks_heap s) calls c p st ->
  exists cur m b, CSend c p cur ∈ calls /\ ks_heap s !! p = Some (OMsg m) /\ task m = Some cur /\ data m = DMsg b /\ state m = st.
Proof.
  intros Hinv Hs. destruct (sends_message _ _ _ _ _ _ _ _ Hinv Hs) as (cur & m & b & buf & Hx & [] & Hst & _). by exists cur, m, b.
Qed.

Lemma inv_printable own s calls : inv own s calls [] None -> all_printable s.
Proof.
  intros Hinv q Hq. destruct (i_listed _ _ _ _ _ Hinv q Hq) as [e He]. exists e. split; [done|]. split.
  - intros c Hc. destruct (i_alive _ _ _ _ _ Hinv c) as [ch Hch]; [apply elem_of_holders; left; by exists q, e|].
    exists ch. split; [done|]. intros p Hp. destruct (sends_readable own s calls c p QNX_STATE_INITIAL Hinv) as (cur & m & b & _ & Hm & _ & Hd & _);
      [by eapply i_queued|]. exists m. split; [done|]. intros _. by exists b.
  - intros p Hp. destruct (i_pending _ _ _ _ _ Hinv q e p He Hp) as (c & Hs & _).
    destruct (sends_readable _ _ _ _ _ _ Hinv Hs) as (cur & m & b & _ & Hm & Ht & Hd & _).
    split; [exists m; split; [done|by exists b]|by exists m, cur].
  - exact (po_table _ _ _ _ (i_proc _ _ _ _ _ Hinv q e He)).
Qed.

Lemma elem_of_procs s e : e ∈ procs_of s (ks_entries s) <-> exists q, q ∈ ks_entries s /\ ks_heap s !! q = Some (OProc e).
Proof.
  unfold procs_of. rewrite list_elem_of_omap. split; intros (q & Hq & He); exists q; split; try done; repeat case_match; by simplify_eq.
Qed.

(** the line [l] is for the message at [p] of the thread [cur], which is in MsgSend *)
Definition line_of s (c p : ptr) (cur : task_struct) (l : blocked) : Prop :=
  exists m b e, ks_heap s !! p = Some (OMsg m) /\ data m = DMsg b /\ e ∈ procs_of s (ks_entries s) /\
    ((exists ch, c ∈ channels e /\ ks_heap s !! c = Some (OChan ch) /\ p ∈ waiting ch /\
        l = Blocked (tsk_pid cur) (mb_coid b) (pe_pid e) (ch_chid ch) "SEND") \/
     (p ∈ pending e /\ l = Blocked (tsk_pid cur) (mb_coid b) (pe_pid e) (receiver_chid m) "REPLY")).

Lemma blocked_at_Some h f g how p l :
  blocked_at h f g how p = Some l <->
  exists m t b, h !! p = Some (OMsg m) /\ task m = Some t /\ data m = DMsg b /\ l = Blocked (tsk_pid t) (mb_coid b) (f m) (g m) how.
Proof.
  unfold blocked_at. split.
  - intros H. repeat case_match; simplify_eq. eauto 10.
  - by intros (m & t & b & -> & -> & -> & ->).
Qed.

Lemma elem_of_blocked own s calls l :
  inv own s calls [] None ->
  l ∈ (procs_of s (ks_entries s) ≫= blocked_on (ks_heap s)) <-> exists c p cur, CSend c p cur ∈ calls /\ line_of s c p cur l.
Proof.
  intros Hinv. rewrite list_elem_of_bind. split.
  - intros (e & Hl & He). pose proof He as Hin. apply elem_of_procs in Hin as (q & Hq & Hqe). unfold blocked_on in Hl.
    apply elem_of_app in Hl as [Hl|Hl].
    + apply list_elem_of_bind in Hl as (c & Hl & Hc). unfold blocked_in_channel in Hl.
      destruct (ks_heap s !! c) as [[| | |ch| | |]|] eqn:Hch; try by apply elem_of_nil in Hl.
      apply list_elem_of_omap in Hl as (p & Hp & Hb). apply blocked_at_Some in Hb as (m & t & b & Hm & Ht & Hd & ->).
      destruct (sends_readable own s calls c p QNX_STATE_INITIAL Hinv) as (cur & m' & b' & Hx & Hm' & Ht' & Hd' & _);
        [by eapply i_queued|]. simplify_eq. assert (b' = b) as -> by congruence. exists c, p, t. split; [done|]. eexists _, _, e. split_and!; [eassumption..|].
      left. by exists ch.
    + apply list_elem_of_omap in Hl as (p & Hp & Hb). apply blocked_at_Some in Hb as (m & t & b & Hm & Ht & Hd & ->).
      destruct (i_pending _ _ _ _ _ Hinv q e p Hqe Hp) as (c & Hs & _).
      destruct (sends_readable _ _ _ _ _ _ Hinv Hs) as (cur & m' & b' & Hx & Hm' & Ht' & Hd' & _). simplify_eq.
      assert (b' = b) as -> by congruence. exists c, p, t. split; [done|]. eexists _, _, e. split_and!; [eassumption..|]. by right.
  - intros (c & p & cur & Hx & m & b & e & Hm & Hd & He & Hl). exists e. split; [|done]. unfold blocked_on. apply elem_of_app.
    destruct (i_sender _ _ _ _ _ Hinv c p cur Hx) as (m' & b' & buf & [Hm' Ht' Hd' _ _ _ _ _ _ _ _ _] & _). simplify_eq.
    destruct Hl as [(ch & Hc & Hch & Hp & ->)|[Hp ->]]; [left|right].
    + apply list_elem_of_bind. exists c. split; [|done]. unfold blocked_in_channel. rewrite Hch. apply list_elem_of_omap.
      exists p. split; [done|]. apply blocked_at_Some. eauto 10.
    + apply list_elem_of_omap. exists p. split; [done|]. apply blocked_at_Some. eauto 10.
Qed.

(** two lines for one thread are lines for one message *)
Lemma line_key own s calls c c' p p' cur cur' :
  inv own s calls [] None -> CSend c p cur ∈ calls -> CSend c' p' cur' ∈ calls -> tsk_pid cur = tsk_pid cur' -> c = c' /\ p = p'.
Proof.
  intros Hinv Hx Hx' Ht. assert (Heq : CSend c p cur = CSend c' p' cur'); [|by simplify_eq].
  eapply (omap_unique sender_tid calls _ _ (tsk_pid cur)); [by eapply i_threads|done..|]. cbn. by rewrite Ht.
Qed.

Lemma sender_line own s calls e c ch p how f g l :
  inv own s calls [] None -> e ∈ procs_of s (ks_entries s) -> c ∈ channels e -> ks_heap s !! c = Some (OChan ch) ->
  p ∈ waiting ch -> blocked_at (ks_heap s) f g how p = Some l ->
  exists cur m, CSend c p cur ∈ calls /\ bl_tid l = tsk_pid cur /\ own c = pe_pid e /\ ks_heap s !! p = Some (OMsg m) /\
    state m = QNX_STATE_INITIAL.
Proof.
  intros Hinv He Hc Hch Hp Hl. apply blocked_at_Some in Hl as (m & t & b & Hm & Ht & Hd & ->).
  destruct (sends_readable own s calls c p QNX_STATE_INITIAL Hinv) as (cur & m' & b' & Hx & Hm' & Ht' & _ & Hst); [by eapply i_queued|].
  simplify_eq. apply elem_of_procs in He as (q & Hq & Hqe). exists t, m. split_and!; try done.
  by eapply (po_own _ _ q e); [eapply i_proc|].
Qed.

Lemma pending_line own s calls e p how f g l :
  inv own s calls [] None -> e ∈ procs_of s (ks_entries s) -> p ∈ pending e -> blocked_at (ks_heap s) f g how p = Some l ->
  exists c cur m, CSend c p cur ∈ calls /\ bl_tid l = tsk_pid cur /\ own c = pe_pid e /\ ks_heap s !! p = Some (OMsg m) /\
    state m = QNX_STATE_PENDING.
Proof.
  intros Hinv He Hp Hl. apply blocked_at_Some in Hl as (m & t & b & Hm & Ht & Hd & ->).
  apply elem_of_procs in He as (q & Hq & Hqe). destruct (i_pending _ _ _ _ _ Hinv q e p Hqe Hp) as (c & Hs & Hown).
  destruct (sends_readable _ _ _ _ _ _ Hinv Hs) as (cur & m' & b' & Hx & Hm' & Ht' & _ & Hst). simplify_eq. by exists c, t, m.
Qed.

Lemma blocked_on_line own s calls e l :
  inv own s calls [] None -> e ∈ procs_of s (ks_entries s) -> l ∈ blocked_on (ks_heap s) e ->
  exists c p cur, CSend c p cur ∈ calls /\ bl_tid l = tsk_pid cur /\ own c = pe_pid e.
Proof.
  intros Hinv He Hl. unfold blocked_on in Hl. apply elem_of_app in Hl as [Hl|Hl].
  - apply list_elem_of_bind in Hl as (c & Hl & Hc). unfold blocked_in_channel in Hl.
    destruct (ks_heap s !! c) as [[| | |ch| | |]|] eqn:Hch; try by apply elem_of_nil in Hl.
    apply list_elem_of_omap in Hl as (p & Hp & Hb).
    destruct (sender_line _ _ _ _ _ _ _ _ _ _ _ Hinv He Hc Hch Hp Hb) as (cur & m & ? & ? & ? & _). by exists c, p, cur.
  - apply list_elem_of_omap in Hl as (p & Hp & Hb).
    destruct (pending_line _ _ _ _ _ _ _ _ _ Hinv He Hp Hb) as (c & cur & m & ? & ? & ? & _). by exists c, p, cur.
Qed.

Lemma procs_unique own s calls e e' :
  inv own s calls [] None -> e ∈ procs_of s (ks_entries s) -> e' ∈ procs_of s (ks_entries s) -> pe_pid e = pe_pid e' -> e = e'.
Proof.
  intros Hinv (q & Hq & He)%elem_of_procs (q' & Hq' & He')%elem_of_procs Hp.
  pose proof (i_pids _ _ _ _ _ Hinv q q' e e' He He' Hp). congruence.
Qed.

Lemma blocked_in_channel_nodup own s calls e c :
  inv own s calls [] None -> e ∈ procs_of s (ks_entries s) -> c ∈ channels e ->
  NoDup (map bl_tid (blocked_in_channel (ks_heap s) e c)).
Proof.
  intros Hinv He Hc. unfold blocked_in_channel. destruct (ks_heap s !! c) as [[| | |ch| | |]|] eqn:Hch; try apply NoDup_nil_2.
  apply NoDup_omap_key; [by destruct (i_chan _ _ _ _ _ Hinv c ch Hch) as (_ & _ & ?)|].
  intros p p' l l' Hp Hp' Hl Hl' Ht.
  destruct (sender_line _ _ _ _ _ _ _ _ _ _ _ Hinv He Hc Hch Hp Hl) as (cur & m & Hx & Ht1 & _).
  destruct (sender_line _ _ _ _ _ _ _ _ _ _ _ Hinv He Hc Hch Hp' Hl') as (cur' & m' & Hx' & Ht1' & _).
  destruct (line_key own s calls c c p p' cur cur'); [done..|congruence|done].
Qed.

Lemma blocked_on_nodup own s calls e :
  inv own s calls [] None -> e ∈ procs_of s (ks_entries s) -> NoDup (map bl_tid (blocked_on (ks_heap s) e)).
Proof.
  intros Hinv He. pose proof He as Hin. apply elem_of_procs in Hin as (q & Hq & Hqe).
  assert (Hchan : forall c l, c ∈ channels e -> l ∈ blocked_in_channel (ks_heap s) e c ->
            exists p cur m, CSend c p cur ∈ calls /\ bl_tid l = tsk_pid cur /\ ks_heap s !! p = Some (OMsg m) /\ state m = QNX_STATE_INITIAL).
  { intros c l Hc Hl. unfold blocked_in_channel in Hl. destruct (ks_heap s !! c) as [[| | |ch| | |]|] eqn:Hch; try by apply elem_of_nil in Hl.
    apply list_elem_of_omap in Hl as (p & Hp & Hb).
    destruct (sender_line _ _ _ _ _ _ _ _ _ _ _ Hinv He Hc Hch Hp Hb) as (cur & m & ? & ? & _ & ? & ?). by exists p, cur, m. }
  unfold blocked_on. rewrite map_app. apply NoDup_app. split_and!.
  - apply NoDup_bind_key.
    + pose proof (inv_entry_ok _ _ _ _ _ _ _ Hinv Hqe) as Hok. apply (eo_channels_nodup _ _ Hok).
    + intros c Hc. by eapply blocked_in_channel_nodup.
    + intros c c' l l' Hc Hc' Hl Hl' Ht. destruct (Hchan c l Hc Hl) as (p & cur & m & Hx & Ht1 & _).
      destruct (Hchan c' l' Hc' Hl') as (p' & cur' & m' & Hx' & Ht1' & _).
      destruct (line_key own s calls c c' p p' cur cur'); [done..|congruence|done].
  - intros tid (l & -> & Hl)%list_elem_of_fmap (l' & Ht & Hl')%list_elem_of_fmap. apply list_elem_of_bind in Hl as (c & Hl & Hc).
    apply list_elem_of_omap in Hl' as (p' & Hp' & Hb'). destruct (Hchan c l Hc Hl) as (p & cur & m & Hx & Ht1 & Hm & Hst).
    destruct (pending_line _ _ _ _ _ _ _ _ _ Hinv He Hp' Hb') as (c' & cur' & m' & Hx' & Ht1' & _ & Hm' & Hst').
    destruct (line_key own s calls c c' p p' cur cur') as [-> ->]; [done..|congruence|]. simplify_eq. rewrite Hst in Hst'. discriminate Hst'.
  - apply NoDup_omap_key; [by eapply po_pending, i_proc|]. intros p p' l l' Hp Hp' Hl Hl' Ht.
    destruct (pending_line _ _ _ _ _ _ _ _ _ Hinv He Hp Hl) as (c & cur & m & Hx & Ht1 & _).
    destruct (pending_line _ _ _ _ _ _ _ _ _ Hinv He Hp' Hl') as (c' & cur' & m' & Hx' & Ht1' & _).
    destruct (line_key own s calls c c' p p' cur cur'); [done..|congruence|done].
Qed.

Lemma blocked_nodup own s calls :
  inv own s calls [] None -> NoDup (map bl_tid (procs_of s (ks_entries s) ≫= blocked_on (ks_heap s))).
Proof.
  intros Hinv. apply NoDup_bind_key.
  - rewrite <- (map_id (procs_of _ _)). apply NoDup_omap_key; [by eapply i_nodup|]. intros q q' e e' Hq Hq' He He' ->.
    repeat case_match; simplify_eq. eapply (i_pids _ _ _ _ _ Hinv); done.
  - intros e He. by eapply blocked_on_nodup.
  - intros e e' l l' He He' Hl Hl' Ht. destruct (blocked_on_line _ _ _ _ _ Hinv He Hl) as (c & p & cur & Hx & Ht1 & Ho).
    destruct (blocked_on_line _ _ _ _ _ Hinv He' Hl') as (c' & p' & cur' & Hx' & Ht1' & Ho').
    destruct (line_key own s calls c c' p p' cur cur') as [-> ->]; [done..|congruence|]. eapply procs_unique; [done..|congruence].
Qed.

End ProcReachable.

(** ** Properties *)

(** C12: /proc/qnxcomm/blocked lists the threads that are blocked.  In every
    configuration of interleaved calls the show function runs without a bad access
    and changes nothing; it prints one line for each thread in MsgSend whose
    message waits in a channel of a process or for the reply of one, with the
    connection of the message, the process and the channel, and no other line; no
    thread is printed twice. *)
Theorem proc_blocked_threads {M : Type} `{!UserMem M} `{!UserMemLaws M} (s : kstate M) (calls : list call) :
  reachable (s, calls) ->
  exists lines, qnx_show_blocked_tasks s = Done (shown (map blocked_line lines), s) /\ NoDup (map bl_tid lines) /\
    forall l, l ∈ lines <-> exists c p cur, CSend c p cur ∈ calls /\ line_of s c p cur l.
Proof.
  intros Hr. destruct (reachable_inv _ _ Hr) as [own Hinv]. exists (procs_of s (ks_entries s) ≫= blocked_on (ks_heap s)). split_and!.
  - unfold qnx_show_blocked_tasks, kbind at 1, kget. apply adds_show, show_blocked_adds. by eapply inv_printable.
  - by eapply blocked_nodup.
  - intros l. by eapply elem_of_blocked.
Qed.


(** each file of the directory has its own show function *)
Lemma proc_files_distinct :
  qnx_open QNX_PROC_CONNECTIONS = Some ShowConnections /\ qnx_open QNX_PROC_CHANNELS = Some ShowChannels /\
  qnx_open QNX_PROC_BLOCKED_TASKS = Some ShowBlockedTasks.
Proof. done. Qed.
