(* ===== verification/Lifecycle.v ===== *)
(** * Loading and unloading the module (qnxcomm_init, qnxcomm_cleanup, qnx_proc_init)

    What the module asks of the kernel when it is loaded and unloaded is a sequence
    of calls.  Which of them work is a parameter, [works]; a computation of [L] adds
    its calls to the [log].  [balance] counts what a log has left behind, by the
    documented effect of each call.  For a kernel from version 3.2 on, which has
    the /proc files. *)

From Stdlib Require Import ZArith Lia String.
From stdpp Require Import base tactics list.
From S2P Require Import Prelude Proc.

Open Scope Z_scope.

(** ** The calls to the kernel *)

Inductive service :=
  | alloc_chrdev_region
  | unregister_chrdev_region
  | cdev_alloc
  | cdev_add
  | cdev_del
  | kobject_put                     (* of the character device *)
  | proc_mkdir (name : string)
  | proc_create_data (name : string)
  | remove_proc_subtree (name : string)
  | class_create
  | class_destroy
  | device_create
  | device_destroy
  (* no call of the kernel: from here on the list of processes is set up *)
  | init_driver_data.

Section Lifecycle.
  Context (works : service -> bool).

(** a computation adds to the log of calls, the latest call last *)
Definition L (A : Type) : Type := list service -> A * list service.

Definition lret {A} (a : A) : L A := fun log => (a, log).
Definition lbind {A B} (c : L A) (k : A -> L B) : L B := fun log => let '(a, log') := c log in k a log'.

(** a call, and whether it works *)
Definition call (x : service) : L bool := fun log => (works x, log ++ [x]).
(** a call whose result is not looked at *)
Definition do (x : service) : L unit := fun log => (tt, log ++ [x]).

Notation "'let%' x ':=' c 'in' k" := (lbind c (fun x => k)) (at level 200, x pattern, c at level 200, k at level 200).

(** the conjunction of C: the rest is not called when the first call fails *)
Definition and_then (c k : L bool) : L bool := let% ok := c in if ok then k else lret false.

Definition qnx_proc_init : L bool :=
  let% ok := and_then (call (proc_mkdir QNX_PROC_ROOT_DIR))
              (and_then (call (proc_create_data QNX_PROC_CONNECTIONS))
                (and_then (call (proc_create_data QNX_PROC_CHANNELS)) (call (proc_create_data QNX_PROC_BLOCKED_TASKS)))) in
  if ok then lret true
  else let% _ := do (remove_proc_subtree QNX_PROC_ROOT_DIR) in lret false.

Definition qnx_proc_destroy : L unit := do (remove_proc_subtree QNX_PROC_ROOT_DIR).

(** the labels at the end of qnxcomm_init *)
Definition free_region : L Z := let% _ := do unregister_chrdev_region in lret (- EIO).
Definition free_cdev : L Z := let% _ := do kobject_put in free_region.
Definition del_inst : L Z := let% _ := do cdev_del in free_cdev.

Definition qnxcomm_init : L Z :=
  let% region := call alloc_chrdev_region in
  if negb region then lret (- EIO)
  else
    let% instance := call cdev_alloc in
    if negb instance then free_region
    else
      let% added := call cdev_add in
      if negb added then free_cdev
      else
        let% proc := qnx_proc_init in
        if negb proc then del_inst
        else
          let% _ := call class_create in
          let% _ := call device_create in
          let% _ := do init_driver_data in
          lret 0.

Definition qnxcomm_cleanup : L unit :=
  let% _ := qnx_proc_destroy in
  let% _ := do device_destroy in
  let% _ := do class_destroy in
  let% _ := do cdev_del in
  do unregister_chrdev_region.

(** ** Specification *)

Inductive resource := Region | CdevReference | CdevInSystem | ProcEntries | TheClass | TheDevice.

(** what a call takes (1) or gives back (-1); [cdev_del] takes the device out of the
    system and drops a reference to it *)
Definition effect (r : resource) (x : service) : Z :=
  match r, x with
  | Region, alloc_chrdev_region => if works x then 1 else 0
  | Region, unregister_chrdev_region => -1
  | CdevReference, cdev_alloc => if works x then 1 else 0
  | CdevReference, (cdev_del | kobject_put) => -1
  | CdevInSystem, cdev_add => if works x then 1 else 0
  | CdevInSystem, cdev_del => -1
  | ProcEntries, (proc_mkdir _ | proc_create_data _) => if works x then 1 else 0
  | TheClass, class_create => if works x then 1 else 0
  | TheClass, class_destroy => -1
  | TheDevice, device_create => if works x then 1 else 0
  | TheDevice, device_destroy => -1
  | _, _ => 0
  end.

(** what is left of a resource; removing the subtree removes all files in it *)
Fixpoint balance_from (n : Z) (r : resource) (log : list service) : Z :=
  match log with
  | [] => n
  | x :: log' =>
      balance_from (match r, x with
                    | ProcEntries, remove_proc_subtree _ => 0
                    | _, _ => n + effect r x
                    end) r log'
  end.

Definition balance : resource -> list service -> Z := balance_from 0.

(** the files under /proc can be created *)
Definition proc_works : bool :=
  works (proc_mkdir QNX_PROC_ROOT_DIR) && works (proc_create_data QNX_PROC_CONNECTIONS) &&
  works (proc_create_data QNX_PROC_CHANNELS) && works (proc_create_data QNX_PROC_BLOCKED_TASKS).

End Lifecycle.

(** ** Lemmas *)

(** computes the balance of each resource; which calls worked is in the context *)
Ltac balanced :=
  cbn [negb andb app]; split_and!; [reflexivity| |];
  [intros Hl; try discriminate Hl; clear Hl; intros []|intros Hl; try discriminate Hl; clear Hl; intros ? ? []];
  lazy beta iota zeta delta [balance qnxcomm_cleanup qnx_proc_destroy do lbind balance_from effect app snd];
  repeat match goal with H : ?works (_ : service) = _ |- _ => rewrite H; clear H end; reflexivity.

(** ** Properties *)

(** C26: a module that cannot be loaded leaves nothing behind, and one that was loaded
    nothing once it is unloaded.  Loading fails exactly when the device cannot be
    registered or the /proc files cannot be created.  On every error path each
    resource that was taken is given back, except that the path of the /proc files
    drops the reference to the character device twice: cdev_del has already dropped
    the only one. *)
Theorem load_unload_balanced (works : service -> bool) :
  let '(rc, log) := qnxcomm_init works [] in
  let loaded := works alloc_chrdev_region && works cdev_alloc && works cdev_add && proc_works works in
  rc = (if loaded then 0 else - EIO) /\
  (loaded = false -> forall r, balance works r log =
     match r with
     | CdevReference => if works alloc_chrdev_region && works cdev_alloc && works cdev_add then -1 else 0
     | _ => 0
     end) /\
  (loaded = true -> works class_create = true -> works device_create = true ->
     forall r, balance works r (qnxcomm_cleanup log).2 = 0).
Proof.
  unfold qnxcomm_init, qnx_proc_init, proc_works, and_then, call, do, del_inst, free_cdev, free_region, lbind, lret.
  destruct (works alloc_chrdev_region) eqn:H1; [|by balanced].
  destruct (works cdev_alloc) eqn:H2; [|by balanced].
  destruct (works cdev_add) eqn:H3; [|by balanced].
  destruct (works (proc_mkdir QNX_PROC_ROOT_DIR)) eqn:H4; [|by balanced].
  destruct (works (proc_create_data QNX_PROC_CONNECTIONS)) eqn:H5; [|by balanced].
  destruct (works (proc_create_data QNX_PROC_CHANNELS)) eqn:H6; [|by balanced].
  destruct (works (proc_create_data QNX_PROC_BLOCKED_TASKS)) eqn:H7; by balanced.
Qed.
