(* ===== verification/ProcRun.v ===== *)
(** * The /proc files in a concrete run

    The text that the three files have while the client of ExampleRun waits, and
    the properties of Proc and Lifecycle at concrete states. *)

From Stdlib Require Import ZArith Lia String.
From stdpp Require Import base tactics list option gmap fin_maps sets strings.
From S2P Require Import Prelude Layout UserMem ConnectionTable Kernel Msgsend Channel ProcessEntry DriverData Driver Examples Protocol Interleaving ExampleRun Proc Lifecycle.

Open Scope Z_scope.

Definition text_of (c : K flatmem string) (s : kstate flatmem) : string :=
  match c s with Done (t, _) => t | _ => EmptyString end.

(** the client's message is in the queue *)
Example blocked_in_queue :
  text_of qnx_show_blocked_tasks run6.1 = text ["tid=20 (coid=1) => pid=10, chid=1 [SEND]"; newline].
Proof. vm_compute. reflexivity. Qed.

(** the server copies it: for a moment the client is in no list *)
Example blocked_while_copied : text_of qnx_show_blocked_tasks run7.1 = no_processes.
Proof. vm_compute. reflexivity. Qed.

Example connections_of_client :
  text_of qnx_show_connections run6.1 = text ["pid=20:"; newline; "   1 => pid=10, chid=1"; newline; newline].
Proof. vm_compute. reflexivity. Qed.

Example channels_of_server : text_of qnx_show_channels run6.1 = text ["pid=10: 1 "; newline].
Proof. vm_compute. reflexivity. Qed.

(** before any process has the device open *)
Example nothing_attached : text_of (run_show ShowConnections) run0.1 = no_processes.
Proof. vm_compute. reflexivity. Qed.

Lemma proc_blocked_threads_witness :
  exists lines, qnx_show_blocked_tasks run6.1 = Done (shown (map blocked_line lines), run6.1) /\ NoDup (map bl_tid lines).
Proof.
  destruct (proc_blocked_threads run6.1 run6.2 (reachable_pair _ run6_reachable)) as (lines & H1 & H2 & _). exists lines. exact (conj H1 H2).
Defined.


(** a kernel that cannot create the files *)
Lemma load_unload_balanced_witness :
  let works x := match x with proc_mkdir _ => false | _ => true end in
  (qnxcomm_init works []).1 = - EIO /\ balance works Region (qnxcomm_init works []).2 = 0 /\
  balance works CdevReference (qnxcomm_init works []).2 = -1.
Proof.
  intros works. pose proof (load_unload_balanced works) as H. destruct (qnxcomm_init works []) as [rc log]. cbn [fst snd].
  destruct H as (H1 & H2 & _). split_and!; [exact H1|exact (H2 eq_refl Region)|exact (H2 eq_refl CdevReference)].
Defined.
