(* ===== verification/Userspace.v ===== *)
(** * The C++ library (userspace/userspace.cpp, qnxcomm.h)

    The library has one file descriptor for the device, [fd], and in each thread
    the timeout that TimerTimeout set for the next call.  What it asks of the
    operating system (open, close, ioctl, the clock, the process id) is the class
    [System] over an abstract world [W]; UserDriver has the instance in which the
    ioctl is the driver.  A library function is a computation [U W A]; it is
    [None] when it does not return. *)

From S2P Require Import Prelude Layout.
From Stdlib Require Import ZArith Lia.
From stdpp Require Import base tactics list option.

Open Scope Z_scope.

(** ** Constants of Linux and of C *)

Definition EINTR : Z := 4.
Definition ENOSYS : Z := 38.
Definition CLOCK_MONOTONIC : Z := 1.
Definition TIMER_ABSTIME : Z := 1.
Definition UINT64_MAX : Z := 2 ^ 64 - 1.
Definition O_RDONLY : Z := 0.
Definition O_RDWR : Z := 2.
Definition O_CLOEXEC : Z := 524288.

(** [(int)((~0u ^ (~0u >> 1)) >> 1)] *)
Definition _NTO_SIDE_CHANNEL : Z :=
  let ones := 2 ^ 32 - 1 in i32 (Z.shiftr (Z.lxor ones (Z.shiftr ones 1)) 1).

(** ** The operating system *)

(** the result of a system call: a value, or -1 with [errno] *)
Inductive sys_result :=
  | SysOk (rc : Z)
  | SysErr (errno : Z).

(** the third argument of ioctl: an integer, or a pointer to bytes *)
Inductive ioctl_arg :=
  | ArgInt (n : Z)
  | ArgPtr (bytes : list Z).

(** the system calls; [None]: the call does not return *)
Class System (W : Type) := {
  (** [open("/dev/qnxcomm", flags)] *)
  sys_open : Z -> W -> option (sys_result * W);
  sys_close : Z -> W -> option (sys_result * W);
  (** [ioctl(fd, cmd, arg)], with what [arg] points to afterwards *)
  sys_ioctl : Z -> Z -> ioctl_arg -> W -> option (sys_result * ioctl_arg * W);
  (** [clock_gettime(CLOCK_MONOTONIC, &ts)]: seconds and nanoseconds *)
  sys_monotonic : W -> Z * Z;
  sys_getpid : W -> Z;
  (** a store of the process to its own memory *)
  mem_write : Z -> list Z -> W -> W
}.

(** what the library relies on: close returns 0 or fails, and it gives the descriptor up also when it fails
    with EINTR, so that closing it again fails with EBADF (close(2)) *)
Class SystemLaws (W : Type) `{!System W} : Prop := {
  close_zero fd w rc w1 : sys_close fd w = Some (SysOk rc, w1) -> rc = 0;
  close_again fd w w1 :
    sys_close fd w = Some (SysErr EINTR, w1) -> exists w2, sys_close fd w1 = Some (SysErr EBADF, w2)
}.

(** ** The state of the library *)

Record timeout_val := TimeoutVal { ntime : Z; otime : Z }.

(** the initial value of sTimerTimeout *)
Definition no_timeout : timeout_val := TimeoutVal UINT64_MAX 0.

Record ustate (W : Type) := UState {
  u_fd : Z;                  (* fd *)
  u_timer : timeout_val;     (* sTimerTimeout of the calling thread *)
  u_errno : Z;               (* errno of the calling thread *)
  u_world : W
}.
Arguments UState {W}. Arguments u_fd {W}. Arguments u_timer {W}. Arguments u_errno {W}. Arguments u_world {W}.

Definition U (W A : Type) : Type := ustate W -> option (A * ustate W).

Section Monad.
  Context {W : Type}.

Definition uret {A} (a : A) : U W A := fun u => Some (a, u).
Definition ubind {A B} (c : U W A) (k : A -> U W B) : U W B := fun u =>
  let? (a, u') := c u in k a u'.

Definition uget {A} (f : ustate W -> A) : U W A := fun u => Some (f u, u).
Definition set_errno (e : Z) : U W unit := fun u => Some (tt, UState (u_fd u) (u_timer u) e (u_world u)).
Definition set_fd (fd : Z) : U W unit := fun u => Some (tt, UState fd (u_timer u) (u_errno u) (u_world u)).
Definition set_timer (t : timeout_val) : U W unit := fun u => Some (tt, UState (u_fd u) t (u_errno u) (u_world u)).
Definition set_world (w : W) : U W unit := fun u => Some (tt, UState (u_fd u) (u_timer u) (u_errno u) w).

(** the C function of a system call: -1 and [errno] for an error *)
Definition libc (r : sys_result) : U W Z :=
  match r with
  | SysOk rc => uret rc
  | SysErr e => fun u => Some (-1, UState (u_fd u) (u_timer u) e (u_world u))
  end.
End Monad.

Notation "'let*' x ':=' c 'in' k" := (ubind c (fun x => k))
  (at level 200, x pattern, c at level 200, k at level 200,
   format "'[v' 'let*'  x  ':='  c  'in' '/' k ']'") : qnx_scope.

Section Userspace.
  Context {W : Type} `{!System W}.
  Implicit Types (u : ustate W) (w : W).

Definition c_open (flags : Z) : U W Z := fun u =>
  let? (r, w) := sys_open flags (u_world u) in (let* _ := set_world w in libc r) u.
Definition c_close (fd : Z) : U W Z := fun u =>
  let? (r, w) := sys_close fd (u_world u) in (let* _ := set_world w in libc r) u.
Definition c_ioctl (fd cmd : Z) (arg : ioctl_arg) : U W (Z * ioctl_arg) := fun u =>
  let? (ra, w) := sys_ioctl fd cmd arg (u_world u) in
  let '(r, arg') := ra in
  (let* _ := set_world w in let* rc := libc r in uret (rc, arg')) u.
Definition store (addr : Z) (bytes : list Z) : U W unit := fun u =>
  set_world (mem_write addr bytes (u_world u)) u.

(** ** The device *)

Definition initialize : U W Z := c_open (Z.lor O_RDWR O_CLOEXEC).

(** [while(close(fd) && errno == EINTR);] with fuel; [None] when it is used up *)
Fixpoint close_retry (fuel : nat) (fd : Z) : U W unit :=
  match fuel with
  | O => fun _ => None
  | S fuel' =>
      let* rc := c_close fd in
      let* e := uget u_errno in
      if negb (rc =? 0) && (e =? EINTR) then close_retry fuel' fd else uret tt
  end.

(** a second call is the last one ([close_again]) *)
Definition CLOSE_CALLS : nat := 2.

(** the part of safe_ioctl that holds [mtx] *)
Definition reconnect : U W unit :=
  let* fd := uget u_fd in
  let* _ := close_retry CLOSE_CALLS fd in
  let* fd' := initialize in
  set_fd fd'.

(** the loop of safe_ioctl with [n] rounds to go; [rc] is the variable *)
Fixpoint safe_ioctl_loop (n : nat) (rc cmd : Z) (data : ioctl_arg) : U W (Z * ioctl_arg) :=
  match n with
  | O => uret (rc, data)
  | S n' =>
      let* fd := uget u_fd in
      let* (rc, data) := c_ioctl fd cmd data in
      let* e := uget u_errno in
      if (rc <? 0) && (e =? ENOSPC)
      then let* _ := reconnect in safe_ioctl_loop n' rc cmd data
      else uret (rc, data)
  end.

Definition safe_ioctl (cmd : Z) (data : ioctl_arg) : U W (Z * ioctl_arg) := safe_ioctl_loop 2 0 cmd data.

(** ** The timeout of the next call *)

(** timeout_val::finish *)
Definition finish : U W unit :=
  let* t := uget u_timer in
  let* _ := (if negb (otime t =? 0) then store (otime t) (le_bytes 8 0) else uret tt) in
  set_timer no_timeout.

Definition get_timeout_ms (t : timeout_val) : Z :=
  let rc := ntime t / 1000000 in
  if rc >? INT_MAX then -1 else rc.

(** a block with a TimerStackSafe: the destructor runs at its end *)
Definition with_timer (body : Z -> U W Z) : U W Z :=
  let* t := uget u_timer in
  let* rc := body (get_timeout_ms t) in
  let* _ := finish in
  uret rc.

(** [ntime]: what the pointer points to, [None] for NULL *)
Definition TimerTimeout (id flags : Z) (ntime : option Z) (otime : Z) : U W Z :=
  match ntime with
  | Some timeout =>
      if id =? CLOCK_MONOTONIC
      then
        let* (sec, nsec) := uget (fun u => sys_monotonic (u_world u)) in
        let now := u64 (u64 (u64 sec * 1000000000) + u64 nsec) in
        let* _ := set_timer (TimeoutVal
          (if negb (Z.land flags TIMER_ABSTIME =? 0)
           then (if now >? timeout then 0 else timeout - now)
           else timeout) otime) in
        uret 0
      else let* _ := set_errno EINVAL in uret (-1)
  | None => let* _ := set_errno EINVAL in uret (-1)
  end.

(** ** The calls *)

Definition struct_arg {A} (c : codec A) (a : A) : ioctl_arg := ArgPtr (c_enc c a).

(** [if (fd >= 0) ... else errno = ESRCH;] *)
Definition with_device (c : U W Z) : U W Z :=
  let* fd := uget u_fd in
  if fd >=? 0 then c else let* _ := set_errno ESRCH in uret (-1).

Definition simple_ioctl (cmd : Z) (data : ioctl_arg) : U W Z :=
  let* (rc, _) := safe_ioctl cmd data in uret rc.

Definition not_side_channel (coid : Z) : Z := Z.land coid (Z.lnot _NTO_SIDE_CHANNEL).

Definition ChannelCreate (flags : Z) : U W Z :=
  with_device (simple_ioctl QNX_IO_CHANNELCREATE (struct_arg c_io_channelcreate (IoChannelcreate flags))).

Definition ChannelDestroy (chid : Z) : U W Z :=
  with_device (simple_ioctl QNX_IO_CHANNELDESTROY (ArgInt chid)).

Definition ConnectAttach (nd pid chid index flags : Z) : U W Z :=
  with_device (
    if nd =? 0
    then
      let* self := uget (fun u => sys_getpid (u_world u)) in
      let data := IoAttach (if pid =? 0 then self else pid) chid flags in
      let* rc := simple_ioctl QNX_IO_CONNECTATTACH (struct_arg c_io_attach data) in
      uret (if (rc >? 0) && negb (Z.land index _NTO_SIDE_CHANNEL =? 0)
            then Z.lor rc _NTO_SIDE_CHANNEL else rc)
    else let* _ := set_errno EINVAL in uret (-1)).

Definition ConnectDetach (coid : Z) : U W Z :=
  with_device (simple_ioctl QNX_IO_CONNECTDETACH (ArgInt (not_side_channel coid))).

Definition MsgSend (coid smsg sbytes rmsg rbytes : Z) : U W Z :=
  with_device (with_timer (fun timeout_ms =>
    simple_ioctl QNX_IO_MSGSEND (struct_arg c_io_msgsend
      (IoMsgsend (not_side_channel coid) timeout_ms (Iovec smsg (u64 sbytes)) (Iovec rmsg (u64 rbytes)))))).

Definition MsgSendPulse (coid priority code value : Z) : U W Z :=
  with_device (simple_ioctl QNX_IO_MSGSENDPULSE (struct_arg c_io_msgsendpulse
    (IoMsgsendpulse (not_side_channel coid) code value))).

(** [{ 0 }] *)
Definition no_info : msg_info := MsgInfo 0 0 0 0 0 0 0 0 0 0 0 0.

(** the bytes of [io.info] in the bytes of [io] *)
Definition info_bytes (data : ioctl_arg) : list Z :=
  match data with ArgPtr bytes => take (c_size c_msg_info) (drop 24 bytes) | ArgInt _ => [] end.

Definition MsgReceive (chid msg bytes info : Z) : U W Z :=
  with_device (with_timer (fun timeout_ms =>
    let* (rc, data) := safe_ioctl QNX_IO_MSGRECEIVE (struct_arg c_io_receive
      (IoReceive chid timeout_ms (Iovec msg (u64 bytes)) no_info)) in
    let* _ := (if (rc >=? 0) && negb (info =? 0) then store info (info_bytes data) else uret tt) in
    uret rc)).

Definition MsgReply (rcvid status msg size : Z) : U W Z :=
  with_device (simple_ioctl QNX_IO_MSGREPLY (struct_arg c_io_reply (IoReply rcvid status (Iovec msg (u64 size))))).

Definition MsgError (rcvid error : Z) : U W Z :=
  with_device (simple_ioctl QNX_IO_MSGERROR (struct_arg c_io_error_reply (IoErrorReply rcvid error))).

Definition MsgRead (rcvid msg bytes offset : Z) : U W Z :=
  with_device (simple_ioctl QNX_IO_MSGREAD (struct_arg c_io_read (IoRead rcvid offset (Iovec msg (u64 bytes))))).

Definition MsgSendv (coid siov sparts riov rparts : Z) : U W Z :=
  with_device (with_timer (fun timeout_ms =>
    simple_ioctl QNX_IO_MSGSENDV (struct_arg c_io_msgsendv
      (IoMsgsendv (not_side_channel coid) timeout_ms siov sparts riov rparts)))).

Definition not_implemented : U W Z := let* _ := set_errno ENOSYS in uret (-1).

Definition MsgReceivev (chid riov rparts info : Z) : U W Z := not_implemented.
Definition MsgReceivePulse (chid pulse bytes info : Z) : U W Z := not_implemented.
Definition MsgReadv (rcvid riov rparts offset : Z) : U W Z := not_implemented.
Definition MsgWrite (rcvid msg size offset : Z) : U W Z := not_implemented.
Definition MsgReplyv (rcvid status riov rparts : Z) : U W Z := not_implemented.

Definition ConnectAttachEx (nd pid chid index flags mode : Z) : U W Z := ConnectAttach nd pid chid index flags.
Definition ChannelCreateEx (flags mode : Z) : U W Z := ChannelCreate flags.

Definition MsgSendNoReply (coid smsg sbytes : Z) : U W Z :=
  with_device (with_timer (fun timeout_ms =>
    simple_ioctl QNX_IO_MSGSENDNOREPLY (struct_arg c_io_msgsend
      (IoMsgsend (not_side_channel coid) timeout_ms (Iovec smsg (u64 sbytes)) (Iovec 0 0))))).

Definition MsgSendNoReplyv (coid siov sparts : Z) : U W Z :=
  with_device (with_timer (fun timeout_ms =>
    simple_ioctl QNX_IO_MSGSENDNOREPLYV (struct_arg c_io_msgsendv
      (IoMsgsendv (not_side_channel coid) timeout_ms siov sparts 0 0)))).

Definition MsgReceivePollFd (chid : Z) : U W Z :=
  let* fd := c_open (Z.lor O_RDONLY O_CLOEXEC) in
  let* (rc, _) := c_ioctl fd QNX_IO_REGISTER_POLLFD (ArgInt chid) in
  if rc =? 0 then uret fd
  else let* _ := close_retry CLOSE_CALLS fd in uret (-1).

(** ** The whole interface (qnxcomm.h) *)

Inductive api_call :=
  | ApiTimerTimeout (id flags : Z) (ntime : option Z) (otime : Z)
  | ApiChannelCreate (flags : Z)
  | ApiChannelDestroy (chid : Z)
  | ApiConnectAttach (nd pid chid index flags : Z)
  | ApiConnectDetach (coid : Z)
  | ApiMsgSend (coid smsg sbytes rmsg rbytes : Z)
  | ApiMsgSendv (coid siov sparts riov rparts : Z)
  | ApiMsgSendPulse (coid priority code value : Z)
  | ApiMsgReceive (chid msg bytes info : Z)
  | ApiMsgRead (rcvid msg bytes offset : Z)
  | ApiMsgReply (rcvid status msg size : Z)
  | ApiMsgError (rcvid error : Z)
  | ApiMsgReceivev (chid riov rparts info : Z)
  | ApiMsgReadv (rcvid riov rparts offset : Z)
  | ApiMsgWrite (rcvid msg size offset : Z)
  | ApiMsgReplyv (rcvid status riov rparts : Z)
  | ApiMsgReceivePulse (chid pulse bytes info : Z)
  | ApiChannelCreateEx (flags mode : Z)
  | ApiConnectAttachEx (nd pid chid index flags mode : Z)
  | ApiMsgSendNoReply (coid smsg sbytes : Z)
  | ApiMsgSendNoReplyv (coid siov sparts : Z)
  | ApiMsgReceivePollFd (chid : Z).

Definition perform (a : api_call) : U W Z :=
  match a with
  | ApiTimerTimeout id flags ntime otime => TimerTimeout id flags ntime otime
  | ApiChannelCreate flags => ChannelCreate flags
  | ApiChannelDestroy chid => ChannelDestroy chid
  | ApiConnectAttach nd pid chid index flags => ConnectAttach nd pid chid index flags
  | ApiConnectDetach coid => ConnectDetach coid
  | ApiMsgSend coid smsg sbytes rmsg rbytes => MsgSend coid smsg sbytes rmsg rbytes
  | ApiMsgSendv coid siov sparts riov rparts => MsgSendv coid siov sparts riov rparts
  | ApiMsgSendPulse coid priority code value => MsgSendPulse coid priority code value
  | ApiMsgReceive chid msg bytes info => MsgReceive chid msg bytes info
  | ApiMsgRead rcvid msg bytes offset => MsgRead rcvid msg bytes offset
  | ApiMsgReply rcvid status msg size => MsgReply rcvid status msg size
  | ApiMsgError rcvid error => MsgError rcvid error
  | ApiMsgReceivev chid riov rparts info => MsgReceivev chid riov rparts info
  | ApiMsgReadv rcvid riov rparts offset => MsgReadv rcvid riov rparts offset
  | ApiMsgWrite rcvid msg size offset => MsgWrite rcvid msg size offset
  | ApiMsgReplyv rcvid status riov rparts => MsgReplyv rcvid status riov rparts
  | ApiMsgReceivePulse chid pulse bytes info => MsgReceivePulse chid pulse bytes info
  | ApiChannelCreateEx flags mode => ChannelCreateEx flags mode
  | ApiConnectAttachEx nd pid chid index flags mode => ConnectAttachEx nd pid chid index flags mode
  | ApiMsgSendNoReply coid smsg sbytes => MsgSendNoReply coid smsg sbytes
  | ApiMsgSendNoReplyv coid siov sparts => MsgSendNoReplyv coid siov sparts
  | ApiMsgReceivePollFd chid => MsgReceivePollFd chid
  end.

End Userspace.

(** ** Specification *)

(** the calls that take the timeout of TimerTimeout *)
Definition waits (a : api_call) : bool :=
  match a with
  | ApiMsgSend _ _ _ _ _ | ApiMsgSendv _ _ _ _ _ | ApiMsgReceive _ _ _ _
  | ApiMsgSendNoReply _ _ _ | ApiMsgSendNoReplyv _ _ _ => true
  | _ => false
  end.

(** the calls that go to the device *)
Definition uses_device (a : api_call) : bool :=
  match a with
  | ApiTimerTimeout _ _ _ _ | ApiMsgReceivev _ _ _ _ | ApiMsgReadv _ _ _ _ | ApiMsgWrite _ _ _ _
  | ApiMsgReplyv _ _ _ _ | ApiMsgReceivePulse _ _ _ _ | ApiMsgReceivePollFd _ => false
  | _ => true
  end.

(** the ioctl that a call makes; [ms] is the timeout and [self] the process *)
Definition request (a : api_call) (ms self : Z) : option (Z * ioctl_arg) :=
  match a with
  | ApiChannelCreate flags | ApiChannelCreateEx flags _ =>
      Some (QNX_IO_CHANNELCREATE, struct_arg c_io_channelcreate (IoChannelcreate flags))
  | ApiChannelDestroy chid => Some (QNX_IO_CHANNELDESTROY, ArgInt chid)
  | ApiConnectAttach nd pid chid _ flags | ApiConnectAttachEx nd pid chid _ flags _ =>
      if nd =? 0
      then Some (QNX_IO_CONNECTATTACH, struct_arg c_io_attach (IoAttach (if pid =? 0 then self else pid) chid flags))
      else None
  | ApiConnectDetach coid => Some (QNX_IO_CONNECTDETACH, ArgInt (not_side_channel coid))
  | ApiMsgSend coid smsg sbytes rmsg rbytes =>
      Some (QNX_IO_MSGSEND, struct_arg c_io_msgsend
        (IoMsgsend (not_side_channel coid) ms (Iovec smsg (u64 sbytes)) (Iovec rmsg (u64 rbytes))))
  | ApiMsgSendv coid siov sparts riov rparts =>
      Some (QNX_IO_MSGSENDV, struct_arg c_io_msgsendv (IoMsgsendv (not_side_channel coid) ms siov sparts riov rparts))
  | ApiMsgSendPulse coid _ code value =>
      Some (QNX_IO_MSGSENDPULSE, struct_arg c_io_msgsendpulse (IoMsgsendpulse (not_side_channel coid) code value))
  | ApiMsgReceive chid msg bytes _ =>
      Some (QNX_IO_MSGRECEIVE, struct_arg c_io_receive (IoReceive chid ms (Iovec msg (u64 bytes)) no_info))
  | ApiMsgRead rcvid msg bytes offset =>
      Some (QNX_IO_MSGREAD, struct_arg c_io_read (IoRead rcvid offset (Iovec msg (u64 bytes))))
  | ApiMsgReply rcvid status msg size =>
      Some (QNX_IO_MSGREPLY, struct_arg c_io_reply (IoReply rcvid status (Iovec msg (u64 size))))
  | ApiMsgError rcvid error => Some (QNX_IO_MSGERROR, struct_arg c_io_error_reply (IoErrorReply rcvid error))
  | ApiMsgSendNoReply coid smsg sbytes =>
      Some (QNX_IO_MSGSENDNOREPLY, struct_arg c_io_msgsend
        (IoMsgsend (not_side_channel coid) ms (Iovec smsg (u64 sbytes)) (Iovec 0 0)))
  | ApiMsgSendNoReplyv coid siov sparts =>
      Some (QNX_IO_MSGSENDNOREPLYV, struct_arg c_io_msgsendv (IoMsgsendv (not_side_channel coid) ms siov sparts 0 0))
  | _ => None
  end.

(** what a call makes of the result of its ioctl *)
Definition call_result (a : api_call) (rc : Z) : Z :=
  match a with
  | ApiConnectAttach _ _ _ index _ | ApiConnectAttachEx _ _ _ index _ _ =>
      if (rc >? 0) && negb (Z.land index _NTO_SIDE_CHANNEL =? 0) then Z.lor rc _NTO_SIDE_CHANNEL else rc
  | _ => rc
  end.

(** what the caller's memory has after a call with the result [rc] and the
    argument [data] of the ioctl, and the timeout [t] *)
Definition call_memory {W} `{!System W} (a : api_call) (rc : Z) (data : ioctl_arg) (t : timeout_val) (w : W) : W :=
  let w := match a with
           | ApiMsgReceive _ _ _ info => if (rc >=? 0) && negb (info =? 0) then mem_write info (info_bytes data) w else w
           | _ => w
           end in
  if waits a && negb (otime t =? 0) then mem_write (otime t) (le_bytes 8 0) w else w.

Section UserspaceSpec.
  Context {W : Type} `{!System W}.
  Implicit Types (u : ustate W) (w : W) (a : api_call).

(** ** The timeout is not touched by the system calls *)

Definition keeps_timer {A} (c : U W A) : Prop :=
  forall u x u', c u = Some (x, u') -> u_timer u' = u_timer u.

Lemma keeps_ret {A} (x : A) : keeps_timer (uret x).
Proof. by intros u ? ? [= _ <-]. Qed.

Lemma keeps_get {A} (f : ustate W -> A) : keeps_timer (uget f).
Proof. by intros u ? ? [= _ <-]. Qed.

Lemma keeps_bind {A B} (c : U W A) (k : A -> U W B) :
  keeps_timer c -> (forall x, keeps_timer (k x)) -> keeps_timer (let* x := c in k x).
Proof.
  intros Hc Hk u y u' H. unfold ubind in H. destruct (c u) as [[x u1]|] eqn:Hcu; [|done].
  rewrite (Hk x _ _ _ H). by eapply Hc.
Qed.

Lemma keeps_open flags : keeps_timer (c_open flags).
Proof. intros u x u'. unfold c_open. destruct (sys_open flags _) as [[[rc|e] w]|]; [| |done]; by intros [= _ <-]. Qed.

Lemma keeps_close fd : keeps_timer (c_close fd).
Proof. intros u x u'. unfold c_close. destruct (sys_close fd _) as [[[rc|e] w]|]; [| |done]; by intros [= _ <-]. Qed.

Lemma keeps_ioctl fd cmd data : keeps_timer (c_ioctl fd cmd data).
Proof.
  intros u x u'. unfold c_ioctl. destruct (sys_ioctl fd cmd data _) as [[[[rc|e] d] w]|]; [| |done]; by intros [= _ <-].
Qed.

Lemma keeps_set_fd fd : keeps_timer (set_fd fd).
Proof. by intros u ? ? [= _ <-]. Qed.

Hint Resolve keeps_ret keeps_get keeps_open keeps_close keeps_ioctl keeps_set_fd : core.

Lemma keeps_close_retry n fd : keeps_timer (close_retry n fd).
Proof.
  induction n as [|n IH]; [done|]. cbn [close_retry]. apply keeps_bind; [done|]. intros rc. apply keeps_bind; [done|].
  intros e. by destruct (_ && _).
Qed.

Lemma keeps_reconnect : keeps_timer reconnect.
Proof. do 3 (apply keeps_bind; [first [done|apply keeps_close_retry|apply keeps_open]|intros ?]). apply keeps_set_fd. Qed.

Lemma keeps_safe_ioctl n rc cmd data : keeps_timer (safe_ioctl_loop n rc cmd data).
Proof.
  revert rc data. induction n as [|n IH]; intros rc data; cbn [safe_ioctl_loop]; [done|].
  apply keeps_bind; [done|]. intros fd. apply keeps_bind; [done|]. intros [rc' data']. apply keeps_bind; [done|]. intros e.
  destruct (_ && _); [|done]. apply keeps_bind; [apply keeps_reconnect|done].
Qed.

Lemma keeps_simple_ioctl cmd data : keeps_timer (simple_ioctl cmd data).
Proof. apply keeps_bind; [apply keeps_safe_ioctl|]. by intros [? ?]. Qed.

Lemma keeps_store addr bytes : keeps_timer (store addr bytes).
Proof. by intros u ? ? [= _ <-]. Qed.

Lemma finish_run u :
  finish u = Some (tt, UState (u_fd u) no_timeout (u_errno u)
                         (if negb (otime (u_timer u) =? 0) then mem_write (otime (u_timer u)) (le_bytes 8 0) (u_world u)
                          else u_world u)).
Proof. unfold finish, ubind, uget. cbn beta iota. by destruct (negb _). Qed.

(** the block of a TimerStackSafe uses the timeout up *)
Lemma with_timer_run body u :
  (forall ms, keeps_timer (body ms)) ->
  with_timer body u =
    let? (rc, u') := body (get_timeout_ms (u_timer u)) u in
    Some (rc, UState (u_fd u') no_timeout (u_errno u')
                (if negb (otime (u_timer u) =? 0) then mem_write (otime (u_timer u)) (le_bytes 8 0) (u_world u')
                 else u_world u')).
Proof.
  intros Hk. unfold with_timer, ubind at 1, uget at 1. cbn beta iota. specialize (Hk (get_timeout_ms (u_timer u)) u).
  unfold ubind, uret. destruct (body _ u) as [[rc u']|]; [|done]. rewrite finish_run. by rewrite (Hk rc u' eq_refl).
Qed.

Lemma with_device_open c u : 0 <= u_fd u -> with_device c u = c u.
Proof. intros H. unfold with_device, ubind, uget. by rewrite (proj2 (Z.geb_le _ _) H). Qed.

(** a call to the device is its ioctl *)
Lemma perform_request a u cmd data :
  0 <= u_fd u -> request a (get_timeout_ms (u_timer u)) (sys_getpid (u_world u)) = Some (cmd, data) ->
  perform a u =
    let? ((rc, data'), u') := safe_ioctl cmd data u in
    Some (call_result a rc, UState (u_fd u') (if waits a then no_timeout else u_timer u') (u_errno u')
                              (call_memory a rc data' (u_timer u) (u_world u'))).
Proof.
  intros Hfd Hreq.
  assert (Hsimple : forall c d, simple_ioctl c d u = let? ((rc, _), u') := safe_ioctl c d u in Some (rc, u')).
  { intros c d. unfold simple_ioctl, ubind, uret. by destruct (safe_ioctl c d u) as [[[? ?] ?]|]. }
  destruct a; cbn [request] in Hreq; try match type of Hreq with (if ?b then _ else _) = _ => destruct b eqn:Hnd end;
    simplify_eq; cbn [perform];
    unfold ChannelCreateEx, ConnectAttachEx, ChannelCreate, ChannelDestroy, ConnectAttach, ConnectDetach, MsgSend, MsgSendv,
      MsgSendPulse, MsgReceive, MsgRead, MsgReply, MsgError, MsgSendNoReply, MsgSendNoReplyv; rewrite with_device_open by done;
    rewrite ?with_timer_run by auto using keeps_simple_ioctl; cbn [waits call_result call_memory andb];
    try (rewrite Hsimple; by destruct (safe_ioctl _ _ u) as [[[? ?] []]|]).
  1, 3: rewrite Hnd; unfold ubind, uget, uret; cbn beta iota; rewrite Hsimple; by destruct (safe_ioctl _ _ u) as [[[? ?] []]|].
  rewrite with_timer_run.
  - unfold ubind, uret, store, set_world. destruct (safe_ioctl _ _ u) as [[[rc data'] u']|]; [|done].
    unfold call_memory. cbn [waits andb]. by destruct ((rc >=? 0) && _), (negb (otime _ =? 0)).
  - intros ms. apply keeps_bind; [apply keeps_safe_ioctl|]. intros [rc data']. apply keeps_bind; [|done].
    destruct (_ && _); auto using keeps_store.
Qed.

(** ** The calls return *)

(** the system calls return *)
Definition system_returns : Prop :=
  (forall flags w, is_Some (sys_open flags w)) /\ (forall fd w, is_Some (sys_close fd w)) /\
  (forall fd cmd data w, is_Some (sys_ioctl fd cmd data w)).

Definition returns {A} (c : U W A) : Prop := forall u, is_Some (c u).

Lemma returns_bind {A B} (c : U W A) (k : A -> U W B) :
  returns c -> (forall x, returns (k x)) -> returns (let* x := c in k x).
Proof. intros Hc Hk u. unfold ubind. destruct (Hc u) as [[x u'] ->]. apply Hk. Qed.

Lemma returns_open flags : system_returns -> returns (c_open flags).
Proof. intros H u. unfold c_open. destruct (proj1 H flags (u_world u)) as [[[rc|e] w] ->]; by eexists. Qed.

Lemma returns_ioctl fd cmd data : system_returns -> returns (c_ioctl fd cmd data).
Proof.
  intros (_ & _ & H) u. unfold c_ioctl. destruct (H fd cmd data (u_world u)) as [[[[rc|e] d] w] ->]; by eexists.
Qed.

Lemma returns_close_retry `{!SystemLaws W} fd : system_returns -> returns (close_retry CLOSE_CALLS fd).
Proof.
  intros (_ & H & _) u. unfold CLOSE_CALLS. cbn [close_retry]. unfold ubind, uget, uret, c_close.
  destruct (H fd (u_world u)) as [[[rc|e] w1] Hc]; rewrite Hc; cbn.
  - rewrite (close_zero _ _ _ _ Hc). by eexists.
  - destruct (Z.eqb_spec e EINTR) as [->|]; [|by eexists].
    unfold c_close. cbn. destruct (close_again _ _ _ Hc) as [w2 ->]. by eexists.
Qed.

Lemma returns_reconnect `{!SystemLaws W} : system_returns -> returns reconnect.
Proof.
  intros H. apply returns_bind; [by eexists|]. intros fd. apply returns_bind; [by apply returns_close_retry|]. intros _.
  apply returns_bind; [by apply returns_open|]. by eexists.
Qed.

Lemma returns_safe_ioctl `{!SystemLaws W} n rc cmd data : system_returns -> returns (safe_ioctl_loop n rc cmd data).
Proof.
  intros H. revert rc data. induction n as [|n IH]; intros rc data; cbn [safe_ioctl_loop]; [by eexists|].
  apply returns_bind; [by eexists|]. intros fd. apply returns_bind; [by apply returns_ioctl|]. intros [rc' data'].
  apply returns_bind; [by eexists|]. intros e. destruct (_ && _); [|by eexists].
  apply returns_bind; [by apply returns_reconnect|done].
Qed.

Lemma not_device_returns `{!SystemLaws W} a :
  system_returns -> uses_device a = false -> returns (perform a).
Proof.
  intros H Ha. destruct a; try discriminate Ha; cbn [perform]; try by eexists.
  - intros u. unfold TimerTimeout, ubind, uget. destruct ntime0; [destruct (id =? _)|]; [|by eexists..].
    destruct (sys_monotonic _). by eexists.
  - apply returns_bind; [by apply returns_open|]. intros fd. apply returns_bind; [by apply returns_ioctl|]. intros [rc d].
    destruct (rc =? 0); [by eexists|]. apply returns_bind; [by apply returns_close_retry|by eexists].
Qed.

Lemma with_device_closed c u :
  u_fd u < 0 -> with_device c u = Some (-1, UState (u_fd u) (u_timer u) ESRCH (u_world u)).
Proof. intros H. unfold with_device, ubind, uget. by rewrite Z.geb_leb, (proj2 (Z.leb_gt _ _) H). Qed.

Lemma perform_closed a u :
  u_fd u < 0 -> uses_device a = true -> perform a u = Some (-1, UState (u_fd u) (u_timer u) ESRCH (u_world u)).
Proof. intros Hfd Ha. destruct a; try discriminate Ha; by apply with_device_closed. Qed.

(** only a ConnectAttach to another node makes no ioctl on an open device *)
Lemma request_None a ms self u :
  request a ms self = None -> uses_device a = true -> 0 <= u_fd u ->
  perform a u = Some (-1, UState (u_fd u) (u_timer u) EINVAL (u_world u)).
Proof.
  intros Hr Ha Hfd. destruct a; try discriminate Ha; try discriminate Hr; cbn in Hr; destruct (nd =? 0) eqn:Hnd; try discriminate Hr;
    cbn [perform]; unfold ConnectAttachEx, ConnectAttach; rewrite with_device_open by done; by rewrite Hnd.
Qed.

(** ** Reconnecting *)

(** an ioctl that is refused with ENOSPC is made again on a new descriptor *)
Lemma safe_ioctl_again cmd data data1 data2 w1 w2 w3 w4 fd rc u :
  sys_ioctl (u_fd u) cmd data (u_world u) = Some (SysErr ENOSPC, data1, w1) ->
  sys_close (u_fd u) w1 = Some (SysOk 0, w2) -> sys_open (Z.lor O_RDWR O_CLOEXEC) w2 = Some (SysOk fd, w3) ->
  sys_ioctl fd cmd data1 w3 = Some (SysOk rc, data2, w4) -> 0 <= rc ->
  safe_ioctl cmd data u = Some ((rc, data2), UState fd (u_timer u) ENOSPC w4).
Proof.
  intros H1 H2 H3 H4 Hrc. unfold safe_ioctl. cbn [safe_ioctl_loop]. unfold ubind, uget, uret, c_ioctl. rewrite H1. cbn.
  unfold reconnect, initialize, CLOSE_CALLS, ubind, uget, uret, c_open. cbn [close_retry]. unfold ubind, uget, uret, c_close. cbn.
  rewrite H2. cbn. rewrite H3. cbn. rewrite H4. cbn. by rewrite (proj2 (Z.ltb_ge rc 0)).
Qed.

(** ** Connection ids *)

(** bit 30, which the library takes for itself *)
Lemma side_channel_bit n : 0 <= n -> Z.testbit _NTO_SIDE_CHANNEL n = (n =? 30).
Proof. intros Hn. change _NTO_SIDE_CHANNEL with (2 ^ 30). rewrite Z.pow2_bits_eqb by lia. apply Z.eqb_sym. Qed.

Lemma id_bits id n : 0 <= id < 2 ^ 30 -> 30 <= n -> Z.testbit id n = false.
Proof.
  intros Hid Hn. rewrite Z.testbit_false by lia. rewrite Z.div_small; [done|]. split; [lia|].
  eapply Z.lt_le_trans; [apply Hid|]. by apply Z.pow_le_mono_r.
Qed.

Lemma side_channel_off id : 0 <= id < 2 ^ 30 -> not_side_channel (Z.lor id _NTO_SIDE_CHANNEL) = id /\ not_side_channel id = id.
Proof.
  intros Hid. unfold not_side_channel. split; apply Z.bits_inj'; intros n Hn;
    rewrite Z.land_spec, ?Z.lor_spec, Z.lnot_spec, side_channel_bit by done;
    (destruct (Z.eqb_spec n 30) as [->|Hne]; [by rewrite id_bits by lia|by destruct (Z.testbit id n)]).
Qed.

Lemma side_channel_on id : 0 <= id < 2 ^ 30 -> Z.lor id _NTO_SIDE_CHANNEL = id + 2 ^ 30.
Proof.
  intros Hid. rewrite <- (Z.add_lor_land id (2 ^ 30)). change _NTO_SIDE_CHANNEL with (2 ^ 30).
  enough (Z.land id (2 ^ 30) = 0) by lia. apply Z.bits_inj'. intros n Hn.
  rewrite Z.land_spec, Z.pow2_bits_eqb, Z.bits_0 by lia. destruct (Z.eqb_spec 30 n) as [<-|]; [|apply andb_false_r].
  by rewrite id_bits.
Qed.

Lemma side_channel_part id : Z.land id _NTO_SIDE_CHANNEL = if Z.testbit id 30 then 2 ^ 30 else 0.
Proof.
  apply Z.bits_inj'. intros n Hn. rewrite Z.land_spec, side_channel_bit by done. destruct (Z.eqb_spec n 30) as [->|Hne].
  - by destruct (Z.testbit id 30).
  - rewrite andb_false_r. destruct (Z.testbit id 30); [|by rewrite Z.bits_0]. rewrite Z.pow2_bits_eqb by lia. symmetry. apply Z.eqb_neq. lia.
Qed.

Lemma not_side_channel_int id : is_int id -> is_int (not_side_channel id).
Proof.
  intros Hid. assert (Hsum : not_side_channel id + Z.land id _NTO_SIDE_CHANNEL = id).
  { unfold not_side_channel. rewrite <- Z.add_lor_land. replace (Z.land (Z.land _ _) _) with 0.
    - rewrite Z.add_0_r, <- Z.land_lor_distr_r. replace (Z.lor _ _) with (-1); [apply Z.land_m1_r|]. by rewrite Z.lor_comm, Z.lor_lnot_diag.
    - symmetry. apply Z.bits_inj'. intros n Hn. rewrite !Z.land_spec, Z.lnot_spec, Z.bits_0 by done.
      by destruct (Z.testbit id n), (Z.testbit _NTO_SIDE_CHANNEL n). }
  rewrite side_channel_part in Hsum. destruct (Z.testbit id 30) eqn:Hb; [|rewrite Z.add_0_r in Hsum; by rewrite Hsum].
  apply Z.testbit_true in Hb; [|lia]. pose proof (Z.div_mod id (2 ^ 30) ltac:(lia)). pose proof (Z.mod_pos_bound id (2 ^ 30) ltac:(lia)).
  pose proof (Z.div_mod (id / 2 ^ 30) 2 ltac:(lia)). unfold_int. lia.
Qed.

(** the calls on a connection, with the connection left open *)
Inductive connection_call : (Z -> api_call) -> Prop :=
  | OnDetach : connection_call ApiConnectDetach
  | OnSend x y z v : connection_call (fun id => ApiMsgSend id x y z v)
  | OnSendv x y z v : connection_call (fun id => ApiMsgSendv id x y z v)
  | OnPulse x y z : connection_call (fun id => ApiMsgSendPulse id x y z)
  | OnNoReply x y : connection_call (fun id => ApiMsgSendNoReply id x y)
  | OnNoReplyv x y : connection_call (fun id => ApiMsgSendNoReplyv id x y).

(** ** Timeouts *)

(** nanoseconds of a reading of the clock *)
Definition nanoseconds (ts : Z * Z) : Z := ts.1 * 10 ^ 9 + ts.2.

(** the nanoseconds that TimerTimeout leaves for the next call *)
Definition time_left (flags t now : Z) : Z := if Z.land flags TIMER_ABSTIME =? 0 then t else Z.max 0 (t - now).

(** [ms] is [left] in whole milliseconds, or -1 when that is not an [int] *)
Definition in_ms (left ms : Z) : Prop :=
  (ms = -1 /\ 2 ^ 31 * 10 ^ 6 <= left) \/ (0 <= ms <= INT_MAX /\ ms * 10 ^ 6 <= left < (ms + 1) * 10 ^ 6).

Lemma timeout_ms_spec t : 0 <= ntime t -> in_ms (ntime t) (get_timeout_ms t).
Proof.
  intros Ht. unfold get_timeout_ms, in_ms, INT_MAX. change (10 ^ 6) with 1000000.
  pose proof (Z.div_mod (ntime t) 1000000 ltac:(lia)) as Hd. pose proof (Z.mod_pos_bound (ntime t) 1000000 ltac:(lia)) as Hm.
  pose proof (Z.div_pos (ntime t) 1000000 Ht ltac:(lia)) as Hp.
  rewrite Z.gtb_ltb. destruct (Z.ltb_spec (2 ^ 31 - 1) (ntime t / 1000000)); [left|right]; lia.
Qed.

Lemma timer_timeout_run flags t o u :
  0 <= (sys_monotonic (u_world u)).1 -> 0 <= (sys_monotonic (u_world u)).2 -> nanoseconds (sys_monotonic (u_world u)) < 2 ^ 64 ->
  TimerTimeout CLOCK_MONOTONIC flags (Some t) o u =
    Some (0, UState (u_fd u) (TimeoutVal (time_left flags t (nanoseconds (sys_monotonic (u_world u)))) o) (u_errno u) (u_world u)).
Proof.
  intros Hs Hn Hb. unfold TimerTimeout, ubind, uget. change (CLOCK_MONOTONIC =? CLOCK_MONOTONIC) with true. cbn iota.
  cbn beta. destruct (sys_monotonic (u_world u)) as [sec nsec] eqn:Hc. unfold nanoseconds, time_left in *. cbn [fst snd] in *.
  rewrite (u64_id sec) by lia. rewrite (u64_id (sec * 1000000000)), (u64_id nsec), u64_id by lia.
  change (10 ^ 9) with 1000000000. unfold set_timer, uret. destruct (Z.land flags TIMER_ABSTIME =? 0); cbn [negb]; [done|].
  rewrite Z.gtb_ltb. destruct (Z.ltb_spec t (sec * 1000000000 + nsec)).
  - by rewrite Z.max_l by lia.
  - by rewrite Z.max_r by lia.
Qed.

Lemma waits_request a ms self : waits a = true -> is_Some (request a ms self).
Proof. intros Ha. destruct a; try discriminate Ha; by eexists. Qed.

Lemma waits_result a rc : waits a = true -> call_result a rc = rc.
Proof. by destruct a. Qed.

End UserspaceSpec.

(** ** Properties *)

(** C24: TimerTimeout sets the timeout of the next waiting call and of no other.  The
    call passes the time left to the driver in whole milliseconds: the time that
    was given, or for an absolute time what is left of it, at least 0; a time of
    2^31 ms or more means to wait forever (-1).  Afterwards no timeout is set, and
    the word that [otime] points to is 0. *)
Theorem timeout_for_next_call {W : Type} `{!System W} (a : api_call) (flags t o : Z) (u : ustate W) :
  let now := sys_monotonic (u_world u) in
  0 <= now.1 -> 0 <= now.2 -> nanoseconds now < 2 ^ 64 -> 0 <= t < 2 ^ 64 -> 0 <= u_fd u -> waits a = true ->
  exists u1 ms cmd data,
    TimerTimeout CLOCK_MONOTONIC flags (Some t) o u = Some (0, u1) /\
    in_ms (time_left flags t (nanoseconds now)) ms /\
    request a ms (sys_getpid (u_world u)) = Some (cmd, data) /\
    perform a u1 =
      (let? ((rc, data'), u2) := safe_ioctl cmd data u1 in
       Some (rc, UState (u_fd u2) no_timeout (u_errno u2) (call_memory a rc data' (TimeoutVal (ntime (u_timer u1)) o) (u_world u2)))) /\
    get_timeout_ms no_timeout = -1.
Proof.
  intros now Hs Hn Hb Ht Hfd Ha. rewrite timer_timeout_run by done. fold now.
  set (t1 := TimeoutVal _ o). destruct (waits_request a (get_timeout_ms t1) (sys_getpid (u_world u)) Ha) as [[cmd data] Hreq].
  eexists _, (get_timeout_ms t1), cmd, data. split_and!; [done| |done| |done].
  - apply (timeout_ms_spec t1). unfold t1, time_left. cbn [ntime]. destruct (_ =? _); lia.
  - rewrite (perform_request a _ cmd data) by done. cbn [u_timer]. rewrite Ha.
    destruct (safe_ioctl cmd data _) as [[[rc data'] u2]|]; [|done]. by rewrite waits_result.
Qed.

(** C28: the id that ConnectAttach returns for a side channel stands for the same
    connection of the driver as the id without the flag: it is a positive [int],
    at least 2^30 exactly when the flag was asked for, and every call that takes
    it makes the same request.  (The driver's own ids are below 2^30.) *)
Theorem side_channel_roundtrip {W : Type} `{!System W} (pid chid index flags rc : Z) (data' : ioctl_arg) (u u' : ustate W) :
  0 <= u_fd u -> 0 < rc < 2 ^ 30 ->
  safe_ioctl QNX_IO_CONNECTATTACH
    (struct_arg c_io_attach (IoAttach (if pid =? 0 then sys_getpid (u_world u) else pid) chid flags)) u = Some ((rc, data'), u') ->
  exists id, perform (ApiConnectAttach 0 pid chid index flags) u = Some (id, u') /\ 0 < id <= INT_MAX /\
    (2 ^ 30 <= id <-> Z.land index _NTO_SIDE_CHANNEL ≠ 0) /\
    forall call ms self, connection_call call -> request (call id) ms self = request (call rc) ms self.
Proof.
  intros Hfd Hrc Hs. destruct (side_channel_off rc) as [Hoff Hid]; [lia|].
  rewrite (perform_request (ApiConnectAttach 0 pid chid index flags) u _ _ Hfd eq_refl), Hs. cbn [call_result waits].
  change (call_memory _ _ _ _ ?w) with w. pose proof (keeps_safe_ioctl 2 0 _ _ _ _ _ Hs) as Ht.
  exists (if (rc >? 0) && negb (Z.land index _NTO_SIDE_CHANNEL =? 0) then Z.lor rc _NTO_SIDE_CHANNEL else rc).
  split; [destruct u'; cbn in *; by subst|]. rewrite Z.gtb_ltb, (proj2 (Z.ltb_lt 0 rc)) by lia. cbn [andb].
  unfold INT_MAX. destruct (Z.eqb_spec (Z.land index _NTO_SIDE_CHANNEL) 0) as [H0|H0]; cbn [negb].
  - split_and!; [lia..|]. done.
  - rewrite side_channel_on by lia. split_and!; [lia..|]. intros call ms self Hcall.
    destruct Hcall; cbn [request]; rewrite <- side_channel_on by lia; by rewrite Hoff, Hid.
Qed.

(** C25: every call returns when the system calls that it makes return: the loops of
    safe_ioctl and of the closing of a descriptor come to their end, whatever the
    system calls answer. *)
Theorem calls_return {W : Type} `{!System W} `{!SystemLaws W} (a : api_call) (u : ustate W) :
  system_returns (W := W) -> is_Some (perform a u).
Proof.
  intros H. destruct (uses_device a) eqn:Ha; [|by apply not_device_returns].
  destruct (Z.lt_ge_cases (u_fd u) 0) as [Hfd|Hfd]; [rewrite perform_closed by done; by eexists|].
  destruct (request a (get_timeout_ms (u_timer u)) (sys_getpid (u_world u))) as [[cmd data]|] eqn:Hr.
  - rewrite (perform_request a u cmd data) by done. destruct (returns_safe_ioctl 2 0 cmd data ltac:(done) u) as [[[rc d] u'] Hs].
    unfold safe_ioctl. rewrite Hs. by eexists.
  - rewrite (request_None a _ _ u Hr) by done. by eexists.
Qed.

(** Without the device (the module is not loaded, or the device could not be
    opened) a call that needs it fails with ESRCH.  It makes no system call and
    leaves the timeout for the next call as it is. *)
Theorem calls_need_device {W : Type} `{!System W} (a : api_call) (u : ustate W) :
  u_fd u < 0 -> uses_device a = true -> perform a u = Some (-1, UState (u_fd u) (u_timer u) ESRCH (u_world u)).
Proof. intros Hfd Ha. by apply perform_closed. Qed.
