(* ===== verification/UserDriver.v ===== *)
(** * The library on top of the driver

    [device] is a process as the library sees it, with the driver behind its
    descriptors: an instance of the class [System] of Userspace in which open,
    close and ioctl are the file operations of Driver.  The rest of the instance is
    what Linux does between the two (a descriptor table, one [struct file] per
    open, release when its last descriptor goes, -errno as the result of a failed
    call).  After a fork, parent and child share their files. *)

From S2P Require Import Prelude Layout UserMem ConnectionTable Kernel Msgsend Channel ProcessEntry DriverData Driver Userspace.
From Stdlib Require Import ZArith Lia.
From stdpp Require Import base tactics list option gmap fin_maps sets.

Open Scope Z_scope.

(** ** A process and the driver *)

Record device (M : Type) := Device {
  dv_kernel : kstate M;
  dv_cur : task_struct;        (* the thread that calls *)
  dv_fds : gmap Z ptr;         (* its descriptors of the device *)
  dv_shared : gset ptr;        (* the files that another process has open too *)
  dv_new_fds : list Z;         (* the descriptors that open will give out *)
  dv_frame : Z;                (* where the local variable of the ioctl is *)
  dv_clock : Z * Z;
  dv_wait : Z;                 (* what the next wait of a receiver returns *)
  dv_signals : list bool       (* signal_pending in the rounds of a busy loop *)
}.
Arguments Device {M}. Arguments dv_kernel {M}. Arguments dv_cur {M}. Arguments dv_fds {M}. Arguments dv_shared {M}.
Arguments dv_new_fds {M}. Arguments dv_frame {M}. Arguments dv_clock {M}. Arguments dv_wait {M}. Arguments dv_signals {M}.

Section Device.
  Context {M : Type} `{!UserMem M}.
  Implicit Types (w : device M) (s : kstate M).

Definition with_kernel s w : device M :=
  Device s (dv_cur w) (dv_fds w) (dv_shared w) (dv_new_fds w) (dv_frame w) (dv_clock w) (dv_wait w) (dv_signals w).
Definition with_fds (fds : gmap Z ptr) w : device M :=
  Device (dv_kernel w) (dv_cur w) fds (dv_shared w) (dv_new_fds w) (dv_frame w) (dv_clock w) (dv_wait w) (dv_signals w).
Definition with_new_fds (l : list Z) w : device M :=
  Device (dv_kernel w) (dv_cur w) (dv_fds w) (dv_shared w) l (dv_frame w) (dv_clock w) (dv_wait w) (dv_signals w).

(** the child that a process forks: another process with the same files *)
Definition forked (child : task_struct) w : device M :=
  Device (dv_kernel w) child (dv_fds w) (dv_shared w ∪ list_to_set (map_to_list (dv_fds w)).*2) (dv_new_fds w)
    (dv_frame w) (dv_clock w) (dv_wait w) (dv_signals w).

(** [OPEN_FMODE] *)
Definition open_mode (flags : Z) : Z := Z.land flags 3 + 1.

(** what the caller gets for the return code of a file operation; an interrupted
    call that is not restarted fails with EINTR *)
Definition syscall_result (rc : Z) : sys_result :=
  if rc =? - ERESTARTSYS then SysErr EINTR
  else if (-4095 <=? rc) && (rc <? 0) then SysErr (- rc) else SysOk rc.

Definition device_open (flags : Z) w : option (sys_result * device M) :=
  match dv_new_fds w with
  | [] => Some (SysErr EMFILE, w)
  | fd :: fds =>
      let f := ks_next (dv_kernel w) in
      match qnxcomm_open f (dv_cur w) (upd_alloc f (OFile (File (open_mode flags) None)) (dv_kernel w)) with
      | Done (rc, s) =>
          if rc =? 0 then Some (SysOk fd, with_new_fds fds (with_fds (<[fd := f]> (dv_fds w)) (with_kernel s w)))
          else Some (syscall_result rc, with_kernel (upd_heap (delete f) s) w)
      | _ => None
      end
  end.

Definition device_close (fd : Z) w : option (sys_result * device M) :=
  match dv_fds w !! fd with
  | None => Some (SysErr EBADF, w)
  | Some f =>
      let w' := with_fds (delete fd (dv_fds w)) w in
      if decide (f ∈ dv_shared w) then Some (SysOk 0, w')
      else match qnxcomm_close f (dv_kernel w) with
           | Done (_, s) => Some (SysOk 0, with_kernel (upd_heap (delete f) s) w')
           | _ => None
           end
  end.

Definition device_write (addr : Z) (bytes : list Z) w : device M :=
  let s := dv_kernel w in
  with_kernel (upd_user (fst (copy_to_user (ks_user s) (tsk_tgid (dv_cur w)) addr bytes)) s) w.

(** the third argument of the system call, and the state with the local variable *)
Definition pass_arg (arg : ioctl_arg) w : Z * device M :=
  match arg with
  | ArgInt n => (u64 n, w)
  | ArgPtr bytes => (dv_frame w, device_write (dv_frame w) bytes w)
  end.

(** the local variable after the call *)
Definition arg_after (arg : ioctl_arg) w : ioctl_arg :=
  match arg with
  | ArgInt n => arg
  | ArgPtr bytes =>
      match copy_from_user (ks_user (dv_kernel w)) (tsk_tgid (dv_cur w)) (dv_frame w) (Z.of_nat (length bytes)) with
      | Some bytes' => ArgPtr bytes'
      | None => arg
      end
  end.

Definition device_ioctl (fd cmd : Z) (arg : ioctl_arg) w : option (sys_result * ioctl_arg * device M) :=
  match dv_fds w !! fd with
  | None => Some (SysErr EBADF, arg, w)
  | Some f =>
      let '(n, w1) := pass_arg arg w in
      match qnxcomm_ioctl f (dv_cur w) cmd n (dv_wait w) (dv_signals w) (dv_kernel w1) with
      | Done (IoctlReturned rc, s) => let w2 := with_kernel s w1 in Some (syscall_result rc, arg_after arg w2, w2)
      | _ => None
      end
  end.

#[export] Instance device_system : System (device M) := {
  sys_open := device_open;
  sys_close := device_close;
  sys_ioctl := device_ioctl;
  sys_monotonic := dv_clock;
  sys_getpid w := tsk_tgid (dv_cur w);
  mem_write := device_write
}.

#[export] Instance device_system_laws : SystemLaws (device M).
Proof.
  split; cbn; unfold device_close; intros fd w; destruct (dv_fds w !! fd) as [f|]; try done;
    destruct (decide _); try done; try (by intros ?? [= <- _]); destruct (qnxcomm_close f _) as [[? ?]| |]; try done;
    by intros ?? [= <- _].
Qed.

End Device.

(** ** Two threads of a forked process *)

(** Both find the device refused (the second one with the ioctl [cmd]).  The first
    reconnects and creates a channel, then the second reconnects too, and then the
    first destroys its channel: the answer of the refused ioctl, the id of the
    channel, the result of ChannelDestroy and the first thread's [errno]. *)
Definition reconnect_twice {M} `{!UserMem M} (cmd : Z) (arg : ioctl_arg) (u : ustate (device M))
    : option (sys_result * Z * Z * Z) :=
  let? (r, arg', w) := sys_ioctl (u_fd u) cmd arg (u_world u) in
  let? (id, u1) := perform (ApiChannelCreate 0) (UState (u_fd u) (u_timer u) (u_errno u) w) in
  let? (_, u2) := (let* _ := reconnect in safe_ioctl_loop 1 (-1) cmd arg') (UState (u_fd u1) no_timeout ENOSPC (u_world u1)) in
  let? (rc, u3) := perform (ApiChannelDestroy id) (UState (u_fd u2) (u_timer u1) (u_errno u1) (u_world u2)) in
  Some (r, id, rc, u_errno u3).

(** ** Specification *)

Section DeviceSpec.
  Context {M : Type} `{!UserMem M} `{!UserMemLaws M}.
  Implicit Types (w : device M) (s : kstate M).

(** the argument of an ioctl that the process can pass *)
Definition arg_fits (arg : ioctl_arg) w : Prop :=
  match arg with
  | ArgInt n => u64 n ≠ 0
  | ArgPtr bytes => dv_frame w ≠ 0 /\ Forall is_byte bytes /\
      exists user, copy_to_user (ks_user (dv_kernel w)) (tsk_tgid (dv_cur w)) (dv_frame w) bytes = (user, true)
  end.

(** [s'] is [s] with a new process on the list: it has no channel and no
    connection, and all objects of the others are as before *)
Definition joined s s' (pid : Z) (p : ptr) : Prop :=
  ks_entries s' = p :: ks_entries s /\ find_process s' pid = Some p /\
  (exists table, table_ok table /\ ks_heap s' !! p = Some (OProc (ProcessEntry 1 pid [] table [] []))) /\
  (forall other, other ≠ pid -> find_process s' other = find_process s other) /\
  forall q o, ks_heap s !! q = Some o -> ks_heap s' !! q = Some o.

Lemma pass_arg_spec arg w n w1 :
  arg_fits arg w -> pass_arg arg w = (n, w1) ->
  n ≠ 0 /\ exists user, w1 = with_kernel (upd_user user (dv_kernel w)) w /\
    (forall s, ks_user s = user -> arg_after arg (with_kernel s w1) = arg).
Proof.
  intros Hfit Hp. destruct arg as [k|bytes]; cbn in Hfit, Hp; injection Hp as <- <-.
  - split; [done|]. exists (ks_user (dv_kernel w)). split; [|done].
    unfold with_kernel, upd_user. by destruct w as [[] ? ? ? ? ? ? ? ?].
  - destruct Hfit as (Hn & Hb & user & Hu). split; [done|]. exists user. unfold device_write. rewrite Hu. split; [done|].
    intros s Hs. cbn. rewrite Hs. by rewrite (copy_to_from_user _ _ _ _ _ Hu Hb).
Qed.

(** the driver refuses the calls of another process *)
Lemma ioctl_refused f cur cmd n wait signals s fl q e :
  n ≠ 0 -> ks_heap s !! f = Some (OFile fl) -> private_data fl = Some q -> ks_heap s !! q = Some (OProc e) ->
  pe_pid e ≠ tsk_tgid cur -> qnxcomm_ioctl f cur cmd n wait signals s = Done (IoctlReturned (- ENOSPC), s).
Proof.
  intros Hn Hf Hq He Hne. unfold qnxcomm_ioctl. rewrite (proj2 (Z.eqb_neq n 0) Hn). unfold kbind, get_file, get_proc, kret.
  rewrite Hf, Hq, He. unfold current_get_pid_nr. by rewrite (proj2 (Z.eqb_neq _ _) (not_eq_sym Hne)).
Qed.

Lemma device_refused w fd cmd arg f fl q e :
  let s := dv_kernel w in
  dv_fds w !! fd = Some f -> ks_heap s !! f = Some (OFile fl) -> private_data fl = Some q -> ks_heap s !! q = Some (OProc e) ->
  pe_pid e ≠ tsk_tgid (dv_cur w) -> arg_fits arg w ->
  exists user, device_ioctl fd cmd arg w = Some (SysErr ENOSPC, arg, with_kernel (upd_user user s) w).
Proof.
  intros s Hfd Hf Hq He Hne Hfit. unfold device_ioctl. rewrite Hfd. destruct (pass_arg arg w) as [n w1] eqn:Hp.
  destruct (pass_arg_spec _ _ _ _ Hfit Hp) as (Hn & user & -> & Hafter). exists user.
  rewrite (ioctl_refused _ _ _ _ _ _ _ fl q e) by done. cbn. f_equal. f_equal. by rewrite Hafter.
Qed.

(** open by a process that is not on the list *)
Lemma device_open_joins w fd fds oom' :
  let s := dv_kernel w in
  entries_ok s -> fresh_above s -> find_process s (tsk_tgid (dv_cur w)) = None -> kmalloc_answer (ks_oom s) = (true, oom') ->
  dv_new_fds w = fd :: fds ->
  exists w' f p, device_open (Z.lor O_RDWR O_CLOEXEC) w = Some (SysOk fd, w') /\
    dv_fds w' = <[fd := f]> (dv_fds w) /\ dv_cur w' = dv_cur w /\ joined s (dv_kernel w') (tsk_tgid (dv_cur w)) p /\
    ks_heap s !! f = None /\ ks_heap (dv_kernel w') !! f = Some (OFile (File 3 (Some p))).
Proof.
  intros s Hok Hfr Hnone Hk Hfds. unfold device_open. rewrite Hfds. fold s.
  set (f := ks_next s). set (s1 := upd_alloc f _ s). change (open_mode _) with 3 in s1.
  assert (Hf : ks_heap s !! f = None) by (by apply fresh_next).
  assert (Hsub : ks_heap s ⊆ ks_heap s1) by (by apply insert_subseteq).
  assert (Hfr1 : fresh_above s1).
  { intros q Hq. unfold s1 in *. ks_simpl. rewrite lookup_insert_ne by (unfold f in *; lia). apply Hfr. unfold f in *. lia. }
  assert (Hok1 : entries_ok s1) by (by apply (entries_ok_mono s)).
  assert (Hpid : forall pid, find_process s1 pid = find_process s pid) by (intros pid; by apply find_process_mono).
  pose proof (open_spec s1 f (File 3 None) (dv_cur w) oom' Hok1 Hfr1) as Hopen. cbv zeta in Hopen.
  apply wp_run in Hopen as (rc & s2 & -> & -> & _ & Hes & Hfind & Hother & table & Htab & Hh);
    [|unfold s1; ks_simpl; by rewrite lookup_insert_eq|done|done|by rewrite Hpid].
  cbn. eexists _, f, (ks_next s1). split_and!; [done|done|done| |done|].
  - split_and!; [cbn; by rewrite Hes|done| | |].
    + exists table. split; [done|]. cbn. rewrite Hh, lookup_insert_ne, lookup_insert_eq by (unfold s1; cbn; lia). done.
    + intros pid Hne. cbn. by rewrite Hother, Hpid.
    + intros q o Hq. cbn. pose proof (fresh_lt _ _ _ Hfr Hq). rewrite Hh, !lookup_insert_ne by (unfold s1, f in *; cbn; lia).
      unfold s1. ks_simpl. rewrite lookup_insert_ne by (unfold f; lia). done.
  - cbn. by rewrite Hh, lookup_insert_eq.
Qed.

(** the state of the device when the thread's own process has it open at [q] *)
Record own_device w (fd : Z) (f q : ptr) : Prop := {
  od_fd : dv_fds w !! fd = Some f;
  od_file : exists fl, ks_heap (dv_kernel w) !! f = Some (OFile fl) /\ private_data fl = Some q;
  od_entry : exists e, ks_heap (dv_kernel w) !! q = Some (OProc e) /\ pe_pid e = tsk_tgid (dv_cur w)
}.

(** the ioctl as what the handler [h] does *)
Definition handled w (arg : ioctl_arg) (h : K M Z) (s : kstate M) : option (sys_result * ioctl_arg * device M) :=
  match h s with
  | Done (rc, s') => Some (syscall_result rc, arg_after arg (with_kernel s' w), with_kernel s' w)
  | _ => None
  end.

Lemma i32_u64 n : is_int n -> i32 (u64 n) = n.
Proof.
  intros Hn. unfold i32, u64. rewrite <- Zplus_mod_idemp_l, Z.mod_mod_divide, Zplus_mod_idemp_l by (by exists (2 ^ 32)).
  unfold_int. rewrite Z.mod_small; lia.
Qed.

Lemma bind_same {A B} (c c' : K M A) (k : A -> K M B) s : c s = c' s -> kbind c k s = kbind c' k s.
Proof. intros H. unfold kbind. by rewrite H. Qed.

(** the driver reads the structure that the library wrote *)
Lemma read_back {A} (c : codec A) `{!CodecLaws c} (io : A) (h : A -> K M Z) w n w1 :
  c_ok c io -> arg_fits (struct_arg c io) w -> pass_arg (struct_arg c io) w = (n, w1) ->
  (let! io := user_read_struct c (tsk_tgid (dv_cur w)) n in
   match io with Some io => h io | None => kret (- EFAULT) end) (dv_kernel w1) = h io (dv_kernel w1).
Proof.
  intros Hok (Hn & Hb & user & Hu) [= <- <-]. unfold user_read_struct, user_read, kget, kbind, kret, device_write.
  rewrite Hu. cbn. pose proof (copy_to_from_user _ _ _ _ _ Hu Hb) as Hr. rewrite enc_length in Hr. rewrite Hr. cbn.
  rewrite <- (app_nil_r (c_enc c io)). by rewrite dec_enc.
Qed.

(** the process of the descriptor passes the checks of qnxcomm_ioctl *)
Lemma own_checks {A} w fd f q s (k : file -> K M A) (k' : qnx_process_entry -> K M A) :
  own_device w fd f q -> ks_heap s = ks_heap (dv_kernel w) ->
  (forall fl, private_data fl = Some q -> k fl = kbind (get_proc q) k') ->
  exists e, pe_pid e = tsk_tgid (dv_cur w) /\ kbind (get_file f) k s = k' e s.
Proof.
  intros [_ (fl & Hf & Hp) (e & He & Hpid)] Hh Hk. exists e. split; [done|]. unfold kbind at 1, get_file.
  rewrite Hh, Hf, (Hk fl Hp). unfold kbind, get_proc. by rewrite Hh, He.
Qed.

Lemma own_handled w fd f q cmd arg (h : K M Z) :
  own_device w fd f q -> arg_fits arg w ->
  (forall n w1, pass_arg arg w = (n, w1) -> n ≠ 0 -> ks_heap (dv_kernel w1) = ks_heap (dv_kernel w) ->
    qnxcomm_ioctl f (dv_cur w) cmd n (dv_wait w) (dv_signals w) (dv_kernel w1) =
      (let! rc := h in kret (IoctlReturned rc)) (dv_kernel w1)) ->
  exists user, device_ioctl fd cmd arg w = handled w arg h (upd_user user (dv_kernel w)).
Proof.
  intros Hown Hfit Hh. unfold device_ioctl. rewrite (od_fd _ _ _ _ Hown). destruct (pass_arg arg w) as [n w1] eqn:Hp.
  destruct (pass_arg_spec _ _ _ _ Hfit Hp) as (Hn & user & -> & _). exists user. rewrite (Hh n _ eq_refl Hn eq_refl).
  unfold handled, kbind, kret. cbn [dv_kernel with_kernel]. by destruct (h _) as [[rc s']| |].
Qed.

End DeviceSpec.

(** ** Properties *)

(** runs qnxcomm_ioctl up to the handler of its command *)
Ltac own_dispatch Hown :=
  let n := fresh "n" in let w1 := fresh "w1" in let Hp := fresh "Hp" in let Hn := fresh "Hn" in let Hh := fresh "Hh" in
  let e := fresh "e" in let Hpid := fresh "Hpid" in
  intros n w1 Hp Hn Hh; unfold qnxcomm_ioctl; rewrite (proj2 (Z.eqb_neq n 0) Hn);
  match goal with |- kbind (get_file ?f) ?k ?s = _ =>
    destruct (own_checks _ _ _ _ s k _ Hown Hh ltac:(let Hq := fresh in intros ? Hq; cbn beta; rewrite Hq; reflexivity)) as (e & Hpid & ->) end;
  unfold current_get_pid_nr; rewrite Hpid, Z.eqb_refl; cbn [negb].



(** the sender of a message that MsgError is about to finish, awake *)
Record error_sender {M} (s : kstate M) (chnl p : ptr) (b : msg_body) : Prop := {
  es_chan : exists c, ks_heap s !! chnl = Some (OChan c) /\ 1 < ch_refcnt c;
  es_msg : exists m t, ks_heap s !! p = Some (OMsg m) /\ data m = DMsg b /\ task m = Some t;
  es_in : exists buf o, mb_in_base b = InKernel buf /\ ks_heap s !! buf = Some o /\ buf ≠ p /\ buf ≠ chnl;
  es_out : exists a, mb_out_base b = OutUser a;
  es_len : 0 <= mb_out_len b
}.

(** C27: a server that answers a message with MsgError and the error ENOSPC cuts its
    client off.  The client's ioctl fails with that error, which the library takes
    for the answer of the driver after a fork: it closes its device and sends the
    message again on a new one, with the ids of the old one. *)
Theorem msgerror_enospc_reconnects {M W : Type} `{!UserMem M} `{!UserMemLaws M} `{!System W} (s : kstate M) (io : qnx_io_error_reply)
    (chnl p : ptr) (b : msg_body) (cur : task_struct) (sleep : sleep_result) :
  Z.abs (er_error io) = ENOSPC -> error_sender s chnl p b -> interruption b sleep = None ->
  wp (handle_msgerror_complete io p ;;; handle_msgsend_finish chnl p cur sleep)
     (fun rc _ => syscall_result rc = SysErr ENOSPC) s /\
  forall cmd arg arg' (u : ustate W) w', sys_ioctl (u_fd u) cmd arg (u_world u) = Some (SysErr ENOSPC, arg', w') ->
    safe_ioctl cmd arg u = (let* _ := reconnect in safe_ioctl_loop 1 (-1) cmd arg') (UState (u_fd u) (u_timer u) ENOSPC w').
Proof.
  intros Herr [(c & Hc & Hr) (m & t & Hp & Hd & Ht) (buf & o & Hin & Hbuf & Hbp & Hbc) (a & Hout) Hlen] Hint. split.
  - kstep. eapply wp_mono; [by eapply error_complete_spec|]. cbn beta.
    intros rc s1 (-> & (m' & Hm' & _ & Hst & _ & Hd' & Ht' & Hrb & _ & Hrl) & _ & _ & Hrest).
    destruct (decide (p = chnl)) as [->|Hpc]; [congruence|].
    eapply wp_mono; [eapply (msgsend_finish_spec s1 chnl p cur sleep c m' b buf o a t); try done|].
    + by rewrite Hrest.
    + by rewrite Hd'.
    + congruence.
    + by rewrite Hrest.
    + unfold reply_ok. by rewrite Hrb.
    + intros r Hr'. by rewrite Hrb in Hr'.
    + cbn beta. intros rc s2 (Hrc & _). unfold send_result in Hrc. rewrite Hout, Hst, Herr in Hrc. by injection Hrc as -> _.
  - intros cmd arg arg' u w' Hio. unfold safe_ioctl. cbn [safe_ioctl_loop]. unfold ubind, uget, uret, c_ioctl. by rewrite Hio.
Qed.

(** A timeout of less than a millisecond, such as an absolute time that has just
    passed, is no timeout at all for MsgSend: the library passes 0 milliseconds,
    and for the driver a send without a positive timeout only ends with a reply or
    a signal, however long it takes. *)
Theorem short_timeout_ignored {W : Type} `{!System W} (flags t o coid smsg sbytes rmsg rbytes : Z) (u : ustate W) :
  let now := sys_monotonic (u_world u) in
  0 <= now.1 -> 0 <= now.2 -> nanoseconds now < 2 ^ 64 -> 0 <= t < 2 ^ 64 -> time_left flags t (nanoseconds now) < 10 ^ 6 ->
  is_int coid -> 0 <= smsg < 2 ^ 64 -> 0 <= rmsg < 2 ^ 64 ->
  exists u1 bytes io,
    TimerTimeout CLOCK_MONOTONIC flags (Some t) o u = Some (0, u1) /\
    request (ApiMsgSend coid smsg sbytes rmsg rbytes) (get_timeout_ms (u_timer u1)) (sys_getpid (u_world u)) =
      Some (QNX_IO_MSGSEND, ArgPtr bytes) /\
    c_dec c_io_msgsend bytes = io /\ ms_timeout_ms io = 0 /\
    forall left, interruption (body_from_user io) (Sleep left false) = None.
Proof.
  intros now Hs Hn Hb Ht Hleft Hco Hsm Hrm. rewrite timer_timeout_run by done. fold now.
  assert (Hms : get_timeout_ms (TimeoutVal (time_left flags t (nanoseconds now)) o) = 0).
  { unfold get_timeout_ms. cbn [ntime]. rewrite Z.div_small; [done|].
    split; [|done]. unfold time_left. destruct (_ =? _); lia. }
  eexists _, _, (IoMsgsend (not_side_channel coid) 0 (Iovec smsg (u64 sbytes)) (Iovec rmsg (u64 rbytes))).
  split_and!; [done|cbn [request u_timer]; by rewrite Hms| |done|done].
  rewrite <- (app_nil_r (c_enc _ _)). apply dec_enc. pose proof (not_side_channel_int coid Hco).
  assert (Hsize : forall n, 0 <= u64 n < 2 ^ 64) by (intros n; apply Z.mod_pos_bound; lia).
  cbn. change (8 * Z.of_nat 8) with 64. repeat split; first [done|lia|apply Hsize|apply H].
Qed.
