(* ===== verification/UserExamples.v ===== *)
(** * Examples of the library on the driver

    A process with the device open and a channel, and the child that it forks;
    the properties of Userspace and UserDriver at these states. *)

From S2P Require Import Prelude Layout UserMem ConnectionTable Kernel Msgsend Channel ProcessEntry DriverData Driver Examples Userspace UserDriver.
From Stdlib Require Import ZArith Lia.
From stdpp Require Import base tactics list option gmap fin_maps sets.

Open Scope Z_scope.

(** the process 10 has the device open as descriptor 5, the file 10 *)
Definition parent : device flatmem :=
  Device (upd_heap <[10%positive := OFile (File 3 (Some 3%positive))]> (demo chan_empty)) thread_a {[5 := 10%positive]} ∅
    [6; 7; 8] 1000 (1000, 500) 0 [].

Definition parent_lib : ustate (device flatmem) := UState 5 no_timeout 0 parent.
Definition child_lib : ustate (device flatmem) := UState 5 no_timeout 0 (forked thread_b parent).

Lemma parent_ok : entries_ok (dv_kernel parent) /\ fresh_above (dv_kernel parent).
Proof.
  split.
  - eapply (entries_ok_keeps (demo chan_empty)); [|done|by apply demo_entries_ok].
    split; cbn; intros p o Hp; [|intros Hr; exists o|exists o|];
      (destruct (decide (p = 10%positive)) as [->|]; [done|]); try (split; [|done]); by rewrite lookup_insert_ne.
  - intros q Hq. cbn in Hq. unfold parent. ks_simpl. cbn. rewrite lookup_insert_ne by lia. by apply (demo_fresh chan_empty mem0).
Qed.

Lemma parent_own : own_device parent 5 10 3.
Proof. split; [done|by exists (File 3 (Some 3%positive))|by exists entry_a]. Qed.

(** ChannelCreate in the parent and in the child *)
Example parent_creates : fst <$> perform (ApiChannelCreate 0) parent_lib = Some 2.
Proof. vm_compute. reflexivity. Qed.

Example child_creates :
  (fun '(id, u) => (id, u_fd u, ks_entries (dv_kernel (u_world u)))) <$> perform (ApiChannelCreate 0) child_lib =
    Some (2, 6, [101%positive; 3%positive]).
Proof. vm_compute. reflexivity. Qed.

Example race : reconnect_twice QNX_IO_CONNECTATTACH (struct_arg c_io_attach (IoAttach 10 1 0)) child_lib = Some (SysErr ENOSPC, 2, -1, EINVAL).
Proof. vm_compute. reflexivity. Qed.

(** ** Instances of the properties *)

(** MsgReceive until 2.5 ms from now *)
Lemma timeout_for_next_call_witness :
  let t := 1000 * 10 ^ 9 + 500 + 2500000 in
  exists u1 ms cmd data,
    TimerTimeout CLOCK_MONOTONIC 1 (Some t) 0 parent_lib = Some (0, u1) /\ in_ms 2500000 ms /\
    request (ApiMsgReceive 1 1100 10 0) ms 10 = Some (cmd, data).
Proof.
  intros t. destruct (timeout_for_next_call (ApiMsgReceive 1 1100 10 0) 1 t 0 parent_lib) as (u1 & ms & cmd & data & H1 & H2 & H3 & _);
    try (cbn; unfold nanoseconds, t; cbn; lia); try done. by exists u1, ms, cmd, data.
Defined.

(** a connection of the parent to its own channel, with the flag *)
Lemma side_channel_roundtrip_witness :
  exists id u', perform (ApiConnectAttach 0 0 1 _NTO_SIDE_CHANNEL 0) parent_lib = Some (id, u') /\ 2 ^ 30 <= id <= INT_MAX.
Proof.
  assert (Hrc : (fun '(rc, _, _) => rc) <$> safe_ioctl QNX_IO_CONNECTATTACH (struct_arg c_io_attach (IoAttach 10 1 0)) parent_lib = Some 2)
    by (vm_compute; reflexivity).
  destruct (safe_ioctl QNX_IO_CONNECTATTACH (struct_arg c_io_attach (IoAttach 10 1 0)) parent_lib) as [[[rc d] u']|] eqn:H; [|discriminate Hrc].
  injection Hrc as ->. destruct (side_channel_roundtrip 0 1 _NTO_SIDE_CHANNEL 0 2 d parent_lib u') as (id & H1 & H2 & H3 & _);
    [cbn; lia|lia|exact H|]. exists id, u'. split; [exact H1|]. split; [by apply H3|lia].
Defined.

(** a system whose calls return at once *)
Definition quiet_system : System unit := {|
  sys_open _ w := Some (SysErr ENOMEM, w);
  sys_close _ w := Some (SysErr EBADF, w);
  sys_ioctl _ _ d w := Some (SysErr ENOSPC, d, w);
  sys_monotonic _ := (0, 0);
  sys_getpid _ := 1;
  mem_write _ _ w := w
|}.

Lemma quiet_laws : SystemLaws unit (System0 := quiet_system).
Proof. by split. Qed.

Lemma calls_return_witness : is_Some (perform (System0 := quiet_system) (ApiMsgSend 1 0 0 0 0) (UState 3 no_timeout 0 tt)).
Proof. apply (calls_return (System0 := quiet_system) (SystemLaws0 := quiet_laws)). split_and!; intros; by eexists. Defined.

Lemma parent_fits bytes :
  (copy_to_user mem0 10 1000 bytes).2 = true -> Forall is_byte bytes -> arg_fits (ArgPtr bytes) parent.
Proof.
  intros Hok Hb. split_and!; [done|done|]. exists (copy_to_user mem0 10 1000 bytes).1. rewrite <- Hok. apply surjective_pairing.
Qed.



(** a server that answers [MsgError(4, 28)] to the thread b *)
Lemma msgerror_enospc_reconnects_witness :
  wp (handle_msgerror_complete (IoErrorReply 4 28) 4 ;;; handle_msgsend_finish 1 4 thread_b (Sleep 0 false))
     (fun rc _ => syscall_result rc = SysErr ENOSPC) (demo chan_busy).
Proof.
  apply (msgerror_enospc_reconnects (W := device flatmem) (demo chan_busy) (IoErrorReply 4 28) 1 4
           (MsgBody 1 0 (InKernel 8) 3 (OutUser 1110) 8) thread_b (Sleep 0 false)); [done| |done].
  split.
  - by exists chan_busy.
  - by exists msg_pending, thread_b.
  - by exists 8%positive, (OBuf [68; 69; 70]).
  - by exists 1110.
  - cbn. lia.
Defined.

(** half a millisecond *)
Lemma short_timeout_ignored_witness :
  exists u1 io, TimerTimeout CLOCK_MONOTONIC 0 (Some 500000) 0 parent_lib = Some (0, u1) /\ ms_timeout_ms io = 0 /\
    interruption (body_from_user io) (Sleep 0 false) = None.
Proof.
  destruct (short_timeout_ignored 0 500000 0 1 1100 3 1110 8 parent_lib) as (u1 & bytes & io & H1 & _ & _ & H2 & H3);
    try (cbn; unfold nanoseconds; cbn; lia); [done|by split|]. by exists u1, io.
Defined.
